(** * The bcftools filtering-expression engine (filter.c)

    A shallow embedding of [filter.c]: the lexer [filters_next_token], the
    binder [filters_init1], the shunting-yard compiler [filter_init], the
    setters, the vector kernels ([VECTOR_ARITHMETICS], [CMP_VECTORS],
    [vector_logic_and], [vector_logic_or], [cmp_vector_strings]) and the
    postfix evaluator [filter_test].

    Conventions.
    - C [int] fields are [Z]; loop counters range over [nat].
    - A C array is a [list]; reading or writing a cell past its end is
      undefined in C and is the outcome [Undef] here.
    - [error()] and [exit()] terminate the process: the outcome [Fatal].
    - A [float] is an IEEE binary32 value ([spec_float] at 24 bits of
      precision), with the two htslib sentinel bit patterns kept apart. *)

From Stdlib Require Import ZArith String Ascii List Lia Bool SpecFloat.
From stdpp Require Import base list.

Open Scope Z_scope.

(** ** Outcomes of a C computation *)

Inductive outcome (A : Type) : Type :=
| Ok (a : A)
| Fatal (msg : string)
| Undef (what : string).
Arguments Ok {A} a.
Arguments Fatal {A} msg.
Arguments Undef {A} what.

Definition bind {A B} (m : outcome A) (k : A -> outcome B) : outcome B :=
  match m with
  | Ok a => k a
  | Fatal msg => Fatal msg
  | Undef what => Undef what
  end.

Notation "'let*' x ':=' m 'in' k" := (bind m (fun x => k))
  (at level 10, x pattern, m at level 100, k at level 200).

(** Modelled from the spec: [error()] is declared in bcftools.h and is not
    part of filter.c; the specification calls every use of it fatal (it
    prints the diagnostic and ends the process). *)
Definition error {A} (msg : string) : outcome A := Fatal msg.

Definition is_ok {A} (m : outcome A) : bool :=
  match m with Ok _ => true | _ => false end.

Definition is_fatal {A} (m : outcome A) : bool :=
  match m with Fatal _ => true | _ => false end.

Definition is_undef {A} (m : outcome A) : bool :=
  match m with Undef _ => true | _ => false end.

(** [for (i=0; i<n; i++) body]: the loop state is threaded through. *)
Fixpoint for_from {St} (i n : nat) (body : nat -> St -> outcome St) (s : St) : outcome St :=
  match n with
  | O => Ok s
  | S n' => let* s' := body i s in for_from (S i) n' body s'
  end.

Definition for_loop {St} (n : Z) (body : nat -> St -> outcome St) (s : St) : outcome St :=
  for_from 0 (Z.to_nat n) body s.

(** Array cells. *)
Definition rd {A} (l : list A) (i : nat) : outcome A :=
  match l !! i with
  | Some x => Ok x
  | None => Undef "read past the end of an array"
  end.

Definition wr {A} (l : list A) (i : nat) (x : A) : outcome (list A) :=
  if decide (i < length l)%nat then Ok (<[i:=x]> l)
  else Undef "write past the end of an array".

(** ** Floats *)

Definition prec : Z := 24.
Definition emax : Z := 128.

(** A [float] cell.  htslib marks a missing value by the NaN bit pattern
    0x7F800001 and the end of a short vector by 0x7F800002; both are
    recognised by their bits, not by their value.  Every other float,
    including every other NaN, is an [Fval]. *)
Inductive float32 : Type :=
| bcf_float_missing
| bcf_float_vector_end
| Fval (x : spec_float).

Definition bcf_float_is_missing (f : float32) : bool :=
  match f with bcf_float_missing => true | _ => false end.

Definition bcf_float_is_vector_end (f : float32) : bool :=
  match f with bcf_float_vector_end => true | _ => false end.

(** The numeric reading of a cell: both sentinels are NaNs. *)
Definition to_sf (f : float32) : spec_float :=
  match f with Fval x => x | _ => S754_nan end.

(** Conversion of a C [int] to [float] (round to nearest even). *)
Definition float_of_int (z : Z) : spec_float := binary_normalize prec emax z 0 false.

(** [-HUGE_VAL] and [HUGE_VAL] converted to [float]. *)
Definition neg_HUGE_VAL : spec_float := S754_infinity true.
Definition HUGE_VAL : spec_float := S754_infinity false.

Definition f_add := SFadd prec emax.
Definition f_sub := SFsub prec emax.
Definition f_mul := SFmul prec emax.
Definition f_div := SFdiv prec emax.

Definition f_lt (x y : spec_float) : bool := SFltb x y.
Definition f_le (x y : spec_float) : bool := SFleb x y.
Definition f_gt (x y : spec_float) : bool := SFltb y x.
Definition f_ge (x y : spec_float) : bool := SFleb y x.
Definition f_eq (x y : spec_float) : bool := SFeqb x y.
Definition f_ne (x y : spec_float) : bool := negb (SFeqb x y).

(** ** <ctype.h> in the C locale *)

Definition isspace (c : ascii) : bool :=
  let n := nat_of_ascii c in
  (n =? 32)%nat || ((9 <=? n)%nat && (n <=? 13)%nat).

Definition isdigit (c : ascii) : bool :=
  let n := nat_of_ascii c in (48 <=? n)%nat && (n <=? 57)%nat.

Definition isalpha (c : ascii) : bool :=
  let n := nat_of_ascii c in
  ((65 <=? n)%nat && (n <=? 90)%nat) || ((97 <=? n)%nat && (n <=? 122)%nat).

Definition isalnum (c : ascii) : bool := isalpha c || isdigit c.

Definition tolower (c : ascii) : ascii :=
  let n := nat_of_ascii c in
  if ((65 <=? n)%nat && (n <=? 90)%nat) then ascii_of_nat (n + 32) else c.

(** ** <string.h> on Rocq strings (the end of the string is the NUL) *)

(** The sign of [strncmp(s1,s2,n)]. *)
Fixpoint strncmp (s1 s2 : string) (n : nat) : Z :=
  match n with
  | O => 0
  | S n' =>
      match s1, s2 with
      | EmptyString, EmptyString => 0
      | EmptyString, String _ _ => -1
      | String _ _, EmptyString => 1
      | String c1 r1, String c2 r2 =>
          if (nat_of_ascii c1 <? nat_of_ascii c2)%nat then -1
          else if (nat_of_ascii c2 <? nat_of_ascii c1)%nat then 1
          else strncmp r1 r2 n'
      end
  end.

Definition strcmp (s1 s2 : string) : Z :=
  strncmp s1 s2 (S (Nat.max (String.length s1) (String.length s2))).

Fixpoint string_map (f : ascii -> ascii) (s : string) : string :=
  match s with
  | EmptyString => EmptyString
  | String c r => String (f c) (string_map f r)
  end.

Definition strcasecmp (s1 s2 : string) : Z :=
  strcmp (string_map tolower s1) (string_map tolower s2).

Fixpoint str_drop (n : nat) (s : string) : string :=
  match n, s with
  | O, _ => s
  | S n', String _ r => str_drop n' r
  | S _, EmptyString => EmptyString
  end.

Fixpoint str_take (n : nat) (s : string) : string :=
  match n, s with
  | S n', String c r => String c (str_take n' r)
  | _, _ => EmptyString
  end.

(** [s[i]], with the terminating NUL at [i = strlen(s)]. *)
Definition str_at (s : string) (i : nat) : ascii :=
  match String.get i s with Some c => c | None => zero end.

(** ** htslib constants used by filter.c *)

Definition BCF_HT_FLAG : Z := 0.
Definition BCF_HT_INT  : Z := 1.
Definition BCF_HT_REAL : Z := 2.
Definition BCF_HT_STR  : Z := 3.

Definition BCF_BT_INT8  : Z := 1.
Definition BCF_BT_INT16 : Z := 2.
Definition BCF_BT_INT32 : Z := 3.
Definition BCF_BT_FLOAT : Z := 5.
Definition BCF_BT_CHAR  : Z := 7.

Definition BCF_UN_STR  : Z := 1.
Definition BCF_UN_FLT  : Z := 2.
Definition BCF_UN_INFO : Z := 4.
Definition BCF_UN_FMT  : Z := 8.

Definition VCF_REF   : Z := 0.
Definition VCF_SNP   : Z := 1.
Definition VCF_MNP   : Z := 2.
Definition VCF_INDEL : Z := 4.
Definition VCF_OTHER : Z := 8.

Definition bcf_int8_missing     : Z := -128.
Definition bcf_int8_vector_end  : Z := -127.
Definition bcf_int16_missing    : Z := -32768.
Definition bcf_int16_vector_end : Z := -32767.
Definition bcf_int32_missing    : Z := -2147483648.
Definition bcf_int32_vector_end : Z := -2147483647.

(** ** The header, as filter.c reads it *)

Inductive hdr_line_kind := BCF_HL_FLT | BCF_HL_INFO | BCF_HL_FMT.

(** One declaration of an ID: its value type and its Number. *)
Record bcf_idinfo_t := mk_idinfo { id_type : Z; id_number : Z }.

(** One entry of the ID dictionary: a name and what it is declared as. *)
Record bcf_idpair_t := mk_idpair {
  id_key  : string;
  id_flt  : option bcf_idinfo_t;
  id_info : option bcf_idinfo_t;
  id_fmt  : option bcf_idinfo_t
}.

Record bcf_hdr_t := mk_hdr {
  id_dict : list bcf_idpair_t;   (* the BCF_DT_ID dictionary, by integer id *)
  n_samples : Z
}.

Definition bcf_hdr_nsamples (hdr : bcf_hdr_t) : Z := n_samples hdr.

Fixpoint find_id (name : string) (dict : list bcf_idpair_t) (i : Z) : Z :=
  match dict with
  | [] => -1
  | e :: rest => if String.eqb (id_key e) name then i else find_id name rest (i + 1)
  end.

(** [bcf_hdr_id2int(hdr,BCF_DT_ID,name)]: the id of [name], or -1. *)
Definition bcf_hdr_id2int (hdr : bcf_hdr_t) (name : string) : Z :=
  find_id name (id_dict hdr) 0.

Definition idinfo_of (k : hdr_line_kind) (e : bcf_idpair_t) : option bcf_idinfo_t :=
  match k with
  | BCF_HL_FLT => id_flt e
  | BCF_HL_INFO => id_info e
  | BCF_HL_FMT => id_fmt e
  end.

Definition hdr_idinfo (hdr : bcf_hdr_t) (k : hdr_line_kind) (id : Z) : option bcf_idinfo_t :=
  if id <? 0 then None
  else match id_dict hdr !! Z.to_nat id with
       | Some e => idinfo_of k e
       | None => None
       end.

Definition bcf_hdr_idinfo_exists (hdr : bcf_hdr_t) (k : hdr_line_kind) (id : Z) : bool :=
  match hdr_idinfo hdr k id with Some _ => true | None => false end.

(** Used only after [bcf_hdr_idinfo_exists] has succeeded. *)
Definition bcf_hdr_id2type (hdr : bcf_hdr_t) (k : hdr_line_kind) (id : Z) : Z :=
  match hdr_idinfo hdr k id with Some d => id_type d | None => -1 end.

Definition bcf_hdr_id2number (hdr : bcf_hdr_t) (k : hdr_line_kind) (id : Z) : Z :=
  match hdr_idinfo hdr k id with Some d => id_number d | None => -1 end.

(** ** The record, as filter.c reads it *)

Record bcf_info_t := mk_info {
  info_key  : Z;
  info_type : Z;              (* BCF_BT_* *)
  info_len  : Z;
  v1_i : Z;                   (* v1.i, only when len = 1 *)
  v1_f : float32;             (* v1.f, only when len = 1 *)
  vptr_i : list Z;            (* vptr read as an integer array *)
  vptr_f : list float32;      (* vptr read as a float array *)
  vptr_c : list ascii         (* vptr read as bytes *)
}.

Inductive fmt_values :=
| FmtInt (p : list Z)           (* already widened to int32 *)
| FmtFloat (p : list float32)
| FmtChar (p : list ascii).

Record bcf_fmt_t := mk_fmt { fmt_id : Z; fmt_p : fmt_values }.

Record bcf1_t := mk_bcf1 {
  qual : float32;
  variant_types : Z;          (* what bcf_get_variant_types returns *)
  d_info : list bcf_info_t;
  d_fmt  : list bcf_fmt_t;
  d_flt  : list Z
}.

Definition n_info (line : bcf1_t) : Z := Z.of_nat (length (d_info line)).
Definition d_n_flt (line : bcf1_t) : Z := Z.of_nat (length (d_flt line)).
Definition bcf_get_variant_types (line : bcf1_t) : Z := variant_types line.

Definition find_fmt (line : bcf1_t) (id : Z) : option bcf_fmt_t :=
  List.find (fun f => fmt_id f =? id) (d_fmt line).

(** [bcf_get_format_int32]: -1 when the tag is no FORMAT field of the
    header, -2 when it is not declared Integer, -3 when the record does not
    carry it; otherwise the number of values, which are copied out. *)
Definition bcf_get_format_int32 (hdr : bcf_hdr_t) (line : bcf1_t) (tag : string)
  : Z * list Z :=
  let id := bcf_hdr_id2int hdr tag in
  if negb (bcf_hdr_idinfo_exists hdr BCF_HL_FMT id) then (-1, [])
  else if negb (bcf_hdr_id2type hdr BCF_HL_FMT id =? BCF_HT_INT) then (-2, [])
  else match find_fmt line id with
       | Some (mk_fmt _ (FmtInt p)) => (Z.of_nat (length p), p)
       | Some _ => (-2, [])
       | None => (-3, [])
       end.

Definition bcf_get_format_float (hdr : bcf_hdr_t) (line : bcf1_t) (tag : string)
  : Z * list float32 :=
  let id := bcf_hdr_id2int hdr tag in
  if negb (bcf_hdr_idinfo_exists hdr BCF_HL_FMT id) then (-1, [])
  else if negb (bcf_hdr_id2type hdr BCF_HL_FMT id =? BCF_HT_REAL) then (-2, [])
  else match find_fmt line id with
       | Some (mk_fmt _ (FmtFloat p)) => (Z.of_nat (length p), p)
       | Some _ => (-2, [])
       | None => (-3, [])
       end.

(** [bcf_get_format_char]: the bytes and their count ([ndim] in filter.c);
    nothing is written when the tag is absent. *)
Definition bcf_get_format_char (hdr : bcf_hdr_t) (line : bcf1_t) (tag : string)
  : option (list ascii) :=
  let id := bcf_hdr_id2int hdr tag in
  if negb (bcf_hdr_idinfo_exists hdr BCF_HL_FMT id) then None
  else if negb (bcf_hdr_id2type hdr BCF_HL_FMT id =? BCF_HT_STR) then None
  else match find_fmt line id with
       | Some (mk_fmt _ (FmtChar p)) => Some p
       | _ => None
       end.

(** ** Tokens *)

Definition TOK_VAL     : Z := 0.
Definition TOK_LFT     : Z := 1.
Definition TOK_RGT     : Z := 2.
Definition TOK_LE      : Z := 3.
Definition TOK_LT      : Z := 4.
Definition TOK_EQ      : Z := 5.
Definition TOK_BT      : Z := 6.
Definition TOK_BE      : Z := 7.
Definition TOK_NE      : Z := 8.
Definition TOK_OR      : Z := 9.
Definition TOK_AND     : Z := 10.
Definition TOK_ADD     : Z := 11.
Definition TOK_SUB     : Z := 12.
Definition TOK_MULT    : Z := 13.
Definition TOK_DIV     : Z := 14.
Definition TOK_MAX     : Z := 15.
Definition TOK_MIN     : Z := 16.
Definition TOK_AVG     : Z := 17.
Definition TOK_AND_VEC : Z := 18.
Definition TOK_OR_VEC  : Z := 19.
Definition TOK_FUNC    : Z := 20.

Definition op_prec : list Z := [0;1;1;5;5;5;5;5;5;2;3;6;6;7;7;8;8;8;3;2].

(** [op_prec[t]]; the table has 20 entries. *)
Definition op_prec_at (t : Z) : outcome Z :=
  if t <? 0 then Undef "op_prec index" else rd op_prec (Z.to_nat t).

(** The functions a token's [setter] pointer can hold. *)
Inductive setter_fn :=
| ptr_filters_set_qual
| ptr_filters_set_type
| ptr_filters_set_info
| ptr_filters_set_info_int
| ptr_filters_set_info_float
| ptr_filters_set_info_flag
| ptr_filters_set_format_int
| ptr_filters_set_format_float
| ptr_filters_set_format_string
| ptr_set_max
| ptr_set_min
| ptr_set_avg.

(** The functions a token's [comparator] pointer can hold. *)
Inductive comparator_fn := ptr_filters_cmp_filter.

Record token_t := mk_token {
  tok_type : Z;
  key : option string;
  tag : option string;
  threshold : spec_float;
  hdr_id : Z;
  idx : Z;
  setter : option setter_fn;
  comparator : option comparator_fn;
  values : list float32;          (* mvalues = length values *)
  str_value : option (list ascii);
  is_str : Z;
  pass_site : Z;
  pass_samples : list Z;          (* uint8_t cells; NULL is the empty array *)
  nsamples : Z;
  nvalues : Z
}.

(** A zero-filled token, as [hts_expand0] leaves it. *)
Definition token0 : token_t :=
  mk_token 0 None None (S754_zero false) 0 0 None None [] None 0 0 [] 0 0.

Definition set_tok_type v t := mk_token v (key t) (tag t) (threshold t) (hdr_id t) (idx t) (setter t) (comparator t) (values t) (str_value t) (is_str t) (pass_site t) (pass_samples t) (nsamples t) (nvalues t).
Definition set_key v t := mk_token (tok_type t) v (tag t) (threshold t) (hdr_id t) (idx t) (setter t) (comparator t) (values t) (str_value t) (is_str t) (pass_site t) (pass_samples t) (nsamples t) (nvalues t).
Definition set_tag v t := mk_token (tok_type t) (key t) v (threshold t) (hdr_id t) (idx t) (setter t) (comparator t) (values t) (str_value t) (is_str t) (pass_site t) (pass_samples t) (nsamples t) (nvalues t).
Definition set_threshold v t := mk_token (tok_type t) (key t) (tag t) v (hdr_id t) (idx t) (setter t) (comparator t) (values t) (str_value t) (is_str t) (pass_site t) (pass_samples t) (nsamples t) (nvalues t).
Definition set_hdr_id v t := mk_token (tok_type t) (key t) (tag t) (threshold t) v (idx t) (setter t) (comparator t) (values t) (str_value t) (is_str t) (pass_site t) (pass_samples t) (nsamples t) (nvalues t).
Definition set_idx v t := mk_token (tok_type t) (key t) (tag t) (threshold t) (hdr_id t) v (setter t) (comparator t) (values t) (str_value t) (is_str t) (pass_site t) (pass_samples t) (nsamples t) (nvalues t).
Definition set_setter v t := mk_token (tok_type t) (key t) (tag t) (threshold t) (hdr_id t) (idx t) v (comparator t) (values t) (str_value t) (is_str t) (pass_site t) (pass_samples t) (nsamples t) (nvalues t).
Definition set_comparator v t := mk_token (tok_type t) (key t) (tag t) (threshold t) (hdr_id t) (idx t) (setter t) v (values t) (str_value t) (is_str t) (pass_site t) (pass_samples t) (nsamples t) (nvalues t).
Definition set_values v t := mk_token (tok_type t) (key t) (tag t) (threshold t) (hdr_id t) (idx t) (setter t) (comparator t) v (str_value t) (is_str t) (pass_site t) (pass_samples t) (nsamples t) (nvalues t).
Definition set_str_value v t := mk_token (tok_type t) (key t) (tag t) (threshold t) (hdr_id t) (idx t) (setter t) (comparator t) (values t) v (is_str t) (pass_site t) (pass_samples t) (nsamples t) (nvalues t).
Definition set_is_str v t := mk_token (tok_type t) (key t) (tag t) (threshold t) (hdr_id t) (idx t) (setter t) (comparator t) (values t) (str_value t) v (pass_site t) (pass_samples t) (nsamples t) (nvalues t).
Definition set_pass_site v t := mk_token (tok_type t) (key t) (tag t) (threshold t) (hdr_id t) (idx t) (setter t) (comparator t) (values t) (str_value t) (is_str t) v (pass_samples t) (nsamples t) (nvalues t).
Definition set_pass_samples v t := mk_token (tok_type t) (key t) (tag t) (threshold t) (hdr_id t) (idx t) (setter t) (comparator t) (values t) (str_value t) (is_str t) (pass_site t) v (nsamples t) (nvalues t).
Definition set_nsamples v t := mk_token (tok_type t) (key t) (tag t) (threshold t) (hdr_id t) (idx t) (setter t) (comparator t) (values t) (str_value t) (is_str t) (pass_site t) (pass_samples t) v (nvalues t).
Definition set_nvalues v t := mk_token (tok_type t) (key t) (tag t) (threshold t) (hdr_id t) (idx t) (setter t) (comparator t) (values t) (str_value t) (is_str t) (pass_site t) (pass_samples t) (nsamples t) v.

(** [tok->values[i] = x]. *)
Definition store_value (i : nat) (x : float32) (t : token_t) : outcome token_t :=
  let* v := wr (values t) i x in Ok (set_values v t).

(** [tok->pass_samples[i] = x], truncated to a byte. *)
Definition store_pass (i : nat) (x : Z) (t : token_t) : outcome token_t :=
  let* p := wr (pass_samples t) i (x mod 256) in Ok (set_pass_samples p t).

(** [hts_expand(float,n,tok->mvalues,tok->values)]: the buffer grows to hold
    [n] cells.  The fresh cells are indeterminate until written. *)
Definition hts_expand (n : Z) (t : token_t) : token_t :=
  let m := length (values t) in
  if (m <? Z.to_nat n)%nat
  then set_values (values t ++ repeat (Fval S754_nan) (Z.to_nat n - m)) t
  else t.

Record filter_t := mk_filter {
  hdr : bcf_hdr_t;
  str : string;
  filters : list token_t;      (* nfilters = length filters *)
  max_unpack : Z;
  flt_nsamples : Z
}.

Definition nfilters (f : filter_t) : Z := Z.of_nat (length (filters f)).

(** ** Setters *)

Definition filters_set_qual (flt : filter_t) (line : bcf1_t) (tok : token_t)
  : outcome token_t :=
  if bcf_float_is_missing (qual line) then Ok (set_nvalues 0 tok)
  else
    let* tok := store_value 0 (qual line) tok in
    Ok (set_nvalues 1 tok).

Definition filters_set_type (flt : filter_t) (line : bcf1_t) (tok : token_t)
  : outcome token_t :=
  let* tok := store_value 0 (Fval (float_of_int (bcf_get_variant_types line))) tok in
  Ok (set_nvalues 1 tok).

Definition find_info (line : bcf1_t) (id : Z) : option bcf_info_t :=
  List.find (fun inf => info_key inf =? id) (d_info line).

Definition filters_set_info (flt : filter_t) (line : bcf1_t) (tok : token_t)
  : outcome token_t :=
  if negb (0 <=? hdr_id tok) then Fatal "assert( tok->hdr_id >=0 )"
  else
    match find_info line (hdr_id tok) with
    | None => Ok (set_nvalues 0 tok)
    | Some inf =>
        if info_type inf =? BCF_BT_CHAR then
          let tok := set_str_value (Some (vptr_c inf)) tok in
          let* tok := store_value 0 (Fval (float_of_int (info_len inf))) tok in
          Ok (set_nvalues 1 tok)
        else if info_type inf =? BCF_BT_FLOAT then
          let* tok := store_value 0 (v1_f inf) tok in
          Ok (set_nvalues 1 (set_str_value None tok))
        else
          let* tok := store_value 0 (Fval (float_of_int (v1_i inf))) tok in
          Ok (set_nvalues 1 (set_str_value None tok))
    end.

(** What [bcf_get_info_value] leaves in [*value]. *)
Inductive info_value := IVint (z : Z) | IVfloat (f : float32) | IVunset.

(** The BRANCH macro: the loop looks for a vector end before position
    [ivec], then the cell [p[j]] is tested and returned. *)
Definition info_branch {A} (p : list A) (len ivec : Z)
    (is_missing is_vector_end : A -> bool) (out : A -> info_value)
  : outcome (Z * info_value) :=
  let n := Z.to_nat (Z.min ivec len) in
  let* ended := for_loop (Z.of_nat n)
      (fun j (e : bool) =>
         if e then Ok e else let* x := rd p j in Ok (is_vector_end x)) false in
  if ended then Ok (0, IVunset)
  else
    let* x := rd p n in
    if is_missing x then Ok (0, IVunset) else Ok (1, out x).

Definition bcf_get_info_value (line : bcf1_t) (info_id ivec : Z)
  : outcome (Z * info_value) :=
  match find_info line info_id with
  | None => Ok (-1, IVunset)
  | Some info =>
      if info_len info =? 1 then
        if info_type info =? BCF_BT_FLOAT then Ok (1, IVfloat (v1_f info))
        else if (info_type info =? BCF_BT_INT8) || (info_type info =? BCF_BT_INT16)
                || (info_type info =? BCF_BT_INT32) then Ok (1, IVint (v1_i info))
        else Ok (1, IVunset)
      else if info_type info =? BCF_BT_INT8 then
        info_branch (vptr_i info) (info_len info) ivec
          (Z.eqb bcf_int8_missing) (Z.eqb bcf_int8_vector_end) IVint
      else if info_type info =? BCF_BT_INT16 then
        info_branch (vptr_i info) (info_len info) ivec
          (Z.eqb bcf_int16_missing) (Z.eqb bcf_int16_vector_end) IVint
      else if info_type info =? BCF_BT_INT32 then
        info_branch (vptr_i info) (info_len info) ivec
          (Z.eqb bcf_int32_missing) (Z.eqb bcf_int32_vector_end) IVint
      else if info_type info =? BCF_BT_FLOAT then
        info_branch (vptr_f info) (info_len info) ivec
          bcf_float_is_missing bcf_float_is_vector_end IVfloat
      else Fatal "todo: type"
  end.

(** The value is fetched into an [int]; a float stored there, or nothing at
    all, leaves no defined integer to read. *)
Definition filters_set_info_int (flt : filter_t) (line : bcf1_t) (tok : token_t)
  : outcome token_t :=
  let* (ret, value) := bcf_get_info_value line (hdr_id tok) (idx tok) in
  if ret <=? 0 then Ok (set_nvalues 0 tok)
  else
    match value with
    | IVint z =>
        let* tok := store_value 0 (Fval (float_of_int z)) tok in
        Ok (set_nvalues 1 tok)
    | _ => Undef "int value read after a float or no store"
    end.

Definition filters_set_info_float (flt : filter_t) (line : bcf1_t) (tok : token_t)
  : outcome token_t :=
  let* (ret, value) := bcf_get_info_value line (hdr_id tok) (idx tok) in
  if ret <=? 0 then Ok (set_nvalues 0 tok)
  else
    match value with
    | IVfloat f =>
        let* tok := store_value 0 f tok in
        Ok (set_nvalues 1 tok)
    | _ => Undef "float value read after an int or no store"
    end.

Definition filters_set_info_flag (flt : filter_t) (line : bcf1_t) (tok : token_t)
  : outcome token_t :=
  let present := match find_info line (hdr_id tok) with Some _ => 1 | None => 0 end in
  let* tok := store_value 0 (Fval (float_of_int present)) tok in
  Ok (set_nvalues 1 tok).

(** The scratch buffer [flt->tmpi] is filled by htslib and consumed inside
    the call; it is the list returned by [bcf_get_format_int32]. *)
Definition filters_set_format_int (flt : filter_t) (line : bcf1_t) (tok : token_t)
  : outcome token_t :=
  match tag tok with
  | None => Undef "NULL tag passed to bcf_get_format_int32"
  | Some tg =>
      let '(n, tmpi) := bcf_get_format_int32 (hdr flt) line tg in
      let tok := set_nvalues n tok in
      let* tok :=
        if nvalues tok <? 0 then Ok (set_nvalues 0 tok)
        else
          let tok := hts_expand (nvalues tok) tok in
          let* (tok, is_missing) :=
            for_loop (nvalues tok)
              (fun i '(tok, is_missing) =>
                 let* x := rd tmpi i in
                 if (x =? bcf_int32_missing) || (x =? bcf_int32_vector_end) then
                   let* tok := store_value i bcf_float_missing tok in
                   Ok (tok, is_missing)
                 else
                   let* tok := store_value i (Fval (float_of_int x)) tok in
                   Ok (tok, 0))
              (tok, 1) in
          if negb (is_missing =? 0) then Ok (set_nvalues 0 tok) else Ok tok in
      Ok (set_nsamples (nvalues tok) tok)
  end.

(** htslib copies the floats straight into [tok->values], growing it when
    needed.  [nsamples] is left as the evaluator reset it. *)
Definition filters_set_format_float (flt : filter_t) (line : bcf1_t) (tok : token_t)
  : outcome token_t :=
  match tag tok with
  | None => Undef "NULL tag passed to bcf_get_format_float"
  | Some tg =>
      let '(n, p) := bcf_get_format_float (hdr flt) line tg in
      if n <=? 0 then Ok (set_nsamples 0 (set_nvalues 0 tok))
      else Ok (set_nvalues n (set_values (p ++ drop (length p) (values tok)) tok))
  end.

Definition filters_set_format_string (flt : filter_t) (line : bcf1_t) (tok : token_t)
  : outcome token_t :=
  match tag tok with
  | None => Undef "NULL tag passed to bcf_get_format_char"
  | Some tg =>
      let '(tok, ndim) :=
        match bcf_get_format_char (hdr flt) line tg with
        | Some p => (set_str_value (Some p) tok, Z.of_nat (length p))
        | None => (tok, 0)
        end in
      if ndim =? 0 then Ok (set_nsamples 0 (set_nvalues 0 tok))
      else
        let n := bcf_hdr_nsamples (hdr flt) in
        let tok := set_nsamples n (set_nvalues n tok) in
        store_value 0 (Fval (float_of_int ndim)) tok
  end.

(** ** Functions of one argument *)

Definition set_max (flt : filter_t) (line : bcf1_t) (tok : token_t) : outcome token_t :=
  let* val :=
    for_loop (nvalues tok)
      (fun i val =>
         let* x := rd (values tok) i in
         if negb (bcf_float_is_missing x) && f_lt val (to_sf x)
         then Ok (to_sf x) else Ok val)
      neg_HUGE_VAL in
  let* tok := store_value 0 (Fval val) tok in
  Ok (set_nsamples 0 (set_nvalues 1 tok)).

Definition set_min (flt : filter_t) (line : bcf1_t) (tok : token_t) : outcome token_t :=
  let* val :=
    for_loop (nvalues tok)
      (fun i val =>
         let* x := rd (values tok) i in
         if negb (bcf_float_is_missing x) && f_gt val (to_sf x)
         then Ok (to_sf x) else Ok val)
      HUGE_VAL in
  let* tok := store_value 0 (Fval val) tok in
  Ok (set_nsamples 0 (set_nvalues 1 tok)).

(** The counter [n] is declared, initialised to 0 and never changed. *)
Definition set_avg (flt : filter_t) (line : bcf1_t) (tok : token_t) : outcome token_t :=
  let n : Z := 0 in
  let* val :=
    for_loop (nvalues tok)
      (fun i val =>
         let* x := rd (values tok) i in
         if negb (bcf_float_is_missing x) then Ok (f_add val (to_sf x)) else Ok val)
      (float_of_int 0) in
  let* tok :=
    store_value 0
      (Fval (if negb (n =? 0) then f_div val (float_of_int n) else float_of_int 0)) tok in
  Ok (set_nsamples 0 (set_nvalues 1 tok)).

(** [tok->setter(flt,line,target)]. *)
Definition call_setter (f : setter_fn) (flt : filter_t) (line : bcf1_t) (tok : token_t)
  : outcome token_t :=
  match f with
  | ptr_filters_set_qual => filters_set_qual flt line tok
  | ptr_filters_set_type => filters_set_type flt line tok
  | ptr_filters_set_info => filters_set_info flt line tok
  | ptr_filters_set_info_int => filters_set_info_int flt line tok
  | ptr_filters_set_info_float => filters_set_info_float flt line tok
  | ptr_filters_set_info_flag => filters_set_info_flag flt line tok
  | ptr_filters_set_format_int => filters_set_format_int flt line tok
  | ptr_filters_set_format_float => filters_set_format_float flt line tok
  | ptr_filters_set_format_string => filters_set_format_string flt line tok
  | ptr_set_max => set_max flt line tok
  | ptr_set_min => set_min flt line tok
  | ptr_set_avg => set_avg flt line tok
  end.

(** ** The comparator of %FILTER *)

Definition filters_cmp_filter (atok btok : token_t) (op_type : Z) (line : bcf1_t) : Z :=
  if op_type =? TOK_NE then
    (* AND logic: none of the filters can match *)
    if d_n_flt line =? 0 then
      if hdr_id atok =? -1 then 0 else 1
    else if existsb (fun f => hdr_id atok =? f) (d_flt line) then 0 else 1
  else
    (* TOK_EQ with OR logic: at least one of the filters must match *)
    if d_n_flt line =? 0 then
      if hdr_id atok =? -1 then 1 else 0
    else if existsb (fun f => hdr_id atok =? f) (d_flt line) then 1 else 0.

Definition call_comparator (f : comparator_fn) (atok btok : token_t) (op_type : Z)
    (line : bcf1_t) : Z :=
  match f with
  | ptr_filters_cmp_filter => filters_cmp_filter atok btok op_type line
  end.

(** ** Vector kernels *)

(** C truth values. *)
Definition c_and (a b : Z) : Z := if (a =? 0) || (b =? 0) then 0 else 1.
Definition c_or (a b : Z) : Z := if (a =? 0) && (b =? 0) then 0 else 1.

(** [atok->nvalues = 0; atok->nsamples = 0]. *)
Definition set_missing (t : token_t) : token_t := set_nsamples 0 (set_nvalues 0 t).

Definition VECTOR_ARITHMETICS (atok btok : token_t)
    (AOP : spec_float -> spec_float -> spec_float) : outcome token_t :=
  let* (atok, has_values) :=
    if (nvalues atok =? 0) || (nvalues btok =? 0) then Ok (set_missing atok, 0)
    else if (negb (nsamples atok =? 0) && negb (nsamples btok =? 0))
            || ((nsamples atok =? 0) && (nsamples btok =? 0)) then
      for_loop (nvalues atok)
        (fun i '(atok, has_values) =>
           let* a := rd (values atok) i in
           if bcf_float_is_missing a then Ok (atok, has_values)
           else
             let* b := rd (values btok) i in
             if bcf_float_is_missing b then
               let* atok := store_value i bcf_float_missing atok in
               Ok (atok, has_values)
             else
               let* atok := store_value i (Fval (AOP (to_sf a) (to_sf b))) atok in
               Ok (atok, 1))
        (atok, 0)
    else if negb (nsamples btok =? 0) then
      let atok := hts_expand (nvalues btok) atok in
      let* (atok, has_values) :=
        for_loop (nvalues btok)
          (fun i '(atok, has_values) =>
             let* a0 := rd (values atok) 0 in
             if bcf_float_is_missing a0 then
               let* atok := store_value i bcf_float_missing atok in
               Ok (atok, has_values)
             else
               let* b := rd (values btok) i in
               if bcf_float_is_missing b then
                 let* atok := store_value i bcf_float_missing atok in
                 Ok (atok, has_values)
               else
                 let* atok := store_value i (Fval (AOP (to_sf a0) (to_sf b))) atok in
                 Ok (atok, 1))
          (atok, 0) in
      Ok (set_nsamples (nsamples btok) (set_nvalues (nvalues btok) atok), has_values)
    else if negb (nsamples atok =? 0) then
      for_loop (nvalues atok)
        (fun i '(atok, has_values) =>
           let* a := rd (values atok) i in
           if bcf_float_is_missing a then
             let* atok := store_value i bcf_float_missing atok in
             Ok (atok, has_values)
           else
             let* b0 := rd (values btok) 0 in
             if bcf_float_is_missing b0 then
               let* atok := store_value i bcf_float_missing atok in
               Ok (atok, has_values)
             else
               let* atok := store_value i (Fval (AOP (to_sf a) (to_sf b0))) atok in
               Ok (atok, 1))
        (atok, 0)
    else Ok (atok, 0) in
  if has_values =? 0 then Ok (set_missing atok) else Ok atok.

Definition vector_logic_and (atok btok : token_t) : outcome (token_t * Z) :=
  if (nvalues atok =? 0) || (nvalues btok =? 0) then Ok (set_missing atok, 0)
  else if (nsamples atok =? 0) && (nsamples btok =? 0) then
    Ok (atok, c_and (pass_site atok) (pass_site btok))
  else if negb (nsamples atok =? 0) && negb (nsamples btok =? 0) then
    for_loop (nsamples atok)
      (fun i '(atok, pass) =>
         let* a := rd (pass_samples atok) i in
         let* b := rd (pass_samples btok) i in
         let* atok := store_pass i (c_and a b) atok in
         Ok (atok, if (pass =? 0) && negb (c_and a b =? 0) then 1 else pass))
      (atok, 0)
  else if negb (nsamples btok =? 0) then
    let* (atok, pass) :=
      for_loop (nsamples btok)
        (fun i '(atok, pass) =>
           let* b := rd (pass_samples btok) i in
           let v := c_and (pass_site atok) b in
           let* atok := store_pass i v atok in
           Ok (atok, if (pass =? 0) && negb (v =? 0) then 1 else pass))
        (atok, 0) in
    Ok (set_nsamples (nsamples btok) atok, pass)
  else
    (* atok->nsamples!=0 *)
    for_loop (nvalues atok)
      (fun i '(atok, pass) =>
         let* a := rd (pass_samples atok) i in
         let v := c_and a (pass_site btok) in
         let* atok := store_pass i v atok in
         Ok (atok, if (pass =? 0) && negb (v =? 0) then 1 else pass))
      (atok, 0).

Definition vector_logic_or (atok btok : token_t) (or_type : Z) : outcome (token_t * Z) :=
  if (nvalues atok =? 0) && (nvalues btok =? 0) then
    (* missing sites in both *)
    Ok (set_missing atok, 0)
  else if nvalues atok =? 0 then
    (* missing value in a *)
    let* atok :=
      for_loop (nsamples btok)
        (fun i atok => let* b := rd (pass_samples btok) i in store_pass i b atok)
        atok in
    Ok (set_nsamples (nsamples btok) atok, pass_site btok)
  else if nvalues btok =? 0 then
    (* missing value in b *)
    Ok (atok, pass_site atok)
  else if (nsamples atok =? 0) && (nsamples btok =? 0) then
    Ok (atok, c_or (pass_site atok) (pass_site btok))
  else if nsamples atok =? 0 then
    let* (atok, pass) :=
      if or_type =? TOK_OR then
        for_loop (nsamples btok)
          (fun i '(atok, pass) =>
             let* b := rd (pass_samples btok) i in
             let* atok := store_pass i b atok in
             Ok (atok, if negb (c_or (pass_site atok) b =? 0) then 1 else pass))
          (atok, 0)
      else
        for_loop (nsamples btok)
          (fun i '(atok, pass) =>
             let* b := rd (pass_samples btok) i in
             let v := c_or (pass_site atok) b in
             let* atok := store_pass i v atok in
             Ok (atok, if negb (v =? 0) then 1 else pass))
          (atok, 0) in
    Ok (set_nsamples (nsamples btok) atok, pass)
  else if nsamples btok =? 0 then
    (* vector vs site *)
    if or_type =? TOK_OR then
      for_loop (nsamples atok)
        (fun i '(atok, pass) =>
           let* a := rd (pass_samples atok) i in
           Ok (atok, if negb (c_or (pass_site btok) a =? 0) then 1 else pass))
        (atok, 0)
    else
      for_loop (nsamples atok)
        (fun i '(atok, pass) =>
           let* a := rd (pass_samples atok) i in
           let v := c_or a (pass_site btok) in
           let* atok := store_pass i v atok in
           Ok (atok, if negb (v =? 0) then 1 else pass))
        (atok, 0)
  else
    for_loop (nsamples atok)
      (fun i '(atok, pass) =>
         let* a := rd (pass_samples atok) i in
         let* b := rd (pass_samples btok) i in
         let v := c_or a b in
         let* atok := store_pass i v atok in
         Ok (atok, if (pass =? 0) && negb (v =? 0) then 1 else pass))
      (atok, 0).

(** One comparison slot of [CMP_VECTORS]: the mask cell is written and the
    two flags are raised. *)
Definition cmp_slot (CMP_OP : spec_float -> spec_float -> bool) (i : nat)
    (a b : float32) (st : token_t * Z * Z) : outcome (token_t * Z * Z) :=
  let '(atok, has_values, pass) := st in
  if CMP_OP (to_sf a) (to_sf b) then
    let* atok := store_pass i 1 atok in Ok (atok, 1, 1)
  else
    let* atok := store_pass i 0 atok in Ok (atok, 1, pass).

Definition CMP_VECTORS (atok btok : token_t)
    (CMP_OP : spec_float -> spec_float -> bool) : outcome (token_t * Z) :=
  if (nvalues atok =? 0) || (nvalues btok =? 0) then Ok (set_missing atok, 0)
  else
    let* (atok, pass) :=
      if negb (nsamples atok =? 0) && negb (nsamples btok =? 0) then
        let* (atok, has_values, pass) :=
          for_loop (nsamples atok)
            (fun i '(atok, has_values, pass) =>
               let* a := rd (values atok) i in
               if bcf_float_is_missing a then
                 let* atok := store_pass i 0 atok in Ok (atok, has_values, pass)
               else
                 let* b := rd (values btok) i in
                 if bcf_float_is_missing b then
                   let* atok := store_pass i 0 atok in Ok (atok, has_values, pass)
                 else cmp_slot CMP_OP i a b (atok, has_values, pass))
            (atok, 0, 0) in
        Ok (if has_values =? 0 then set_nvalues 0 atok else atok, pass)
      else if negb (nsamples atok =? 0) then
        let* b0 := rd (values btok) 0 in
        let* (atok, has_values, pass) :=
          if bcf_float_is_missing b0 then Ok (set_missing atok, 0, 0)
          else
            for_loop (nsamples atok)
              (fun i '(atok, has_values, pass) =>
                 let* a := rd (values atok) i in
                 if bcf_float_is_missing a then
                   let* atok := store_pass i 0 atok in Ok (atok, has_values, pass)
                 else
                   let* b0 := rd (values btok) 0 in
                   cmp_slot CMP_OP i a b0 (atok, has_values, pass))
              (atok, 0, 0) in
        Ok (if has_values =? 0 then set_nvalues 0 atok else atok, pass)
      else if negb (nsamples btok =? 0) then
        let* a0 := rd (values atok) 0 in
        let* (atok, has_values, pass) :=
          if bcf_float_is_missing a0 then Ok (set_missing atok, 0, 0)
          else
            let* (atok, has_values, pass) :=
              for_loop (nsamples btok)
                (fun i '(atok, has_values, pass) =>
                   let* b := rd (values btok) i in
                   if bcf_float_is_missing b then
                     let* atok := store_pass i 0 atok in Ok (atok, has_values, pass)
                   else
                     let* a0 := rd (values atok) 0 in
                     cmp_slot CMP_OP i a0 b (atok, has_values, pass))
                (atok, 0, 0) in
            Ok (set_nsamples (nsamples btok) (set_nvalues (nvalues btok) atok),
                has_values, pass) in
        Ok (if has_values =? 0 then set_nvalues 0 atok else atok, pass)
      else
        let* a0 := rd (values atok) 0 in
        if bcf_float_is_missing a0 then Ok (set_missing atok, 0)
        else
          let* b0 := rd (values btok) 0 in
          if bcf_float_is_missing b0 then Ok (set_missing atok, 0)
          else if CMP_OP (to_sf a0) (to_sf b0) then Ok (atok, 1)
          else Ok (atok, 0) in
    Ok (atok, pass).

(** ** String vectors *)

(** [(int) x]: truncation; undefined for a NaN, an infinity or a value
    outside the range of [int]. *)
Definition int_of_float (x : spec_float) : outcome Z :=
  match x with
  | S754_zero _ => Ok 0
  | S754_finite s m e =>
      let v := match e with
               | Zneg p => Z.shiftr (Zpos m) (Zpos p)
               | _ => Z.shiftl (Zpos m) e
               end in
      if v <? 2147483648 then Ok (if s then - v else v)
      else Undef "float to int conversion out of range"
  | _ => Undef "float to int conversion of a NaN or an infinity"
  end.

(** [while ( a<aend && *a ) a++;] *)
Fixpoint scan_to_nul (mem : list ascii) (a : nat) (n : nat) : outcome nat :=
  match n with
  | O => Ok a
  | S n' =>
      let* c := rd mem a in
      if Ascii.eqb c zero then Ok a else scan_to_nul mem (S a) n'
  end.

(** [while ( astr<aend && !*astr ) astr++;] *)
Fixpoint skip_nul (mem : list ascii) (a : nat) (n : nat) : outcome nat :=
  match n with
  | O => Ok a
  | S n' =>
      let* c := rd mem a in
      if Ascii.eqb c zero then skip_nul mem (S a) n' else Ok a
  end.

(** [strncmp(astr,bstr,n)] on two memory regions: the difference of the
    first two bytes that differ, read as unsigned chars. *)
Fixpoint mem_strncmp (ma : list ascii) (a : nat) (mb : list ascii) (b : nat) (n : nat)
  : outcome Z :=
  match n with
  | O => Ok 0
  | S n' =>
      let* x := rd ma a in
      let* y := rd mb b in
      if negb (Ascii.eqb x y) then
        Ok (Z.of_nat (nat_of_ascii x) - Z.of_nat (nat_of_ascii y))
      else if Ascii.eqb x zero then Ok 0
      else mem_strncmp ma (S a) mb (S b) n'
  end.

Definition deref_str (t : token_t) : outcome (list ascii) :=
  match str_value t with
  | Some m => Ok m
  | None => Undef "NULL str_value"
  end.

(** The byte width of one slot, [(int)tok->values[0]]. *)
Definition slot_width (t : token_t) : outcome nat :=
  let* w := rd (values t) 0 in
  let* z := int_of_float (to_sf w) in
  Ok (Z.to_nat z).

(** The mask cell for one pair of strings; [logic] is TOK_EQ or TOK_NE.
    The int returned by [strncmp] is stored into a byte. *)
Definition cmp_one_string (logic : Z) (ma : list ascii) (astr alen : nat)
    (mb : list ascii) (bstr blen : nat) : outcome Z :=
  if negb (alen =? blen)%nat then Ok (if logic =? TOK_EQ then 0 else 1)
  else
    let* c := mem_strncmp ma astr mb bstr alen in
    Ok (if logic =? TOK_EQ then (if c =? 0 then 1 else 0) else c).

Definition cmp_vector_strings (atok btok : token_t) (logic : Z) : outcome (token_t * Z) :=
  if nvalues atok =? 0 then Ok (set_nsamples 0 atok, 0)
  else if nvalues btok =? 0 then Ok (set_missing atok, 0)
  else if nvalues atok =? nvalues btok then
    let* ma := deref_str atok in
    let* mb := deref_str btok in
    let* (atok, pass, _, _) :=
      for_loop (nvalues atok)
        (fun i '(atok, pass, astr, bstr) =>
           let* aw := slot_width atok in
           let* a := scan_to_nul ma astr aw in
           let* bw := slot_width btok in
           let* b := scan_to_nul mb bstr bw in
           let* v := cmp_one_string logic ma astr (a - astr) mb bstr (b - bstr) in
           let* atok := store_pass i v atok in
           let pass := if (pass =? 0) && negb (v mod 256 =? 0) then 1 else pass in
           let* astr := skip_nul ma astr aw in
           let* bstr := skip_nul mb bstr bw in
           Ok (atok, pass, astr, bstr))
        (atok, 0, 0%nat, 0%nat) in
    Ok (if nsamples atok =? 0 then set_nsamples (nsamples btok) atok else atok, pass)
  else if (nsamples atok =? 0) || (nsamples btok =? 0) then
    let '(xtok, ytok) := if nsamples atok =? 0 then (atok, btok) else (btok, atok) in
    let* mx := deref_str xtok in
    let* my := deref_str ytok in
    let* xw := slot_width xtok in
    let* x := scan_to_nul mx 0 xw in
    let* (atok, pass, _) :=
      for_loop (nvalues ytok)
        (fun i '(atok, pass, ystr) =>
           let* yw := slot_width ytok in
           let* y := scan_to_nul my ystr yw in
           let* v := cmp_one_string logic mx 0 x my ystr (y - ystr) in
           let* atok := store_pass i v atok in
           let pass := if (pass =? 0) && negb (v mod 256 =? 0) then 1 else pass in
           let* ystr := skip_nul my ystr yw in
           Ok (atok, pass, ystr))
        (atok, 0, 0%nat) in
    Ok (if nsamples atok =? 0
        then set_nsamples (nsamples btok) (set_nvalues (nsamples btok) atok)
        else atok, pass)
  else error "todo: Cannot compare vectors of different length".

(** ** The evaluator *)

(** The evaluation stack [flt_stack[0..nstack)] holds pointers into
    [filter->filters]; here it is the list of their indices, the top
    [flt_stack[nstack-1]] first. *)
Definition eval_state : Type := list token_t * list nat.

(** A value token: the setter, the string constant or the numeric constant. *)
Definition filter_test_value (filter : filter_t) (line : bcf1_t) (tok : token_t)
  : outcome token_t :=
  match setter tok with
  | Some f =>
      (* variable, query the VCF line *)
      call_setter f filter line tok
  | None =>
      match key tok with
      | Some k =>
          (* string constant *)
          let tok := set_str_value (Some (list_ascii_of_string k ++ [zero])) tok in
          let* v := rd (values tok) 0 in
          let* tok := store_value 0 v tok in
          Ok (set_nvalues 1 tok)
      | None =>
          (* numeric constant *)
          let* tok := store_value 0 (Fval (threshold tok)) tok in
          Ok (set_nvalues 1 tok)
      end
  end.

(** [==] and [!=]: the comparator, the string comparison, or the numeric
    comparison. *)
Definition filter_test_equality (filter : filter_t) (line : bcf1_t) (op : Z)
    (CMP_OP : spec_float -> spec_float -> bool) (is_str : Z) (atok btok : token_t)
  : outcome (token_t * Z) :=
  match comparator btok with
  | Some f => Ok (atok, call_comparator f btok atok op line)
  | None =>
      match comparator atok with
      | Some f => Ok (atok, call_comparator f atok btok op line)
      | None =>
          if is_str =? 2 then cmp_vector_strings atok btok op
          else if is_str =? 1 then error "Comparing string to numeric value"
          else CMP_VECTORS atok btok CMP_OP
      end
  end.

(** The binary operators; [atok] is [flt_stack[nstack-2]] and [btok] is
    [flt_stack[nstack-1]].  The result is the new [atok]. *)
Definition filter_test_binary (filter : filter_t) (line : bcf1_t) (tok_type : Z)
    (atok btok : token_t) : outcome token_t :=
  let is_str := is_str btok + is_str atok in
  if (tok_type =? TOK_OR) || (tok_type =? TOK_OR_VEC) then
    if (pass_site btok <? 0) || (pass_site atok <? 0) then
      error "Error occurred while processing the filter (OR)"
    else
      let* (atok, r) := vector_logic_or atok btok tok_type in
      Ok (set_pass_site r atok)
  else if (tok_type =? TOK_AND) || (tok_type =? TOK_AND_VEC) then
    if (pass_site btok <? 0) || (pass_site atok <? 0) then
      error "Error occurred while processing the filter (AND)"
    else
      let* (atok, r) := vector_logic_and atok btok in
      Ok (set_pass_site r atok)
  else if tok_type =? TOK_ADD then VECTOR_ARITHMETICS atok btok f_add
  else if tok_type =? TOK_SUB then VECTOR_ARITHMETICS atok btok f_sub
  else if tok_type =? TOK_MULT then VECTOR_ARITHMETICS atok btok f_mul
  else if tok_type =? TOK_DIV then VECTOR_ARITHMETICS atok btok f_div
  else
    let* (atok, is_true) :=
      if (nvalues btok =? 0) || (nvalues atok =? 0) then Ok (set_missing atok, 0)
      else if tok_type =? TOK_EQ then
        filter_test_equality filter line TOK_EQ f_eq is_str atok btok
      else if tok_type =? TOK_NE then
        filter_test_equality filter line TOK_NE f_ne is_str atok btok
      else if 0 <? is_str then error "Wrong operator in string comparison"
      else if tok_type =? TOK_LE then CMP_VECTORS atok btok f_le
      else if tok_type =? TOK_LT then CMP_VECTORS atok btok f_lt
      else if tok_type =? TOK_BT then CMP_VECTORS atok btok f_gt
      else if tok_type =? TOK_BE then CMP_VECTORS atok btok f_ge
      else error "FIXME: did not expect this .. tok_type" in
    Ok (set_pass_site is_true atok).

(** [nsamples = 0; nvalues = 0; pass_site = -1] at the head of each turn. *)
Definition reset_token (tok : token_t) : token_t :=
  set_pass_site (-1) (set_nvalues 0 (set_nsamples 0 tok)).

(** One turn of the loop over [filter->filters]. *)
Definition filter_test_token (filter : filter_t) (line : bcf1_t) (i : nat)
    (st : eval_state) : outcome eval_state :=
  let '(fs, stack) := st in
  let* tok := rd fs i in
  let tok := reset_token tok in
  let* fs := wr fs i tok in
  if tok_type tok =? TOK_VAL then
    let* tok := filter_test_value filter line tok in
    let* fs := wr fs i tok in
    Ok (fs, i :: stack)
  else if tok_type tok =? TOK_FUNC then
    (* all functions take only one argument *)
    match stack with
    | [] => Undef "flt_stack[nstack-1] read with nstack = 0"
    | j :: _ =>
        match setter tok with
        | None => Undef "call through a NULL setter"
        | Some f =>
            let* arg := rd fs j in
            let* arg := call_setter f filter line arg in
            let* fs := wr fs j arg in
            Ok (fs, stack)
        end
    end
  else
    match stack with
    | jb :: ja :: rest =>
        let* atok := rd fs ja in
        let* btok := rd fs jb in
        let* atok := filter_test_binary filter line (tok_type tok) atok btok in
        let* fs := wr fs ja atok in
        Ok (fs, ja :: rest)
    | _ =>
        (* too few values left on the stack *)
        error "Error occurred while processing the filter (1:nstack)"
    end.

Definition with_filters (fs : list token_t) (f : filter_t) : filter_t :=
  mk_filter (hdr f) (str f) fs (max_unpack f) (flt_nsamples f).

(** [filter_test(filter,line,samples)].  [samples] tells whether the caller
    passed a pointer for the mask.  The result is the filter with its
    tokens as the call leaves them, the returned int, and what is stored
    into [*samples] ([None] for no store or NULL). *)
Definition filter_test (filter : filter_t) (line : bcf1_t) (samples : bool)
  : outcome (filter_t * (Z * option (list Z))) :=
  let* (fs, stack) :=
    for_loop (nfilters filter) (filter_test_token filter line) (filters filter, []) in
  if (1 <? Z.of_nat (length stack)) then
    error "Error occurred while processing the filter (2:nstack)"
  else
    match last stack with
    | None => Undef "flt_stack[0] read with nstack = 0"
    | Some j0 =>
        let* top := rd fs j0 in
        let* (top, out) :=
          if samples then
            if negb (Z.land (max_unpack filter) BCF_UN_FMT =? 0)
               && negb (length (pass_samples top) =? 0)%nat then
              let* top :=
                if nsamples top =? 0 then
                  for_loop (flt_nsamples filter)
                    (fun i top => store_pass i (pass_site top) top) top
                else Ok top in
              Ok (top, Some (pass_samples top))
            else Ok (top, None)
          else Ok (top, None) in
        let* fs := wr fs j0 top in
        Ok (with_filters fs filter, (pass_site top, out))
    end.

(** What the caller of [filter_test] sees: the returned int and the mask. *)
Definition returned {A B} (m : outcome (A * B)) : outcome B :=
  let* (_, b) := m in Ok b.

(** ** The lexer *)

(** [c == 'x'], the character written as a one-letter string. *)
Definition ch (c : ascii) (x : string) : bool :=
  match x with
  | String d EmptyString => Ascii.eqb c d
  | _ => false
  end.

Definition dquote : ascii := ascii_of_nat 34.
Definition squote : ascii := ascii_of_nat 39.
Definition is_quote (c : ascii) : bool := Ascii.eqb c dquote || Ascii.eqb c squote.

(** [!strncmp(s,p,strlen(p))]. *)
Definition has_prefix (s p : string) : bool := strncmp s p (String.length p) =? 0.

Fixpoint skip_space (s : string) : string :=
  match s with
  | String c r => if isspace c then skip_space r else s
  | EmptyString => s
  end.

(** The characters that end an identifier in the first scan. *)
Definition ends_name (c : ascii) : bool :=
  is_quote c || isspace c || ch c "<" || ch c ">" || ch c "=" || ch c "!"
  || ch c "&" || ch c "|" || ch c "(" || ch c ")" || ch c "+" || ch c "*"
  || ch c "-" || ch c "/".

(** The characters that end the run of the last scan. *)
Definition ends_rest (c : ascii) : bool :=
  isspace c || ch c "<" || ch c ">" || ch c "=" || ch c "&" || ch c "|"
  || ch c "(" || ch c ")" || ch c "+" || ch c "-" || ch c "*" || ch c "/".

Fixpoint span_len (stop : ascii -> bool) (s : string) : nat :=
  match s with
  | String c r => if stop c then O else S (span_len stop r)
  | EmptyString => O
  end.

Section Compiler.

(** [strtod] of the C library, followed by the conversion of its result to
    [float]: the value, the number of characters used, and whether [errno]
    was set. *)
Variable strtod : string -> spec_float * nat * bool.

(** [filters_next_token(&str,&len)]: the token kind (or -1), the new
    [*str] and [*len]. *)
Definition filters_next_token (str0 : string) : Z * string * nat :=
  let str := skip_space str0 in
  let c0 := str_at str 0 in
  let number :=
    (* test for doubles: d.ddde[+-]dd *)
    if isdigit c0 || ch c0 "." then
      let '(_, used, _) := strtod str in
      let t := str_at str used in
      if negb (used =? 0)%nat && (Ascii.eqb t zero || negb (isalnum t)) then Some used
      else None
    else None in
  match number with
  | Some used => (TOK_VAL, str, used)
  | None =>
      if has_prefix str "%MAX(" then (TOK_MAX, str_drop 4 str, O)
      else if has_prefix str "%MIN(" then (TOK_MIN, str_drop 4 str, O)
      else if has_prefix str "%AVG(" then (TOK_AVG, str_drop 4 str, O)
      else
        let p1 := if has_prefix str "INFO/" then 5%nat else O in
        let p2 := if has_prefix (str_drop p1 str) "FORMAT/" then (p1 + 7)%nat else p1 in
        let p3 := if has_prefix (str_drop p2 str) "FMT/" then (p2 + 4)%nat else p2 in
        let tmp := (p3 + span_len ends_name (str_drop p3 str))%nat in
        if (0 <? tmp)%nat then (TOK_VAL, str, tmp)
        else
          let t0 := str_at str 0 in
          let t1 := str_at str 1 in
          if is_quote t0 then
            let n := span_len (Ascii.eqb t0) (str_drop 1 str) in
            if Ascii.eqb (str_at str (S n)) zero then (-1, str, O)   (* missing quotes *)
            else (TOK_VAL, str, S (S n))
          else if ch t0 "!" && ch t1 "=" then (TOK_NE, str_drop 2 str, O)
          else if ch t0 "<" then
            if ch t1 "=" then (TOK_LE, str_drop 2 str, O) else (TOK_LT, str_drop 1 str, O)
          else if ch t0 ">" then
            if ch t1 "=" then (TOK_BE, str_drop 2 str, O) else (TOK_BT, str_drop 1 str, O)
          else if ch t0 "=" then
            if ch t1 "=" then (TOK_EQ, str_drop 2 str, O) else (TOK_EQ, str_drop 1 str, O)
          else if ch t0 "(" then (TOK_LFT, str_drop 1 str, O)
          else if ch t0 ")" then (TOK_RGT, str_drop 1 str, O)
          else if ch t0 "&" && ch t1 "&" then (TOK_AND_VEC, str_drop 2 str, O)
          else if ch t0 "|" && ch t1 "|" then (TOK_OR_VEC, str_drop 2 str, O)
          else if ch t0 "&" then (TOK_AND, str_drop 1 str, O)
          else if ch t0 "|" then (TOK_OR, str_drop 1 str, O)
          else if ch t0 "+" then (TOK_ADD, str_drop 1 str, O)
          else if ch t0 "-" then (TOK_SUB, str_drop 1 str, O)
          else if ch t0 "*" then (TOK_MULT, str_drop 1 str, O)
          else if ch t0 "/" then (TOK_DIV, str_drop 1 str, O)
          else (TOK_VAL, str, span_len ends_rest str)
  end.

(** ** Binding a lexeme to the header *)

(** [atoi]: an optional sign and a run of digits, read as [strtol] reads
    them (a value outside the range of [long] is clamped to it) and
    converted to [int] (the low 32 bits are kept). *)
Fixpoint atoi_digits (s : string) (acc : Z) : Z :=
  match s with
  | String c r =>
      if isdigit c then atoi_digits r (10 * acc + Z.of_nat (nat_of_ascii c - 48)) else acc
  | EmptyString => acc
  end.

Definition long_of (v : Z) : Z := Z.max (- 2 ^ 63) (Z.min v (2 ^ 63 - 1)).

Definition int_of_long (v : Z) : Z := (v + 2 ^ 31) mod 2 ^ 32 - 2 ^ 31.

Definition atoi (s : string) : Z :=
  let s := skip_space s in
  int_of_long (long_of
    match s with
    | String c r =>
        if ch c "-" then - atoi_digits r 0
        else if ch c "+" then atoi_digits r 0
        else atoi_digits s 0
    | EmptyString => 0
    end).

(** The setter of a FORMAT field, by its declared type. *)
Definition bind_format (hdr : bcf_hdr_t) (name : string) (tok : token_t)
  : outcome token_t :=
  if negb (bcf_hdr_idinfo_exists hdr BCF_HL_FMT (hdr_id tok)) then
    error "No such FORMAT field"
  else if negb (bcf_hdr_id2number hdr BCF_HL_FMT (hdr_id tok) =? 1) then
    error "Error: Arrays must be subscripted"
  else
    let ty := bcf_hdr_id2type hdr BCF_HL_FMT (hdr_id tok) in
    if ty =? BCF_HT_INT then Ok (set_setter (Some ptr_filters_set_format_int) tok)
    else if ty =? BCF_HT_REAL then Ok (set_setter (Some ptr_filters_set_format_float) tok)
    else if ty =? BCF_HT_STR then
      Ok (set_is_str 1 (set_setter (Some ptr_filters_set_format_string) tok))
    else error "FIXME".

Definition filters_init1 (hdr : bcf_hdr_t) (max_unpack : Z) (str : string) (len : nat)
    (inside_func : Z) (tok : token_t) : outcome (Z * token_t) :=
  let tok := set_pass_site (-1) (set_hdr_id (-1) (set_tok_type TOK_VAL tok)) in
  (* is this a string constant? *)
  if is_quote (str_at str 0) then
    let quote := str_at str 0 in
    if negb (Ascii.eqb (str_at str (len - 1)) quote) then error "TODO"
    else
      let tok := set_key (Some (str_take (len - 2) (str_drop 1 str))) tok in
      let tok := hts_expand 1 tok in
      let* tok := store_value 0 (Fval (float_of_int (Z.of_nat len - 2))) tok in
      Ok (max_unpack, set_is_str 1 tok)
  else
    let special :=
      if has_prefix str "FMT/" || (strncmp str "FORMAT/" 4 =? 0) then
        inl (str_drop 4 str, (len - 4)%nat, 1)
      else if has_prefix str "INFO/" then inl (str_drop 5 str, (len - 5)%nat, 0)
      else if strncmp str "%QUAL" len =? 0 then
        inr (max_unpack,
             set_tag (Some "%QUAL"%string) (set_setter (Some ptr_filters_set_qual) tok))
      else if strncmp str "%TYPE" len =? 0 then
        inr (max_unpack,
             set_tag (Some "%TYPE"%string) (set_setter (Some ptr_filters_set_type) tok))
      else if strncmp str "%FILTER" len =? 0 then
        inr (Z.lor max_unpack BCF_UN_FLT,
             set_tag (Some "%FILTER"%string)
               (set_comparator (Some ptr_filters_cmp_filter) tok))
      else inl (str, len, -1) in
    match special with
    | inr done => Ok done
    | inl (str, len, is_fmt) =>
        let is_fmt := if is_fmt =? -1 then (if inside_func =? 0 then 0 else 1) else is_fmt in
        let max_unpack := if is_fmt =? 0 then max_unpack else Z.lor max_unpack BCF_UN_FMT in
        (* is this one of the VCF tags? For now do only INFO and QUAL *)
        let tmp := str_take len str in
        let tok := set_hdr_id (bcf_hdr_id2int hdr tmp) tok in
        if 0 <=? hdr_id tok then
          if negb (is_fmt =? 0) then
            let* tok := bind_format hdr tmp tok in
            Ok (max_unpack, set_tag (Some tmp) tok)
          else if negb (bcf_hdr_idinfo_exists hdr BCF_HL_INFO (hdr_id tok)) then
            error "No such INFO field"
          else
            let* tok :=
              if bcf_hdr_id2type hdr BCF_HL_INFO (hdr_id tok) =? BCF_HT_FLAG then
                Ok (set_setter (Some ptr_filters_set_info_flag) tok)
              else
                let tok :=
                  if bcf_hdr_id2type hdr BCF_HL_INFO (hdr_id tok) =? BCF_HT_STR
                  then set_is_str 1 tok else tok in
                if negb (bcf_hdr_id2number hdr BCF_HL_INFO (hdr_id tok) =? 1) then
                  error "Error: Arrays must be subscripted"
                else Ok (set_setter (Some ptr_filters_set_info) tok) in
            Ok (Z.lor max_unpack BCF_UN_INFO, set_tag (Some tmp) tok)
        else
          (* is it a substrict VCF vector tag? *)
          let* last_char :=
            if (String.length tmp =? 0)%nat then Undef "tmp.s[tmp.l-1] with tmp.l = 0"
            else Ok (str_at tmp (String.length tmp - 1)) in
          let subscripted :=
            if ch last_char "]" then
              let i := span_len (fun c => ch c "[") tmp in
              let name := str_take i tmp in
              let tok := set_hdr_id (bcf_hdr_id2int hdr name) tok in
              if 0 <=? hdr_id tok then
                Some (
                  let* tok :=
                    if negb (is_fmt =? 0) then bind_format hdr name tok
                    else if negb (bcf_hdr_idinfo_exists hdr BCF_HL_INFO (hdr_id tok)) then
                      error "No such INFO field"
                    else
                      let ty := bcf_hdr_id2type hdr BCF_HL_INFO (hdr_id tok) in
                      if ty =? BCF_HT_INT then
                        Ok (set_setter (Some ptr_filters_set_info_int) tok)
                      else if ty =? BCF_HT_REAL then
                        Ok (set_setter (Some ptr_filters_set_info_float) tok)
                      else if ty =? BCF_HT_STR then
                        error "fixme: String vectors not supported yet"
                      else error "FIXME" in
                  Ok (max_unpack, set_idx (atoi (str_drop (S i) tmp)) tok))
              else None
            else None in
          match subscripted with
          | Some r => r
          | None =>
              (* is it a value? *)
              let tmp' :=
                if ch last_char "]"
                then str_take (span_len (fun c => ch c "[") tmp) tmp else tmp in
              let tok :=
                if ch last_char "]"
                then set_hdr_id (bcf_hdr_id2int hdr tmp') tok else tok in
              let '(v, used, erange) := strtod tmp' in
              let tok := set_threshold v tok in
              if erange || negb (used =? len)%nat then
                error "Error: the tag is not defined in the VCF header"
              else Ok (max_unpack, tok)
          end
    end.

(** ** The shunting-yard compiler *)

(** An operator token of the output: a zero-filled token with its type. *)
Definition op_token (t : Z) : token_t := set_tok_type t token0.

Definition is_func (t : Z) : bool := (t =? TOK_MAX) || (t =? TOK_MIN) || (t =? TOK_AVG).

(** The right bracket: operators are moved to the output down to the left
    bracket, which is dropped. *)
Fixpoint pop_to_bracket (ops : list Z) (out : list token_t)
  : outcome (list Z * list token_t) :=
  match ops with
  | [] => error "Could not parse"
  | o :: rest =>
      if o =? TOK_LFT then Ok (rest, out)
      else pop_to_bracket rest (out ++ [op_token o])
  end.

(** [while ( nops>0 && op_prec[ret] < op_prec[ops[nops-1]] )]: operators of
    higher precedence are moved to the output. *)
Fixpoint pop_higher (ret : Z) (ops : list Z) (out : list token_t) (nfunc : Z)
  : outcome (list Z * list token_t * Z) :=
  match ops with
  | [] => Ok (ops, out, nfunc)
  | o :: rest =>
      let* p := op_prec_at ret in
      let* q := op_prec_at o in
      if p <? q then
        pop_higher ret rest (out ++ [op_token o]) (if is_func o then nfunc - 1 else nfunc)
      else Ok (ops, out, nfunc)
  end.

(** After the input is read the remaining operators are moved out. *)
Fixpoint pop_all (ops : list Z) (out : list token_t) : outcome (list token_t) :=
  match ops with
  | [] => Ok out
  | o :: rest =>
      if (o =? TOK_LFT) || (o =? TOK_RGT) then error "Could not parse the expression"
      else pop_all rest (out ++ [op_token o])
  end.

Record init_state := mk_init {
  i_tmp : string;          (* the cursor *)
  i_ops : list Z;          (* operators stack, the top first *)
  i_out : list token_t;    (* filter tokens, RPN *)
  i_last_op : Z;
  i_nfunc : Z;             (* inside funcs the default of tags is FMT *)
  i_max_unpack : Z
}.

(** The [while ( *tmp )] loop.  Every turn that does not leave the loop
    moves the cursor, so [String.length str + 1] turns are enough. *)
Fixpoint filter_init_loop (hdr : bcf_hdr_t) (fuel : nat) (st : init_state)
  : outcome init_state :=
  match fuel with
  | O => Undef "lexer made no progress"
  | S fuel' =>
      if (String.length (i_tmp st) =? 0)%nat then Ok st
      else
        let '(ret, tmp, len) := filters_next_token (i_tmp st) in
        if ret =? -1 then error "Missing quotes"
        else if ret =? TOK_LFT then
          (* left bracket *)
          filter_init_loop hdr fuel'
            (mk_init tmp (ret :: i_ops st) (i_out st) ret (i_nfunc st) (i_max_unpack st))
        else if ret =? TOK_RGT then
          (* right bracket *)
          let* (ops, out) := pop_to_bracket (i_ops st) (i_out st) in
          filter_init_loop hdr fuel'
            (mk_init tmp ops out ret (i_nfunc st) (i_max_unpack st))
        else if negb (ret =? TOK_VAL) then
          (* one of the operators *)
          let* (ret, ops, out, nfunc) :=
            if (ret =? TOK_SUB) && negb (i_last_op st =? TOK_VAL)
               && negb (i_last_op st =? TOK_RGT) then
              (* detect unary minus: replace -value with -1*(value) *)
              let tok :=
                set_threshold (float_of_int (-1))
                  (set_pass_site (-1) (set_hdr_id (-1) (set_tok_type TOK_VAL token0))) in
              Ok (TOK_MULT, i_ops st, i_out st ++ [tok], i_nfunc st)
            else
              let* (ops, out, nfunc) := pop_higher ret (i_ops st) (i_out st) (i_nfunc st) in
              Ok (ret, ops, out, nfunc) in
          filter_init_loop hdr fuel'
            (mk_init tmp (ret :: ops) out ret
               (if is_func ret then nfunc + 1 else nfunc) (i_max_unpack st))
        else if (len =? 0)%nat then
          if negb (String.length tmp =? 0)%nat && negb (isspace (str_at tmp 0)) then
            error "Could not parse the expression"
          else
            (* all tokens read *)
            Ok (mk_init tmp (i_ops st) (i_out st) (i_last_op st) (i_nfunc st)
                  (i_max_unpack st))
        else
          (* annotation name or filtering value *)
          let* (max_unpack, tok) :=
            filters_init1 hdr (i_max_unpack st) tmp len (i_nfunc st) token0 in
          filter_init_loop hdr fuel'
            (mk_init (str_drop len tmp) (i_ops st) (i_out st ++ [tok]) ret (i_nfunc st)
               max_unpack)
  end.

Definition rdz {A} (l : list A) (i : Z) : outcome A :=
  if i <? 0 then Undef "read before the start of an array" else rd l (Z.to_nat i).

Definition wrz {A} (l : list A) (i : Z) (x : A) : outcome (list A) :=
  if i <? 0 then Undef "write before the start of an array" else wr l (Z.to_nat i) x.

(** The string operand of a %TYPE or %FILTER token: the token just after
    it, or the one just before when a comparison follows. *)
Definition literal_index (out : list token_t) (i : Z) : outcome Z :=
  if i + 1 =? Z.of_nat (length out) then error "Could not parse the expression"
  else
    let* nxt := rdz out (i + 1) in
    if (tok_type nxt =? TOK_EQ) || (tok_type nxt =? TOK_NE) then Ok (i - 1) else Ok (i + 1).

Definition type_code (k : string) : option Z :=
  if (strcasecmp k "snp" =? 0) || (strcasecmp k "snps" =? 0) then Some VCF_SNP
  else if (strcasecmp k "indel" =? 0) || (strcasecmp k "indels" =? 0) then Some VCF_INDEL
  else if (strcasecmp k "mnp" =? 0) || (strcasecmp k "mnps" =? 0) then Some VCF_MNP
  else if strcasecmp k "other" =? 0 then Some VCF_OTHER
  else if strcasecmp k "ref" =? 0 then Some VCF_REF
  else None.

(** The walk that converts the string operands of %TYPE and %FILTER.  A
    token is visited at most twice, so [2 * nout + 2] turns are enough. *)
Fixpoint resolve_specials (hdr : bcf_hdr_t) (fuel : nat) (i : Z) (out : list token_t)
  : outcome (list token_t) :=
  match fuel with
  | O => Undef "special-form walk made no progress"
  | S fuel' =>
      if negb (i <? Z.of_nat (length out)) then Ok out
      else
        let* tok := rdz out i in
        if negb (tok_type tok =? TOK_VAL) then resolve_specials hdr fuel' (i + 1) out
        else
          match tag tok with
          | None => resolve_specials hdr fuel' (i + 1) out
          | Some tg =>
              if strcmp tg "%TYPE" =? 0 then
                let* j := literal_index out i in
                let* lit := rdz out j in
                match (if tok_type lit =? TOK_VAL then key lit else None) with
                | None => error "Could not parse the expression"
                | Some k =>
                    match type_code k with
                    | None => error "The type not recognised"
                    | Some code =>
                        let lit := set_is_str 0 (set_threshold (float_of_int code) lit) in
                        let lit := set_key None (set_tag (Some k) lit) in
                        let* out := wrz out j lit in
                        resolve_specials hdr fuel' (j + 1) out
                    end
                end
              else if strcmp tg "%FILTER" =? 0 then
                let* j := literal_index out i in
                let* lit := rdz out j in
                match (if tok_type lit =? TOK_VAL then key lit else None) with
                | None =>
                    error "Could not parse the expression, an unquoted string value perhaps?"
                | Some k =>
                    let* lit :=
                      if negb (strcmp "." k =? 0) then
                        let lit := set_hdr_id (bcf_hdr_id2int hdr k) lit in
                        if negb (bcf_hdr_idinfo_exists hdr BCF_HL_FLT (hdr_id lit)) then
                          error "The filter not present in the VCF header"
                        else Ok lit
                      else Ok (set_hdr_id (-1) lit) in
                    let lit := set_key None (set_tag (Some k) lit) in
                    let* out := wrz out j lit in
                    let* tok := rdz out i in
                    let* out := wrz out i (set_hdr_id (hdr_id lit) tok) in
                    resolve_specials hdr fuel' (j + 1) out
                end
              else resolve_specials hdr fuel' (i + 1) out
          end
  end.

(** The last loop of [filter_init]: functions get their setter, every token
    gets one value cell and, when samples are used, a mask of ones. *)
Definition finish_token (nsamples : Z) (tok : token_t) : token_t :=
  let tok :=
    if tok_type tok =? TOK_MAX then set_tok_type TOK_FUNC (set_setter (Some ptr_set_max) tok)
    else if tok_type tok =? TOK_MIN then
      set_tok_type TOK_FUNC (set_setter (Some ptr_set_min) tok)
    else if tok_type tok =? TOK_AVG then
      set_tok_type TOK_FUNC (set_setter (Some ptr_set_avg) tok)
    else tok in
  let tok := hts_expand 1 tok in
  if negb (nsamples =? 0) then set_pass_samples (repeat 1 (Z.to_nat nsamples)) tok
  else tok.

(** Parse filter expression and convert to reverse polish notation. *)
Definition filter_init (hdr : bcf_hdr_t) (str : string) : outcome filter_t :=
  let* st :=
    filter_init_loop hdr (S (String.length str))
      (mk_init str [] [] (-1) 0 BCF_UN_STR) in
  let* out := pop_all (i_ops st) (i_out st) in
  let* out := resolve_specials hdr (2 * length out + 2) 0 out in
  let max_unpack := i_max_unpack st in
  let nsamples :=
    if negb (Z.land max_unpack BCF_UN_FMT =? 0) then bcf_hdr_nsamples hdr else 0 in
  Ok (mk_filter hdr str (map (finish_token nsamples) out) max_unpack nsamples).

End Compiler.

(** The restriction of [strtod] to unsigned decimal integers: the digits
    are read exactly and rounded once.  Numerals with a fraction, an
    exponent, a sign or a base prefix are outside this instance. *)
Fixpoint digits_of (s : string) (acc : Z) (n : nat) : Z * nat :=
  match s with
  | String c r =>
      if isdigit c then digits_of r (10 * acc + Z.of_nat (nat_of_ascii c - 48)) (S n)
      else (acc, n)
  | EmptyString => (acc, n)
  end.

Definition strtod_uint (s : string) : spec_float * nat * bool :=
  let '(v, n) := digits_of s 0 O in
  (float_of_int v, n, false).

(** * Properties *)

(** ** Headers and records used in the examples *)

(** A header with the filter PASS, the INFO/FORMAT field DP and the FORMAT
    fields GQ, A and B, all Integer with Number=1, for two samples. *)
Definition int1 : option bcf_idinfo_t := Some (mk_idinfo BCF_HT_INT 1).

Definition hdr_dict : list bcf_idpair_t :=
  [ mk_idpair "PASS" (Some (mk_idinfo BCF_HT_FLAG 0)) None None;
    mk_idpair "DP" None int1 int1;
    mk_idpair "GQ" None None int1;
    mk_idpair "A" None None int1;
    mk_idpair "B" None None int1 ].

Definition hdr2 : bcf_hdr_t := mk_hdr hdr_dict 2.
Definition hdr1 : bcf_hdr_t := mk_hdr hdr_dict 1.

(** The same for two samples, with the INFO field STR (String) and the
    FORMAT fields GL (Float) and FT (String) added. *)
Definition hdr_tags : bcf_hdr_t :=
  mk_hdr (hdr_dict ++ [ mk_idpair "STR" None (Some (mk_idinfo BCF_HT_STR 1)) None;
                        mk_idpair "GL" None None (Some (mk_idinfo BCF_HT_REAL 1));
                        mk_idpair "FT" None None (Some (mk_idinfo BCF_HT_STR 1)) ]) 2.

Definition fnum (z : Z) : float32 := Fval (float_of_int z).

(** A SNP record with the given QUAL and per-sample GQ, no INFO field and
    no filter. *)
Definition rec_gq (q : float32) (gq : list Z) : bcf1_t :=
  mk_bcf1 q VCF_SNP [] [mk_fmt 2 (FmtInt gq)] [].

(** The same record with the per-sample GL (Float) added. *)
Definition rec_gl (q : float32) (gq : list Z) (gl : list float32) : bcf1_t :=
  mk_bcf1 q VCF_SNP [] [mk_fmt 2 (FmtInt gq); mk_fmt 6 (FmtFloat gl)] [].

(** A record with the INFO string STR and the per-sample GQ. *)
Definition rec_str (bytes : string) (gq : list Z) : bcf1_t :=
  mk_bcf1 (fnum 30) VCF_SNP
    [mk_info 5 BCF_BT_CHAR (Z.of_nat (String.length bytes)) 0 bcf_float_missing [] []
       (list_ascii_of_string bytes)]
    [mk_fmt 2 (FmtInt gq)] [].

(** A record with the per-sample string FT. *)
Definition rec_ft (bytes : list ascii) : bcf1_t :=
  mk_bcf1 (fnum 30) VCF_SNP [] [mk_fmt 7 (FmtChar bytes)] [].

(** Compile, then evaluate one record asking for the sample mask. *)
Definition compile_and_test (h : bcf_hdr_t) (expr : string) (line : bcf1_t)
  : outcome (Z * option (list Z)) :=
  let* f := filter_init strtod_uint h expr in
  returned (filter_test f line true).

(** The token types of a compiled program, and the constants they hold. *)
Definition program_of (h : bcf_hdr_t) (expr : string) : outcome (list Z) :=
  let* f := filter_init strtod_uint h expr in Ok (map tok_type (filters f)).

Definition constants_of (h : bcf_hdr_t) (expr : string) : outcome (list spec_float) :=
  let* f := filter_init strtod_uint h expr in Ok (map threshold (filters f)).


(** ** Vocabulary of the statements *)

(** The %FILTER test of the record for a bound id: the id is in the
    record's filter list; the id -1 (the literal ".") stands for the empty
    list. *)
Definition filter_listed (id : Z) (line : bcf1_t) : Prop :=
  if decide (id = -1) then d_flt line = [] else In id (d_flt line).

(** A token holding [vals] as its values, with a mask of [n] cells. *)
Definition vector_token (vals : list float32) (nval nsmpl : Z) (mask : list Z) : token_t :=
  set_nsamples nsmpl (set_nvalues nval (set_pass_samples mask (set_values vals token0))).

(** The operand [2, 4] of %AVG in the example. *)
Definition tok_2_4 : token_t := vector_token [fnum 2; fnum 4] 2 2 [1; 1].

(** A string token: [nval] slots of [width] bytes. *)
Definition string_token (bytes : string) (width nval nsmpl : Z) (mask : list Z) : token_t :=
  set_is_str 1
    (set_str_value (Some (list_ascii_of_string bytes))
       (vector_token [fnum width] nval nsmpl mask)).

(** A record of one sample whose FORMAT field A has one value and whose
    field B has two. *)
Definition rec_a_b : bcf1_t :=
  mk_bcf1 (fnum 30) VCF_SNP [] [mk_fmt 3 (FmtInt [5]); mk_fmt 4 (FmtInt [3; 4])] [].

(** A record that carries no INFO and no FORMAT field at all. *)
Definition rec_bare (flt : list Z) : bcf1_t := mk_bcf1 (fnum 30) VCF_SNP [] [] flt.

(** The two tokens of [%FILTER op 'name'] as the compiler leaves them: the
    %FILTER token carries the comparator and the id of the name. *)
Definition filter_tag_token (id : Z) : token_t :=
  set_nvalues 1 (set_values [fnum 0]
    (set_hdr_id id (set_comparator (Some ptr_filters_cmp_filter)
       (set_tag (Some "%FILTER"%string) token0)))).

Definition filter_name_token (id : Z) (name : string) : token_t :=
  set_nvalues 1 (set_values [fnum 0]
    (set_is_str 1 (set_hdr_id id (set_tag (Some name) token0)))).

(** 1 when some cell of the mask is set, else 0. *)
Definition some_pass (mask : list Z) : Z :=
  if existsb (fun b => negb (b =? 0)) mask then 1 else 0.

(** The cells of a mask are bytes. *)
Definition is_byte (b : Z) : Prop := 0 <= b < 256.

(** ** Static analysis of a postfix program

    An abstract run of the program: every token acts on a stack of
    abstract values.  [aval] gives the value pushed by a value token,
    [afunc] the effect of a function token on the top, [abin] the result of
    a binary operator. *)
Definition astep {D} (aval : token_t -> option D) (afunc : token_t -> D -> option D)
    (abin : Z -> D -> D -> option D) (t : token_t) (ds : list D) : option (list D) :=
  if tok_type t =? TOK_VAL then
    match aval t with Some d => Some (d :: ds) | None => None end
  else if tok_type t =? TOK_FUNC then
    match ds with
    | d :: r => match afunc t d with Some d' => Some (d' :: r) | None => None end
    | [] => None
    end
  else
    match ds with
    | db :: da :: r =>
        match abin (tok_type t) da db with Some d => Some (d :: r) | None => None end
    | _ => None
    end.

Fixpoint arun {D} (aval : token_t -> option D) (afunc : token_t -> D -> option D)
    (abin : Z -> D -> D -> option D) (prog : list token_t) (ds : list D)
  : option (list D) :=
  match prog with
  | [] => Some ds
  | t :: rest =>
      match astep aval afunc abin t ds with
      | Some ds' => arun aval afunc abin rest ds'
      | None => None
      end
  end.

Definition is_or (t : Z) : bool := (t =? TOK_OR) || (t =? TOK_OR_VEC).
Definition is_and (t : Z) : bool := (t =? TOK_AND) || (t =? TOK_AND_VEC).
Definition is_arith (t : Z) : bool :=
  (t =? TOK_ADD) || (t =? TOK_SUB) || (t =? TOK_MULT) || (t =? TOK_DIV).
Definition is_cmp (t : Z) : bool :=
  (t =? TOK_LE) || (t =? TOK_LT) || (t =? TOK_EQ) || (t =? TOK_BT) || (t =? TOK_BE)
  || (t =? TOK_NE).

Definition is_eq_ne (t : Z) : bool := (t =? TOK_EQ) || (t =? TOK_NE).

Definition has_comparator (t : token_t) : bool :=
  match comparator t with Some _ => true | None => false end.

(** *** The shape of a boolean expression

    A value token and the result of arithmetic or of a function are
    numbers; a comparison of two numbers and a logical operator on two
    truth values give a truth value. *)
Inductive kind := KNum | KBool.

Definition kind_val (t : token_t) : option kind := Some KNum.

Definition kind_func (t : token_t) (k : kind) : option kind :=
  match k with KNum => Some KNum | KBool => None end.

Definition kind_bin (t : Z) (ka kb : kind) : option kind :=
  match ka, kb with
  | KNum, KNum =>
      if is_arith t then Some KNum else if is_cmp t then Some KBool else None
  | KBool, KBool => if is_or t || is_and t then Some KBool else None
  | _, _ => None
  end.

(** The program is the postfix form of one boolean expression. *)
Definition shape (prog : list token_t) : option (list kind) :=
  arun kind_val kind_func kind_bin prog [].

(** *** Operands the kernels can take

    What a value token holds once it is evaluated on a record: nothing
    ([FMiss]); a scalar ([FScal]); one value per sample ([FVec]); the
    values of a float FORMAT field, which are counted but not marked as
    per-sample ([FWide]); or a string with its bytes ([FStr]).  The result
    of an operator has one of these forms too, and may be missing at run
    time whatever its form.  An operand also carries what the compiler
    gave its token: the string flag and the comparator of %FILTER. *)
Inductive form := FMiss | FScal | FVec | FWide | FStr.

Inductive class := CVal (f : form) (s c : bool) | CBool.

(** The bytes of a string operand cover the width of its slot. *)
Definition str_mem_okb (t : token_t) : bool :=
  match deref_str t, slot_width t with
  | Ok m, Ok w => (w <=? length m)%nat
  | _, _ => false
  end.

(** The class of an evaluated value token, for a filter of [N] samples. *)
Definition classify (N : Z) (t : token_t) : option class :=
  if (pass_site t =? -1)
     && (length (pass_samples t) =? Z.to_nat N)%nat
     && (1 <=? length (values t))%nat
     && ((is_str t =? 0) || (is_str t =? 1))
  then
    let s := is_str t =? 1 in
    let c := has_comparator t in
    if (nvalues t =? 0) && (nsamples t =? 0) then Some (CVal FMiss s c)
    else if (nsamples t =? 0) && (nvalues t =? 1) then
      Some (CVal (if s && str_mem_okb t then FStr else FScal) s c)
    else if (nsamples t =? 0) && (1 <? nvalues t) && (nvalues t <=? N)
            && (Z.to_nat N <=? length (values t))%nat then
      Some (CVal FWide s c)
    else if (0 <? N) && (nsamples t =? N) && (nvalues t =? N)
            && (Z.to_nat N <=? length (values t))%nat then
      Some (CVal FVec s c)
    else None
  else None.

(** A value token is classified by what it evaluates to on the record. *)
Definition class_val (filter : filter_t) (line : bcf1_t) (t : token_t) : option class :=
  match filter_test_value filter line (reset_token t) with
  | Ok t' => classify (flt_nsamples filter) t'
  | _ => None
  end.

(** %MAX, %MIN and %AVG turn any operand into a scalar. *)
Definition class_func (t : token_t) (a : class) : option class :=
  match setter t, a with
  | Some (ptr_set_max | ptr_set_min | ptr_set_avg), CVal _ s c => Some (CVal FScal s c)
  | _, _ => None
  end.

(** The form of [a op b] for an arithmetic operator.  The loop over a
    float FORMAT vector on the left reads as many cells of the right
    operand, which a scalar and a string do not have. *)
Definition arith_form (fa fb : form) : option form :=
  match fa, fb with
  | FMiss, _ | _, FMiss => Some FMiss
  | FWide, FVec => Some FVec
  | FWide, FWide => Some FWide
  | FWide, (FScal | FStr) => None
  | FVec, _ => Some FVec
  | (FScal | FStr), FVec => Some FVec
  | (FScal | FStr), _ => Some FScal
  end.

(** The operators.  The result lives in the left operand and keeps its
    flags.  A comparison with a missing operand is settled before anything
    else is looked at; [==] and [!=] go to the comparator of %FILTER when
    one operand has it; strings are compared with strings, by [==] and
    [!=] only, and the mask must have a cell to write to. *)
Definition class_bin (N : Z) (t : Z) (a b : class) : option class :=
  match a, b with
  | CVal fa sa ca, CVal fb sb cb =>
      let missing := match fa, fb with FMiss, _ | _, FMiss => true | _, _ => false end in
      if is_arith t then
        match arith_form fa fb with
        | Some f => Some (CVal f sa ca)
        | None => None
        end
      else if is_cmp t then
        if missing then Some CBool
        else if is_eq_ne t && (ca || cb) then Some CBool
        else if sa || sb then
          match fa, fb with
          | FStr, FStr => if sa && sb && is_eq_ne t && (0 <? N) then Some CBool else None
          | _, _ => None
          end
        else Some CBool
      else None
  | CBool, CBool => if is_or t || is_and t then Some CBool else None
  | _, _ => None
  end.

(** Every operator of the program finds operands it can take on this
    record, and one truth value is left. *)
Definition operands_ok (filter : filter_t) (line : bcf1_t) : bool :=
  match arun (class_val filter line) class_func (class_bin (flt_nsamples filter))
          (filters filter) [] with
  | Some [CBool] => true
  | _ => false
  end.

(** *** Propagation of missing values

    With every field absent: a field is missing and a constant is present;
    arithmetic, comparison and AND are missing when either operand is; OR
    is missing when both are.  A present operand carries the string flag
    and the comparator of its token, and whether it is a quoted string
    with its bytes: two present operands are compared as numbers, by [==]
    and [!=] through the comparator of %FILTER, or by [==] and [!=] as two
    quoted strings when the mask has a cell to write to.  [Bmiss] is a
    missing truth value whose site bit is 0, [Bany] any other truth
    value. *)
Inductive presence := Nmiss | Npres (s c m : bool) | Bmiss | Bany.

Definition absent_val (t : token_t) : option presence :=
  match setter t with
  | Some _ => Some Nmiss
  | None =>
      if (is_str t =? 0) || (is_str t =? 1) then
        match key t, values t with
        | Some k, Fval _ :: _ =>
            Some (Npres (is_str t =? 1) (has_comparator t)
                    (str_mem_okb (set_str_value (Some (list_ascii_of_string k ++ [zero])) t)))
        | Some _, _ => None
        | None, _ => Some (Npres (is_str t =? 1) (has_comparator t) false)
        end
      else None
  end.

Definition absent_func (t : token_t) (p : presence) : option presence := None.

Definition absent_bin (N : Z) (t : Z) (a b : presence) : option presence :=
  match a, b with
  | (Nmiss | Npres _ _ _), (Nmiss | Npres _ _ _) =>
      if is_arith t then
        Some (match a, b with Npres s c _, Npres _ _ _ => Npres s c false | _, _ => Nmiss end)
      else if is_cmp t then
        match a, b with
        | Npres sa ca ma, Npres sb cb mb =>
            if is_eq_ne t && (ca || cb) then Some Bany
            else if sa || sb then
              if sa && sb && (ma && mb) && is_eq_ne t && (0 <? N) then Some Bany else None
            else Some Bany
        | _, _ => Some Bmiss
        end
      else None
  | (Bmiss | Bany), (Bmiss | Bany) =>
      if is_and t then Some (match a, b with Bany, Bany => Bany | _, _ => Bmiss end)
      else if is_or t then Some (match a, b with Bmiss, Bmiss => Bmiss | _, _ => Bany end)
      else None
  | _, _ => None
  end.

(** The result of the program is missing when every field is absent. *)
Definition propagated (N : Z) (prog : list token_t) : option (list presence) :=
  arun absent_val absent_func (absent_bin N) prog [].

(** Every value token bound to a setter finds its field absent in the
    record: the setter returns with [nvalues = 0]. *)
Definition field_absentb (filter : filter_t) (line : bcf1_t) (t : token_t) : bool :=
  if tok_type t =? TOK_VAL then
    match setter t with
    | Some f =>
        match call_setter f filter line (reset_token t) with
        | Ok t' => nvalues t' =? 0
        | _ => false
        end
    | None => true
    end
  else true.

Definition fields_absent (filter : filter_t) (line : bcf1_t) : bool :=
  forallb (field_absentb filter line) (filters filter).

(** The buffers as [filter_init] leaves them: one value cell at least and a
    mask of one cell per sample in every token. *)
Definition initialised (filter : filter_t) : bool :=
  forallb (fun t => (1 <=? length (values t))%nat
                    && (length (pass_samples t) =? Z.to_nat (flt_nsamples filter))%nat)
    (filters filter).

(** The indices of the stack decrease from the top and lie below [k]. *)
Fixpoint stack_below (k : nat) (stack : list nat) : Prop :=
  match stack with
  | [] => True
  | j :: rest => (j < k)%nat /\ stack_below j rest
  end.

(** The tokens on the stack are described, one by one, by the abstract
    values [ds]; [conc d t] says that [d] describes the token [t]. *)
Definition stack_rel {D} (conc : D -> token_t -> Prop) (fs : list token_t)
    (stack : list nat) (ds : list D) : Prop :=
  Forall2 (fun j d => exists t, fs !! j = Some t /\ conc d t) stack ds.

(** The state of the evaluator before the token [k]: the tokens from [k] on
    are as compiled, the stack is described by some [ds], and the abstract
    run of the rest of the program from [ds] ends in [final]. *)
Definition run_inv {D} (conc : D -> token_t -> Prop) (aval : token_t -> option D)
    (afunc : token_t -> D -> option D) (abin : Z -> D -> D -> option D)
    (prog : list token_t) (final : list D) (k : nat) (st : eval_state) : Prop :=
  length st.1 = length prog
  /\ (forall j, (k <= j)%nat -> st.1 !! j = prog !! j)
  /\ stack_below k st.2
  /\ exists ds, stack_rel conc st.1 st.2 ds
       /\ arun aval afunc abin (drop k prog) ds = Some final.

(** The flags of a token are [s] and [c]. *)
Definition attrs_ok (s c : bool) (t : token_t) : Prop :=
  is_str t = (if s then 1 else 0) /\ has_comparator t = c.

(** What a [presence] says of a token, for a mask of [N] cells. *)
Definition conc_presence (N : nat) (p : presence) (t : token_t) : Prop :=
  length (pass_samples t) = N
  /\ match p with
     | Nmiss => nvalues t = 0
     | Npres s c m =>
         nvalues t = 1 /\ nsamples t = 0 /\ attrs_ok s c t
         /\ (exists x, values t !! 0%nat = Some (Fval x))
         /\ (m = true -> str_mem_okb t = true)
     | Bmiss => nvalues t = 0 /\ nsamples t = 0 /\ pass_site t = 0
     | Bany => nsamples t = 0 /\ (pass_site t = 0 \/ pass_site t = 1)
     end.

(** The compiled filter of an expression (an empty filter when the
    expression is rejected). *)
Definition compiled (h : bcf_hdr_t) (expr : string) : filter_t :=
  match filter_init strtod_uint h expr with
  | Ok f => f
  | _ => mk_filter h expr [] 0 0
  end.

(** An evaluated operand for a filter of [N] samples carries no site bit
    yet, and has a mask of [N] cells and one value cell at least. *)
Definition base_ok (N : Z) (t : token_t) : Prop :=
  pass_site t = -1 /\ length (pass_samples t) = Z.to_nat N
  /\ (1 <= length (values t))%nat.

(** A site-level operand: its values are counted, there are no more of
    them than samples when there are several, and they lie in its buffer. *)
Definition site_ok (N : Z) (t : token_t) : Prop :=
  nsamples t = 0 /\ 0 <= nvalues t <= Z.max 1 N
  /\ (Z.to_nat (nvalues t) <= length (values t))%nat.

(** A per-sample operand: one value for each of the [N] samples. *)
Definition vec_ok (N : Z) (t : token_t) : Prop :=
  0 < N /\ nsamples t = N /\ nvalues t = N /\ (Z.to_nat N <= length (values t))%nat.

Definition form_ok (N : Z) (f : form) (t : token_t) : Prop :=
  match f with
  | FMiss => nvalues t = 0 /\ nsamples t = 0
  | FScal => nsamples t = 0 /\ (nvalues t = 0 \/ nvalues t = 1)
  | FVec => (nvalues t = 0 /\ nsamples t = 0) \/ vec_ok N t
  | FWide => site_ok N t /\ (Z.to_nat N <= length (values t))%nat
  | FStr => nvalues t = 1 /\ nsamples t = 0 /\ str_mem_okb t = true
  end.

(** Any operand the kernels can read: site-level or per-sample. *)
Definition operand_ok (N : Z) (t : token_t) : Prop :=
  length (pass_samples t) = Z.to_nat N /\ (1 <= length (values t))%nat
  /\ (site_ok N t \/ vec_ok N t).

(** What arithmetic leaves in its left operand [a]: it kept its flags and
    its buffers; it is missing, or counts what it counted, or became
    per-sample under a per-sample right operand. *)
Definition arith_result (N : Z) (a b a' : token_t) : Prop :=
  base_ok N a' /\ is_str a' = is_str a /\ comparator a' = comparator a
  /\ (length (values a) <= length (values a'))%nat
  /\ ((nvalues a' = 0 /\ nsamples a' = 0)
      \/ (nvalues a <> 0 /\ nvalues b <> 0
          /\ ((nvalues a' = nvalues a /\ nsamples a' = nsamples a
               /\ (nsamples a <> 0 \/ nsamples b = 0))
              \/ (vec_ok N a' /\ nsamples a = 0 /\ nsamples b <> 0)))).

(** A truth value for a filter of [N] samples: a site bit, and a mask that
    is in use for no sample or for all of them. *)
Definition bool_ok (N : Z) (t : token_t) : Prop :=
  length (pass_samples t) = Z.to_nat N
  /\ (pass_site t = 0 \/ pass_site t = 1)
  /\ 0 <= nvalues t
  /\ ((nsamples t = 0 /\ nvalues t <= Z.max 1 N)
      \/ (nsamples t = N /\ 0 < N /\ nvalues t <= N)).

Definition conc_class (N : Z) (k : class) (t : token_t) : Prop :=
  match k with
  | CVal f s c => base_ok N t /\ attrs_ok s c t /\ form_ok N f t
  | CBool => bool_ok N t
  end.

(** What a [kind] says of a token: a truth value holds a site bit. *)
Definition conc_kind (k : kind) (t : token_t) : Prop :=
  match k with
  | KNum => True
  | KBool => pass_site t = 0 \/ pass_site t = 1
  end.

(** [t] is [t0] with other contents in its value cells. *)
Definition keeps_values (t0 t : token_t) : Prop :=
  exists vs, t = set_values vs t0 /\ length vs = length (values t0).

(** [t] is [t0] with other contents in its mask cells. *)
Definition keeps_mask (t0 t : token_t) : Prop :=
  exists m, t = set_pass_samples m t0 /\ length m = length (pass_samples t0).

(** *** Programs that differ in the flavor of their ANDs *)

(** Two tokens are the same, or are two AND operators of either flavor. *)
Definition same_but_and_flavor (t1 t2 : token_t) : Prop :=
  t1 = t2
  \/ (is_and (tok_type t1) = true /\ is_and (tok_type t2) = true
      /\ t2 = set_tok_type (tok_type t2) t1).

(** Two outcomes are of the same kind, with related results. *)
Definition orel {A B} (R : A -> B -> Prop) (m1 : outcome A) (m2 : outcome B) : Prop :=
  match m1, m2 with
  | Ok a, Ok b => R a b
  | Fatal x, Fatal y => x = y
  | Undef x, Undef y => x = y
  | _, _ => False
  end.

(** Two states of the evaluator before the token [k]: the same stack, the
    same tokens under it, and stores that differ in AND flavors only. *)
Definition flavor_sim (k : nat) (s1 s2 : eval_state) : Prop :=
  s1.2 = s2.2
  /\ stack_below k s1.2
  /\ Forall2 same_but_and_flavor s1.1 s2.1
  /\ Forall (fun j => s1.1 !! j = s2.1 !! j) s1.2.

(** Two stores that differ in AND flavors only and agree on the tokens of
    the stack. *)
Definition stores_sim (stack : list nat) (fs1 fs2 : list token_t) : Prop :=
  Forall2 same_but_and_flavor fs1 fs2
  /\ Forall (fun j => fs1 !! j = fs2 !! j) stack.

(** ** Vocabulary of the further properties *)

(** The outcome is the undefined behaviour named [what]. *)
Definition is_undef_of {A} (what : string) (m : outcome A) : bool :=
  match m with Undef w => String.eqb w what | _ => false end.

(** The two outcomes that stand for a loop that never ends: the loop over
    the input of [filter_init] and its walk over %TYPE and %FILTER. *)
Definition no_fuel (what : string) : Prop :=
  what = "lexer made no progress"%string
  \/ what = "special-form walk made no progress"%string.

(** The tokens of an expression in postfix order, as [filter_init] holds
    them before its walk over %TYPE and %FILTER. *)
Definition postfix_of (strtod : string -> spec_float * nat * bool) (h : bcf_hdr_t)
    (expr : string) : outcome (list token_t) :=
  let* st :=
    filter_init_loop strtod h (S (String.length expr))
      (mk_init expr [] [] (-1) 0 BCF_UN_STR) in
  pop_all (i_ops st) (i_out st).

(** The tokens at which the walk stops: a value token tagged %TYPE or
    %FILTER. *)
Definition is_special (t : token_t) : bool :=
  (tok_type t =? TOK_VAL)
  && match tag t with
     | Some tg => (strcmp tg "%TYPE" =? 0) || (strcmp tg "%FILTER" =? 0)
     | None => false
     end.

(** The binary operators of the evaluator. *)
Definition is_operator (t : Z) : bool := is_or t || is_and t || is_arith t || is_cmp t.

(** The tokens the evaluator knows: a value, a binary operator, or a
    function with one of the three setters. *)
Definition token_kind_ok (t : token_t) : bool :=
  (tok_type t =? TOK_VAL)
  || is_operator (tok_type t)
  || ((tok_type t =? TOK_FUNC)
      && match setter t with
         | Some ptr_set_max | Some ptr_set_min | Some ptr_set_avg => true
         | _ => false
         end).

(** What the operator stack of [filter_init] holds: left brackets,
    operators and the names of functions. *)
Definition valid_op (o : Z) : Prop :=
  o = TOK_LFT \/ is_operator o || is_func o = true.

(** The table of %TYPE literals, on a literal in lower case. *)
Definition type_of_name (l : string) : option Z :=
  if String.eqb l "snp" || String.eqb l "snps" then Some VCF_SNP
  else if String.eqb l "indel" || String.eqb l "indels" then Some VCF_INDEL
  else if String.eqb l "mnp" || String.eqb l "mnps" then Some VCF_MNP
  else if String.eqb l "other" then Some VCF_OTHER
  else if String.eqb l "ref" then Some VCF_REF
  else None.

(** Every character of the string satisfies [p]. *)
Fixpoint str_forall (p : ascii -> bool) (s : string) : bool :=
  match s with
  | EmptyString => true
  | String c r => p c && str_forall p r
  end.

(** The setter and the string flag of a FORMAT field of a given type. *)
Definition format_setter_of (ty : Z) : option (setter_fn * Z) :=
  if ty =? BCF_HT_INT then Some (ptr_filters_set_format_int, 0)
  else if ty =? BCF_HT_REAL then Some (ptr_filters_set_format_float, 0)
  else if ty =? BCF_HT_STR then Some (ptr_filters_set_format_string, 1)
  else None.

(** A value token as [filters_init1] starts it. *)
Definition fresh_value : token_t :=
  set_pass_site (-1) (set_hdr_id (-1) (set_tok_type TOK_VAL token0)).

(** The cells of a vector INFO field as [bcf_get_info_value] reads them:
    for each cell, whether it is the vector end, whether it is missing,
    and the value handed out. *)
Definition info_cells (info : bcf_info_t) : list (bool * bool * info_value) :=
  if info_type info =? BCF_BT_INT8 then
    map (fun x => (bcf_int8_vector_end =? x, bcf_int8_missing =? x, IVint x)) (vptr_i info)
  else if info_type info =? BCF_BT_INT16 then
    map (fun x => (bcf_int16_vector_end =? x, bcf_int16_missing =? x, IVint x)) (vptr_i info)
  else if info_type info =? BCF_BT_INT32 then
    map (fun x => (bcf_int32_vector_end =? x, bcf_int32_missing =? x, IVint x)) (vptr_i info)
  else if info_type info =? BCF_BT_FLOAT then
    map (fun x => (bcf_float_is_vector_end x, bcf_float_is_missing x, IVfloat x))
      (vptr_f info)
  else [].

Definition is_vector_type (ty : Z) : bool :=
  (ty =? BCF_BT_INT8) || (ty =? BCF_BT_INT16) || (ty =? BCF_BT_INT32) || (ty =? BCF_BT_FLOAT).

Definition cell_is_end (c : bool * bool * info_value) : bool := c.1.1.
Definition cell_is_missing (c : bool * bool * info_value) : bool := c.1.2.
Definition cell_value (c : bool * bool * info_value) : info_value := c.2.

(** A record whose INFO field 1 is the vector 7, 8, 9 of 32-bit integers. *)
Definition info_vec : bcf_info_t :=
  mk_info 1 BCF_BT_INT32 3 0 (Fval (S754_zero false)) [7; 8; 9] [] [].

Definition rec_info_vec : bcf1_t := mk_bcf1 (fnum 30) VCF_SNP [info_vec] [] [].

(** The two sentinels of a 32-bit FORMAT integer, and the float cell that
    [filters_set_format_int] makes of an integer. *)
Definition is_int_sentinel (x : Z) : bool :=
  (x =? bcf_int32_missing) || (x =? bcf_int32_vector_end).

Definition int_cell (x : Z) : float32 :=
  if is_int_sentinel x then bcf_float_missing else Fval (float_of_int x).

(** One cell of an arithmetic result: missing when either operand cell is,
    else the float operation on the two cells. *)
Definition arith_cell (AOP : spec_float -> spec_float -> spec_float) (a b : float32)
  : float32 :=
  if bcf_float_is_missing a || bcf_float_is_missing b then bcf_float_missing
  else Fval (AOP (to_sf a) (to_sf b)).

(** The cells that [VECTOR_ARITHMETICS] leaves for a scalar [a0] and the
    vector [bs]: cell 0 is made of [a0], and the cells after it of cell 0. *)
Definition scalar_vector_cells (AOP : spec_float -> spec_float -> spec_float)
    (a0 : float32) (bs : list float32) : list float32 :=
  match bs with
  | [] => []
  | b0 :: rest =>
      let r0 := arith_cell AOP a0 b0 in
      r0 :: map (arith_cell AOP r0) rest
  end.

(** The token is missing when no cell holds a value, and else has the
    given counts. *)
Definition counts_after (cells : list float32) (nv ns : Z) (t : token_t) : Prop :=
  if forallb bcf_float_is_missing cells then nvalues t = 0 /\ nsamples t = 0
  else nvalues t = nv /\ nsamples t = ns.

(** A scalar operand holding the number [z]. *)
Definition scalar_token (z : Z) : token_t := vector_token [fnum z] 1 0 [].

(** One cell of the mask of a comparison with the present value [b]: a
    missing cell fails. *)
Definition cmp_cell (CMP : spec_float -> spec_float -> bool) (b a : float32) : Z :=
  if bcf_float_is_missing a then 0
  else if CMP (to_sf a) (to_sf b) then 1 else 0.
(** ** Loops and arrays *)

Lemma bind_ok {A B} (m : outcome A) (k : A -> outcome B) (b : B) :
  bind m k = Ok b -> exists a, m = Ok a /\ k a = Ok b.
Proof. destruct m; simpl; intros H; try discriminate. eauto. Qed.

Lemma rd_ok {A} (l : list A) (i : nat) :
  (i < length l)%nat -> exists x, l !! i = Some x /\ rd l i = Ok x.
Proof.
  intros H. destruct (lookup_lt_is_Some_2 l i H) as [x Hx].
  exists x. split; [done|]. unfold rd. by rewrite Hx.
Qed.

Lemma rd_lookup {A} (l : list A) (i : nat) (x : A) : l !! i = Some x -> rd l i = Ok x.
Proof. intros H. unfold rd. by rewrite H. Qed.

Lemma wr_ok {A} (l : list A) (i : nat) (x : A) :
  (i < length l)%nat -> wr l i x = Ok (<[i:=x]> l).
Proof. intros H. unfold wr. destruct (decide (i < length l)%nat); [done|lia]. Qed.

Lemma wr_inv {A} (l l' : list A) (i : nat) (x : A) :
  wr l i x = Ok l' -> (i < length l)%nat /\ l' = <[i:=x]> l.
Proof.
  unfold wr. destruct (decide (i < length l)%nat); intros H; [|discriminate].
  by inversion H.
Qed.

(** A loop whose body keeps an invariant, and never fails under it, runs to
    its end and establishes the invariant there. *)
Lemma for_from_inv {St} (P : nat -> St -> Prop) (body : nat -> St -> outcome St) :
  forall (n i : nat) (s : St),
    P i s ->
    (forall k s, (i <= k < i + n)%nat -> P k s -> exists s', body k s = Ok s' /\ P (S k) s') ->
    exists s', for_from i n body s = Ok s' /\ P (i + n)%nat s'.
Proof.
  induction n as [|n IH]; intros i s HP Hbody; simpl.
  - exists s. split; [done|]. by replace (i + 0)%nat with i by lia.
  - destruct (Hbody i s) as (s1 & Hs1 & HP1); [lia|done|].
    rewrite Hs1. simpl.
    destruct (IH (S i) s1 HP1) as (s2 & Hs2 & HP2).
    + intros k s0 Hk. apply Hbody. lia.
    + exists s2. split; [done|]. by replace (i + S n)%nat with (S i + n)%nat by lia.
Qed.

Lemma for_loop_inv {St} (P : nat -> St -> Prop) (body : nat -> St -> outcome St)
    (n : Z) (s : St) :
  P O s ->
  (forall k s, (k < Z.to_nat n)%nat -> P k s -> exists s', body k s = Ok s' /\ P (S k) s') ->
  exists s', for_loop n body s = Ok s' /\ P (Z.to_nat n) s'.
Proof.
  intros HP Hbody. unfold for_loop.
  apply (for_from_inv P body (Z.to_nat n) O s HP).
  intros k s0 Hk. apply Hbody. lia.
Qed.

(** What a completed loop has established, whatever its body. *)
Lemma for_from_post {St} (P : nat -> St -> Prop) (body : nat -> St -> outcome St) :
  forall (n i : nat) (s s' : St),
    P i s ->
    (forall k s s', (i <= k < i + n)%nat -> P k s -> body k s = Ok s' -> P (S k) s') ->
    for_from i n body s = Ok s' -> P (i + n)%nat s'.
Proof.
  induction n as [|n IH]; intros i s s' HP Hbody; simpl.
  - intros H. inversion H; subst. by replace (i + 0)%nat with i by lia.
  - intros H. apply bind_ok in H as (s1 & Hs1 & H).
    replace (i + S n)%nat with (S i + n)%nat by lia.
    apply (IH (S i) s1 s'); [|intros k s0 s0' Hk; apply Hbody; lia|done].
    apply (Hbody i s s1); [lia|done|done].
Qed.

Lemma for_loop_post {St} (P : nat -> St -> Prop) (body : nat -> St -> outcome St)
    (n : Z) (s s' : St) :
  P O s ->
  (forall k s s', (k < Z.to_nat n)%nat -> P k s -> body k s = Ok s' -> P (S k) s') ->
  for_loop n body s = Ok s' -> P (Z.to_nat n) s'.
Proof.
  intros HP Hbody. unfold for_loop.
  apply (for_from_post P body (Z.to_nat n) O s s' HP).
  intros k s0 s0' Hk. apply Hbody. lia.
Qed.

(** ** The %AVG function *)

(** C7 (the code departs from the claim).  The claim asks for the mean of
    the non-missing values.  [set_avg] never counts them: whenever it
    returns, cell 0 of the operand holds +0, the operand is a scalar, and
    this whatever the values were. *)
Theorem set_avg_stores_zero (flt : filter_t) (line : bcf1_t) (tok tok' : token_t) :
  set_avg flt line tok = Ok tok' ->
  values tok' !! 0%nat = Some (Fval (S754_zero false))
  /\ nvalues tok' = 1 /\ nsamples tok' = 0.
Proof.
  unfold set_avg. intros H.
  apply bind_ok in H as (val & _ & H).
  apply bind_ok in H as (t1 & Hst & H).
  inversion H; subst; clear H. simpl.
  unfold store_value in Hst.
  apply bind_ok in Hst as (v & Hv & Hst). inversion Hst; subst; clear Hst.
  apply wr_inv in Hv as [Hlen ->]. simpl.
  repeat split. by apply list_lookup_insert_eq.
Qed.

Lemma set_avg_stores_zero_witness :
  exists tok', set_avg (mk_filter hdr2 "" [] 0 0) (rec_bare []) tok_2_4 = Ok tok'
    /\ values tok' !! 0%nat = Some (Fval (S754_zero false))
    /\ nvalues tok' = 1 /\ nsamples tok' = 0.
Proof.
  eexists. split; [vm_compute; reflexivity|].
  eapply (set_avg_stores_zero (mk_filter hdr2 "" [] 0 0) (rec_bare []) tok_2_4).
  vm_compute. reflexivity.
Defined.

(** The mean of 2 and 4 is 3; [%AVG(GQ)==0] passes on GQ = [2, 4]. *)
Example avg_example :
  compile_and_test hdr2 "%AVG(GQ)==0" (rec_gq (fnum 30) [2; 4]) = Ok (1, Some [1; 1])
  /\ compile_and_test hdr2 "%AVG(GQ)==3" (rec_gq (fnum 30) [2; 4]) = Ok (0, Some [0; 0]).
Proof. split; vm_compute; reflexivity. Qed.

(** ** Field prefixes *)

(** C5 (the code departs from the claim).  [FMT/GQ] is bound to the
    per-sample integer setter.  [FORMAT/GQ] is not: the binder tests only
    the first four characters of the prefix and skips four, so it looks up
    the name [AT/GQ] and rejects the expression. *)
Theorem format_prefix_rejected :
  filters_next_token strtod_uint "FORMAT/GQ>10" = (TOK_VAL, "FORMAT/GQ>10"%string, 9%nat)
  /\ filters_init1 strtod_uint hdr2 BCF_UN_STR "FORMAT/GQ>10" 9 0 token0
     = Fatal "Error: the tag is not defined in the VCF header"
  /\ filter_init strtod_uint hdr2 "FORMAT/GQ>10"
     = Fatal "Error: the tag is not defined in the VCF header"
  /\ (exists max_unpack tok,
        filters_init1 strtod_uint hdr2 BCF_UN_STR "FMT/GQ>10" 6 0 token0 = Ok (max_unpack, tok)
        /\ setter tok = Some ptr_filters_set_format_int
        /\ tag tok = Some "GQ"%string /\ hdr_id tok = 2
        /\ Z.land max_unpack BCF_UN_FMT = BCF_UN_FMT)
  /\ program_of hdr2 "FMT/GQ>10" = Ok [TOK_VAL; TOK_VAL; TOK_BT].
Proof.
  split; [vm_compute; reflexivity|].
  split; [vm_compute; reflexivity|].
  split; [vm_compute; reflexivity|].
  split; [|vm_compute; reflexivity].
  eexists _, _. split; [vm_compute; reflexivity|].
  repeat split.
Qed.

(** ** Precedence and associativity *)

(** C6 (the code departs from the claim).  The precedence table is the one
    stated.  Operators of equal precedence are not popped by the compiler,
    whose test is a strict [<]: [1-2+3] becomes [1 2 3 + -], which is
    1-(2+3), and [1-2+3>0] fails although (1-2)+3 = 2 is positive. *)
Theorem equal_precedence_groups_right :
  op_prec_at TOK_LFT = Ok 1 /\ op_prec_at TOK_RGT = Ok 1
  /\ op_prec_at TOK_OR = Ok 2 /\ op_prec_at TOK_OR_VEC = Ok 2
  /\ op_prec_at TOK_AND = Ok 3 /\ op_prec_at TOK_AND_VEC = Ok 3
  /\ Forall (fun t => op_prec_at t = Ok 5) [TOK_LE; TOK_LT; TOK_EQ; TOK_BT; TOK_BE; TOK_NE]
  /\ op_prec_at TOK_ADD = Ok 6 /\ op_prec_at TOK_SUB = Ok 6
  /\ op_prec_at TOK_MULT = Ok 7 /\ op_prec_at TOK_DIV = Ok 7
  /\ Forall (fun t => op_prec_at t = Ok 8) [TOK_MAX; TOK_MIN; TOK_AVG]
  /\ program_of hdr2 "1-2+3" = Ok [TOK_VAL; TOK_VAL; TOK_VAL; TOK_ADD; TOK_SUB]
  /\ constants_of hdr2 "1-2+3"
     = Ok [float_of_int 1; float_of_int 2; float_of_int 3; float_of_int 0; float_of_int 0]
  /\ compile_and_test hdr2 "1-2+3>0" (rec_bare []) = Ok (0, None)
  /\ compile_and_test hdr2 "(1-2)+3>0" (rec_bare []) = Ok (1, None).
Proof.
  repeat split; try (vm_compute; reflexivity);
    repeat (constructor; try (vm_compute; reflexivity)).
Qed.

(** ** Stack underflow *)

(** A binary operator that finds fewer than two operands is fatal. *)
Lemma binary_underflow_is_fatal (filter : filter_t) (line : bcf1_t) (i : nat)
    (fs : list token_t) (stack : list nat) (tok : token_t) :
  fs !! i = Some tok ->
  tok_type tok <> TOK_VAL -> tok_type tok <> TOK_FUNC ->
  (length stack < 2)%nat ->
  filter_test_token filter line i (fs, stack)
  = Fatal "Error occurred while processing the filter (1:nstack)".
Proof.
  intros Hi Hval Hfunc Hlen. unfold filter_test_token.
  rewrite (rd_lookup _ _ _ Hi). simpl.
  rewrite wr_ok by (by apply lookup_lt_Some in Hi). simpl.
  destruct (Z.eqb_spec (tok_type tok) TOK_VAL) as [|_]; [done|].
  destruct (Z.eqb_spec (tok_type tok) TOK_FUNC) as [|_]; [done|].
  destruct stack as [|a [|b r]]; simpl in *; [done|done|lia].
Qed.

(** A function token that finds no operand reads below the stack. *)
Lemma function_underflow_is_undefined (filter : filter_t) (line : bcf1_t) (i : nat)
    (fs : list token_t) (tok : token_t) :
  fs !! i = Some tok ->
  tok_type tok = TOK_FUNC ->
  filter_test_token filter line i (fs, [])
  = Undef "flt_stack[nstack-1] read with nstack = 0".
Proof.
  intros Hi Hfunc. unfold filter_test_token.
  rewrite (rd_lookup _ _ _ Hi). simpl.
  rewrite wr_ok by (by apply lookup_lt_Some in Hi). simpl.
  rewrite Hfunc. reflexivity.
Qed.

(** C9 (the code departs from the claim).  [%MAX()] compiles to the single
    token FUNC.  Its evaluation reads [flt_stack[-1]]: no test of the
    stack depth guards the function tokens, so nothing fatal is raised.
    The binary operator of [>] alone is stopped by the depth test. *)
Theorem function_token_underflow :
  program_of hdr2 "%MAX()" = Ok [TOK_FUNC]
  /\ compile_and_test hdr2 "%MAX()" (rec_bare [])
     = Undef "flt_stack[nstack-1] read with nstack = 0"
  /\ program_of hdr2 "%AVG()" = Ok [TOK_FUNC]
  /\ compile_and_test hdr2 "%AVG()" (rec_bare [])
     = Undef "flt_stack[nstack-1] read with nstack = 0"
  /\ program_of hdr2 ">" = Ok [TOK_BT]
  /\ compile_and_test hdr2 ">" (rec_bare [])
     = Fatal "Error occurred while processing the filter (1:nstack)".
Proof. repeat split; vm_compute; reflexivity. Qed.

(** ** Vectors of different lengths *)

(** The string comparison refuses two per-sample vectors of different
    lengths. *)
Lemma string_vectors_of_different_length (atok btok : token_t) (logic : Z) :
  nvalues atok <> 0 -> nvalues btok <> 0 -> nvalues atok <> nvalues btok ->
  nsamples atok <> 0 -> nsamples btok <> 0 ->
  cmp_vector_strings atok btok logic
  = Fatal "todo: Cannot compare vectors of different length".
Proof.
  intros Ha Hb Hab Hsa Hsb. unfold cmp_vector_strings.
  destruct (Z.eqb_spec (nvalues atok) 0); [done|].
  destruct (Z.eqb_spec (nvalues btok) 0); [done|].
  destruct (Z.eqb_spec (nvalues atok) (nvalues btok)); [done|].
  destruct (Z.eqb_spec (nsamples atok) 0); [done|].
  destruct (Z.eqb_spec (nsamples btok) 0); [done|].
  reflexivity.
Qed.

(** C10 (the code departs from the claim).  With one value of A and two of
    B in a record, [FMT/A>FMT/B] compares two per-sample vectors of lengths
    1 and 2.  The numeric kernel has no test of the lengths: it compares
    the first cell and returns a result.  String vectors of these lengths
    are refused. *)
Theorem numeric_vectors_of_different_length :
  program_of hdr1 "FMT/A>FMT/B" = Ok [TOK_VAL; TOK_VAL; TOK_BT]
  /\ compile_and_test hdr1 "FMT/A>FMT/B" rec_a_b = Ok (1, Some [1])
  /\ (exists atok r,
        CMP_VECTORS (vector_token [fnum 5] 1 1 [1]) (vector_token [fnum 3; fnum 4] 2 2 [1]) f_gt
        = Ok (atok, r) /\ r = 1 /\ pass_samples atok = [1])
  /\ cmp_vector_strings (string_token "x" 1 1 1 [1]) (string_token "xy" 1 2 2 [1]) TOK_EQ
     = Fatal "todo: Cannot compare vectors of different length".
Proof.
  split; [vm_compute; reflexivity|].
  split; [vm_compute; reflexivity|].
  split; [|vm_compute; reflexivity].
  eexists _, _. split; [vm_compute; reflexivity|]. split; reflexivity.
Qed.

(** ** The %FILTER comparator *)

Lemma existsb_eqb_In (id : Z) (l : list Z) :
  existsb (fun f => id =? f) l = true <-> In id l.
Proof.
  rewrite existsb_exists. split.
  - intros (x & Hx & Heq). apply Z.eqb_eq in Heq. by subst.
  - intros H. exists id. split; [done|]. apply Z.eqb_refl.
Qed.

Lemma d_n_flt_zero (line : bcf1_t) : d_n_flt line = 0 <-> d_flt line = [].
Proof.
  unfold d_n_flt. destruct (d_flt line); simpl; split; intros H; try done; lia.
Qed.

(** What the comparator computes for [==], as a boolean. *)
Lemma filters_cmp_filter_eq (atok btok : token_t) (line : bcf1_t) :
  ~ In (-1) (d_flt line) ->
  (filters_cmp_filter atok btok TOK_EQ line = 1 /\ filter_listed (hdr_id atok) line)
  \/ (filters_cmp_filter atok btok TOK_EQ line = 0 /\ ~ filter_listed (hdr_id atok) line).
Proof.
  intros Hwf. unfold filters_cmp_filter, filter_listed.
  change (TOK_EQ =? TOK_NE) with false. cbv iota.
  destruct (Z.eqb_spec (d_n_flt line) 0) as [Hn|Hn].
  - apply d_n_flt_zero in Hn. rewrite Hn.
    destruct (Z.eqb_spec (hdr_id atok) (-1)) as [Hid|Hid];
      destruct (decide (hdr_id atok = -1)); try done; [by left|right].
    split; [done|]. by intros [].
  - destruct (existsb (fun f => hdr_id atok =? f) (d_flt line)) eqn:Hex.
    + apply existsb_eqb_In in Hex. left. split; [done|].
      destruct (decide (hdr_id atok = -1)) as [Hid|Hid]; [|done].
      rewrite Hid in Hex. done.
    + right. split; [done|].
      destruct (decide (hdr_id atok = -1)) as [Hid|Hid].
      * intros Hnil. apply Hn. by apply d_n_flt_zero.
      * intros Hin. apply existsb_eqb_In in Hin. congruence.
Qed.

(** [!=] is the negation of [==]. *)
Lemma filters_cmp_filter_ne (atok btok : token_t) (line : bcf1_t) :
  filters_cmp_filter atok btok TOK_NE line = 1 - filters_cmp_filter atok btok TOK_EQ line.
Proof.
  unfold filters_cmp_filter.
  change (TOK_EQ =? TOK_NE) with false. change (TOK_NE =? TOK_NE) with true. cbv iota.
  destruct (d_n_flt line =? 0).
  - by destruct (hdr_id atok =? -1).
  - by destruct (existsb _ _).
Qed.

(** The evaluator takes the comparator's answer as the site bit. *)
Lemma binary_uses_comparator (filter : filter_t) (line : bcf1_t)
    (atok btok : token_t) (op : Z) :
  comparator atok = Some ptr_filters_cmp_filter -> comparator btok = None ->
  nvalues atok <> 0 -> nvalues btok <> 0 ->
  op = TOK_EQ \/ op = TOK_NE ->
  filter_test_binary filter line op atok btok
  = Ok (set_pass_site (filters_cmp_filter atok btok op line) atok).
Proof.
  intros Hca Hcb Hna Hnb Hop.
  apply Z.eqb_neq in Hna, Hnb.
  destruct Hop as [-> | ->]; unfold filter_test_binary, filter_test_equality;
    cbn -[filters_cmp_filter]; rewrite Hna, Hnb, Hcb, Hca; reflexivity.
Qed.

(** C2.  With [==] the %FILTER comparator passes exactly when the bound id
    is in the record's filter list, the id -1 standing for the empty list;
    with [!=] it passes exactly when [==] fails: the id is not in the list,
    and the id -1 fails on an empty list and passes on any other.  The
    evaluator takes the comparator's answer as the site bit.  The filter
    ids of a record are header ids, so -1 is not among them. *)
Theorem filter_comparator_matches (filter : filter_t) (line : bcf1_t)
    (atok btok : token_t) (op : Z) :
  ~ In (-1) (d_flt line) ->
  comparator atok = Some ptr_filters_cmp_filter -> comparator btok = None ->
  nvalues atok <> 0 -> nvalues btok <> 0 ->
  (filters_cmp_filter atok btok TOK_EQ line = 1 <-> filter_listed (hdr_id atok) line)
  /\ (filters_cmp_filter atok btok TOK_EQ line = 0 <-> ~ filter_listed (hdr_id atok) line)
  /\ (filters_cmp_filter atok btok TOK_NE line = 1 <-> ~ filter_listed (hdr_id atok) line)
  /\ (filters_cmp_filter atok btok TOK_NE line = 0 <-> filter_listed (hdr_id atok) line)
  /\ (op = TOK_EQ \/ op = TOK_NE ->
      filter_test_binary filter line op atok btok
      = Ok (set_pass_site (filters_cmp_filter atok btok op line) atok)).
Proof.
  intros Hwf Hca Hcb Hna Hnb.
  pose proof (filters_cmp_filter_ne atok btok line) as Hne.
  pose proof (binary_uses_comparator filter line atok btok op Hca Hcb Hna Hnb) as Hbin.
  destruct (filters_cmp_filter_eq atok btok line Hwf) as [[He Hl]|[He Hl]];
    rewrite Hne, He; (split; [|split; [|split; [|split; [|exact Hbin]]]]);
    split; intros H; try done; try lia; try (by contradict H).
Qed.

Lemma filter_comparator_matches_witness :
  filters_cmp_filter (filter_tag_token (-1)) (filter_name_token (-1) ".") TOK_EQ (rec_bare []) = 1
  /\ filter_test_binary (mk_filter hdr2 "" [] 3 0) (rec_bare []) TOK_NE
       (filter_tag_token (-1)) (filter_name_token (-1) ".")
     = Ok (set_pass_site 0 (filter_tag_token (-1))).
Proof.
  destruct (filter_comparator_matches (mk_filter hdr2 "" [] 3 0) (rec_bare [])
              (filter_tag_token (-1)) (filter_name_token (-1) ".") TOK_NE)
    as (H1 & _ & _ & _ & H5).
  - simpl. tauto.
  - reflexivity.
  - reflexivity.
  - simpl. lia.
  - simpl. lia.
  - split.
    + apply H1. reflexivity.
    + rewrite H5 by (right; reflexivity). reflexivity.
Defined.

(** The compiled forms, on records with no filter, PASS, and another one. *)
Example filter_examples :
  compile_and_test hdr2 "%FILTER='.'" (rec_bare []) = Ok (1, None)
  /\ compile_and_test hdr2 "%FILTER='.'" (rec_bare [0]) = Ok (0, None)
  /\ compile_and_test hdr2 "%FILTER!='.'" (rec_bare []) = Ok (0, None)
  /\ compile_and_test hdr2 "%FILTER!='.'" (rec_bare [0]) = Ok (1, None)
  /\ compile_and_test hdr2 "%FILTER='PASS'" (rec_bare [0]) = Ok (1, None)
  /\ compile_and_test hdr2 "%FILTER='PASS'" (rec_bare []) = Ok (0, None)
  /\ compile_and_test hdr2 "%FILTER!='PASS'" (rec_bare [0]) = Ok (0, None)
  /\ compile_and_test hdr2 "%FILTER!='PASS'" (rec_bare []) = Ok (1, None).
Proof. repeat split; vm_compute; reflexivity. Qed.

(** ** The two AND flavors *)

(** The evaluator sends [&] and [&&] to the same routine, which takes no
    flavor argument. *)
Lemma and_flavors_same_routine (filter : filter_t) (line : bcf1_t) (atok btok : token_t) :
  filter_test_binary filter line TOK_AND atok btok
  = filter_test_binary filter line TOK_AND_VEC atok btok.
Proof. reflexivity. Qed.

(** ** The two OR flavors *)

Lemma c_or_comm (a b : Z) : c_or a b = c_or b a.
Proof. unfold c_or. by destruct (a =? 0), (b =? 0). Qed.

Lemma c_or_bit (a b : Z) : c_or a b = 0 \/ c_or a b = 1.
Proof. unfold c_or. destruct ((a =? 0) && (b =? 0)); auto. Qed.

Lemma c_and_bit (a b : Z) : c_and a b = 0 \/ c_and a b = 1.
Proof. unfold c_and. destruct ((a =? 0) || (b =? 0)); auto. Qed.

Lemma c_or_mod (a b : Z) : c_or a b mod 256 = c_or a b.
Proof. destruct (c_or_bit a b) as [-> | ->]; reflexivity. Qed.

Lemma c_and_mod (a b : Z) : c_and a b mod 256 = c_and a b.
Proof. destruct (c_and_bit a b) as [-> | ->]; reflexivity. Qed.

Lemma some_pass_snoc (l : list Z) (x : Z) :
  some_pass (l ++ [x]) = if negb (x =? 0) then 1 else some_pass l.
Proof.
  unfold some_pass. rewrite existsb_app. simpl.
  destruct (existsb _ l), (x =? 0); reflexivity.
Qed.

Lemma some_pass_bit (l : list Z) : some_pass l = 0 \/ some_pass l = 1.
Proof. unfold some_pass. destruct (existsb _ l); auto. Qed.

Lemma store_pass_ok (i : nat) (x : Z) (t : token_t) :
  (i < length (pass_samples t))%nat ->
  store_pass i x t = Ok (set_pass_samples (<[i := x mod 256]> (pass_samples t)) t).
Proof. intros H. unfold store_pass. by rewrite wr_ok. Qed.

(** The state of a loop that writes [g b] into the mask of [t0], slot by
    slot, for the cells [b] of [src], while [acc] follows the cells seen. *)
Definition mask_written (t0 : token_t) (src : list Z) (g : Z -> Z) (acc : list Z -> Z)
    (k : nat) (st : token_t * Z) : Prop :=
  exists m, st.1 = set_pass_samples m t0
    /\ length m = length (pass_samples t0)
    /\ (forall j b, (j < k)%nat -> src !! j = Some b -> m !! j = Some (g b))
    /\ (forall j, (k <= j)%nat -> m !! j = pass_samples t0 !! j)
    /\ st.2 = acc (take k src).

Lemma mask_written_start (t0 : token_t) (src : list Z) (g : Z -> Z) (acc : list Z -> Z) :
  mask_written t0 src g acc 0 (t0, acc []).
Proof.
  exists (pass_samples t0). repeat split; try done.
  - by destruct t0.
  - intros j b Hj. lia.
Qed.

(** One turn: slot [k] receives [g b]. *)
Lemma mask_written_step (t0 : token_t) (src : list Z) (g : Z -> Z) (acc : list Z -> Z)
    (k : nat) (t : token_t) (b : Z) (pass : Z) :
  mask_written t0 src g acc k (t, pass) ->
  (k < length (pass_samples t0))%nat ->
  src !! k = Some b -> g b mod 256 = g b ->
  exists t', store_pass k (g b) t = Ok t'
    /\ pass_site t' = pass_site t0
    /\ forall pass', pass' = acc (take k src ++ [b]) ->
         mask_written t0 src g acc (S k) (t', pass').
Proof.
  intros (m & Hm & Hlen & Hlow & Hhigh & Hacc) Hk Hb Hmod.
  simpl in Hm. subst t.
  rewrite store_pass_ok by (simpl; lia). simpl.
  eexists. split; [reflexivity|]. split; [reflexivity|].
  intros pass' ->.
  exists (<[k := g b mod 256]> m). repeat split.
  - by rewrite length_insert.
  - intros j b' Hj Hb'. destruct (decide (j = k)) as [->|Hne].
    + rewrite Hb in Hb'. inversion Hb'; subst.
      rewrite Hmod. apply list_lookup_insert_eq. lia.
    + rewrite list_lookup_insert_ne by done. apply Hlow; [lia|done].
  - intros j Hj. rewrite list_lookup_insert_ne by lia. apply Hhigh. lia.
  - simpl. by rewrite (take_S_r _ _ _ Hb).
Qed.

(** A whole loop of such turns. *)
Lemma mask_loop (t0 : token_t) (src : list Z) (g : Z -> Z) (acc : list Z -> Z)
    (n : Z) (body : nat -> token_t * Z -> outcome (token_t * Z)) (pass0 : Z) :
  acc [] = pass0 ->
  (Z.to_nat n <= length (pass_samples t0))%nat ->
  (Z.to_nat n <= length src)%nat ->
  (forall k t pass b,
      (k < Z.to_nat n)%nat -> src !! k = Some b ->
      mask_written t0 src g acc k (t, pass) ->
      g b mod 256 = g b
      /\ body k (t, pass)
         = (let* t' := store_pass k (g b) t in Ok (t', acc (take k src ++ [b])))) ->
  exists t',
    for_loop n body (t0, pass0) = Ok (t', acc (take (Z.to_nat n) src))
    /\ mask_written t0 src g acc (Z.to_nat n) (t', acc (take (Z.to_nat n) src)).
Proof.
  intros <- Hlen Hsrc Hbody.
  destruct (for_loop_inv (mask_written t0 src g acc) body n (t0, acc []))
    as ([t' pass'] & Hrun & Hinv).
  - apply mask_written_start.
  - intros k [t pass] Hk Hinv.
    destruct (lookup_lt_is_Some_2 src k) as [b Hb]; [lia|].
    destruct (Hbody k t pass b Hk Hb Hinv) as [Hmod Heq].
    destruct (mask_written_step t0 src g acc k t b pass Hinv) as (t' & Hst & _ & Hnext);
      [lia|done|done|].
    rewrite Heq, Hst. simpl. eexists. split; [reflexivity|]. by apply Hnext.
  - assert (pass' = acc (take (Z.to_nat n) src)) as ->.
    { destruct Hinv as (m & _ & _ & _ & _ & Hacc). exact Hacc. }
    exists t'. split; done.
Qed.

Lemma mask_written_token (t0 : token_t) (src : list Z) (g : Z -> Z) (acc : list Z -> Z)
    (k : nat) (t : token_t) (pass : Z) :
  mask_written t0 src g acc k (t, pass) ->
  pass_site t = pass_site t0 /\ nvalues t = nvalues t0 /\ nsamples t = nsamples t0
  /\ values t = values t0
  /\ length (pass_samples t) = length (pass_samples t0)
  /\ (forall j b, (j < k)%nat -> src !! j = Some b -> pass_samples t !! j = Some (g b))
  /\ (forall j, (k <= j)%nat -> pass_samples t !! j = pass_samples t0 !! j).
Proof.
  intros (m & Hm & Hlen & Hlow & Hhigh & _). simpl in Hm. subst t. simpl.
  repeat split; done.
Qed.

(** [||] with the site operand on the left: every slot receives the OR of
    the site bit and the vector's slot. *)
Lemma or_vec_site_vector (s v : token_t) (n : nat) :
  nvalues s <> 0 -> nvalues v <> 0 -> nsamples s = 0 -> nsamples v = Z.of_nat n ->
  (0 < n)%nat ->
  (n <= length (pass_samples s))%nat -> (n <= length (pass_samples v))%nat ->
  exists a',
    vector_logic_or s v TOK_OR_VEC
    = Ok (a', some_pass (map (c_or (pass_site s)) (take n (pass_samples v))))
    /\ nsamples a' = Z.of_nat n
    /\ forall i b, (i < n)%nat -> pass_samples v !! i = Some b ->
         pass_samples a' !! i = Some (c_or (pass_site s) b).
Proof.
  intros Hs Hv Hss Hsv Hn Hls Hlv.
  unfold vector_logic_or.
  apply Z.eqb_neq in Hs, Hv. rewrite Hs, Hv, Hss, Hsv. simpl.
  replace (Z.of_nat n =? 0) with false by (symmetry; apply Z.eqb_neq; lia).
  change (TOK_OR_VEC =? TOK_OR) with false. cbv iota.
  destruct (mask_loop s (pass_samples v) (c_or (pass_site s))
              (fun l => some_pass (map (c_or (pass_site s)) l)) (Z.of_nat n)
              (fun i '(atok, pass) =>
                 let* b := rd (pass_samples v) i in
                 let* atok0 := store_pass i (c_or (pass_site atok) b) atok in
                 Ok (atok0, if negb (c_or (pass_site atok) b =? 0) then 1 else pass)) 0)
    as (t' & Hrun & Hinv).
  - reflexivity.
  - lia.
  - lia.
  - intros k t pass b Hk Hb Hinv. split; [apply c_or_mod|].
    destruct (mask_written_token _ _ _ _ _ _ _ Hinv) as (Hsite & _).
    destruct Hinv as (_ & _ & _ & _ & _ & Hacc). simpl in Hacc.
    rewrite (rd_lookup _ _ _ Hb). simpl. rewrite Hsite.
    rewrite List.map_app. simpl. rewrite some_pass_snoc. by rewrite Hacc.
  - rewrite Hrun. simpl. rewrite Nat2Z.id.
    eexists. split; [reflexivity|].
    rewrite Nat2Z.id in Hinv.
    destruct (mask_written_token _ _ _ _ _ _ _ Hinv) as (_ & _ & _ & _ & _ & Hlow & _).
    split; [reflexivity|]. simpl. exact Hlow.
Qed.

Lemma store_pass_site (i : nat) (x : Z) (t : token_t) {B} (k : token_t -> Z -> B) :
  (let* t' := store_pass i x t in Ok (k t' (pass_site t')))
  = (let* t' := store_pass i x t in Ok (k t' (pass_site t))).
Proof. unfold store_pass. destruct (wr (pass_samples t) i (x mod 256)); reflexivity. Qed.

(** [|] with the site operand on the left: the vector's mask is copied as
    it is, and the site bit is raised when the site operand or some slot
    passes. *)
Lemma or_site_vector (s v : token_t) (n : nat) :
  nvalues s <> 0 -> nvalues v <> 0 -> nsamples s = 0 -> nsamples v = Z.of_nat n ->
  (0 < n)%nat ->
  (n <= length (pass_samples s))%nat -> (n <= length (pass_samples v))%nat ->
  Forall is_byte (pass_samples v) ->
  exists a',
    vector_logic_or s v TOK_OR
    = Ok (a', some_pass (map (c_or (pass_site s)) (take n (pass_samples v))))
    /\ nsamples a' = Z.of_nat n
    /\ forall i b, (i < n)%nat -> pass_samples v !! i = Some b ->
         pass_samples a' !! i = Some b.
Proof.
  intros Hs Hv Hss Hsv Hn Hls Hlv Hbytes.
  unfold vector_logic_or.
  apply Z.eqb_neq in Hs, Hv. rewrite Hs, Hv, Hss, Hsv. simpl.
  replace (Z.of_nat n =? 0) with false by (symmetry; apply Z.eqb_neq; lia).
  change (TOK_OR =? TOK_OR) with true. cbv iota.
  destruct (mask_loop s (pass_samples v) (fun b => b)
              (fun l => some_pass (map (c_or (pass_site s)) l)) (Z.of_nat n)
              (fun i '(atok, pass) =>
                 let* b := rd (pass_samples v) i in
                 let* atok0 := store_pass i b atok in
                 Ok (atok0, if negb (c_or (pass_site atok0) b =? 0) then 1 else pass)) 0)
    as (t' & Hrun & Hinv).
  - reflexivity.
  - lia.
  - lia.
  - intros k t pass b Hk Hb Hinv. split.
    + apply Z.mod_small. rewrite Forall_forall in Hbytes. apply Hbytes.
      eapply list_elem_of_lookup_2; eassumption.
    + destruct (mask_written_token _ _ _ _ _ _ _ Hinv) as (Hsite & _).
      destruct Hinv as (_ & _ & _ & _ & _ & Hacc). simpl in Hacc.
      rewrite (rd_lookup _ _ _ Hb). simpl.
      rewrite (store_pass_site k b t
                 (fun t' site => (t', if negb (c_or site b =? 0) then 1 else pass))).
      rewrite Hsite. rewrite List.map_app. simpl. rewrite some_pass_snoc.
      by rewrite Hacc.
  - rewrite Hrun. simpl. rewrite Nat2Z.id.
    eexists. split; [reflexivity|].
    rewrite Nat2Z.id in Hinv.
    destruct (mask_written_token _ _ _ _ _ _ _ Hinv) as (_ & _ & _ & _ & _ & Hlow & _).
    split; [reflexivity|]. simpl. exact Hlow.
Qed.

(** [||] with the vector operand on the left: every slot is ORed with the
    site bit. *)
Lemma or_vec_vector_site (v s : token_t) (n : nat) :
  nvalues s <> 0 -> nvalues v <> 0 -> nsamples s = 0 -> nsamples v = Z.of_nat n ->
  (0 < n)%nat -> (n <= length (pass_samples v))%nat ->
  exists a',
    vector_logic_or v s TOK_OR_VEC
    = Ok (a', some_pass (map (fun a => c_or a (pass_site s)) (take n (pass_samples v))))
    /\ nsamples a' = Z.of_nat n
    /\ forall i a, (i < n)%nat -> pass_samples v !! i = Some a ->
         pass_samples a' !! i = Some (c_or a (pass_site s)).
Proof.
  intros Hs Hv Hss Hsv Hn Hlv.
  unfold vector_logic_or.
  apply Z.eqb_neq in Hs, Hv. rewrite Hs, Hv, Hss, Hsv. simpl.
  replace (Z.of_nat n =? 0) with false by (symmetry; apply Z.eqb_neq; lia).
  change (TOK_OR_VEC =? TOK_OR) with false. cbv iota.
  destruct (mask_loop v (pass_samples v) (fun a => c_or a (pass_site s))
              (fun l => some_pass (map (fun a => c_or a (pass_site s)) l)) (Z.of_nat n)
              (fun i '(atok, pass) =>
                 let* a := rd (pass_samples atok) i in
                 let* atok0 := store_pass i (c_or a (pass_site s)) atok in
                 Ok (atok0, if negb (c_or a (pass_site s) =? 0) then 1 else pass)) 0)
    as (t' & Hrun & Hinv).
  - reflexivity.
  - lia.
  - lia.
  - intros k t pass a Hk Ha Hinv. split; [apply c_or_mod|].
    destruct (mask_written_token _ _ _ _ _ _ _ Hinv) as (_ & _ & _ & _ & _ & _ & Hhigh).
    destruct Hinv as (_ & _ & _ & _ & _ & Hacc). simpl in Hacc.
    rewrite (rd_lookup (pass_samples t) k a) by (rewrite Hhigh; [done|lia]). simpl.
    rewrite List.map_app. simpl. rewrite some_pass_snoc. by rewrite Hacc.
  - rewrite Hrun. simpl.
    eexists. split; [by rewrite Nat2Z.id|].
    rewrite Nat2Z.id in Hinv.
    destruct (mask_written_token _ _ _ _ _ _ _ Hinv) as (_ & _ & Hns & _ & _ & Hlow & _).
    split; [congruence|]. exact Hlow.
Qed.

(** [|] with the vector operand on the left: the operand is left exactly as
    it is; only the returned site bit depends on the site operand. *)
Lemma or_vector_site (v s : token_t) (n : nat) :
  nvalues s <> 0 -> nvalues v <> 0 -> nsamples s = 0 -> nsamples v = Z.of_nat n ->
  (0 < n)%nat -> (n <= length (pass_samples v))%nat ->
  vector_logic_or v s TOK_OR
  = Ok (v, some_pass (map (c_or (pass_site s)) (take n (pass_samples v)))).
Proof.
  intros Hs Hv Hss Hsv Hn Hlv.
  unfold vector_logic_or.
  apply Z.eqb_neq in Hs, Hv. rewrite Hs, Hv, Hss, Hsv. simpl.
  replace (Z.of_nat n =? 0) with false by (symmetry; apply Z.eqb_neq; lia).
  change (TOK_OR =? TOK_OR) with true. cbn [andb]. cbv iota.
  match goal with |- for_loop ?m ?body ?init = _ =>
    destruct (for_loop_inv
      (fun k (st : token_t * Z) =>
         st = (v, some_pass (map (c_or (pass_site s)) (take k (pass_samples v)))))
      body m init) as (st & Hrun & Hinv)
  end.
  - reflexivity.
  - intros k st Hk ->.
    destruct (lookup_lt_is_Some_2 (pass_samples v) k) as [a Ha]; [lia|].
    rewrite (rd_lookup _ _ _ Ha). simpl. eexists. split; [reflexivity|].
    rewrite (take_S_r _ _ _ Ha), List.map_app. simpl. by rewrite some_pass_snoc.
  - rewrite Hrun, Hinv. by rewrite Nat2Z.id.
Qed.

Lemma some_pass_one (l : list Z) :
  some_pass l = 1 <-> exists i x, l !! i = Some x /\ x <> 0.
Proof.
  unfold some_pass. destruct (existsb _ l) eqn:Hex.
  - split; [intros _|done].
    apply existsb_exists in Hex as (x & Hin & Hx).
    apply list_elem_of_In, list_elem_of_lookup_1 in Hin as [i Hi].
    exists i, x. split; [done|]. apply negb_true_iff, Z.eqb_neq in Hx. done.
  - split; [done|]. intros (i & x & Hi & Hx). exfalso.
    assert (existsb (fun b => negb (b =? 0)) l = true) as Hex'; [|congruence].
    apply existsb_exists. exists x. split.
    + apply list_elem_of_In. eapply list_elem_of_lookup_2; eassumption.
    + by apply negb_true_iff, Z.eqb_neq.
Qed.



(** ** Abstract runs are sound *)

Lemma stack_below_lt (k : nat) (stack : list nat) :
  stack_below k stack -> Forall (fun j => (j < k)%nat) stack.
Proof.
  revert k. induction stack as [|j r IH]; intros k H; [constructor|].
  destruct H as [Hj Hr]. constructor; [done|].
  eapply Forall_impl; [apply IH, Hr|]. simpl. intros. lia.
Qed.

Lemma stack_below_weaken (k k' : nat) (stack : list nat) :
  stack_below k stack -> (k <= k')%nat -> stack_below k' stack.
Proof. destruct stack as [|j r]; [done|]. intros [Hj Hr] Hk. split; [lia|done]. Qed.

Lemma stack_rel_insert {D} (conc : D -> token_t -> Prop) (fs : list token_t)
    (stack : list nat) (ds : list D) (i : nat) (t : token_t) :
  stack_rel conc fs stack ds -> stack_below i stack ->
  stack_rel conc (<[i:=t]> fs) stack ds.
Proof.
  intros Hrel Hbelow. apply stack_below_lt in Hbelow.
  unfold stack_rel in *. revert Hbelow.
  induction Hrel as [|j d stack ds (t0 & Ht0 & Hc) Hrel IH]; intros Hbelow; [constructor|].
  inversion Hbelow; subst. constructor; [|by apply IH].
  exists t0. split; [|done]. rewrite list_lookup_insert_ne by lia. done.
Qed.

Section AbstractRun.
Context {D : Type}.
Variables (filter : filter_t) (line : bcf1_t).
Variable conc : D -> token_t -> Prop.
Variable aval : token_t -> option D.
Variable afunc : token_t -> D -> option D.
Variable abin : Z -> D -> D -> option D.

Hypothesis H_val : forall t d,
    In t (filters filter) -> tok_type t = TOK_VAL -> aval t = Some d ->
    exists t', filter_test_value filter line (reset_token t) = Ok t' /\ conc d t'.

Hypothesis H_func : forall t d d' arg,
    In t (filters filter) -> tok_type t = TOK_FUNC -> afunc t d = Some d' -> conc d arg ->
    exists f arg', setter t = Some f
      /\ call_setter f filter line arg = Ok arg' /\ conc d' arg'.

Hypothesis H_bin : forall ty da db d a b,
    abin ty da db = Some d -> conc da a -> conc db b ->
    exists a', filter_test_binary filter line ty a b = Ok a' /\ conc d a'.

(** One token of the program keeps the invariant. *)
Lemma filter_test_token_sound (final : list D) (k : nat) (st : eval_state) :
  (k < length (filters filter))%nat ->
  run_inv conc aval afunc abin (filters filter) final k st ->
  exists st', filter_test_token filter line k st = Ok st'
    /\ run_inv conc aval afunc abin (filters filter) final (S k) st'.
Proof.
  intros Hk. destruct st as [fs stack].
  intros (Hlen & Hfut & Hbelow & ds & Hrel & Hrun). simpl in *.
  destruct (lookup_lt_is_Some_2 (filters filter) k Hk) as [tok Htok].
  assert (In tok (filters filter)) as Hin.
  { apply list_elem_of_In. eapply list_elem_of_lookup_2; eassumption. }
  rewrite (drop_S _ _ _ Htok) in Hrun. simpl in Hrun.
  destruct (astep aval afunc abin tok ds) as [ds'|] eqn:Hstep; [|discriminate].
  assert (fs !! k = Some tok) as Hfk by (rewrite Hfut; [done|lia]).
  unfold filter_test_token.
  rewrite (rd_lookup _ _ _ Hfk). simpl.
  rewrite wr_ok by lia. simpl.
  change (tok_type (reset_token tok)) with (tok_type tok).
  unfold astep in Hstep.
  destruct (Z.eqb_spec (tok_type tok) TOK_VAL) as [Hty|Hty].
  - (* a value token *)
    destruct (aval tok) as [d|] eqn:Hav; [|discriminate].
    inversion Hstep; subst ds'; clear Hstep.
    destruct (H_val tok d Hin Hty Hav) as (t' & Ht' & Hc).
    rewrite Ht'. simpl. rewrite wr_ok by (rewrite length_insert; lia). simpl.
    eexists. split; [reflexivity|]. unfold run_inv. simpl.
    split; [by rewrite !length_insert|].
    split. { intros j Hj. rewrite !list_lookup_insert_ne by lia. apply Hfut. lia. }
    split. { split; [lia|done]. }
    exists (d :: ds). split; [|done].
    constructor.
    + exists t'. split; [|done].
      apply list_lookup_insert_eq. rewrite length_insert. lia.
    + apply stack_rel_insert; [|done]. apply stack_rel_insert; done.
  - destruct (Z.eqb_spec (tok_type tok) TOK_FUNC) as [Hfn|Hfn].
    + (* a function token *)
      destruct ds as [|d r]; [discriminate|].
      destruct (afunc tok d) as [d'|] eqn:Haf; [|discriminate].
      inversion Hstep; subst ds'; clear Hstep.
      inversion Hrel as [|j d0 rs r0 (arg & Harg & Hc) Hrest]; subst.
      destruct Hbelow as [Hj Hbelow].
      destruct (H_func tok d d' arg Hin Hfn Haf Hc) as (f & arg' & Hf & Hcall & Hc').
      change (setter (reset_token tok)) with (setter tok). rewrite Hf.
      rewrite (rd_lookup _ j arg) by (rewrite list_lookup_insert_ne by lia; done).
      simpl. rewrite Hcall. simpl.
      apply lookup_lt_Some in Harg.
      rewrite wr_ok by (rewrite length_insert; lia). simpl.
      eexists. split; [reflexivity|]. unfold run_inv. simpl.
      split; [by rewrite !length_insert|].
      split. { intros i Hi. rewrite !list_lookup_insert_ne by lia. apply Hfut. lia. }
      split. { split; [lia|done]. }
      exists (d' :: r). split; [|done].
      constructor.
      * exists arg'. split; [|done].
        apply list_lookup_insert_eq. rewrite length_insert. lia.
      * apply stack_rel_insert; [|done]. apply stack_rel_insert; [done|].
        eapply stack_below_weaken; [eassumption|lia].
    + (* a binary operator *)
      destruct ds as [|db [|da r]]; try discriminate.
      destruct (abin (tok_type tok) da db) as [d|] eqn:Hab; [|discriminate].
      inversion Hstep; subst ds'; clear Hstep.
      inversion Hrel as [|jb db0 rs r0 (b & Hb & Hcb) Hrest]; subst.
      inversion Hrest as [|ja da0 rs' r0' (a & Ha & Hca) Hrest']; subst.
      destruct Hbelow as [Hjb [Hja Hbelow]].
      destruct (H_bin (tok_type tok) da db d a b Hab Hca Hcb) as (a' & Hbin & Hc').
      rewrite (rd_lookup _ ja a) by (rewrite list_lookup_insert_ne by lia; done).
      simpl.
      rewrite (rd_lookup _ jb b) by (rewrite list_lookup_insert_ne by lia; done).
      simpl. rewrite Hbin. simpl.
      apply lookup_lt_Some in Ha.
      rewrite wr_ok by (rewrite length_insert; lia). simpl.
      eexists. split; [reflexivity|]. unfold run_inv. simpl.
      split; [by rewrite !length_insert|].
      split. { intros i Hi. rewrite !list_lookup_insert_ne by lia. apply Hfut. lia. }
      split. { split; [lia|done]. }
      exists (d :: r). split; [|done].
      constructor.
      * exists a'. split; [|done].
        apply list_lookup_insert_eq. rewrite length_insert. lia.
      * apply stack_rel_insert; [|done]. apply stack_rel_insert; [done|].
        eapply stack_below_weaken; [eassumption|lia].
Qed.

(** The loop of [filter_test] over a program whose abstract run succeeds
    runs to its end, and its stack is described by the abstract result. *)
Theorem arun_sound (final : list D) :
  arun aval afunc abin (filters filter) [] = Some final ->
  exists fs stack,
    for_loop (nfilters filter) (filter_test_token filter line) (filters filter, [])
    = Ok (fs, stack)
    /\ length fs = length (filters filter)
    /\ stack_rel conc fs stack final.
Proof.
  intros Hrun.
  destruct (for_loop_inv (run_inv conc aval afunc abin (filters filter) final)
              (filter_test_token filter line) (nfilters filter) (filters filter, []))
    as ([fs stack] & Hloop & Hinv).
  - split; [done|]. split; [done|]. split; [done|].
    exists []. split; [constructor|]. by rewrite drop_0.
  - intros k st Hk Hinv. apply filter_test_token_sound; [|done].
    unfold nfilters in Hk. lia.
  - exists fs, stack. split; [done|].
    destruct Hinv as (Hlen & _ & _ & ds & Hrel & Hend). simpl in *.
    split; [done|].
    unfold nfilters in Hend. rewrite Nat2Z.id in Hend.
    rewrite drop_all in Hend. simpl in Hend. by inversion Hend; subst.
Qed.
End AbstractRun.

(** ** The end of [filter_test] *)

(** The loop that spreads the site bit over the mask. *)
Lemma spread_site_bit (top : token_t) (n : Z) :
  length (pass_samples top) = Z.to_nat n ->
  for_loop n (fun i top => store_pass i (pass_site top) top) top
  = Ok (set_pass_samples (repeat (pass_site top mod 256) (Z.to_nat n)) top).
Proof.
  intros Hlen.
  destruct (for_loop_inv
    (fun k t => exists m, t = set_pass_samples m top
                 /\ length m = Z.to_nat n
                 /\ take k m = repeat (pass_site top mod 256) k)
    (fun i top => store_pass i (pass_site top) top) n top) as (t' & Hrun & Hinv).
  - exists (pass_samples top). split; [by destruct top|]. split; [done|]. by rewrite take_0.
  - intros k t Hk (m & -> & Hm & Htake).
    rewrite store_pass_ok by (simpl; lia). simpl.
    eexists. split; [reflexivity|].
    exists (<[k := pass_site top mod 256]> m).
    split; [reflexivity|]. split; [by rewrite length_insert|].
    rewrite (take_S_r _ _ (pass_site top mod 256))
      by (apply list_lookup_insert_eq; lia).
    rewrite take_insert_ge by lia. rewrite Htake.
    simpl. by rewrite repeat_cons.
  - rewrite Hrun. destruct Hinv as (m & -> & Hm & Htake).
    rewrite take_ge in Htake by lia. by rewrite Htake.
Qed.

(** With one token left on the stack, [filter_test] returns its site bit;
    the mask, when one is handed out, is the token's own mask, or the site
    bit spread over all samples when the token is not per-sample. *)
Lemma filter_test_finish (filter : filter_t) (line : bcf1_t) (samples : bool)
    (fs : list token_t) (j0 : nat) (top : token_t) :
  for_loop (nfilters filter) (filter_test_token filter line) (filters filter, [])
  = Ok (fs, [j0]) ->
  fs !! j0 = Some top ->
  length (pass_samples top) = Z.to_nat (flt_nsamples filter) ->
  exists filter' mask,
    filter_test filter line samples = Ok (filter', (pass_site top, mask))
    /\ (mask = None
        \/ (nsamples top = 0
            /\ mask = Some (repeat (pass_site top mod 256) (Z.to_nat (flt_nsamples filter))))
        \/ (nsamples top <> 0 /\ mask = Some (pass_samples top))).
Proof.
  intros Hloop Htop Hlen. unfold filter_test. rewrite Hloop. simpl.
  rewrite (rd_lookup _ _ _ Htop). simpl.
  pose proof (lookup_lt_Some _ _ _ Htop) as Hj0.
  destruct samples; simpl.
  - destruct (negb (Z.land (max_unpack filter) BCF_UN_FMT =? 0)
              && negb (length (pass_samples top) =? 0)%nat); simpl.
    + destruct (Z.eqb_spec (nsamples top) 0) as [Hns|Hns].
      * rewrite (spread_site_bit top _ Hlen). simpl. rewrite wr_ok by done. simpl.
        eexists _, _. split; [reflexivity|]. right. left. done.
      * simpl. rewrite wr_ok by done. simpl.
        eexists _, _. split; [reflexivity|]. right. right. done.
    + rewrite wr_ok by done. simpl. eexists _, _. split; [reflexivity|]. by left.
  - rewrite wr_ok by done. simpl. eexists _, _. split; [reflexivity|]. by left.
Qed.

(** ** Setters leave the mask alone *)

Ltac inv_step :=
  match goal with
  | H : bind _ _ = Ok _ |- _ => apply bind_ok in H as (? & ? & ?)
  | H : Ok _ = Ok _ |- _ => inversion H; subst; clear H
  | H : Fatal _ = Ok _ |- _ => discriminate H
  | H : Undef _ = Ok _ |- _ => discriminate H
  | H : error _ = Ok _ |- _ => discriminate H
  | H : store_value _ _ _ = Ok _ |- _ => unfold store_value in H
  | H : store_pass _ _ _ = Ok _ |- _ => unfold store_pass in H
  | H : wr _ _ _ = Ok _ |- _ => apply wr_inv in H as [? ->]
  | H : (if ?c then _ else _) = Ok _ |- _ => destruct c eqn:?
  | H : (let '(_, _) := ?x in _) = Ok _ |- _ => destruct x eqn:?
  | H : match ?x with _ => _ end = Ok _ |- _ => destruct x eqn:?
  end.

Ltac inv_ok := repeat inv_step.

Lemma hts_expand_mask (n : Z) (t : token_t) :
  pass_samples (hts_expand n t) = pass_samples t.
Proof. unfold hts_expand. by destruct (_ <? _)%nat. Qed.

Lemma set_fun_mask (f : setter_fn) (filter : filter_t) (line : bcf1_t) (tok tok' : token_t) :
  match f with ptr_set_max | ptr_set_min | ptr_set_avg => True | _ => False end ->
  call_setter f filter line tok = Ok tok' -> pass_samples tok' = pass_samples tok.
Proof.
  intros Hf H. destruct f; try done; simpl in H;
    unfold set_max, set_min, set_avg in H; inv_ok; reflexivity.
Qed.

Lemma filters_set_format_int_mask (filter : filter_t) (line : bcf1_t) (tok tok' : token_t) :
  filters_set_format_int filter line tok = Ok tok' -> pass_samples tok' = pass_samples tok.
Proof.
  unfold filters_set_format_int. intros H.
  destruct (tag tok) as [tg|]; [|discriminate].
  destruct (bcf_get_format_int32 (hdr filter) line tg) as [n tmpi].
  apply bind_ok in H as (t1 & H1 & H). inversion H; subst; clear H. simpl.
  destruct (nvalues (set_nvalues n tok) <? 0); [by inversion H1|].
  apply bind_ok in H1 as ([t2 miss] & Hloop & H1).
  assert (pass_samples t2 = pass_samples tok) as Ht2.
  { apply (for_loop_post (fun _ (st : token_t * Z) => pass_samples st.1 = pass_samples tok))
      in Hloop; [done| |].
    - simpl. by rewrite hts_expand_mask.
    - intros k [t f] [t' f'] _ HP Hbody. simpl in *. inv_ok; simpl; done. }
  destruct (negb (miss =? 0)); inversion H1; subst; simpl; done.
Qed.

(** No setter writes to the mask of its token. *)
Lemma call_setter_mask (f : setter_fn) (filter : filter_t) (line : bcf1_t)
    (tok tok' : token_t) :
  call_setter f filter line tok = Ok tok' -> pass_samples tok' = pass_samples tok.
Proof.
  destruct f; simpl; intros H;
    try (by apply (filters_set_format_int_mask filter line)).
  - unfold filters_set_qual in H. inv_ok; reflexivity.
  - unfold filters_set_type in H. inv_ok; reflexivity.
  - unfold filters_set_info in H. inv_ok; reflexivity.
  - unfold filters_set_info_int in H. inv_ok; reflexivity.
  - unfold filters_set_info_float in H. inv_ok; reflexivity.
  - unfold filters_set_info_flag in H. inv_ok; reflexivity.
  - unfold filters_set_format_float in H. inv_ok; reflexivity.
  - unfold filters_set_format_string in H.
    destruct (tag tok) as [tg|]; [|discriminate].
    destruct (bcf_get_format_char (hdr filter) line tg); inv_ok; reflexivity.
  - exact (set_fun_mask ptr_set_max filter line tok tok' I H).
  - exact (set_fun_mask ptr_set_min filter line tok tok' I H).
  - exact (set_fun_mask ptr_set_avg filter line tok tok' I H).
Qed.

(** ** How [filter_test] dispatches a binary operator *)

Ltac split_ops H :=
  repeat (apply orb_true_iff in H as [H|H]); apply Z.eqb_eq in H; subst.

Lemma binary_arith (filter : filter_t) (line : bcf1_t) (ty : Z) (a b : token_t) :
  is_arith ty = true ->
  exists AOP, filter_test_binary filter line ty a b = VECTOR_ARITHMETICS a b AOP.
Proof. unfold is_arith. intros H. split_ops H; eexists; reflexivity. Qed.

Lemma binary_cmp_missing (filter : filter_t) (line : bcf1_t) (ty : Z) (a b : token_t) :
  is_cmp ty = true -> nvalues a = 0 \/ nvalues b = 0 ->
  filter_test_binary filter line ty a b = Ok (set_pass_site 0 (set_missing a)).
Proof.
  unfold is_cmp. intros H Hm.
  assert ((nvalues b =? 0) || (nvalues a =? 0) = true) as Hz.
  { apply orb_true_iff. destruct Hm as [-> | ->]; auto. }
  split_ops H; unfold filter_test_binary; cbn -[Z.add]; rewrite Hz; reflexivity.
Qed.

Lemma binary_cmp_numeric (filter : filter_t) (line : bcf1_t) (ty : Z) (a b : token_t) :
  is_cmp ty = true -> nvalues a <> 0 -> nvalues b <> 0 ->
  is_str a = 0 -> is_str b = 0 -> comparator a = None -> comparator b = None ->
  exists CMP,
    filter_test_binary filter line ty a b
    = (let* (a', r) := CMP_VECTORS a b CMP in Ok (set_pass_site r a')).
Proof.
  unfold is_cmp. intros H Ha Hb Hsa Hsb Hca Hcb.
  apply Z.eqb_neq in Ha, Hb.
  split_ops H; unfold filter_test_binary, filter_test_equality;
    rewrite Hsa, Hsb, ?Hca, ?Hcb; cbn; rewrite Ha, Hb; cbn; eexists; reflexivity.
Qed.

Lemma binary_and (filter : filter_t) (line : bcf1_t) (ty : Z) (a b : token_t) :
  is_and ty = true -> 0 <= pass_site a -> 0 <= pass_site b ->
  filter_test_binary filter line ty a b
  = (let* (a', r) := vector_logic_and a b in Ok (set_pass_site r a')).
Proof.
  unfold is_and. intros H Ha Hb.
  apply Z.ltb_ge in Ha, Hb.
  split_ops H; unfold filter_test_binary; cbn -[Z.add Z.ltb]; rewrite Ha, Hb; reflexivity.
Qed.

Lemma binary_or (filter : filter_t) (line : bcf1_t) (ty : Z) (a b : token_t) :
  is_or ty = true -> 0 <= pass_site a -> 0 <= pass_site b ->
  filter_test_binary filter line ty a b
  = (let* (a', r) := vector_logic_or a b ty in Ok (set_pass_site r a')).
Proof.
  unfold is_or. intros H Ha Hb.
  apply Z.ltb_ge in Ha, Hb.
  split_ops H; unfold filter_test_binary; cbn -[Z.add Z.ltb]; rewrite Ha, Hb; reflexivity.
Qed.

(** ** Missing values through the operators *)

Lemma for_loop_one {St} (body : nat -> St -> outcome St) (s : St) :
  for_loop 1 body s = (let* s' := body O s in Ok s').
Proof. reflexivity. Qed.

Lemma for_loop_zero {St} (body : nat -> St -> outcome St) (s : St) :
  for_loop 0 body s = Ok s.
Proof. reflexivity. Qed.

Lemma arith_missing (a b : token_t) (AOP : spec_float -> spec_float -> spec_float) :
  nvalues a = 0 \/ nvalues b = 0 ->
  VECTOR_ARITHMETICS a b AOP = Ok (set_missing (set_missing a)).
Proof.
  intros Hm. unfold VECTOR_ARITHMETICS.
  assert ((nvalues a =? 0) || (nvalues b =? 0) = true) as ->.
  { apply orb_true_iff. destruct Hm as [-> | ->]; auto. }
  reflexivity.
Qed.

Lemma attrs_comparator (s c : bool) (t : token_t) :
  attrs_ok s c t -> c = false -> comparator t = None.
Proof.
  intros [_ H] ->. unfold has_comparator in H. by destruct (comparator t).
Qed.

Lemma attrs_kept (s c : bool) (a t : token_t) :
  attrs_ok s c a -> is_str t = is_str a -> comparator t = comparator a -> attrs_ok s c t.
Proof. intros [Hs Hc] H1 H2. unfold attrs_ok, has_comparator in *. by rewrite H1, H2. Qed.

(** *** Strings *)

Lemma scan_to_nul_ok (mem : list ascii) (n a : nat) :
  (a + n <= length mem)%nat ->
  exists e, scan_to_nul mem a n = Ok e /\ (a <= e <= a + n)%nat.
Proof.
  revert a. induction n as [|n IH]; intros a H; cbn.
  - exists a. split; [done|lia].
  - destruct (rd_ok mem a) as (c & _ & ->); [lia|]. cbn.
    destruct (Ascii.eqb c zero).
    + exists a. split; [done|lia].
    + destruct (IH (S a)) as (e & -> & He); [lia|]. exists e. split; [done|lia].
Qed.

Lemma skip_nul_ok (mem : list ascii) (n a : nat) :
  (a + n <= length mem)%nat -> exists e, skip_nul mem a n = Ok e.
Proof.
  revert a. induction n as [|n IH]; intros a H; cbn.
  - by exists a.
  - destruct (rd_ok mem a) as (c & _ & ->); [lia|]. cbn.
    destruct (Ascii.eqb c zero); [apply IH; lia|by exists a].
Qed.

Lemma mem_strncmp_ok (ma mb : list ascii) (n a b : nat) :
  (a + n <= length ma)%nat -> (b + n <= length mb)%nat ->
  exists c, mem_strncmp ma a mb b n = Ok c.
Proof.
  revert a b. induction n as [|n IH]; intros a b Ha Hb; cbn.
  - by exists 0.
  - destruct (rd_ok ma a) as (x & _ & ->); [lia|]. cbn.
    destruct (rd_ok mb b) as (y & _ & ->); [lia|]. cbn.
    destruct (negb (Ascii.eqb x y)); [by eexists|].
    destruct (Ascii.eqb x zero); [by eexists|]. apply IH; lia.
Qed.

Lemma cmp_one_string_ok (logic : Z) (ma mb : list ascii) (astr alen bstr blen : nat) :
  (astr + alen <= length ma)%nat -> (bstr + blen <= length mb)%nat ->
  exists v, cmp_one_string logic ma astr alen mb bstr blen = Ok v.
Proof.
  intros Ha Hb. unfold cmp_one_string.
  destruct (Nat.eqb_spec alen blen) as [->|Hne]; cbn.
  - destruct (mem_strncmp_ok ma mb blen astr bstr Ha Hb) as (c & ->). cbn. by eexists.
  - by eexists.
Qed.

Lemma str_mem_ok (t : token_t) :
  str_mem_okb t = true ->
  exists m w, deref_str t = Ok m /\ slot_width t = Ok w /\ (w <= length m)%nat.
Proof.
  unfold str_mem_okb. intros H.
  destruct (deref_str t) as [m| |]; try discriminate.
  destruct (slot_width t) as [w| |]; try discriminate.
  exists m, w. apply Nat.leb_le in H. done.
Qed.

(** Two strings and a mask with a cell for the answer. *)
Lemma cmp_strings_ok (N : Z) (a b : token_t) (logic : Z) :
  0 < N -> length (pass_samples a) = Z.to_nat N ->
  form_ok N FStr a -> form_ok N FStr b ->
  exists a' r, cmp_vector_strings a b logic = Ok (a', r)
    /\ (r = 0 \/ r = 1) /\ bool_ok N (set_pass_site r a') /\ nsamples a' = 0.
Proof.
  intros HN Hmask (Hna & Hsa & Hma) (Hnb & Hsb & Hmb).
  destruct (str_mem_ok a Hma) as (ma & wa & Hda & Hwa & Hla).
  destruct (str_mem_ok b Hmb) as (mb & wb & Hdb & Hwb & Hlb).
  unfold cmp_vector_strings. rewrite Hna, Hnb. cbn [Z.eqb Pos.eqb].
  rewrite Hda, Hdb. cbn [bind]. rewrite for_loop_one. cbn [bind].
  rewrite Hwa. cbn [bind].
  destruct (scan_to_nul_ok ma wa 0) as (ea & -> & Hea); [lia|]. cbn [bind].
  rewrite Hwb. cbn [bind].
  destruct (scan_to_nul_ok mb wb 0) as (eb & -> & Heb); [lia|]. cbn [bind].
  destruct (cmp_one_string_ok logic ma mb 0 (ea - 0) 0 (eb - 0)) as (v & ->); [lia|lia|].
  cbn [bind]. rewrite store_pass_ok by lia. cbn [bind].
  destruct (skip_nul_ok ma wa 0) as (sa & ->); [lia|]. cbn [bind].
  destruct (skip_nul_ok mb wb 0) as (sb & ->); [lia|]. cbn [bind].
  cbn. rewrite Hsa. cbn.
  eexists _, _. split; [reflexivity|].
  split; [destruct (negb (v mod 256 =? 0)); auto|].
  split; [|by cbn].
  unfold bool_ok. cbn. rewrite length_insert, Hna, Hsb.
  destruct (negb (v mod 256 =? 0)); intuition lia.
Qed.

Lemma binary_cmp_strings (filter : filter_t) (line : bcf1_t) (ty : Z) (a b : token_t) :
  is_eq_ne ty = true -> nvalues a <> 0 -> nvalues b <> 0 ->
  is_str a = 1 -> is_str b = 1 -> comparator a = None -> comparator b = None ->
  filter_test_binary filter line ty a b
  = (let* (a', r) := cmp_vector_strings a b ty in Ok (set_pass_site r a')).
Proof.
  unfold is_eq_ne. intros H Ha Hb Hsa Hsb Hca Hcb.
  apply Z.eqb_neq in Ha, Hb.
  split_ops H; unfold filter_test_binary, filter_test_equality;
    rewrite Hsa, Hsb, Hca, Hcb; cbn; rewrite Ha, Hb; reflexivity.
Qed.

Lemma arith_present (N : nat) (a b : token_t) (AOP : spec_float -> spec_float -> spec_float)
    (sa ca ma sb cb mb : bool) :
  conc_presence N (Npres sa ca ma) a -> conc_presence N (Npres sb cb mb) b ->
  exists a', VECTOR_ARITHMETICS a b AOP = Ok a' /\ conc_presence N (Npres sa ca false) a'.
Proof.
  intros (Hma & Hna & Hsa & Hata & [x Hx] & _) (Hmb & Hnb & Hsb & Hatb & [y Hy] & _).
  unfold VECTOR_ARITHMETICS. rewrite Hna, Hnb, Hsa, Hsb. cbn.
  rewrite for_loop_one. cbn.
  rewrite (rd_lookup _ _ _ Hx). cbn. rewrite (rd_lookup _ _ _ Hy). cbn.
  unfold store_value. rewrite wr_ok by (by apply lookup_lt_Some in Hx). cbn.
  eexists. split; [reflexivity|].
  split; [done|]. cbn. repeat split; try done; try apply Hata.
  eexists. apply list_lookup_insert_eq. by apply lookup_lt_Some in Hx.
Qed.

Lemma cmp_present (N : nat) (a b : token_t) (CMP : spec_float -> spec_float -> bool)
    (sa ca ma sb cb mb : bool) :
  conc_presence N (Npres sa ca ma) a -> conc_presence N (Npres sb cb mb) b ->
  exists r, CMP_VECTORS a b CMP = Ok (a, r) /\ (r = 0 \/ r = 1).
Proof.
  intros (Hma & Hna & Hsa & Hata & [x Hx] & _) (Hmb & Hnb & Hsb & Hatb & [y Hy] & _).
  unfold CMP_VECTORS. rewrite Hna, Hnb, Hsa, Hsb. cbn.
  rewrite (rd_lookup _ _ _ Hx). cbn. rewrite (rd_lookup _ _ _ Hy). cbn.
  destruct (CMP x y); cbn; eexists; split; try reflexivity; auto.
Qed.

Lemma filters_cmp_filter_bit (atok btok : token_t) (op : Z) (line : bcf1_t) :
  filters_cmp_filter atok btok op line = 0 \/ filters_cmp_filter atok btok op line = 1.
Proof. unfold filters_cmp_filter. repeat case_match; auto. Qed.

(** [==] and [!=] with the comparator of %FILTER on either side: the
    comparator's answer is the site bit, and the left operand is kept. *)
Lemma binary_eq_comparator (filter : filter_t) (line : bcf1_t) (ty : Z) (a b : token_t) :
  is_eq_ne ty = true -> nvalues a <> 0 -> nvalues b <> 0 ->
  has_comparator a || has_comparator b = true ->
  exists r, filter_test_binary filter line ty a b = Ok (set_pass_site r a)
    /\ (r = 0 \/ r = 1).
Proof.
  unfold is_eq_ne, has_comparator. intros H Ha Hb Hc.
  apply Z.eqb_neq in Ha, Hb.
  split_ops H; unfold filter_test_binary, filter_test_equality;
    cbn -[filters_cmp_filter Z.add]; rewrite Ha, Hb; cbn -[filters_cmp_filter Z.add];
    (destruct (comparator b) as [[]|];
       [|destruct (comparator a) as [[]|]; [|simpl in Hc; discriminate]]);
    cbn -[filters_cmp_filter]; eexists; (split; [reflexivity|]);
    apply filters_cmp_filter_bit.
Qed.

Lemma presence_bmiss_bany (N : nat) (t : token_t) :
  conc_presence N Bmiss t -> conc_presence N Bany t.
Proof. intros (Hm & Hn & Hs & Hp). split; [done|]. split; [done|]. by left. Qed.

Lemma and_absent (N : nat) (a b : token_t) :
  conc_presence N Bany a -> conc_presence N Bany b ->
  exists a' r, vector_logic_and a b = Ok (a', r)
    /\ (r = 0 \/ r = 1) /\ nsamples a' = 0 /\ length (pass_samples a') = N
    /\ (nvalues a = 0 \/ nvalues b = 0 -> r = 0 /\ nvalues a' = 0).
Proof.
  intros (Hma & Hsa & Hpa) (Hmb & Hsb & Hpb).
  unfold vector_logic_and.
  destruct (Z.eqb_spec (nvalues a) 0) as [Ha|Ha]; cbn.
  { eexists _, _. split; [reflexivity|]. cbn. auto. }
  destruct (Z.eqb_spec (nvalues b) 0) as [Hb|Hb]; cbn.
  { eexists _, _. split; [reflexivity|]. cbn. auto. }
  rewrite Hsa, Hsb. cbn.
  eexists _, _. split; [reflexivity|].
  split; [apply c_and_bit|]. split; [done|]. split; [done|]. intros [?|?]; done.
Qed.

Lemma or_absent (N : nat) (a b : token_t) (ty : Z) :
  conc_presence N Bany a -> conc_presence N Bany b ->
  exists a' r, vector_logic_or a b ty = Ok (a', r)
    /\ (r = 0 \/ r = 1) /\ nsamples a' = 0 /\ length (pass_samples a') = N
    /\ (nvalues a = 0 -> nvalues b = 0 -> r = 0 /\ nvalues a' = 0).
Proof.
  intros (Hma & Hsa & Hpa) (Hmb & Hsb & Hpb).
  unfold vector_logic_or.
  destruct (Z.eqb_spec (nvalues a) 0) as [Ha|Ha];
    destruct (Z.eqb_spec (nvalues b) 0) as [Hb|Hb]; cbn.
  - eexists _, _. split; [reflexivity|]. cbn. auto.
  - rewrite Hsb. rewrite for_loop_zero. cbn.
    eexists _, _. split; [reflexivity|]. cbn.
    split; [done|]. split; [done|]. split; [done|]. intros _ ?. done.
  - eexists _, _. split; [reflexivity|].
    split; [done|]. split; [done|]. split; [done|]. intros ? _. done.
  - rewrite Hsa, Hsb. cbn. eexists _, _. split; [reflexivity|].
    split; [apply c_or_bit|]. split; [done|]. split; [done|]. intros ? _. done.
Qed.

(** Arithmetic and comparison with a missing operand. *)
Lemma absent_missing_sound (N : nat) (filter : filter_t) (line : bcf1_t) (ty : Z)
    (pa pb p : presence) (a b : token_t) :
  conc_presence N pa a -> conc_presence N pb b ->
  (pa = Nmiss \/ pb = Nmiss) ->
  (if is_arith ty then Some Nmiss else if is_cmp ty then Some Bmiss else None) = Some p ->
  exists a', filter_test_binary filter line ty a b = Ok a' /\ conc_presence N p a'.
Proof.
  intros Ha Hb Hm Hp.
  assert (nvalues a = 0 \/ nvalues b = 0) as Hm0.
  { destruct Hm as [-> | ->]; [left; apply Ha|right; apply Hb]. }
  destruct (is_arith ty) eqn:Har.
  - destruct (binary_arith filter line ty a b Har) as [AOP ->].
    inversion Hp; subst p.
    rewrite arith_missing by auto. eexists. split; [reflexivity|].
    split; [apply Ha|reflexivity].
  - destruct (is_cmp ty) eqn:Hcm; [|discriminate]. inversion Hp; subst p.
    rewrite binary_cmp_missing by auto. eexists. split; [reflexivity|].
    split; [apply Ha|done].
Qed.

(** Arithmetic and comparison of two present operands. *)
Lemma absent_present_sound (N : Z) (filter : filter_t) (line : bcf1_t) (ty : Z)
    (sa ca ma sb cb mb : bool) (p : presence) (a b : token_t) :
  absent_bin N ty (Npres sa ca ma) (Npres sb cb mb) = Some p ->
  conc_presence (Z.to_nat N) (Npres sa ca ma) a ->
  conc_presence (Z.to_nat N) (Npres sb cb mb) b ->
  exists a', filter_test_binary filter line ty a b = Ok a'
    /\ conc_presence (Z.to_nat N) p a'.
Proof.
  intros Hp Ha Hb. cbn in Hp.
  assert (nvalues a <> 0) as Hna by (destruct Ha as (_ & -> & _); done).
  assert (nvalues b <> 0) as Hnb by (destruct Hb as (_ & -> & _); done).
  destruct (is_arith ty) eqn:Har.
  - inversion Hp; subst p.
    destruct (binary_arith filter line ty a b Har) as [AOP ->].
    by apply (arith_present _ a b AOP sa ca ma sb cb mb).
  - destruct (is_cmp ty) eqn:Hcm; [|discriminate].
    destruct (is_eq_ne ty && (ca || cb)) eqn:Hcomp.
    + inversion Hp; subst p. apply andb_true_iff in Hcomp as [Heq Hc].
      destruct (binary_eq_comparator filter line ty a b Heq Hna Hnb) as (r & -> & Hr).
      { destruct Ha as (_ & _ & _ & [_ ->] & _), Hb as (_ & _ & _ & [_ ->] & _). exact Hc. }
      eexists. split; [reflexivity|]. split; [apply Ha|].
      split; [apply Ha|exact Hr].
    + assert (ty = TOK_EQ \/ ty = TOK_NE -> ca = false /\ cb = false) as Hnone.
      { intros Hty. assert (is_eq_ne ty = true) as Heq.
        { unfold is_eq_ne. destruct Hty as [-> | ->]; reflexivity. }
        rewrite Heq in Hcomp. by apply orb_false_iff in Hcomp. }
      destruct (sa || sb) eqn:Hstr.
      * destruct (sa && sb && (ma && mb) && is_eq_ne ty && (0 <? N)) eqn:Hgo;
          [|discriminate].
        inversion Hp; subst p.
        apply andb_true_iff in Hgo as [Hgo HN]. apply andb_true_iff in Hgo as [Hgo Heq].
        apply andb_true_iff in Hgo as [Hgo Hmem]. apply andb_true_iff in Hgo as [-> ->].
        apply andb_true_iff in Hmem as [-> ->]. apply Z.ltb_lt in HN.
        destruct Hnone as [-> ->].
        { unfold is_eq_ne in Heq. apply orb_true_iff in Heq as [H|H];
            apply Z.eqb_eq in H; auto. }
        destruct Ha as (Hla & Hva & Hsa & Hata & _ & Hma).
        destruct Hb as (Hlb & Hvb & Hsb & Hatb & _ & Hmb).
        rewrite (binary_cmp_strings filter line ty a b Heq Hna Hnb (proj1 Hata) (proj1 Hatb)
                   (attrs_comparator true false a Hata eq_refl)
                   (attrs_comparator true false b Hatb eq_refl)).
        destruct (cmp_strings_ok N a b ty HN) as (a' & r & -> & Hr & Hok & Hns);
          [done|by split; [|split; [|apply Hma]]|by split; [|split; [|apply Hmb]]|].
        cbn [bind]. eexists. split; [reflexivity|].
        split; [apply Hok|]. split; [exact Hns|exact Hr].
      * inversion Hp; subst p.
        apply orb_false_iff in Hstr as [-> ->].
        assert (exists CMP, filter_test_binary filter line ty a b
                  = (let* (a', r) := CMP_VECTORS a b CMP in Ok (set_pass_site r a')))
          as [CMP ->].
        { destruct Ha as (_ & _ & _ & [Hsa Hca] & _), Hb as (_ & _ & _ & [Hsb Hcb] & _).
          unfold has_comparator in Hca, Hcb. unfold is_cmp in Hcm.
          apply Z.eqb_neq in Hna, Hnb.
          split_ops Hcm; unfold filter_test_binary, filter_test_equality;
            rewrite Hsa, Hsb; cbn; rewrite Hna, Hnb; cbn;
            try (eexists; reflexivity);
            destruct (Hnone ltac:(auto)) as [Hca0 Hcb0];
            (destruct (comparator a); [discriminate|]);
            (destruct (comparator b); [discriminate|]); eexists; reflexivity. }
        destruct (cmp_present _ a b CMP _ _ _ _ _ _ Ha Hb) as (r & -> & Hr). cbn.
        eexists. split; [reflexivity|]. split; [apply Ha|].
        split; [apply Ha|done].
Qed.

(** The abstract operators describe the concrete ones. *)
Lemma absent_bin_sound (N : Z) (filter : filter_t) (line : bcf1_t) (ty : Z)
    (pa pb p : presence) (a b : token_t) :
  absent_bin N ty pa pb = Some p ->
  conc_presence (Z.to_nat N) pa a -> conc_presence (Z.to_nat N) pb b ->
  exists a', filter_test_binary filter line ty a b = Ok a'
    /\ conc_presence (Z.to_nat N) p a'.
Proof.
  intros Habs Ha Hb.
  assert (Hbool : forall pand por,
    (pa = Bmiss \/ pa = Bany) -> (pb = Bmiss \/ pb = Bany) ->
    (pand = Bany \/ pand = Bmiss) -> (pand = Bmiss -> pa = Bmiss \/ pb = Bmiss) ->
    (por = Bany \/ por = Bmiss) -> (por = Bmiss -> pa = Bmiss /\ pb = Bmiss) ->
    (if is_and ty then Some pand else if is_or ty then Some por else None) = Some p ->
    exists a', filter_test_binary filter line ty a b = Ok a'
      /\ conc_presence (Z.to_nat N) p a').
  { intros pand por Hpa Hpb Hpand Hand Hpor Hor Hp.
    assert (conc_presence (Z.to_nat N) Bany a) as Ha'.
    { destruct Hpa as [-> | ->]; [by apply presence_bmiss_bany|done]. }
    assert (conc_presence (Z.to_nat N) Bany b) as Hb'.
    { destruct Hpb as [-> | ->]; [by apply presence_bmiss_bany|done]. }
    assert (0 <= pass_site a) as Hsa by (destruct Ha' as (_ & _ & [-> | ->]); lia).
    assert (0 <= pass_site b) as Hsb by (destruct Hb' as (_ & _ & [-> | ->]); lia).
    destruct (is_and ty) eqn:Hand'.
    - inversion Hp; subst p.
      rewrite binary_and by done.
      destruct (and_absent _ a b Ha' Hb') as (a' & r & -> & Hr & Hns & Hlen & Hmiss). cbn.
      eexists. split; [reflexivity|]. split; [done|].
      destruct Hpand as [-> | ->]; cbn; [done|].
      destruct Hmiss as [-> Hnv].
      { destruct Hand as [-> | ->]; [done|left; apply Ha|right; apply Hb]. }
      done.
    - destruct (is_or ty) eqn:Hor'; [|discriminate]. inversion Hp; subst p.
      rewrite binary_or by done.
      destruct (or_absent _ a b ty Ha' Hb') as (a' & r & -> & Hr & Hns & Hlen & Hmiss). cbn.
      eexists. split; [reflexivity|]. split; [done|].
      destruct Hpor as [-> | ->]; cbn; [done|].
      destruct Hor as [-> ->]; [done|].
      destruct Hmiss as [-> Hnv]; [apply Ha|apply Hb|]. done. }
  destruct pa as [|sa ca ma| |], pb as [|sb cb mb| |];
    try (by apply (absent_present_sound N filter line ty sa ca ma sb cb mb));
    simpl in Habs; try discriminate.
  - apply (absent_missing_sound _ filter line ty Nmiss Nmiss); auto.
  - apply (absent_missing_sound _ filter line ty Nmiss (Npres sb cb mb)); auto.
  - apply (absent_missing_sound _ filter line ty (Npres sa ca ma) Nmiss); auto.
  - apply (Hbool Bmiss Bmiss); auto.
  - apply (Hbool Bmiss Bany); auto; done.
  - apply (Hbool Bmiss Bany); auto; done.
  - apply (Hbool Bany Bany); auto; done.
Qed.

(** ** Missing fields *)

Lemma absent_val_sound (filter : filter_t) (line : bcf1_t) (t : token_t) (d : presence) :
  initialised filter = true -> fields_absent filter line = true ->
  In t (filters filter) -> tok_type t = TOK_VAL -> absent_val t = Some d ->
  exists t', filter_test_value filter line (reset_token t) = Ok t'
    /\ conc_presence (Z.to_nat (flt_nsamples filter)) d t'.
Proof.
  intros Hinit Habs Hin Hty Hav.
  unfold initialised in Hinit. rewrite forallb_forall in Hinit.
  specialize (Hinit t Hin). apply andb_true_iff in Hinit as [Hcap Hmask].
  apply Nat.leb_le in Hcap. apply Nat.eqb_eq in Hmask.
  unfold fields_absent in Habs. rewrite forallb_forall in Habs.
  specialize (Habs t Hin). unfold field_absentb in Habs.
  rewrite Hty in Habs. change (TOK_VAL =? TOK_VAL) with true in Habs. cbv iota in Habs.
  unfold absent_val in Hav. unfold filter_test_value.
  change (setter (reset_token t)) with (setter t).
  change (key (reset_token t)) with (key t).
  destruct (setter t) as [f|].
  - inversion Hav; subst d.
    destruct (call_setter f filter line (reset_token t)) as [t'| |] eqn:Hcall; try discriminate.
    exists t'. split; [done|].
    split; [|by apply Z.eqb_eq].
    rewrite (call_setter_mask _ _ _ _ _ Hcall). exact Hmask.
  - destruct ((is_str t =? 0) || (is_str t =? 1)) eqn:Hstr; [|discriminate].
    assert (is_str t = (if is_str t =? 1 then 1 else 0)) as Hs.
    { apply orb_true_iff in Hstr as [H|H]; apply Z.eqb_eq in H; by rewrite H. }
    destruct (key t) as [k|].
    + destruct (values t) as [|[| |x] rest] eqn:Hv; try discriminate.
      injection Hav as <-. cbn. rewrite Hv. cbn.
      unfold store_value. cbn. rewrite Hv. rewrite wr_ok by (simpl; lia). cbn.
      eexists. split; [reflexivity|].
      split; [exact Hmask|]. cbn. repeat split; try done; [by eexists|].
      unfold str_mem_okb, slot_width. cbn. rewrite Hv. done.
    + inversion Hav; subst d.
      unfold store_value. rewrite wr_ok by (simpl; lia). cbn.
      eexists. split; [reflexivity|].
      split; [exact Hmask|]. cbn. repeat split; try done.
      eexists. apply list_lookup_insert_eq. lia.
Qed.

(** Quoted strings are operands of [==] and [!=] only, against a string,
    and their comparison writes into the sample mask: on a filter without
    samples it writes through the unallocated mask, and against a number
    it ends the process.  No field is referred to here, so none is
    present. *)
Lemma quoted_strings_fail :
  is_ok (filter_init strtod_uint hdr_tags "'a'='b'") = true
  /\ fields_absent (compiled hdr_tags "'a'='b'") (rec_bare []) = true
  /\ compile_and_test hdr_tags "'a'='b'" (rec_bare [])
     = Undef "write past the end of an array"
  /\ is_ok (filter_init strtod_uint hdr_tags "'a'=1") = true
  /\ fields_absent (compiled hdr_tags "'a'=1") (rec_bare []) = true
  /\ compile_and_test hdr_tags "'a'=1" (rec_bare [])
     = Fatal "Comparing string to numeric value"
  /\ is_ok (filter_init strtod_uint hdr_tags "'a'<'b' & FMT/GQ>1") = true
  /\ fields_absent (compiled hdr_tags "'a'<'b' & FMT/GQ>1") (rec_bare []) = true
  /\ compile_and_test hdr_tags "'a'<'b' & FMT/GQ>1" (rec_bare [])
     = Fatal "Wrong operator in string comparison".
Proof. repeat split; vm_compute; reflexivity. Qed.




(** ** Well-formed operands through the kernels *)

Lemma classify_sound (N : Z) (t : token_t) (k : class) :
  classify N t = Some k -> conc_class N k t.
Proof.
  unfold classify.
  destruct ((pass_site t =? -1) && (length (pass_samples t) =? Z.to_nat N)%nat
            && (1 <=? length (values t))%nat && ((is_str t =? 0) || (is_str t =? 1)))
    eqn:Hb; [|discriminate].
  apply andb_true_iff in Hb as [Hb Hstr]. apply andb_true_iff in Hb as [Hb Hcap].
  apply andb_true_iff in Hb as [Hsite Hmask].
  apply Z.eqb_eq in Hsite. apply Nat.eqb_eq in Hmask. apply Nat.leb_le in Hcap.
  assert (is_str t = (if is_str t =? 1 then 1 else 0)) as Hs.
  { apply orb_true_iff in Hstr as [H|H]; apply Z.eqb_eq in H; by rewrite H. }
  assert (base_ok N t) as Hbase by done.
  assert (attrs_ok (is_str t =? 1) (has_comparator t) t) as Hattr by done.
  destruct ((nvalues t =? 0) && (nsamples t =? 0)) eqn:H0.
  { intros H. injection H as <-. apply andb_true_iff in H0 as [H1 H2].
    apply Z.eqb_eq in H1, H2. cbn. done. }
  destruct ((nsamples t =? 0) && (nvalues t =? 1)) eqn:H1.
  { intros H. injection H as <-. apply andb_true_iff in H1 as [H1 H2].
    apply Z.eqb_eq in H1, H2.
    destruct ((is_str t =? 1) && str_mem_okb t) eqn:Hm; cbn.
    - apply andb_true_iff in Hm as [_ Hm]. done.
    - split; [done|]. split; [done|]. auto. }
  destruct ((nsamples t =? 0) && (1 <? nvalues t) && (nvalues t <=? N)
            && (Z.to_nat N <=? length (values t))%nat) eqn:H2.
  { intros H. injection H as <-. apply andb_true_iff in H2 as [H2 H3].
    apply andb_true_iff in H2 as [H2 H7]. apply andb_true_iff in H2 as [H2 H4].
    apply Z.eqb_eq in H2. apply Z.ltb_lt in H4. apply Z.leb_le in H7.
    apply Nat.leb_le in H3.
    cbn. split; [done|]. split; [done|]. unfold site_ok.
    split; [|done]. split; [done|]. split; lia. }
  destruct ((0 <? N) && (nsamples t =? N) && (nvalues t =? N)
            && (Z.to_nat N <=? length (values t))%nat) eqn:H3; [|discriminate].
  intros H. injection H as <-. apply andb_true_iff in H3 as [H3 H4].
  apply andb_true_iff in H3 as [H3 H5]. apply andb_true_iff in H3 as [H3 H6].
  apply Z.ltb_lt in H3. apply Z.eqb_eq in H5, H6. apply Nat.leb_le in H4.
  cbn. split; [done|]. split; [done|]. right. done.
Qed.

Lemma store_value_ok (i : nat) (x : float32) (t : token_t) :
  (i < length (values t))%nat ->
  store_value i x t = Ok (set_values (<[i := x]> (values t)) t).
Proof. intros H. unfold store_value. by rewrite wr_ok. Qed.

Lemma keeps_values_refl (t : token_t) : keeps_values t t.
Proof. exists (values t). split; [by destruct t|done]. Qed.

Lemma keeps_mask_refl (t : token_t) : keeps_mask t t.
Proof. exists (pass_samples t). split; [by destruct t|done]. Qed.

Lemma keeps_values_store (t0 t : token_t) (i : nat) (x : float32) :
  keeps_values t0 t -> (i < length (values t0))%nat ->
  exists t', store_value i x t = Ok t' /\ keeps_values t0 t'.
Proof.
  intros (vs & -> & Hlen) Hi.
  rewrite store_value_ok by (simpl; lia). eexists. split; [reflexivity|].
  exists (<[i := x]> vs). split; [reflexivity|]. by rewrite length_insert.
Qed.

Lemma keeps_mask_store (t0 t : token_t) (i : nat) (x : Z) :
  keeps_mask t0 t -> (i < length (pass_samples t0))%nat ->
  exists t', store_pass i x t = Ok t' /\ keeps_mask t0 t'.
Proof.
  intros (m & -> & Hlen) Hi.
  rewrite store_pass_ok by (simpl; lia). eexists. split; [reflexivity|].
  exists (<[i := x mod 256]> m). split; [reflexivity|]. by rewrite length_insert.
Qed.

Lemma keeps_values_rd (t0 t : token_t) (i : nat) :
  keeps_values t0 t -> (i < length (values t0))%nat ->
  exists x, rd (values t) i = Ok x.
Proof.
  intros (vs & -> & Hlen) Hi. destruct (rd_ok vs i) as (x & _ & Hx); [lia|].
  exists x. exact Hx.
Qed.

Lemma keeps_mask_rd (t0 t : token_t) (i : nat) :
  keeps_mask t0 t -> (i < length (pass_samples t0))%nat ->
  exists x, rd (pass_samples t) i = Ok x.
Proof.
  intros (m & -> & Hlen) Hi. destruct (rd_ok m i) as (x & _ & Hx); [lia|].
  exists x. exact Hx.
Qed.

Lemma keeps_values_fields (t0 t : token_t) :
  keeps_values t0 t ->
  is_str t = is_str t0 /\ comparator t = comparator t0
  /\ pass_samples t = pass_samples t0 /\ length (values t) = length (values t0)
  /\ nvalues t = nvalues t0 /\ nsamples t = nsamples t0 /\ pass_site t = pass_site t0.
Proof. intros (vs & -> & Hlen). cbn. repeat split; done. Qed.

Lemma keeps_mask_fields (t0 t : token_t) :
  keeps_mask t0 t ->
  is_str t = is_str t0 /\ comparator t = comparator t0
  /\ values t = values t0 /\ length (pass_samples t) = length (pass_samples t0)
  /\ nvalues t = nvalues t0 /\ nsamples t = nsamples t0 /\ pass_site t = pass_site t0.
Proof. intros (m & -> & Hlen). cbn. repeat split; done. Qed.

(** A loop over the value cells of a token. *)
Lemma values_loop (t0 : token_t) (n : Z)
    (body : nat -> token_t * Z -> outcome (token_t * Z)) (hv0 : Z) :
  (forall k t hv, (k < Z.to_nat n)%nat -> keeps_values t0 t ->
     exists t' hv', body k (t, hv) = Ok (t', hv') /\ keeps_values t0 t') ->
  exists t' hv', for_loop n body (t0, hv0) = Ok (t', hv') /\ keeps_values t0 t'.
Proof.
  intros Hbody.
  destruct (for_loop_inv (fun _ (st : token_t * Z) => keeps_values t0 st.1) body n (t0, hv0))
    as ([t' hv'] & Hrun & Hinv).
  - apply keeps_values_refl.
  - intros k [t hv] Hk Hinv.
    destruct (Hbody k t hv Hk Hinv) as (t' & hv' & Hb & Hk').
    exists (t', hv'). split; done.
  - exists t', hv'. split; done.
Qed.

(** A loop over the mask cells of a token that keeps a bit. *)
Lemma bit_loop (t0 : token_t) (n : Z)
    (body : nat -> token_t * Z -> outcome (token_t * Z)) :
  (forall k t p, (k < Z.to_nat n)%nat -> keeps_mask t0 t -> (p = 0 \/ p = 1) ->
     exists t' p', body k (t, p) = Ok (t', p') /\ keeps_mask t0 t' /\ (p' = 0 \/ p' = 1)) ->
  exists t' p', for_loop n body (t0, 0) = Ok (t', p')
    /\ keeps_mask t0 t' /\ (p' = 0 \/ p' = 1).
Proof.
  intros Hbody.
  destruct (for_loop_inv
    (fun _ (st : token_t * Z) => keeps_mask t0 st.1 /\ (st.2 = 0 \/ st.2 = 1))
    body n (t0, 0)) as ([t' p'] & Hrun & Hinv).
  - split; [apply keeps_mask_refl|by left].
  - intros k [t p] Hk [Hinv Hp].
    destruct (Hbody k t p Hk Hinv Hp) as (t' & p' & Hb & Hk' & Hp').
    exists (t', p'). split; done.
  - exists t', p'. split; [done|]. exact Hinv.
Qed.

(** The same for the loops of [CMP_VECTORS], which keep two flags. *)
Lemma cmp_loop (t0 : token_t) (n : Z)
    (body : nat -> token_t * Z * Z -> outcome (token_t * Z * Z)) :
  (forall k t hv p, (k < Z.to_nat n)%nat -> keeps_mask t0 t -> (p = 0 \/ p = 1) ->
     exists t' hv' p', body k (t, hv, p) = Ok (t', hv', p')
       /\ keeps_mask t0 t' /\ (p' = 0 \/ p' = 1)) ->
  exists t' hv' p', for_loop n body (t0, 0, 0) = Ok (t', hv', p')
    /\ keeps_mask t0 t' /\ (p' = 0 \/ p' = 1).
Proof.
  intros Hbody.
  destruct (for_loop_inv
    (fun _ (st : token_t * Z * Z) => keeps_mask t0 st.1.1 /\ (st.2 = 0 \/ st.2 = 1))
    body n (t0, 0, 0)) as ([[t' hv'] p'] & Hrun & Hinv).
  - split; [apply keeps_mask_refl|by left].
  - intros k [[t hv] p] Hk [Hinv Hp].
    destruct (Hbody k t hv p Hk Hinv Hp) as (t' & hv' & p' & Hb & Hk' & Hp').
    exists (t', hv', p'). split; done.
  - exists t', hv', p'. split; [done|]. exact Hinv.
Qed.

(** The buffers of an operand cover what the kernels read and write. *)
Lemma operand_capacity (N : Z) (t : token_t) :
  operand_ok N t ->
  (Z.to_nat (nvalues t) <= length (values t))%nat
  /\ (Z.to_nat (nsamples t) <= length (values t))%nat
  /\ (Z.to_nat (nsamples t) <= length (pass_samples t))%nat
  /\ (1 <= length (values t))%nat
  /\ 0 <= nvalues t
  /\ (nsamples t = 0 -> nvalues t <= Z.max 1 N)
  /\ (nsamples t <> 0 -> nsamples t = N /\ nvalues t = N /\ 0 < N).
Proof.
  intros (Hm & Hc & [(Hs & Hn & Hcap)|(HN & Hs & Hn & Hcap)]);
    rewrite ?Hn, Hs, Hm; repeat split; try lia; auto; try done.
Qed.

Lemma operand_of_form (N : Z) (f : form) (t : token_t) :
  base_ok N t -> form_ok N f t -> operand_ok N t.
Proof.
  intros (_ & Hm & Hc) Hf. split; [done|]. split; [done|].
  destruct f; cbn in Hf; unfold site_ok, vec_ok in *.
  - left. destruct Hf as [Hn Hs]. rewrite Hn, Hs. repeat split; lia.
  - left. destruct Hf as [Hs [Hn|Hn]]; rewrite Hn, Hs; repeat split; lia.
  - destruct Hf as [[Hn Hs]|Hv]; [left|by right]. rewrite Hn, Hs. repeat split; lia.
  - left. apply Hf.
  - left. destruct Hf as (Hn & Hs & _). rewrite Hn, Hs. repeat split; lia.
Qed.

(** The three functions turn any operand into a scalar. *)
Lemma set_fun_ok (N : Z) (f : setter_fn) (filter : filter_t) (line : bcf1_t)
    (arg : token_t) :
  match f with ptr_set_max | ptr_set_min | ptr_set_avg => True | _ => False end ->
  base_ok N arg -> operand_ok N arg ->
  exists arg', call_setter f filter line arg = Ok arg'
    /\ base_ok N arg' /\ form_ok N FScal arg'
    /\ is_str arg' = is_str arg /\ comparator arg' = comparator arg.
Proof.
  intros Hf Hbase Hok.
  destruct (operand_capacity N arg Hok) as (Hcap & _ & _ & Hone & _).
  destruct Hbase as (Hsite & Hmask & _).
  assert (forall (h : spec_float -> float32 -> outcome spec_float) (v0 : spec_float),
    (forall val x, exists v', h val x = Ok v') ->
    exists val, for_loop (nvalues arg)
      (fun i val => let* x := rd (values arg) i in h val x) v0 = Ok val) as Hloop.
  { intros h v0 Hh.
    destruct (for_loop_inv (fun _ (_ : spec_float) => True)
      (fun i val => let* x := rd (values arg) i in h val x) (nvalues arg) v0)
      as (val & Hrun & _); [done| |by exists val].
    intros k val Hk _. destruct (rd_ok (values arg) k) as (x & _ & ->); [lia|].
    cbn. destruct (Hh val x) as (v' & ->). eexists. split; done. }
  destruct f; try done; cbn; unfold set_max, set_min, set_avg.
  - destruct (Hloop (fun val x =>
      if negb (bcf_float_is_missing x) && f_lt val (to_sf x) then Ok (to_sf x) else Ok val)
      neg_HUGE_VAL) as (val & Hval).
    { intros val x. destruct (_ && _); eexists; reflexivity. }
    cbv beta in Hval. rewrite Hval.
    cbn. rewrite store_value_ok by lia. cbn. eexists. split; [reflexivity|].
    unfold base_ok; cbn. rewrite length_insert. auto 10.
  - destruct (Hloop (fun val x =>
      if negb (bcf_float_is_missing x) && f_gt val (to_sf x) then Ok (to_sf x) else Ok val)
      HUGE_VAL) as (val & Hval).
    { intros val x. destruct (_ && _); eexists; reflexivity. }
    cbv beta in Hval. rewrite Hval.
    cbn. rewrite store_value_ok by lia. cbn. eexists. split; [reflexivity|].
    unfold base_ok; cbn. rewrite length_insert. auto 10.
  - destruct (Hloop (fun val x =>
      if negb (bcf_float_is_missing x) then Ok (f_add val (to_sf x)) else Ok val)
      (float_of_int 0)) as (val & Hval).
    { intros val x. destruct (negb _); eexists; reflexivity. }
    cbv beta in Hval. rewrite Hval.
    cbn. rewrite store_value_ok by lia. cbn. eexists. split; [reflexivity|].
    unfold base_ok; cbn. rewrite length_insert. auto 10.
Qed.

Lemma hts_expand_fields (n : Z) (t : token_t) :
  is_str (hts_expand n t) = is_str t /\ comparator (hts_expand n t) = comparator t
  /\ pass_samples (hts_expand n t) = pass_samples t
  /\ nvalues (hts_expand n t) = nvalues t /\ nsamples (hts_expand n t) = nsamples t
  /\ pass_site (hts_expand n t) = pass_site t
  /\ (length (values t) <= length (values (hts_expand n t)))%nat
  /\ (Z.to_nat n <= length (values (hts_expand n t)))%nat
  /\ values (hts_expand n t) !! 0%nat = match values t with [] => values (hts_expand n t) !! 0%nat | x :: _ => Some x end.
Proof.
  unfold hts_expand. destruct (Nat.ltb_spec (length (values t)) (Z.to_nat n)); cbn.
  - rewrite length_app, repeat_length. repeat split; try lia.
    destruct (values t); reflexivity.
  - repeat split; try lia. destruct (values t); reflexivity.
Qed.

Lemma arith_result_keeps (N : Z) (a b t : token_t) :
  base_ok N a -> keeps_values a t -> nvalues a <> 0 -> nvalues b <> 0 ->
  nsamples a <> 0 \/ nsamples b = 0 ->
  arith_result N a b t.
Proof.
  intros Hb Hk Hna Hnb Hs.
  destruct (keeps_values_fields _ _ Hk) as (H1 & H2 & H3 & H4 & H5 & H6 & H7).
  unfold arith_result, base_ok in *. rewrite H1, H2, H3, H4, H5, H6, H7.
  intuition lia.
Qed.

Lemma arith_result_missing (N : Z) (a b t : token_t) :
  base_ok N a -> keeps_values a t -> arith_result N a b (set_missing t).
Proof.
  intros Hb Hk.
  destruct (keeps_values_fields _ _ Hk) as (H1 & H2 & H3 & H4 & H5 & H6 & H7).
  unfold arith_result, base_ok in *. cbn. rewrite H1, H2, H3, H4, H7.
  intuition lia.
Qed.

(** Arithmetic completes when its loops stay inside the buffers. *)
Lemma arith_operand_ok (N : Z) (a b : token_t) (AOP : spec_float -> spec_float -> spec_float) :
  base_ok N a -> operand_ok N a -> operand_ok N b ->
  (nsamples a = 0 -> nsamples b = 0 -> nvalues b <> 0 ->
   (Z.to_nat (nvalues a) <= length (values b))%nat) ->
  exists a', VECTOR_ARITHMETICS a b AOP = Ok a' /\ arith_result N a b a'.
Proof.
  intros Hbase Ha Hb Hsite.
  destruct (operand_capacity N a Ha) as (Hca & _ & _ & H1a & _ & _ & Hva).
  destruct (operand_capacity N b Hb) as (Hcb & _ & _ & H1b & _ & _ & Hvb).
  destruct (Z.eq_dec (nvalues a) 0) as [Hna|Hna].
  { rewrite arith_missing by auto. eexists. split; [reflexivity|].
    unfold arith_result, base_ok in *. cbn. intuition lia. }
  destruct (Z.eq_dec (nvalues b) 0) as [Hnb|Hnb].
  { rewrite arith_missing by auto. eexists. split; [reflexivity|].
    unfold arith_result, base_ok in *. cbn. intuition lia. }
  unfold VECTOR_ARITHMETICS.
  apply Z.eqb_neq in Hna, Hnb. rewrite Hna, Hnb. apply Z.eqb_neq in Hna, Hnb. cbn [orb].
  destruct (Z.eqb_spec (nsamples a) 0) as [Hsa|Hsa];
    destruct (Z.eqb_spec (nsamples b) 0) as [Hsb|Hsb]; cbn [negb andb orb].
  - (* two site-level operands *)
    specialize (Hsite Hsa Hsb Hnb).
    match goal with |- context [for_loop ?n ?body (?t0, ?h0)] =>
      destruct (values_loop t0 n body h0) as (t' & hv' & -> & Hkeep) end.
    { intros k t hv Hk Hkeep. cbn beta iota.
      destruct (keeps_values_rd a t k Hkeep) as (x & ->); [lia|]. cbn [bind].
      destruct (bcf_float_is_missing x); [eexists _, _; split; [reflexivity|done]|].
      destruct (rd_ok (values b) k) as (y & _ & ->); [lia|]. cbn [bind].
      destruct (bcf_float_is_missing y);
        (edestruct (keeps_values_store a t k) as (t' & -> & Hk'); [done|lia|]);
        cbn [bind]; eexists _, _; split; try reflexivity; done. }
    cbn [bind]. destruct (hv' =? 0); eexists; (split; [reflexivity|]).
    + by apply arith_result_missing.
    + apply arith_result_keeps; auto.
  - (* a site-level operand and a vector *)
    destruct (Hvb Hsb) as (HsN & HnN & HN).
    destruct (hts_expand_fields (nvalues b) a)
      as (Hes & Hec & Hem & Hen & Hens & Hep & Hel & Hen' & _).
    match goal with |- context [for_loop ?n ?body (?t0, ?h0)] =>
      destruct (values_loop t0 n body h0) as (t' & hv' & -> & Hkeep) end.
    { intros k t hv Hk Hkeep. cbn beta iota.
      destruct (keeps_values_rd _ t 0 Hkeep) as (x & ->); [lia|]. cbn [bind].
      destruct (bcf_float_is_missing x).
      { edestruct (keeps_values_store (hts_expand (nvalues b) a) t k) as (t' & -> & Hk');
          [done|lia|].
        cbn [bind]. eexists _, _. split; [reflexivity|done]. }
      destruct (rd_ok (values b) k) as (y & _ & ->); [lia|]. cbn [bind].
      destruct (bcf_float_is_missing y);
        (edestruct (keeps_values_store (hts_expand (nvalues b) a) t k) as (t' & -> & Hk');
           [done|lia|]);
        cbn [bind]; eexists _, _; split; try reflexivity; done. }
    cbn [bind].
    destruct (keeps_values_fields _ _ Hkeep) as (Hfs & Hfc & Hfm & Hfl & _ & _ & Hfp).
    destruct Hbase as (Hap & Ham & _).
    destruct (hv' =? 0); eexists; (split; [reflexivity|]);
      unfold arith_result, base_ok, vec_ok; cbn;
      rewrite Hfs, Hfc, Hfm, Hfl, Hfp, Hes, Hec, Hem, Hep; intuition lia.
  - (* a vector and a site-level operand *)
    match goal with |- context [for_loop ?n ?body (?t0, ?h0)] =>
      destruct (values_loop t0 n body h0) as (t' & hv' & -> & Hkeep) end.
    { intros k t hv Hk Hkeep. cbn beta iota.
      destruct (keeps_values_rd a t k Hkeep) as (x & ->); [lia|]. cbn [bind].
      destruct (bcf_float_is_missing x).
      { edestruct (keeps_values_store a t k) as (t' & -> & Hk'); [done|lia|].
        cbn [bind]. eexists _, _. split; [reflexivity|done]. }
      destruct (rd_ok (values b) 0) as (y & _ & ->); [lia|]. cbn [bind].
      destruct (bcf_float_is_missing y);
        (edestruct (keeps_values_store a t k) as (t' & -> & Hk'); [done|lia|]);
        cbn [bind]; eexists _, _; split; try reflexivity; done. }
    cbn [bind]. destruct (hv' =? 0); eexists; (split; [reflexivity|]).
    + by apply arith_result_missing.
    + apply arith_result_keeps; auto.
  - (* two vectors *)
    destruct (Hva Hsa) as (HsNa & HnNa & HN). destruct (Hvb Hsb) as (HsNb & HnNb & _).
    match goal with |- context [for_loop ?n ?body (?t0, ?h0)] =>
      destruct (values_loop t0 n body h0) as (t' & hv' & -> & Hkeep) end.
    { intros k t hv Hk Hkeep. cbn beta iota.
      destruct (keeps_values_rd a t k Hkeep) as (x & ->); [lia|]. cbn [bind].
      destruct (bcf_float_is_missing x); [eexists _, _; split; [reflexivity|done]|].
      destruct (rd_ok (values b) k) as (y & _ & ->); [lia|]. cbn [bind].
      destruct (bcf_float_is_missing y);
        (edestruct (keeps_values_store a t k) as (t' & -> & Hk'); [done|lia|]);
        cbn [bind]; eexists _, _; split; try reflexivity; done. }
    cbn [bind]. destruct (hv' =? 0); eexists; (split; [reflexivity|]).
    + by apply arith_result_missing.
    + apply arith_result_keeps; auto.
Qed.

(** The form of the result of arithmetic is the one announced. *)
Lemma arith_form_sound (N : Z) (fa fb f : form) (a b a' : token_t) :
  arith_form fa fb = Some f ->
  base_ok N a -> form_ok N fa a -> base_ok N b -> form_ok N fb b ->
  ((nsamples a = 0 -> nsamples b = 0 -> nvalues b <> 0 ->
    (Z.to_nat (nvalues a) <= length (values b))%nat)
   /\ (arith_result N a b a' -> form_ok N f a')).
Proof.
  intros Hf (_ & _ & H1a) Hfa (_ & _ & H1b) Hfb.
  unfold arith_result, base_ok.
  destruct fa, fb; cbn in Hf; inversion Hf; subst f; clear Hf;
    cbn in Hfa, Hfb |- *; unfold site_ok, vec_ok in *;
    (split; [intros; lia|intros; intuition lia]).
Qed.

Lemma cmp_slot_ok (CMP : spec_float -> spec_float -> bool) (t0 t : token_t) (k : nat)
    (x y : float32) (hv p : Z) :
  keeps_mask t0 t -> (k < length (pass_samples t0))%nat -> (p = 0 \/ p = 1) ->
  exists t' hv' p', cmp_slot CMP k x y (t, hv, p) = Ok (t', hv', p')
    /\ keeps_mask t0 t' /\ (p' = 0 \/ p' = 1).
Proof.
  intros Hkeep Hk Hp. unfold cmp_slot.
  destruct (CMP (to_sf x) (to_sf y));
    (edestruct (keeps_mask_store t0 t k) as (t' & -> & Hk'); [done|lia|]);
    cbn [bind]; eexists _, _, _; (split; [reflexivity|]); split; auto.
Qed.

Lemma store_zero_ok (t0 t : token_t) (k : nat) (hv p : Z) :
  keeps_mask t0 t -> (k < length (pass_samples t0))%nat -> (p = 0 \/ p = 1) ->
  exists t' hv' p',
    (let* atok := store_pass k 0 t in Ok (atok, hv, p)) = Ok (t', hv', p')
    /\ keeps_mask t0 t' /\ (p' = 0 \/ p' = 1).
Proof.
  intros Hkeep Hk Hp.
  edestruct (keeps_mask_store t0 t k) as (t' & -> & Hk'); [done|lia|].
  cbn [bind]. eexists _, _, _. split; [reflexivity|]. split; auto.
Qed.

(** A comparison of two operands completes and gives a truth value. *)
Lemma cmp_operand_ok (N : Z) (a b : token_t) (CMP : spec_float -> spec_float -> bool) :
  operand_ok N a -> operand_ok N b ->
  exists a' r, CMP_VECTORS a b CMP = Ok (a', r)
    /\ (r = 0 \/ r = 1) /\ bool_ok N (set_pass_site r a').
Proof.
  intros Ha Hb.
  destruct (operand_capacity N a Ha) as (Hca & _ & Hma & H1a & H0a & Hwa & Hva).
  destruct (operand_capacity N b Hb) as (Hcb & _ & Hmb & H1b & H0b & Hwb & Hvb).
  pose proof Ha as (Hmask & _).
  unfold CMP_VECTORS.
  destruct (Z.eqb_spec (nvalues a) 0) as [Hna|Hna].
  { cbn [orb]. eexists _, _. split; [reflexivity|]. split; [by left|].
    unfold bool_ok. cbn. intuition lia. }
  destruct (Z.eqb_spec (nvalues b) 0) as [Hnb|Hnb].
  { cbn [orb]. eexists _, _. split; [reflexivity|]. split; [by left|].
    unfold bool_ok. cbn. intuition lia. }
  cbn [orb].
  destruct (Z.eqb_spec (nsamples a) 0) as [Hsa|Hsa];
    destruct (Z.eqb_spec (nsamples b) 0) as [Hsb|Hsb]; cbn [negb andb].
  - (* two site-level operands *)
    destruct (rd_ok (values a) 0) as (x & _ & ->); [lia|]. cbn [bind].
    destruct (bcf_float_is_missing x).
    { cbn [bind]. eexists _, _. split; [reflexivity|]. split; [auto|].
      unfold bool_ok; cbn; intuition lia. }
    destruct (rd_ok (values b) 0) as (y & _ & ->); [lia|]. cbn [bind].
    destruct (bcf_float_is_missing y); [|destruct (CMP _ _)]; cbn [bind];
      eexists _, _; (split; [reflexivity|]); (split; [auto|]);
      unfold bool_ok; cbn; intuition lia.
  - (* a site-level operand and a vector *)
    destruct (Hvb Hsb) as (HsN & HnN & HN).
    destruct (rd_ok (values a) 0) as (x & Hx & ->); [lia|]. cbn [bind].
    destruct (bcf_float_is_missing x).
    { cbn [bind]. eexists _, _. split; [reflexivity|]. split; [by left|].
      unfold bool_ok. cbn. intuition lia. }
    match goal with |- context [for_loop ?n ?body (?t0, 0, 0)] =>
      destruct (cmp_loop t0 n body) as (t' & hv' & p' & -> & Hkeep & Hp') end.
    { intros k t hv p Hk Hkeep Hp. cbn beta iota.
      destruct (rd_ok (values b) k) as (y & _ & ->); [lia|]. cbn [bind].
      destruct (bcf_float_is_missing y); [apply (store_zero_ok a); [done|lia|done]|].
      destruct (keeps_mask_fields _ _ Hkeep) as (_ & _ & -> & _).
      rewrite (rd_lookup _ _ _ Hx). cbn [bind].
      apply (cmp_slot_ok CMP a); [done|lia|done]. }
    cbn [bind].
    destruct (keeps_mask_fields _ _ Hkeep) as (_ & _ & _ & Hfl & _).
    destruct (hv' =? 0); cbn [bind]; eexists _, _; (split; [reflexivity|]);
      (split; [done|]); unfold bool_ok; cbn; rewrite Hfl; intuition lia.
  - (* a vector and a site-level operand *)
    destruct (Hva Hsa) as (HsN & HnN & HN).
    destruct (rd_ok (values b) 0) as (y & Hy & ->); [lia|]. cbn [bind].
    destruct (bcf_float_is_missing y).
    { cbn [bind]. eexists _, _. split; [reflexivity|]. split; [by left|].
      unfold bool_ok. cbn. intuition lia. }
    match goal with |- context [for_loop ?n ?body (?t0, 0, 0)] =>
      destruct (cmp_loop t0 n body) as (t' & hv' & p' & -> & Hkeep & Hp') end.
    { intros k t hv p Hk Hkeep Hp. cbn beta iota.
      destruct (keeps_mask_fields _ _ Hkeep) as (_ & _ & -> & _).
      destruct (rd_ok (values a) k) as (x & _ & ->); [lia|]. cbn [bind].
      destruct (bcf_float_is_missing x); [apply (store_zero_ok a); [done|lia|done]|].
      apply (cmp_slot_ok CMP a); [done|lia|done]. }
    cbn [bind].
    destruct (keeps_mask_fields _ _ Hkeep) as (_ & _ & _ & Hfl & Hfn & Hfs & _).
    destruct (hv' =? 0); cbn [bind]; eexists _, _; (split; [reflexivity|]);
      (split; [done|]); unfold bool_ok; cbn; rewrite Hfl, ?Hfn, ?Hfs; intuition lia.
  - (* two vectors *)
    destruct (Hva Hsa) as (HsNa & HnNa & HN). destruct (Hvb Hsb) as (HsNb & HnNb & _).
    match goal with |- context [for_loop ?n ?body (?t0, 0, 0)] =>
      destruct (cmp_loop t0 n body) as (t' & hv' & p' & -> & Hkeep & Hp') end.
    { intros k t hv p Hk Hkeep Hp. cbn beta iota.
      destruct (keeps_mask_fields _ _ Hkeep) as (_ & _ & -> & _).
      destruct (rd_ok (values a) k) as (x & _ & ->); [lia|]. cbn [bind].
      destruct (bcf_float_is_missing x); [apply (store_zero_ok a); [done|lia|done]|].
      destruct (rd_ok (values b) k) as (y & _ & ->); [lia|]. cbn [bind].
      destruct (bcf_float_is_missing y); [apply (store_zero_ok a); [done|lia|done]|].
      apply (cmp_slot_ok CMP a); [done|lia|done]. }
    cbn [bind].
    destruct (keeps_mask_fields _ _ Hkeep) as (_ & _ & _ & Hfl & Hfn & Hfs & _).
    destruct (hv' =? 0); cbn [bind]; eexists _, _; (split; [reflexivity|]);
      (split; [done|]); unfold bool_ok; cbn; rewrite Hfl, ?Hfn, ?Hfs; intuition lia.
Qed.

(** A loop that only writes mask cells. *)
Lemma mask_only_loop (t0 : token_t) (n : Z) (body : nat -> token_t -> outcome token_t) :
  (forall k t, (k < Z.to_nat n)%nat -> keeps_mask t0 t ->
     exists t', body k t = Ok t' /\ keeps_mask t0 t') ->
  exists t', for_loop n body t0 = Ok t' /\ keeps_mask t0 t'.
Proof.
  intros Hbody.
  destruct (for_loop_inv (fun _ t => keeps_mask t0 t) body n t0) as (t' & Hrun & Hinv).
  - apply keeps_mask_refl.
  - intros k t Hk Hinv. by apply Hbody.
  - by exists t'.
Qed.

Lemma bit_if (c : bool) (p : Z) : p = 0 \/ p = 1 -> (if c then 1 else p) = 0 \/ (if c then 1 else p) = 1.
Proof. destruct c; auto. Qed.

(** AND of two truth values completes and gives a truth value. *)
Lemma and_bool_ok (N : Z) (a b : token_t) :
  bool_ok N a -> bool_ok N b ->
  exists a' r, vector_logic_and a b = Ok (a', r)
    /\ (r = 0 \/ r = 1) /\ bool_ok N (set_pass_site r a').
Proof.
  intros (Hma & Hpa & Hna & Hsa) (Hmb & Hpb & Hnb & Hsb).
  unfold vector_logic_and.
  destruct (Z.eqb_spec (nvalues a) 0) as [Hza|Hza].
  { cbn [orb]. eexists _, _. split; [reflexivity|]. split; [by left|].
    unfold bool_ok. cbn. intuition lia. }
  destruct (Z.eqb_spec (nvalues b) 0) as [Hzb|Hzb].
  { cbn [orb]. eexists _, _. split; [reflexivity|]. split; [by left|].
    unfold bool_ok. cbn. intuition lia. }
  cbn [orb].
  destruct (Z.eqb_spec (nsamples a) 0) as [Hsa0|Hsa0];
    destruct (Z.eqb_spec (nsamples b) 0) as [Hsb0|Hsb0]; cbn [negb andb].
  - eexists _, _. split; [reflexivity|]. split; [apply c_and_bit|].
    unfold bool_ok. cbn. pose proof (c_and_bit (pass_site a) (pass_site b)). intuition lia.
  - match goal with |- context [for_loop ?n ?body (?t0, 0)] =>
      destruct (bit_loop t0 n body) as (t' & p' & -> & Hkeep & Hp') end.
    { intros k t p Hk Hkeep Hp. cbn beta iota.
      destruct (rd_ok (pass_samples b) k) as (y & _ & ->); [lia|]. cbn [bind].
      edestruct (keeps_mask_store a t k) as (t' & -> & Hk'); [done|lia|]. cbn [bind].
      eexists _, _. split; [reflexivity|]. split; [done|]. by apply bit_if. }
    cbn [bind]. destruct (keeps_mask_fields _ _ Hkeep) as (_ & _ & _ & Hfl & Hfn & _).
    eexists _, _. split; [reflexivity|]. split; [done|].
    unfold bool_ok. cbn. rewrite Hfl, Hfn. intuition lia.
  - match goal with |- context [for_loop ?n ?body (?t0, 0)] =>
      destruct (bit_loop t0 n body) as (t' & p' & -> & Hkeep & Hp') end.
    { intros k t p Hk Hkeep Hp. cbn beta iota.
      destruct (keeps_mask_rd a t k Hkeep) as (x & ->); [lia|]. cbn [bind].
      edestruct (keeps_mask_store a t k) as (t' & -> & Hk'); [done|lia|]. cbn [bind].
      eexists _, _. split; [reflexivity|]. split; [done|]. by apply bit_if. }
    destruct (keeps_mask_fields _ _ Hkeep) as (_ & _ & _ & Hfl & Hfn & Hfs & _).
    eexists _, _. split; [reflexivity|]. split; [done|].
    unfold bool_ok. cbn. rewrite Hfl, Hfn, Hfs. intuition lia.
  - match goal with |- context [for_loop ?n ?body (?t0, 0)] =>
      destruct (bit_loop t0 n body) as (t' & p' & -> & Hkeep & Hp') end.
    { intros k t p Hk Hkeep Hp. cbn beta iota.
      destruct (keeps_mask_rd a t k Hkeep) as (x & ->); [lia|]. cbn [bind].
      destruct (rd_ok (pass_samples b) k) as (y & _ & ->); [lia|]. cbn [bind].
      edestruct (keeps_mask_store a t k) as (t' & -> & Hk'); [done|lia|]. cbn [bind].
      eexists _, _. split; [reflexivity|]. split; [done|]. by apply bit_if. }
    destruct (keeps_mask_fields _ _ Hkeep) as (_ & _ & _ & Hfl & Hfn & Hfs & _).
    eexists _, _. split; [reflexivity|]. split; [done|].
    unfold bool_ok. cbn. rewrite Hfl, Hfn, Hfs. intuition lia.
Qed.

(** OR of two truth values, of either flavor, completes and gives a truth
    value. *)
Lemma or_bool_ok (N : Z) (a b : token_t) (ty : Z) :
  bool_ok N a -> bool_ok N b ->
  exists a' r, vector_logic_or a b ty = Ok (a', r)
    /\ (r = 0 \/ r = 1) /\ bool_ok N (set_pass_site r a').
Proof.
  intros (Hma & Hpa & Hna & Hsa) (Hmb & Hpb & Hnb & Hsb).
  unfold vector_logic_or.
  destruct (Z.eqb_spec (nvalues a) 0) as [Hza|Hza];
    destruct (Z.eqb_spec (nvalues b) 0) as [Hzb|Hzb]; cbn [andb].
  { eexists _, _. split; [reflexivity|]. split; [by left|].
    unfold bool_ok. cbn. intuition lia. }
  { match goal with |- context [for_loop ?n ?body ?t0] =>
      destruct (mask_only_loop t0 n body) as (t' & -> & Hkeep) end.
    { intros k t Hk Hkeep.
      destruct (rd_ok (pass_samples b) k) as (y & _ & ->); [lia|]. cbn [bind].
      by apply (keeps_mask_store a t k); [|lia]. }
    cbn [bind]. destruct (keeps_mask_fields _ _ Hkeep) as (_ & _ & _ & Hfl & Hfn & _).
    eexists _, _. split; [reflexivity|]. split; [done|].
    unfold bool_ok. cbn. rewrite Hfl, Hfn. intuition lia. }
  { eexists _, _. split; [reflexivity|]. split; [done|].
    unfold bool_ok. cbn. intuition lia. }
  destruct (Z.eqb_spec (nsamples a) 0) as [Hsa0|Hsa0];
    destruct (Z.eqb_spec (nsamples b) 0) as [Hsb0|Hsb0]; cbn [negb andb].
  - eexists _, _. split; [reflexivity|]. split; [apply c_or_bit|].
    unfold bool_ok. cbn. pose proof (c_or_bit (pass_site a) (pass_site b)). intuition lia.
  - destruct (ty =? TOK_OR).
    + match goal with |- context [for_loop ?n ?body (?t0, 0)] =>
        destruct (bit_loop t0 n body) as (t' & p' & -> & Hkeep & Hp') end.
      { intros k t p Hk Hkeep Hp. cbn beta iota.
        destruct (rd_ok (pass_samples b) k) as (y & _ & ->); [lia|]. cbn [bind].
        edestruct (keeps_mask_store a t k) as (t' & -> & Hk'); [done|lia|]. cbn [bind].
        eexists _, _. split; [reflexivity|]. split; [done|]. by apply bit_if. }
      cbn [bind]. destruct (keeps_mask_fields _ _ Hkeep) as (_ & _ & _ & Hfl & Hfn & _).
      eexists _, _. split; [reflexivity|]. split; [done|].
      unfold bool_ok. cbn. rewrite Hfl, Hfn. intuition lia.
    + match goal with |- context [for_loop ?n ?body (?t0, 0)] =>
        destruct (bit_loop t0 n body) as (t' & p' & -> & Hkeep & Hp') end.
      { intros k t p Hk Hkeep Hp. cbn beta iota.
        destruct (rd_ok (pass_samples b) k) as (y & _ & ->); [lia|]. cbn [bind].
        edestruct (keeps_mask_store a t k) as (t' & -> & Hk'); [done|lia|]. cbn [bind].
        eexists _, _. split; [reflexivity|]. split; [done|]. by apply bit_if. }
      cbn [bind]. destruct (keeps_mask_fields _ _ Hkeep) as (_ & _ & _ & Hfl & Hfn & _).
      eexists _, _. split; [reflexivity|]. split; [done|].
      unfold bool_ok. cbn. rewrite Hfl, Hfn. intuition lia.
  - destruct (ty =? TOK_OR).
    + match goal with |- context [for_loop ?n ?body (?t0, 0)] =>
        destruct (bit_loop t0 n body) as (t' & p' & -> & Hkeep & Hp') end.
      { intros k t p Hk Hkeep Hp. cbn beta iota.
        destruct (keeps_mask_rd a t k Hkeep) as (x & ->); [lia|]. cbn [bind].
        eexists _, _. split; [reflexivity|]. split; [done|]. by apply bit_if. }
      destruct (keeps_mask_fields _ _ Hkeep) as (_ & _ & _ & Hfl & Hfn & Hfs & _).
      eexists _, _. split; [reflexivity|]. split; [done|].
      unfold bool_ok. cbn. rewrite Hfl, Hfn, Hfs. intuition lia.
    + match goal with |- context [for_loop ?n ?body (?t0, 0)] =>
        destruct (bit_loop t0 n body) as (t' & p' & -> & Hkeep & Hp') end.
      { intros k t p Hk Hkeep Hp. cbn beta iota.
        destruct (keeps_mask_rd a t k Hkeep) as (x & ->); [lia|]. cbn [bind].
        edestruct (keeps_mask_store a t k) as (t' & -> & Hk'); [done|lia|]. cbn [bind].
        eexists _, _. split; [reflexivity|]. split; [done|]. by apply bit_if. }
      destruct (keeps_mask_fields _ _ Hkeep) as (_ & _ & _ & Hfl & Hfn & Hfs & _).
      eexists _, _. split; [reflexivity|]. split; [done|].
      unfold bool_ok. cbn. rewrite Hfl, Hfn, Hfs. intuition lia.
  - match goal with |- context [for_loop ?n ?body (?t0, 0)] =>
      destruct (bit_loop t0 n body) as (t' & p' & -> & Hkeep & Hp') end.
    { intros k t p Hk Hkeep Hp. cbn beta iota.
      destruct (keeps_mask_rd a t k Hkeep) as (x & ->); [lia|]. cbn [bind].
      destruct (rd_ok (pass_samples b) k) as (y & _ & ->); [lia|]. cbn [bind].
      edestruct (keeps_mask_store a t k) as (t' & -> & Hk'); [done|lia|]. cbn [bind].
      eexists _, _. split; [reflexivity|]. split; [done|]. by apply bit_if. }
    destruct (keeps_mask_fields _ _ Hkeep) as (_ & _ & _ & Hfl & Hfn & Hfs & _).
    eexists _, _. split; [reflexivity|]. split; [done|].
    unfold bool_ok. cbn. rewrite Hfl, Hfn, Hfs. intuition lia.
Qed.

(** ** Totality of the evaluator *)

Lemma bool_ok_missing (N : Z) (r : Z) (t : token_t) :
  length (pass_samples t) = Z.to_nat N -> bool_ok N (set_pass_site 0 (set_missing t)).
Proof. intros H. unfold bool_ok. cbn. intuition lia. Qed.

(** The abstract operators describe the concrete ones. *)
Lemma class_bin_sound (N : Z) (filter : filter_t) (line : bcf1_t) (ty : Z)
    (ka kb k : class) (a b : token_t) :
  class_bin N ty ka kb = Some k -> conc_class N ka a -> conc_class N kb b ->
  exists a', filter_test_binary filter line ty a b = Ok a' /\ conc_class N k a'.
Proof.
  intros Hk Ha Hb.
  destruct ka as [fa sa ca|], kb as [fb sb cb|]; cbn in Hk; try discriminate.
  - destruct Ha as (Hba & Hata & Hfa), Hb as (Hbb & Hatb & Hfb).
    pose proof (operand_of_form N fa a Hba Hfa) as Hoa.
    pose proof (operand_of_form N fb b Hbb Hfb) as Hob.
    remember (match fa, fb with FMiss, _ | _, FMiss => true | _, _ => false end)
      as missing eqn:Hmv.
    assert (missing = true -> nvalues a = 0 \/ nvalues b = 0) as Hmiss.
    { intros ->. destruct fa, fb; try discriminate;
        cbn in Hfa, Hfb; try (left; apply Hfa); right; apply Hfb. }
    destruct (is_arith ty) eqn:Har.
    + destruct (binary_arith filter line ty a b Har) as [AOP ->].
      destruct (arith_form fa fb) as [f|] eqn:Hform; [|discriminate].
      inversion Hk; subst k.
      destruct (arith_form_sound N fa fb f a b) with (a' := a)
        as [Hcap _]; [done..|].
      destruct (arith_operand_ok N a b AOP Hba Hoa Hob Hcap) as (a' & -> & Hres).
      destruct (arith_form_sound N fa fb f a b a' Hform Hba Hfa Hbb Hfb) as [_ Hfr].
      eexists. split; [reflexivity|]. cbn.
      destruct Hres as (Hb' & Hs' & Hc' & Hl' & Hd').
      split; [done|]. split; [by apply (attrs_kept sa ca a)|].
      apply Hfr. done.
    + destruct (is_cmp ty) eqn:Hcm; [|discriminate].
      destruct (Z.eq_dec (nvalues a) 0) as [Hna|Hna];
        [|destruct (Z.eq_dec (nvalues b) 0) as [Hnb|Hnb]].
      * assert (k = CBool) as ->.
        { destruct missing; [congruence|]. repeat case_match; congruence. }
        rewrite binary_cmp_missing by auto. eexists. split; [reflexivity|].
        apply (bool_ok_missing N 0). apply Hba.
      * assert (k = CBool) as ->.
        { destruct missing; [congruence|]. repeat case_match; congruence. }
        rewrite binary_cmp_missing by auto. eexists. split; [reflexivity|].
        apply (bool_ok_missing N 0). apply Hba.
      * destruct missing; [destruct (Hmiss eq_refl); done|].
        destruct (is_eq_ne ty && (ca || cb)) eqn:Hcomp.
        { inversion Hk; subst k. apply andb_true_iff in Hcomp as [Heq Hc].
          destruct (binary_eq_comparator filter line ty a b Heq Hna Hnb) as (r & -> & Hr).
          { destruct Hata as [_ ->], Hatb as [_ ->]. exact Hc. }
          eexists. split; [reflexivity|].
          destruct (operand_capacity N a Hoa) as (_ & _ & _ & _ & H0a & Hwa & Hva).
          destruct Hba as (_ & Hm & _).
          unfold conc_class, bool_ok. cbn.
          destruct (Z.eq_dec (nsamples a) 0); intuition lia. }
        assert (ty = TOK_EQ \/ ty = TOK_NE -> ca = false /\ cb = false) as Hnone.
        { intros Hty. assert (is_eq_ne ty = true) as Heq.
          { unfold is_eq_ne. destruct Hty as [-> | ->]; reflexivity. }
          rewrite Heq in Hcomp. by apply orb_false_iff in Hcomp. }
        destruct (sa || sb) eqn:Hstr.
        { destruct fa, fb; try discriminate.
          destruct (sa && sb && is_eq_ne ty && (0 <? N)) eqn:Hgo; [|discriminate].
          inversion Hk; subst k.
          apply andb_true_iff in Hgo as [Hgo HN]. apply andb_true_iff in Hgo as [Hgo Heq].
          apply andb_true_iff in Hgo as [-> ->]. apply Z.ltb_lt in HN.
          destruct Hnone as [-> ->].
          { unfold is_eq_ne in Heq. apply orb_true_iff in Heq as [H|H];
              apply Z.eqb_eq in H; auto. }
          rewrite binary_cmp_strings; try done;
            try apply Hata; try apply Hatb;
            try (by apply (attrs_comparator true false));
            try (by apply (attrs_comparator true false)).
          destruct (cmp_strings_ok N a b ty HN) as (a' & r & -> & Hr & Hok & _);
            [apply Hba|done|done|].
          cbn [bind]. eexists. split; [reflexivity|]. exact Hok. }
        inversion Hk; subst k. apply orb_false_iff in Hstr as [-> ->].
        assert (exists CMP, filter_test_binary filter line ty a b
                  = (let* (a', r) := CMP_VECTORS a b CMP in Ok (set_pass_site r a')))
          as [CMP ->].
        { destruct Hata as [Hsa Hca], Hatb as [Hsb Hcb].
          unfold has_comparator in Hca, Hcb. unfold is_cmp in Hcm.
          apply Z.eqb_neq in Hna, Hnb.
          split_ops Hcm; unfold filter_test_binary, filter_test_equality;
            rewrite Hsa, Hsb; cbn; rewrite Hna, Hnb; cbn;
            try (eexists; reflexivity);
            destruct (Hnone ltac:(auto)) as [Hca0 Hcb0];
            (destruct (comparator a); [discriminate|]);
            (destruct (comparator b); [discriminate|]); eexists; reflexivity. }
        destruct (cmp_operand_ok N a b CMP Hoa Hob) as (a' & r & -> & Hr & Hok).
        cbn [bind]. eexists. split; [reflexivity|]. exact Hok.
  - cbn in Ha, Hb. destruct (is_or ty) eqn:Hor; cbn in Hk.
    + inversion Hk; subst k.
      rewrite binary_or; [|done| |].
      * destruct (or_bool_ok N a b ty Ha Hb) as (a' & r & -> & Hr & Hok).
        cbn [bind]. eexists. split; [reflexivity|]. exact Hok.
      * destruct Ha as (_ & [-> | ->] & _); lia.
      * destruct Hb as (_ & [-> | ->] & _); lia.
    + destruct (is_and ty) eqn:Hand; [|discriminate]. inversion Hk; subst k.
      rewrite binary_and; [|done| |].
      * destruct (and_bool_ok N a b Ha Hb) as (a' & r & -> & Hr & Hok).
        cbn [bind]. eexists. split; [reflexivity|]. exact Hok.
      * destruct Ha as (_ & [-> | ->] & _); lia.
      * destruct Hb as (_ & [-> | ->] & _); lia.
Qed.

(** The loop of [filter_test] over a program whose operators find operands
    they can take. *)
Lemma operands_sound (filter : filter_t) (line : bcf1_t) (final : list class) :
  arun (class_val filter line) class_func (class_bin (flt_nsamples filter))
    (filters filter) [] = Some final ->
  exists fs stack,
    for_loop (nfilters filter) (filter_test_token filter line) (filters filter, [])
    = Ok (fs, stack)
    /\ length fs = length (filters filter)
    /\ stack_rel (conc_class (flt_nsamples filter)) fs stack final.
Proof.
  intros Hrun.
  apply (arun_sound filter line (conc_class (flt_nsamples filter))
           (class_val filter line) class_func (class_bin (flt_nsamples filter)));
    [| | |exact Hrun].
  - intros t d Hin Hty Hd. unfold class_val in Hd.
    destruct (filter_test_value filter line (reset_token t)) as [t'| |]; try discriminate.
    exists t'. split; [done|]. by apply classify_sound.
  - intros t d d' arg Hin Hty Hd Harg. unfold class_func in Hd.
    destruct (setter t) as [f|]; [|discriminate].
    destruct d as [fa s c|]; [|by destruct f].
    destruct Harg as (Hb & Hat & Hf).
    destruct (set_fun_ok (flt_nsamples filter) f filter line arg)
      as (arg' & Hcall & Hb' & Hf' & Hs' & Hc').
    + by destruct f.
    + exact Hb.
    + by apply (operand_of_form _ fa).
    + exists f, arg'. split; [done|]. split; [done|].
      assert (d' = CVal FScal s c) as -> by (destruct f; congruence).
      split; [done|]. split; [by apply (attrs_kept s c arg)|done].
  - intros ty da db d a b. apply class_bin_sound.
Qed.

(** ** What an evaluation that returns has computed *)

Lemma CMP_VECTORS_bit (a b a' : token_t) (CMP : spec_float -> spec_float -> bool) (r : Z) :
  CMP_VECTORS a b CMP = Ok (a', r) -> r = 0 \/ r = 1.
Proof.
  assert (Hloop : forall n (body : nat -> token_t * Z * Z -> outcome (token_t * Z * Z))
                         (t0 t : token_t) (hv p : Z),
    for_loop n body (t0, 0, 0) = Ok (t, hv, p) ->
    (forall k st st', body k st = Ok st' ->
       (st.2 = 0 \/ st.2 = 1) -> (st'.2 = 0 \/ st'.2 = 1)) ->
    p = 0 \/ p = 1).
  { intros n body t0 t hv p Hrun Hbody.
    apply (for_loop_post (fun _ (st : token_t * Z * Z) => st.2 = 0 \/ st.2 = 1))
      in Hrun; [done|by left|].
    intros k st st' _ HP Hb. by apply (Hbody k st st'). }
  unfold CMP_VECTORS. intros H.
  destruct ((nvalues a =? 0) || (nvalues b =? 0)); [inversion H; auto|].
  apply bind_ok in H as ([t p] & H & H'). inversion H'; subst; clear H'.
  destruct (negb (nsamples a =? 0) && negb (nsamples b =? 0)).
  { apply bind_ok in H as ([[t1 hv] p1] & Hrun & H). inversion H; subst; clear H.
    apply Hloop in Hrun; [done|].
    intros k [[t2 h2] p2] st' Hb Hp. cbn in Hb, Hp.
    apply bind_ok in Hb as (x & _ & Hb).
    destruct (bcf_float_is_missing x); [inv_ok; cbn; done|].
    apply bind_ok in Hb as (y & _ & Hb).
    destruct (bcf_float_is_missing y); [inv_ok; cbn; done|].
    inv_ok; cbn; auto. }
  destruct (negb (nsamples a =? 0)).
  { apply bind_ok in H as (y & _ & H).
    apply bind_ok in H as ([[t1 hv] p1] & Hrun & H). inversion H; subst; clear H.
    destruct (bcf_float_is_missing y); [inversion Hrun; auto|].
    apply Hloop in Hrun; [done|].
    intros k [[t2 h2] p2] st' Hb Hp. cbn in Hb, Hp.
    apply bind_ok in Hb as (x & _ & Hb).
    destruct (bcf_float_is_missing x); [inv_ok; cbn; done|].
    apply bind_ok in Hb as (y' & _ & Hb). inv_ok; cbn; auto. }
  destruct (negb (nsamples b =? 0)).
  { apply bind_ok in H as (x & _ & H).
    apply bind_ok in H as ([[t1 hv] p1] & Hrun & H). inversion H; subst; clear H.
    destruct (bcf_float_is_missing x); [inversion Hrun; auto|].
    apply bind_ok in Hrun as ([[t3 hv3] p3] & Hrun & H). inversion H; subst; clear H.
    apply Hloop in Hrun; [done|].
    intros k [[t2 h2] p2] st' Hb Hp. cbn in Hb, Hp.
    apply bind_ok in Hb as (y & _ & Hb).
    destruct (bcf_float_is_missing y); [inv_ok; cbn; done|].
    apply bind_ok in Hb as (x' & _ & Hb). inv_ok; cbn; auto. }
  inv_ok; auto.
Qed.

Lemma cmp_vector_strings_bit (a b a' : token_t) (logic r : Z) :
  cmp_vector_strings a b logic = Ok (a', r) -> r = 0 \/ r = 1.
Proof.
  unfold cmp_vector_strings. intros H.
  destruct (nvalues a =? 0); [inversion H; auto|].
  destruct (nvalues b =? 0); [inversion H; auto|].
  destruct (nvalues a =? nvalues b).
  { apply bind_ok in H as (ma & _ & H). apply bind_ok in H as (mb & _ & H).
    apply bind_ok in H as ([[[t p] sa] sb] & Hrun & H). inversion H; subst; clear H.
    apply (for_loop_post (fun _ (st : token_t * Z * nat * nat) =>
             st.1.1.2 = 0 \/ st.1.1.2 = 1)) in Hrun; [done|by left|].
    intros k [[[t1 p1] sa1] sb1] st' _ Hp Hb. cbn in Hp, Hb.
    inv_ok; cbn; by apply bit_if. }
  destruct ((nsamples a =? 0) || (nsamples b =? 0)); [|discriminate].
  destruct (if nsamples a =? 0 then (a, b) else (b, a)) as [xtok ytok].
  apply bind_ok in H as (mx & _ & H). apply bind_ok in H as (my & _ & H).
  apply bind_ok in H as (xw & _ & H). apply bind_ok in H as (x & _ & H).
  apply bind_ok in H as ([[t p] ys] & Hrun & H). inversion H; subst; clear H.
  apply (for_loop_post (fun _ (st : token_t * Z * nat) =>
           st.1.2 = 0 \/ st.1.2 = 1)) in Hrun; [done|by left|].
  intros k [[t1 p1] ys1] st' _ Hp Hb. cbn in Hp, Hb.
  inv_ok; cbn; by apply bit_if.
Qed.

Lemma pair_loop_bit (n : Z) (body : nat -> token_t * Z -> outcome (token_t * Z))
    (t0 t : token_t) (p : Z) :
  for_loop n body (t0, 0) = Ok (t, p) ->
  (forall k st st', body k st = Ok st' ->
     (st.2 = 0 \/ st.2 = 1) -> (st'.2 = 0 \/ st'.2 = 1)) ->
  p = 0 \/ p = 1.
Proof.
  intros Hrun Hbody.
  apply (for_loop_post (fun _ (st : token_t * Z) => st.2 = 0 \/ st.2 = 1))
    in Hrun; [done|by left|].
  intros k st st' _ HP Hb. by apply (Hbody k st st').
Qed.

Lemma vector_logic_and_bit (a b a' : token_t) (r : Z) :
  vector_logic_and a b = Ok (a', r) -> r = 0 \/ r = 1.
Proof.
  unfold vector_logic_and. intros H.
  destruct ((nvalues a =? 0) || (nvalues b =? 0)); [inversion H; auto|].
  destruct ((nsamples a =? 0) && (nsamples b =? 0)).
  { inversion H; subst. apply c_and_bit. }
  destruct (negb (nsamples a =? 0) && negb (nsamples b =? 0)).
  { apply pair_loop_bit in H; [done|].
    intros k [t p] st' Hb Hp. cbn in Hb, Hp. inv_ok; cbn; try (by apply bit_if); auto. }
  destruct (negb (nsamples b =? 0)).
  { apply bind_ok in H as ([t p] & Hrun & H). inversion H; subst; clear H.
    apply pair_loop_bit in Hrun; [done|].
    intros k [t1 p1] st' Hb Hp. cbn in Hb, Hp. inv_ok; cbn; try (by apply bit_if); auto. }
  apply pair_loop_bit in H; [done|].
  intros k [t p] st' Hb Hp. cbn in Hb, Hp. inv_ok; cbn; try (by apply bit_if); auto.
Qed.

Lemma vector_logic_or_bit (a b a' : token_t) (ty r : Z) :
  (pass_site a = 0 \/ pass_site a = 1) -> (pass_site b = 0 \/ pass_site b = 1) ->
  vector_logic_or a b ty = Ok (a', r) -> r = 0 \/ r = 1.
Proof.
  unfold vector_logic_or. intros Ha Hb H.
  destruct ((nvalues a =? 0) && (nvalues b =? 0)); [inversion H; auto|].
  destruct (nvalues a =? 0).
  { apply bind_ok in H as (t & _ & H). by inversion H; subst. }
  destruct (nvalues b =? 0); [by inversion H; subst|].
  destruct ((nsamples a =? 0) && (nsamples b =? 0)).
  { inversion H; subst. apply c_or_bit. }
  destruct (nsamples a =? 0).
  { apply bind_ok in H as ([t p] & Hrun & H). inversion H; subst; clear H.
    destruct (ty =? TOK_OR); (apply pair_loop_bit in Hrun; [done|]);
      intros k [t1 p1] st' Hb' Hp; cbn in Hb', Hp; inv_ok; cbn; try (by apply bit_if); auto. }
  destruct (nsamples b =? 0).
  { destruct (ty =? TOK_OR); (apply pair_loop_bit in H; [done|]);
      intros k [t1 p1] st' Hb' Hp; cbn in Hb', Hp; inv_ok; cbn; try (by apply bit_if); auto. }
  apply pair_loop_bit in H; [done|].
  intros k [t p] st' Hb' Hp. cbn in Hb', Hp. inv_ok; cbn; try (by apply bit_if); auto.
Qed.

(** A comparison that returns leaves a site bit. *)
Lemma binary_cmp_bit (filter : filter_t) (line : bcf1_t) (ty : Z) (a b a' : token_t) :
  is_cmp ty = true -> filter_test_binary filter line ty a b = Ok a' ->
  pass_site a' = 0 \/ pass_site a' = 1.
Proof.
  intros Hcm H.
  assert (Heq : forall op CMP s t r,
    filter_test_equality filter line op CMP s a b = Ok (t, r) -> r = 0 \/ r = 1).
  { intros op CMP s t r He. unfold filter_test_equality in He.
    destruct (comparator b) as [[]|].
    { inversion He; subst. apply filters_cmp_filter_bit. }
    destruct (comparator a) as [[]|].
    { inversion He; subst. apply filters_cmp_filter_bit. }
    destruct (s =? 2); [by apply cmp_vector_strings_bit in He|].
    destruct (s =? 1); [discriminate|]. by apply CMP_VECTORS_bit in He. }
  unfold is_cmp in Hcm.
  split_ops Hcm; unfold filter_test_binary in H; cbn -[Z.add] in H;
    apply bind_ok in H as ([t r] & H & H'); inversion H'; subst; clear H'; cbn;
    (destruct ((nvalues b =? 0) || (nvalues a =? 0)); [inversion H; auto|]);
    try (by apply Heq in H);
    (destruct (0 <? is_str b + is_str a); [discriminate|]);
    by apply CMP_VECTORS_bit in H.
Qed.

(** The operators of a boolean expression leave a site bit wherever a
    truth value is expected. *)
Lemma kind_bin_sound (filter : filter_t) (line : bcf1_t) (ty : Z)
    (ka kb k : kind) (a b a' : token_t) :
  kind_bin ty ka kb = Some k -> conc_kind ka a -> conc_kind kb b ->
  filter_test_binary filter line ty a b = Ok a' -> conc_kind k a'.
Proof.
  intros Hk Ha Hb H. destruct ka, kb; cbn in Hk; try discriminate; cbn in Ha, Hb.
  - destruct (is_arith ty); [by inversion Hk|].
    destruct (is_cmp ty) eqn:Hcm; [|discriminate]. inversion Hk; subst k. cbn.
    by apply (binary_cmp_bit filter line ty a b).
  - destruct (is_or ty) eqn:Hor; cbn in Hk.
    + inversion Hk; subst k. cbn.
      rewrite binary_or in H by (done || destruct Ha as [-> | ->] || destruct Hb as [-> | ->]; lia).
      apply bind_ok in H as ([t r] & H & H'). inversion H'; subst; clear H'. cbn.
      by apply (vector_logic_or_bit a b t ty).
    + destruct (is_and ty) eqn:Hand; [|discriminate]. inversion Hk; subst k. cbn.
      rewrite binary_and in H by (done || destruct Ha as [-> | ->] || destruct Hb as [-> | ->]; lia).
      apply bind_ok in H as ([t r] & H & H'). inversion H'; subst; clear H'. cbn.
      by apply (vector_logic_and_bit a b t).
Qed.

Section ReturnedRun.
Context {D : Type}.
Variables (filter : filter_t) (line : bcf1_t).
Variable conc : D -> token_t -> Prop.
Variable aval : token_t -> option D.
Variable afunc : token_t -> D -> option D.
Variable abin : Z -> D -> D -> option D.

Hypothesis H_val : forall t d t',
    aval t = Some d -> filter_test_value filter line (reset_token t) = Ok t' -> conc d t'.

Hypothesis H_func : forall t d d' f arg arg',
    afunc t d = Some d' -> conc d arg -> call_setter f filter line arg = Ok arg' ->
    conc d' arg'.

Hypothesis H_bin : forall ty da db d a b a',
    abin ty da db = Some d -> conc da a -> conc db b ->
    filter_test_binary filter line ty a b = Ok a' -> conc d a'.

(** One token of the program, when its turn completes, keeps the
    invariant. *)
Lemma filter_test_token_returned (final : list D) (k : nat) (st st' : eval_state) :
  (k < length (filters filter))%nat ->
  run_inv conc aval afunc abin (filters filter) final k st ->
  filter_test_token filter line k st = Ok st' ->
  run_inv conc aval afunc abin (filters filter) final (S k) st'.
Proof.
  intros Hk. destruct st as [fs stack].
  intros (Hlen & Hfut & Hbelow & ds & Hrel & Hrun) Hstep. simpl in *.
  destruct (lookup_lt_is_Some_2 (filters filter) k Hk) as [tok Htok].
  rewrite (drop_S _ _ _ Htok) in Hrun. simpl in Hrun.
  destruct (astep aval afunc abin tok ds) as [ds'|] eqn:Habs; [|discriminate].
  assert (fs !! k = Some tok) as Hfk by (rewrite Hfut; [done|lia]).
  unfold filter_test_token in Hstep.
  rewrite (rd_lookup _ _ _ Hfk) in Hstep. simpl in Hstep.
  rewrite wr_ok in Hstep by lia. simpl in Hstep.
  change (tok_type (reset_token tok)) with (tok_type tok) in Hstep.
  unfold astep in Habs.
  destruct (Z.eqb_spec (tok_type tok) TOK_VAL) as [Hty|Hty].
  - (* a value token *)
    destruct (aval tok) as [d|] eqn:Hav; [|discriminate].
    inversion Habs; subst ds'; clear Habs.
    apply bind_ok in Hstep as (t' & Ht' & Hstep).
    rewrite wr_ok in Hstep by (rewrite length_insert; lia). simpl in Hstep.
    inversion Hstep; subst st'; clear Hstep.
    pose proof (H_val tok d t' Hav Ht') as Hc.
    unfold run_inv. simpl.
    split; [by rewrite !length_insert|].
    split. { intros j Hj. rewrite !list_lookup_insert_ne by lia. apply Hfut. lia. }
    split. { split; [lia|done]. }
    exists (d :: ds). split; [|done].
    constructor.
    + exists t'. split; [|done].
      apply list_lookup_insert_eq. rewrite length_insert. lia.
    + apply stack_rel_insert; [|done]. apply stack_rel_insert; done.
  - destruct (Z.eqb_spec (tok_type tok) TOK_FUNC) as [Hfn|Hfn].
    + (* a function token *)
      destruct ds as [|d r]; [discriminate|].
      destruct (afunc tok d) as [d'|] eqn:Haf; [|discriminate].
      inversion Habs; subst ds'; clear Habs.
      inversion Hrel as [|j d0 rs r0 (arg & Harg & Hc) Hrest]; subst.
      destruct Hbelow as [Hj Hbelow].
      change (setter (reset_token tok)) with (setter tok) in Hstep.
      destruct (setter tok) as [f|]; [|discriminate].
      rewrite (rd_lookup _ j arg) in Hstep
        by (rewrite list_lookup_insert_ne by lia; done).
      simpl in Hstep. apply bind_ok in Hstep as (arg' & Hcall & Hstep).
      apply lookup_lt_Some in Harg.
      rewrite wr_ok in Hstep by (rewrite length_insert; lia). simpl in Hstep.
      inversion Hstep; subst st'; clear Hstep.
      pose proof (H_func tok d d' f arg arg' Haf Hc Hcall) as Hc'.
      unfold run_inv. simpl.
      split; [by rewrite !length_insert|].
      split. { intros i Hi. rewrite !list_lookup_insert_ne by lia. apply Hfut. lia. }
      split. { split; [lia|done]. }
      exists (d' :: r). split; [|done].
      constructor.
      * exists arg'. split; [|done].
        apply list_lookup_insert_eq. rewrite length_insert. lia.
      * apply stack_rel_insert; [|done]. apply stack_rel_insert; [done|].
        eapply stack_below_weaken; [eassumption|lia].
    + (* a binary operator *)
      destruct ds as [|db [|da r]]; try discriminate.
      destruct (abin (tok_type tok) da db) as [d|] eqn:Hab; [|discriminate].
      inversion Habs; subst ds'; clear Habs.
      inversion Hrel as [|jb db0 rs r0 (b & Hb & Hcb) Hrest]; subst.
      inversion Hrest as [|ja da0 rs' r0' (a & Ha & Hca) Hrest']; subst.
      destruct Hbelow as [Hjb [Hja Hbelow]].
      rewrite (rd_lookup _ ja a) in Hstep
        by (rewrite list_lookup_insert_ne by lia; done).
      simpl in Hstep.
      rewrite (rd_lookup _ jb b) in Hstep
        by (rewrite list_lookup_insert_ne by lia; done).
      simpl in Hstep. apply bind_ok in Hstep as (a' & Hbin & Hstep).
      apply lookup_lt_Some in Ha.
      rewrite wr_ok in Hstep by (rewrite length_insert; lia). simpl in Hstep.
      inversion Hstep; subst st'; clear Hstep.
      pose proof (H_bin (tok_type tok) da db d a b a' Hab Hca Hcb Hbin) as Hc'.
      unfold run_inv. simpl.
      split; [by rewrite !length_insert|].
      split. { intros i Hi. rewrite !list_lookup_insert_ne by lia. apply Hfut. lia. }
      split. { split; [lia|done]. }
      exists (d :: r). split; [|done].
      constructor.
      * exists a'. split; [|done].
        apply list_lookup_insert_eq. rewrite length_insert. lia.
      * apply stack_rel_insert; [|done]. apply stack_rel_insert; [done|].
        eapply stack_below_weaken; [eassumption|lia].
Qed.

(** When the loop of [filter_test] over a program whose abstract run
    succeeds has run to its end, its stack is described by the abstract
    result. *)
Lemma arun_returned (final : list D) (fs : list token_t) (stack : list nat) :
  arun aval afunc abin (filters filter) [] = Some final ->
  for_loop (nfilters filter) (filter_test_token filter line) (filters filter, [])
  = Ok (fs, stack) ->
  stack_rel conc fs stack final.
Proof.
  intros Hrun Hloop.
  apply (for_loop_post (fun k st =>
           run_inv conc aval afunc abin (filters filter) final k st)) in Hloop.
  - destruct Hloop as (Hlen & _ & _ & ds & Hrel & Hend). simpl in *.
    unfold nfilters in Hend. rewrite Nat2Z.id in Hend.
    rewrite drop_all in Hend. simpl in Hend. by inversion Hend; subst.
  - split; [done|]. split; [done|]. split; [done|].
    exists []. split; [constructor|]. by rewrite drop_0.
  - intros k st st' Hk Hinv Hstep.
    apply (filter_test_token_returned final k st st'); [|done|done].
    unfold nfilters in Hk. lia.
Qed.
End ReturnedRun.

Lemma spread_keeps_site (top t : token_t) (n : Z) :
  for_loop n (fun i top => store_pass i (pass_site top) top) top = Ok t ->
  pass_site t = pass_site top.
Proof.
  intros Hrun.
  apply (for_loop_post (fun _ t => pass_site t = pass_site top)) in Hrun; [done|done|].
  intros k s s' _ HP Hb. inv_ok. cbn. done.
Qed.

(** What [filter_test] returns is the site bit of the one token left on the
    stack by its loop. *)
Lemma filter_test_returned (filter filter' : filter_t) (line : bcf1_t) (samples : bool)
    (r : Z) (mask : option (list Z)) :
  filter_test filter line samples = Ok (filter', (r, mask)) ->
  exists fs j0 top,
    for_loop (nfilters filter) (filter_test_token filter line) (filters filter, [])
    = Ok (fs, [j0])
    /\ fs !! j0 = Some top /\ r = pass_site top.
Proof.
  unfold filter_test. intros H.
  apply bind_ok in H as ([fs stack] & Hloop & H).
  destruct (1 <? Z.of_nat (length stack)) eqn:Hlen; [discriminate|].
  apply Z.ltb_ge in Hlen.
  destruct stack as [|j0 [|j1 rest]]; cbn in H, Hlen; [discriminate| |lia].
  apply bind_ok in H as (top & Htop & H).
  apply bind_ok in H as ([top' out] & Hspread & H).
  apply bind_ok in H as (fs' & _ & H). inversion H; subst; clear H.
  exists fs, j0, top. split; [done|].
  split. { unfold rd in Htop. destruct (fs !! j0); [by inversion Htop|discriminate]. }
  pose proof (spread_keeps_site top) as Hsp.
  destruct samples; [|by inversion Hspread].
  destruct (negb (Z.land (max_unpack filter) BCF_UN_FMT =? 0)
            && negb (length (pass_samples top) =? 0)%nat); [|by inversion Hspread].
  apply bind_ok in Hspread as (t & Ht & Hspread). inversion Hspread; subst; clear Hspread.
  destruct (nsamples top =? 0); [by apply Hsp in Ht|by inversion Ht].
Qed.

(** The evaluation of a boolean expression need not complete.  A string
    comparison writes its answer into the sample mask, which a filter
    without samples does not have; a string against a number, and a string
    under an ordering, end the process; arithmetic with a float FORMAT
    vector on the left reads as many cells of a scalar as the vector has
    values; AND with a per-sample truth value on the left runs over the
    values it counts, which are more than the samples here; the scan of
    a per-sample string runs over the whole width from wherever it
    starts; and a comparison writes one mask cell for each value of a
    per-sample field, of which the record holds three for two samples. *)
Lemma boolean_programs_can_fail :
  shape (filters (compiled hdr_tags "STR='abc'")) = Some [KBool]
  /\ compile_and_test hdr_tags "STR='abc'" (rec_str "abc" [1; 2])
     = Undef "write past the end of an array"
  /\ shape (filters (compiled hdr_tags "STR=1")) = Some [KBool]
  /\ compile_and_test hdr_tags "STR=1" (rec_str "abc" [1; 2])
     = Fatal "Comparing string to numeric value"
  /\ shape (filters (compiled hdr_tags "STR<'abc'")) = Some [KBool]
  /\ compile_and_test hdr_tags "STR<'abc'" (rec_str "abc" [1; 2])
     = Fatal "Wrong operator in string comparison"
  /\ shape (filters (compiled hdr_tags "FMT/GL+1>0")) = Some [KBool]
  /\ compile_and_test hdr_tags "FMT/GL+1>0" (rec_gl (fnum 5) [15; 8] [fnum 1; fnum 3])
     = Undef "read past the end of an array"
  /\ shape (filters (compiled hdr_tags "(FMT/GL>0 & FMT/GQ>10) & %QUAL>1")) = Some [KBool]
  /\ compile_and_test hdr_tags "(FMT/GL>0 & FMT/GQ>10) & %QUAL>1"
       (rec_gl (fnum 5) [15; 8] [fnum 1; fnum 3; fnum 4])
     = Undef "read past the end of an array"
  /\ shape (filters (compiled hdr_tags "FMT/FT='cd'")) = Some [KBool]
  /\ compile_and_test hdr_tags "FMT/FT='cd'" (rec_ft [zero; zero; "c"%char; "d"%char])
     = Undef "read past the end of an array"
  /\ shape (filters (compiled hdr_tags "FMT/GQ>10")) = Some [KBool]
  /\ compile_and_test hdr_tags "FMT/GQ>10" (rec_gq (fnum 5) [15; 8; 20])
     = Undef "write past the end of an array".
Proof. repeat split; vm_compute; reflexivity. Qed.

(** C3, amended.  Take a program that is the postfix form of one boolean
    expression: every operator finds its operands, comparisons and
    arithmetic act on values, logical operators on truth values, and one
    truth value is left at the end.  Whenever [filter_test] returns, it
    returns 0 or 1, never -1.  And it does return when every operator
    finds, on this record, operands it can take.  A value token, with the
    buffers [filter_init] gave it, evaluates to nothing, a scalar, one
    value per sample, the values of a float FORMAT field (more than one,
    no more than samples), or a string with its bytes (an INFO string or
    a quoted constant).  %MAX, %MIN and %AVG take any of them and give a
    scalar.  Arithmetic takes any two of them, except a float FORMAT
    vector on the left of a scalar or of a string, and is missing when
    an operand is.  A comparison with a missing operand, [==] and [!=]
    with %FILTER on one side, and a comparison of two operands without
    the string flag are always possible; two strings with their bytes are
    compared by [==] and [!=] when the filter has samples; an operand
    with the string flag is compared in no other way. *)
Theorem filter_test_total (filter : filter_t) (line : bcf1_t) (samples : bool) :
  shape (filters filter) = Some [KBool] ->
  (forall filter' r mask,
     filter_test filter line samples = Ok (filter', (r, mask)) -> r = 0 \/ r = 1)
  /\ (operands_ok filter line = true ->
      exists filter' r mask, filter_test filter line samples = Ok (filter', (r, mask))).
Proof.
  intros Hshape. split.
  - intros filter' r mask Hret.
    destruct (filter_test_returned filter filter' line samples r mask Hret)
      as (fs & j0 & top & Hloop & Htop & ->).
    assert (stack_rel conc_kind fs [j0] [KBool]) as Hrun.
    { apply (arun_returned filter line conc_kind kind_val kind_func kind_bin);
        [| | |exact Hshape|exact Hloop].
      - intros t d t' Hd _. by inversion Hd.
      - intros t d d' f arg arg' Hf _ _. destruct d; by inversion Hf.
      - apply kind_bin_sound. }
    apply Forall2_cons_inv_r in Hrun as (j & stack' & (t & Ht & Hc) & _ & Heq).
    inversion Heq; subst. rewrite Htop in Ht. by inversion Ht; subst.
  - intros Hops. unfold operands_ok in Hops.
    destruct (arun (class_val filter line) class_func (class_bin (flt_nsamples filter))
                (filters filter) []) as [[|[|] [|]]|] eqn:Hrun; try discriminate.
    destruct (operands_sound filter line [CBool] Hrun) as (fs & stack & Hloop & _ & Hrel).
    apply Forall2_cons_inv_r in Hrel as (j0 & stack' & (top & Htop & Hok) & Hrest & ->).
    apply Forall2_nil_inv_r in Hrest as ->.
    destruct Hok as (Hm & _).
    destruct (filter_test_finish filter line samples fs j0 top Hloop Htop Hm)
      as (filter' & mask & Hret & _).
    by exists filter', (pass_site top), mask.
Qed.

Lemma filter_test_total_witness :
  exists filter' r mask,
    filter_test (compiled hdr_tags "%FILTER='PASS' & %MAX(GL)>1 | FMT/GQ>10")
      (rec_gl (fnum 5) [15; 8] [fnum 1; fnum 3]) true
    = Ok (filter', (r, mask)) /\ (r = 0 \/ r = 1).
Proof.
  destruct (filter_test_total (compiled hdr_tags "%FILTER='PASS' & %MAX(GL)>1 | FMT/GQ>10")
              (rec_gl (fnum 5) [15; 8] [fnum 1; fnum 3]) true) as [Hbit Hret].
  - vm_compute. reflexivity.
  - destruct Hret as (filter' & r & mask & H); [vm_compute; reflexivity|].
    exists filter', r, mask. split; [exact H|]. exact (Hbit filter' r mask H).
Defined.

(** A program whose run leaves a value, not a truth value, returns the
    tri-state -1. *)
Lemma numeric_program_returns_minus_one (filter : filter_t) (line : bcf1_t)
    (samples : bool) (f : form) (s c : bool) :
  arun (class_val filter line) class_func (class_bin (flt_nsamples filter))
    (filters filter) [] = Some [CVal f s c] ->
  exists filter' mask, filter_test filter line samples = Ok (filter', (-1, mask)).
Proof.
  intros Hrun.
  destruct (operands_sound filter line _ Hrun) as (fs & stack & Hloop & _ & Hrel).
  apply Forall2_cons_inv_r in Hrel as (j0 & stack' & (top & Htop & Hok) & Hrest & ->).
  apply Forall2_nil_inv_r in Hrest as ->.
  destruct Hok as ((Hsite & Hm & _) & _).
  destruct (filter_test_finish filter line samples fs j0 top Hloop Htop Hm)
    as (filter' & mask & Hret & _).
  rewrite Hsite in Hret. by exists filter', mask.
Qed.

(** C3 as stated fails: the expression [1] compiles to a single value
    token, and its evaluation returns -1; so does [1+2]. *)
Lemma constant_program_returns_minus_one :
  program_of hdr2 "1" = Ok [TOK_VAL]
  /\ compile_and_test hdr2 "1" (rec_bare []) = Ok (-1, None)
  /\ program_of hdr2 "1+2" = Ok [TOK_VAL; TOK_VAL; TOK_ADD]
  /\ compile_and_test hdr2 "1+2" (rec_bare []) = Ok (-1, None).
Proof. repeat split; vm_compute; reflexivity. Qed.

(** With a site-level operand on the left, both AND flavors gate every
    slot of the vector by the site bit. *)
Lemma and_site_vector (s v : token_t) (n : nat) :
  nvalues s <> 0 -> nvalues v <> 0 -> nsamples s = 0 -> nsamples v = Z.of_nat n ->
  (0 < n)%nat ->
  (n <= length (pass_samples s))%nat -> (n <= length (pass_samples v))%nat ->
  exists a',
    vector_logic_and s v
    = Ok (a', some_pass (map (c_and (pass_site s)) (take n (pass_samples v))))
    /\ nsamples a' = Z.of_nat n
    /\ forall i b, (i < n)%nat -> pass_samples v !! i = Some b ->
         pass_samples a' !! i = Some (c_and (pass_site s) b).
Proof.
  intros Hs Hv Hss Hsv Hn Hls Hlv.
  unfold vector_logic_and.
  apply Z.eqb_neq in Hs, Hv. rewrite Hs, Hv, Hss, Hsv. simpl.
  replace (Z.of_nat n =? 0) with false by (symmetry; apply Z.eqb_neq; lia).
  simpl.
  destruct (mask_loop s (pass_samples v) (c_and (pass_site s))
              (fun l => some_pass (map (c_and (pass_site s)) l)) (Z.of_nat n)
              (fun i '(atok, pass) =>
                 let* b := rd (pass_samples v) i in
                 let* atok0 := store_pass i (c_and (pass_site atok) b) atok in
                 Ok (atok0,
                     if (pass =? 0) && negb (c_and (pass_site atok) b =? 0)
                     then 1 else pass)) 0)
    as (t' & Hrun & Hinv).
  - reflexivity.
  - lia.
  - lia.
  - intros k t pass b Hk Hb Hinv. split; [apply c_and_mod|].
    destruct (mask_written_token _ _ _ _ _ _ _ Hinv) as (Hsite & _).
    destruct Hinv as (_ & _ & _ & _ & _ & Hacc). simpl in Hacc.
    rewrite (rd_lookup _ _ _ Hb). simpl. rewrite Hsite.
    rewrite List.map_app. simpl. rewrite some_pass_snoc. rewrite <- Hacc.
    destruct (some_pass_bit (map (c_and (pass_site s)) (take k (pass_samples v))))
      as [Hp|Hp]; rewrite <- Hacc in Hp; rewrite Hp;
      by destruct (c_and (pass_site s) b =? 0).
  - rewrite Hrun. simpl. rewrite Nat2Z.id.
    eexists. split; [reflexivity|].
    rewrite Nat2Z.id in Hinv.
    destruct (mask_written_token _ _ _ _ _ _ _ Hinv) as (_ & _ & _ & _ & _ & Hlow & _).
    split; [reflexivity|]. simpl. exact Hlow.
Qed.

(** C8, amended.  [&] and [&&] are one operator in this evaluator: they
    have the same precedence, and for every pair of operands the
    evaluation of [X & Y] and of [X && Y] gives the same result, site bit
    and mask alike.  With a failing site operand both clear the mask. *)
Theorem and_flavors_agree (filter : filter_t) (line : bcf1_t) (atok btok : token_t) :
  filter_test_binary filter line TOK_AND atok btok
  = filter_test_binary filter line TOK_AND_VEC atok btok
  /\ op_prec_at TOK_AND = op_prec_at TOK_AND_VEC
  /\ compile_and_test hdr2 "%QUAL>10 & FMT/GQ>10" (rec_gq (fnum 5) [15; 8])
     = Ok (0, Some [0; 0])
  /\ compile_and_test hdr2 "%QUAL>10 && FMT/GQ>10" (rec_gq (fnum 5) [15; 8])
     = Ok (0, Some [0; 0])
  /\ compile_and_test hdr2 "%QUAL>10 & FMT/GQ>10" (rec_gq (fnum 20) [15; 8])
     = Ok (1, Some [1; 0])
  /\ compile_and_test hdr2 "%QUAL>10 && FMT/GQ>10" (rec_gq (fnum 20) [15; 8])
     = Ok (1, Some [1; 0]).
Proof.
  split; [apply and_flavors_same_routine|].
  repeat split; vm_compute; reflexivity.
Qed.

(** C8 as stated fails: no pair of operands tells the two flavors apart. *)
Lemma and_flavors_not_distinct :
  ~ exists (filter : filter_t) (line : bcf1_t) (atok btok : token_t),
      filter_test_binary filter line TOK_AND atok btok
      <> filter_test_binary filter line TOK_AND_VEC atok btok.
Proof.
  intros (filter & line & atok & btok & Hne). apply Hne.
  apply and_flavors_same_routine.
Qed.

(** ** Programs that differ in the flavor of their ANDs *)

Lemma orel_bind {A1 A2 B1 B2} (R : A1 -> A2 -> Prop) (S : B1 -> B2 -> Prop)
    (m1 : outcome A1) (m2 : outcome A2) (k1 : A1 -> outcome B1) (k2 : A2 -> outcome B2) :
  orel R m1 m2 -> (forall a b, R a b -> orel S (k1 a) (k2 b)) ->
  orel S (bind m1 k1) (bind m2 k2).
Proof. destruct m1, m2; cbn; intros H Hk; try done. by apply Hk. Qed.

Lemma orel_eq {A} (m1 m2 : outcome A) : orel eq m1 m2 -> m1 = m2.
Proof. destruct m1, m2; cbn; intros H; try done; by subst. Qed.

Lemma orel_refl {A} (m : outcome A) : orel eq m m.
Proof. by destruct m. Qed.

Lemma for_from_rel {S1 S2} (R : nat -> S1 -> S2 -> Prop)
    (b1 : nat -> S1 -> outcome S1) (b2 : nat -> S2 -> outcome S2) :
  forall (n i : nat) (s1 : S1) (s2 : S2),
    (forall k s1 s2, (i <= k < i + n)%nat -> R k s1 s2 ->
       orel (R (S k)) (b1 k s1) (b2 k s2)) ->
    R i s1 s2 ->
    orel (R (i + n)%nat) (for_from i n b1 s1) (for_from i n b2 s2).
Proof.
  induction n as [|n IH]; intros i s1 s2 Hb HR; cbn.
  - by replace (i + 0)%nat with i by lia.
  - eapply orel_bind; [apply Hb; [lia|done]|].
    intros a b Hab. replace (i + S n)%nat with (S i + n)%nat by lia.
    apply IH; [|done]. intros k t1 t2 Hk. apply Hb. lia.
Qed.

(** The setters read the filter for its header only. *)
Lemma call_setter_hdr (f : setter_fn) (f1 f2 : filter_t) (line : bcf1_t) (t : token_t) :
  hdr f1 = hdr f2 -> call_setter f f1 line t = call_setter f f2 line t.
Proof.
  intros Hh. destruct f; cbn; try reflexivity.
  - unfold filters_set_format_int. by rewrite Hh.
  - unfold filters_set_format_float. by rewrite Hh.
  - unfold filters_set_format_string. by rewrite Hh.
Qed.

Lemma filter_test_value_hdr (f1 f2 : filter_t) (line : bcf1_t) (t : token_t) :
  hdr f1 = hdr f2 -> filter_test_value f1 line t = filter_test_value f2 line t.
Proof.
  intros Hh. unfold filter_test_value. destruct (setter t); [|done].
  by apply call_setter_hdr.
Qed.

Lemma same_but_and_flavor_facts (t1 t2 : token_t) :
  same_but_and_flavor t1 t2 ->
  reset_token t2 = set_tok_type (tok_type t2) (reset_token t1)
  /\ (tok_type t1 =? TOK_VAL) = (tok_type t2 =? TOK_VAL)
  /\ (tok_type t1 =? TOK_FUNC) = (tok_type t2 =? TOK_FUNC)
  /\ (tok_type t1 = TOK_VAL -> t1 = t2)
  /\ (forall f1 f2 line a b,
        tok_type t1 <> TOK_VAL -> tok_type t1 <> TOK_FUNC ->
        filter_test_binary f1 line (tok_type t1) a b
        = filter_test_binary f2 line (tok_type t2) a b).
Proof.
  intros [<-|(H1 & H2 & ->)].
  - repeat split; try done; by destruct t1.
  - cbn. unfold is_and in H1, H2.
    split; [reflexivity|].
    split_ops H1; split_ops H2; rewrite ?H1, ?H2; repeat split; try done.
Qed.

Lemma same_but_and_flavor_reset (t1 t2 : token_t) :
  same_but_and_flavor t1 t2 -> same_but_and_flavor (reset_token t1) (reset_token t2).
Proof.
  intros [<-|(H1 & H2 & ->)]; [by left|]. right. cbn. repeat split; done.
Qed.

Lemma stores_sim_rd (stack : list nat) (fs1 fs2 : list token_t) (i : nat) :
  stores_sim stack fs1 fs2 -> orel same_but_and_flavor (rd fs1 i) (rd fs2 i).
Proof.
  intros [Hrel _]. unfold rd.
  destruct (fs1 !! i) as [t1|] eqn:H1.
  - destruct (Forall2_lookup_l _ _ _ _ _ Hrel H1) as (t2 & -> & Ht). exact Ht.
  - apply lookup_ge_None in H1. rewrite (Forall2_length _ _ _ Hrel) in H1.
    apply lookup_ge_None in H1. rewrite H1. reflexivity.
Qed.

Lemma stores_sim_rd_stack (stack : list nat) (fs1 fs2 : list token_t) (j : nat) :
  stores_sim stack fs1 fs2 -> In j stack -> rd fs1 j = rd fs2 j.
Proof.
  intros [_ Heq] Hin. rewrite Forall_forall in Heq. unfold rd.
  rewrite (Heq j); [done|]. by apply list_elem_of_In.
Qed.

(** Writing two tokens of the same kind at a place that is not on the
    stack. *)
Lemma stores_sim_wr (stack : list nat) (fs1 fs2 : list token_t) (i : nat)
    (x y : token_t) :
  stores_sim stack fs1 fs2 -> same_but_and_flavor x y ->
  Forall (fun j => (j < i)%nat) stack ->
  orel (stores_sim stack) (wr fs1 i x) (wr fs2 i y).
Proof.
  intros [Hrel Heq] Hxy Hlt. unfold wr.
  rewrite <- (Forall2_length _ _ _ Hrel).
  destruct (decide (i < length fs1)%nat); [|reflexivity]. cbn.
  split; [by apply Forall2_insert|].
  rewrite Forall_forall in *. intros j Hj.
  specialize (Hlt j Hj). cbn in Hlt.
  rewrite !list_lookup_insert_ne by lia. by apply Heq.
Qed.

(** Writing the same token at a place puts the place among those on which
    the stores agree. *)
Lemma stores_sim_wr_same (stack : list nat) (fs1 fs2 : list token_t) (i : nat)
    (x : token_t) :
  stores_sim stack fs1 fs2 ->
  orel (stores_sim (i :: stack)) (wr fs1 i x) (wr fs2 i x).
Proof.
  intros [Hrel Heq]. unfold wr.
  pose proof (Forall2_length _ _ _ Hrel) as Hlen. rewrite <- Hlen.
  destruct (decide (i < length fs1)%nat); [|reflexivity]. cbn.
  split; [apply Forall2_insert; [done|by left]|].
  constructor.
  - rewrite !list_lookup_insert_eq by lia. done.
  - rewrite Forall_forall in *. intros j Hj.
    destruct (decide (j = i)) as [->|Hne].
    + rewrite !list_lookup_insert_eq by lia. done.
    + rewrite !list_lookup_insert_ne by done. by apply Heq.
Qed.

Lemma stores_sim_tail (j : nat) (stack : list nat) (fs1 fs2 : list token_t) :
  stores_sim (j :: stack) fs1 fs2 -> stores_sim stack fs1 fs2.
Proof. intros [Hrel Heq]. split; [done|]. by inversion Heq. Qed.

(** One token of the two programs keeps the two evaluations together. *)
Lemma filter_test_token_flavor (f1 f2 : filter_t) (line : bcf1_t) (k : nat)
    (s1 s2 : eval_state) :
  hdr f1 = hdr f2 -> flavor_sim k s1 s2 ->
  orel (flavor_sim (S k)) (filter_test_token f1 line k s1) (filter_test_token f2 line k s2).
Proof.
  intros Hh. destruct s1 as [fs1 stack], s2 as [fs2 stack2].
  intros (Hst & Hbelow & Hrel & Heq). cbn in *. subst stack2.
  assert (stores_sim stack fs1 fs2) as Hsim by (split; done).
  pose proof (stack_below_lt _ _ Hbelow) as Hlt.
  unfold filter_test_token.
  eapply orel_bind; [by eapply stores_sim_rd|]. intros t1 t2 Ht.
  destruct (same_but_and_flavor_facts t1 t2 Ht) as (Hreset & Hval & Hfunc & Hsame & Hbin).
  eapply orel_bind.
  { apply stores_sim_wr; [done|by apply same_but_and_flavor_reset|done]. }
  intros fs1' fs2' Hsim'.
  change (tok_type (reset_token t1)) with (tok_type t1).
  change (tok_type (reset_token t2)) with (tok_type t2).
  rewrite <- Hval, <- Hfunc.
  destruct (Z.eqb_spec (tok_type t1) TOK_VAL) as [Hty|Hty].
  - (* a value token *)
    rewrite <- (Hsame Hty). rewrite (filter_test_value_hdr f1 f2) by done.
    eapply orel_bind; [apply orel_refl|]. intros tok ? <-.
    eapply orel_bind; [by apply stores_sim_wr_same|]. intros fs1'' fs2'' [Hrel'' Heq''].
    cbn. split; [done|]. split; [split; [lia|done]|]. done.
  - destruct (Z.eqb_spec (tok_type t1) TOK_FUNC) as [Hfn|Hfn].
    + (* a function token *)
      destruct stack as [|j rest]; [reflexivity|].
      assert (setter t2 = setter t1) as ->.
      { destruct Ht as [<-|(_ & _ & ->)]; reflexivity. }
      destruct (setter t1) as [f|]; [|reflexivity].
      rewrite (stores_sim_rd_stack (j :: rest) fs1' fs2' j) by (done || by left).
      eapply orel_bind; [apply orel_refl|]. intros arg ? <-.
      rewrite (call_setter_hdr f f1 f2) by done.
      eapply orel_bind; [apply orel_refl|]. intros arg' ? <-.
      eapply orel_bind; [apply stores_sim_wr_same, (stores_sim_tail j), Hsim'|].
      intros fs1'' fs2'' [Hrel'' Heq''].
      cbn. split; [done|]. destruct Hbelow as [Hj Hbelow].
      split; [split; [lia|done]|]. done.
    + (* a binary operator *)
      destruct stack as [|jb [|ja rest]]; [reflexivity|reflexivity|].
      rewrite (stores_sim_rd_stack _ fs1' fs2' ja Hsim') by (right; by left).
      eapply orel_bind; [apply orel_refl|]. intros a ? <-.
      rewrite (stores_sim_rd_stack _ fs1' fs2' jb Hsim') by (by left).
      eapply orel_bind; [apply orel_refl|]. intros b ? <-.
      rewrite (Hbin f1 f2 line a b Hty Hfn).
      eapply orel_bind; [apply orel_refl|]. intros a' ? <-.
      eapply orel_bind.
      { apply stores_sim_wr_same, (stores_sim_tail ja), (stores_sim_tail jb), Hsim'. }
      intros fs1'' fs2'' [Hrel'' Heq''].
      cbn. split; [done|]. destruct Hbelow as [Hjb [Hja Hbelow]].
      split; [split; [lia|done]|]. done.
Qed.

Lemma last_In {A} (l : list A) (x : A) : last l = Some x -> In x l.
Proof.
  intros H. apply list_elem_of_In. rewrite last_lookup in H.
  by eapply list_elem_of_lookup_2.
Qed.

(** The whole run of two programs that differ in the flavor of their ANDs
    only: the caller sees the same outcome, the same returned int and the
    same mask. *)
Lemma filter_test_flavor (f1 f2 : filter_t) (line : bcf1_t) (samples : bool) :
  hdr f1 = hdr f2 -> max_unpack f1 = max_unpack f2 ->
  flt_nsamples f1 = flt_nsamples f2 ->
  Forall2 same_but_and_flavor (filters f1) (filters f2) ->
  returned (filter_test f1 line samples) = returned (filter_test f2 line samples).
Proof.
  intros Hh Hu Hn Hrel. apply orel_eq. unfold returned.
  eapply (orel_bind (fun x y => x.2 = y.2)); [|by intros [? ?] [? ?] H; cbn in *; subst].
  unfold filter_test, for_loop, nfilters.
  rewrite <- (Forall2_length _ _ _ Hrel), <- Hu, <- Hn.
  eapply orel_bind.
  { apply (for_from_rel flavor_sim).
    - intros k s1 s2 _ Hs. by apply filter_test_token_flavor.
    - cbn. split; [done|]. split; [done|]. split; [done|]. constructor. }
  intros [fs1 stack] [fs2 stack2] (Hst & _ & Hrel' & Heq). cbn in Hst, Hrel', Heq.
  subst stack2. destruct (1 <? Z.of_nat (length stack)); [reflexivity|].
  destruct (last stack) as [j0|] eqn:Hlast; [|reflexivity].
  assert (stores_sim stack fs1 fs2) as Hsim by (split; done).
  rewrite (stores_sim_rd_stack stack fs1 fs2 j0 Hsim) by (by apply last_In).
  eapply orel_bind; [apply orel_refl|]. intros top ? <-.
  eapply orel_bind; [apply orel_refl|]. intros [top' out] ? <-.
  eapply (orel_bind (fun _ _ => True)); [|done].
  unfold wr. rewrite <- (Forall2_length _ _ _ Hrel').
  by destruct (decide (j0 < length fs1)%nat).
Qed.

(** * Further properties of the engine *)

(** ** The compiler ends *)

Lemma is_undef_of_bind {A B} (what : string) (m : outcome A) (k : A -> outcome B) :
  is_undef_of what m = false -> (forall a, is_undef_of what (k a) = false) ->
  is_undef_of what (bind m k) = false.
Proof. destruct m; cbn; auto. Qed.

Lemma skip_space_length (s : string) :
  (String.length (skip_space s) <= String.length s)%nat.
Proof. induction s as [|c r IH]; simpl; [lia|]. destruct (isspace c); simpl; lia. Qed.

Lemma str_drop_length (n : nat) (s : string) :
  String.length (str_drop n s) = (String.length s - n)%nat.
Proof.
  revert s. induction n as [|n IH]; intros [|c r]; simpl; try lia. apply IH.
Qed.

Lemma str_at_nonempty (s : string) : str_at s 0 <> zero -> (0 < String.length s)%nat.
Proof. destruct s; simpl; [intros H; by destruct H|lia]. Qed.

Lemma ch_nonzero (c : ascii) (x : string) :
  ch c x = true -> x <> String zero EmptyString -> c <> zero.
Proof.
  destruct x as [|d [|? ?]]; simpl; try discriminate.
  intros H Hx ->. apply Ascii.eqb_eq in H. subst d. by apply Hx.
Qed.

Lemma has_prefix_nonzero (s p : string) :
  has_prefix s p = true -> str_at p 0 <> zero -> str_at s 0 <> zero.
Proof.
  unfold has_prefix. destruct p as [|d p]; simpl; [intros _ H; by destruct H|].
  destruct s as [|c s]; simpl; [discriminate|].
  intros H Hd Hc. unfold str_at in Hc. simpl in Hc. subst c. apply Hd.
  destruct (nat_of_ascii zero <? nat_of_ascii d)%nat eqn:E1; [discriminate|].
  destruct (nat_of_ascii d <? nat_of_ascii zero)%nat eqn:E2; [discriminate|].
  apply Nat.ltb_ge in E1, E2. change (nat_of_ascii zero) with 0%nat in *.
  unfold str_at; simpl.
  rewrite <- (ascii_nat_embedding d). replace (nat_of_ascii d) with 0%nat by lia.
  reflexivity.
Qed.

Lemma span_len_nonempty (stop : ascii -> bool) (s : string) :
  (0 < span_len stop s)%nat -> (0 < String.length s)%nat.
Proof. destruct s; simpl; lia. Qed.

(** What one call of the lexer does to the cursor: an operator moves it
    forward, a value leaves it at the start of a lexeme that is not empty
    unless its length is 0. *)
Lemma filters_next_token_moves (strtod : string -> spec_float * nat * bool)
    (s : string) (ret : Z) (tmp : string) (len : nat) :
  filters_next_token strtod s = (ret, tmp, len) ->
  (ret <> TOK_VAL -> ret <> -1 -> (String.length tmp < String.length s)%nat)
  /\ (ret = TOK_VAL -> (0 < len)%nat ->
      (String.length (str_drop len tmp) < String.length s)%nat).
Proof.
  intros H. unfold filters_next_token in H.
  assert (forall l, (0 < l)%nat -> (0 < String.length (skip_space s))%nat ->
            (String.length (str_drop l (skip_space s)) < String.length s)%nat) as Hval.
  { intros l Hl Hne. pose proof (skip_space_length s). rewrite str_drop_length. lia. }
  repeat case_match; simplify_eq; (split; [intros Hv Hm|intros Hv Hl]); try done.
  all: apply Hval; [lia|]; clear Hval.
  all: destruct (skip_space s); [exfalso|simpl; lia].
  all: cbn in *; try congruence; try lia.
  match goal with H : isdigit _ || _ = true |- _ => vm_compute in H; discriminate end.
Qed.

Lemma is_undef_of_other {A} (what : string) (m : outcome A) :
  is_undef m = false -> is_undef_of what m = false.
Proof. by destruct m. Qed.

Lemma pop_to_bracket_defined (ops : list Z) (out : list token_t) :
  is_undef (pop_to_bracket ops out) = false.
Proof.
  revert out. induction ops as [|o rest IH]; intros out; simpl; [done|].
  destruct (o =? TOK_LFT); [done|apply IH].
Qed.

Lemma op_prec_at_fuel (what : string) (t : Z) :
  no_fuel what -> is_undef_of what (op_prec_at t) = false.
Proof.
  unfold op_prec_at, rd. intros [-> | ->]; (destruct (t <? 0); [done|]);
    by destruct (op_prec !! Z.to_nat t).
Qed.

Lemma pop_higher_fuel (what : string) (ret : Z) (ops : list Z) (out : list token_t)
    (nfunc : Z) :
  no_fuel what -> is_undef_of what (pop_higher ret ops out nfunc) = false.
Proof.
  intros Hw. revert out nfunc.
  induction ops as [|o rest IH]; intros out nfunc; simpl; [done|].
  apply is_undef_of_bind; [by apply op_prec_at_fuel|]. intros p.
  apply is_undef_of_bind; [by apply op_prec_at_fuel|]. intros q.
  destruct (p <? q); [apply IH|done].
Qed.

Lemma filters_init1_fuel (what : string) (strtod : string -> spec_float * nat * bool)
    (hdr : bcf_hdr_t) (max_unpack : Z) (str : string) (len : nat) (inside_func : Z)
    (tok : token_t) :
  no_fuel what ->
  is_undef_of what (filters_init1 strtod hdr max_unpack str len inside_func tok) = false.
Proof.
  unfold filters_init1, bind_format, store_value, wr, error, bind.
  intros [-> | ->]; repeat case_match; simplify_eq; reflexivity.
Qed.

(** Every turn of the loop over the input that goes on has moved the
    cursor forward, so a turn for every character of the rest of the input,
    and one more, are never used up. *)
Lemma filter_init_loop_ends (strtod : string -> spec_float * nat * bool)
    (hdr : bcf_hdr_t) (fuel : nat) (st : init_state) :
  (String.length (i_tmp st) < fuel)%nat ->
  is_undef_of "lexer made no progress" (filter_init_loop strtod hdr fuel st) = false.
Proof.
  revert st. induction fuel as [|fuel IH]; intros st Hlen; [lia|]. simpl.
  destruct (String.length (i_tmp st) =? 0)%nat; [done|].
  destruct (filters_next_token strtod (i_tmp st)) as [[ret tmp] len] eqn:E.
  apply filters_next_token_moves in E as [Hop Hval].
  destruct (Z.eqb_spec ret (-1)) as [|Hm]; [done|].
  destruct (Z.eqb_spec ret TOK_LFT) as [->|Hl].
  { apply IH. simpl. specialize (Hop ltac:(done) ltac:(done)). lia. }
  destruct (Z.eqb_spec ret TOK_RGT) as [->|Hr].
  { apply is_undef_of_bind; [apply is_undef_of_other, pop_to_bracket_defined|].
    intros [ops out]. apply IH. simpl. specialize (Hop ltac:(done) ltac:(done)). lia. }
  destruct (Z.eqb_spec ret TOK_VAL) as [->|Hv]; simpl.
  - destruct (Nat.eqb_spec len 0) as [->|Hn].
    + by destruct (negb (String.length tmp =? 0)%nat && negb (isspace (str_at tmp 0))).
    + apply is_undef_of_bind; [apply filters_init1_fuel; by left|].
      intros [mu tok]. apply IH. simpl. specialize (Hval eq_refl ltac:(lia)). lia.
  - specialize (Hop Hv Hm).
    apply is_undef_of_bind.
    + destruct ((ret =? TOK_SUB) && negb (i_last_op st =? TOK_VAL)
                && negb (i_last_op st =? TOK_RGT)); [done|].
      apply is_undef_of_bind; [apply pop_higher_fuel; by left|]. by intros [[ops out] nfunc].
    + intros [[[ret' ops] out] nfunc]. apply IH. simpl. lia.
Qed.

Lemma rdz_lookup {A} (l : list A) (i : Z) (x : A) :
  rdz l i = Ok x <-> 0 <= i /\ l !! Z.to_nat i = Some x.
Proof.
  unfold rdz, rd. destruct (Z.ltb_spec i 0).
  - split; [done|lia].
  - destruct (l !! Z.to_nat i); split; intros; simplify_eq; try done.
    + destruct H0 as [_ H0]. by simplify_eq.
    + by destruct H0.
Qed.

Lemma wrz_insert {A} (l l' : list A) (i : Z) (x : A) :
  wrz l i x = Ok l' ->
  0 <= i /\ (Z.to_nat i < length l)%nat /\ l' = <[Z.to_nat i := x]> l.
Proof.
  unfold wrz, wr. destruct (Z.ltb_spec i 0); [done|].
  destruct (decide (Z.to_nat i < length l)%nat); [|done].
  intros H'. by simplify_eq.
Qed.

(** The second visit of a %TYPE or %FILTER token that stands after its
    literal: the key of the literal was taken away by the first visit, and
    the walk stops with an error. *)
Lemma resolve_specials_revisit (hdr : bcf_hdr_t) (fuel : nat) (i : Z)
    (out : list token_t) (tok nxt lit : token_t) (tg : string) :
  1 <= i ->
  out !! Z.to_nat i = Some tok -> tok_type tok = TOK_VAL -> tag tok = Some tg ->
  (strcmp tg "%TYPE" =? 0) || (strcmp tg "%FILTER" =? 0) = true ->
  out !! Z.to_nat (i + 1) = Some nxt ->
  (tok_type nxt =? TOK_EQ) || (tok_type nxt =? TOK_NE) = true ->
  out !! Z.to_nat (i - 1) = Some lit -> key lit = None ->
  is_fatal (resolve_specials hdr (S fuel) i out) = true.
Proof.
  intros Hi Htok Hty Htag Htg Hnxt Hcmp Hlit Hkey. simpl.
  pose proof (lookup_lt_Some _ _ _ Htok) as Hlt.
  pose proof (lookup_lt_Some _ _ _ Hnxt) as Hlt'.
  destruct (Z.ltb_spec i (Z.of_nat (length out))) as [_|]; [|lia]. simpl.
  rewrite (proj2 (rdz_lookup out i tok)) by (split; [lia|done]). simpl.
  rewrite Hty. simpl. rewrite Htag.
  assert (literal_index out i = Ok (i - 1)) as Hj.
  { unfold literal_index. destruct (Z.eqb_spec (i + 1) (Z.of_nat (length out))); [lia|].
    rewrite (proj2 (rdz_lookup out (i + 1) nxt)) by (split; [lia|done]). simpl.
    by rewrite Hcmp. }
  assert (rdz out (i - 1) = Ok lit) as Hrd by (apply rdz_lookup; split; [lia|done]).
  destruct (strcmp tg "%TYPE" =? 0).
  - rewrite Hj. simpl. rewrite Hrd. simpl. rewrite Hkey. by destruct (tok_type lit =? TOK_VAL).
  - simpl in Htg. rewrite Htg, Hj. simpl. rewrite Hrd. simpl. rewrite Hkey.
    by destruct (tok_type lit =? TOK_VAL).
Qed.

Lemma is_undef_of_bind_ok {A B} (what : string) (m : outcome A) (k : A -> outcome B) :
  is_undef_of what m = false -> (forall a, m = Ok a -> is_undef_of what (k a) = false) ->
  is_undef_of what (bind m k) = false.
Proof. destruct m; cbn; auto. Qed.

Lemma is_undef_of_fatal {A} (what : string) (m : outcome A) :
  is_fatal m = true -> is_undef_of what m = false.
Proof. by destruct m. Qed.

Lemma rdz_fuel {A} (what : string) (l : list A) (i : Z) :
  no_fuel what -> is_undef_of what (rdz l i) = false.
Proof.
  unfold rdz, rd. intros [-> | ->]; (destruct (i <? 0); [done|]);
    by destruct (l !! Z.to_nat i).
Qed.

Lemma wrz_fuel {A} (what : string) (l : list A) (i : Z) (x : A) :
  no_fuel what -> is_undef_of what (wrz l i x) = false.
Proof.
  unfold wrz, wr. intros [-> | ->]; (destruct (i <? 0); [done|]);
    by destruct (decide (Z.to_nat i < length l)%nat).
Qed.

Lemma literal_index_fuel (what : string) (out : list token_t) (i : Z) :
  no_fuel what -> is_undef_of what (literal_index out i) = false.
Proof.
  intros Hw. unfold literal_index. destruct (i + 1 =? Z.of_nat (length out)); [done|].
  apply is_undef_of_bind; [by apply rdz_fuel|]. intros nxt.
  by destruct ((tok_type nxt =? TOK_EQ) || (tok_type nxt =? TOK_NE)).
Qed.

Lemma literal_index_cases (out : list token_t) (i j : Z) :
  literal_index out i = Ok j ->
  exists nxt, rdz out (i + 1) = Ok nxt
    /\ (((tok_type nxt =? TOK_EQ) || (tok_type nxt =? TOK_NE) = true /\ j = i - 1)
        \/ ((tok_type nxt =? TOK_EQ) || (tok_type nxt =? TOK_NE) = false /\ j = i + 1)).
Proof.
  unfold literal_index. destruct (i + 1 =? Z.of_nat (length out)); [done|].
  destruct (rdz out (i + 1)) as [nxt| |]; simpl; [|done|done].
  intros H. exists nxt. split; [done|].
  destruct ((tok_type nxt =? TOK_EQ) || (tok_type nxt =? TOK_NE)); simplify_eq; auto.
Qed.

(** The walk over %TYPE and %FILTER ends: it moves forward, or comes back
    once to a token whose literal stands before it, and stops there. *)
Lemma resolve_specials_ends (hdr : bcf_hdr_t) (fuel : nat) (i : Z) (out : list token_t) :
  Z.of_nat (length out) - i + 1 <= Z.of_nat fuel -> (1 <= fuel)%nat ->
  is_undef_of "special-form walk made no progress" (resolve_specials hdr fuel i out) = false.
Proof.
  revert i out. induction fuel as [|fuel IH]; intros i out Hfuel Hone; [lia|]. simpl.
  destruct (Z.ltb_spec i (Z.of_nat (length out))) as [Hlt|]; [|done]. simpl.
  apply is_undef_of_bind_ok; [apply rdz_fuel; by right|]. intros tok Htok.
  apply rdz_lookup in Htok as [Hi Htok].
  destruct (Z.eqb_spec (tok_type tok) TOK_VAL) as [Hty|]; simpl; [|apply IH; lia].
  destruct (tag tok) as [tg|] eqn:Htag; [|apply IH; lia].
  assert (forall j lit lit' out' nxt (tok' : token_t),
            tok_type tok' = TOK_VAL -> tag tok' = Some tg ->
            (strcmp tg "%TYPE" =? 0) || (strcmp tg "%FILTER" =? 0) = true ->
            rdz out (i + 1) = Ok nxt ->
            ((tok_type nxt =? TOK_EQ) || (tok_type nxt =? TOK_NE) = true /\ j = i - 1)
            \/ ((tok_type nxt =? TOK_EQ) || (tok_type nxt =? TOK_NE) = false /\ j = i + 1) ->
            rdz out j = Ok lit -> key lit' = None ->
            out' = <[Z.to_nat i := tok']> (<[Z.to_nat j := lit']> out) ->
            is_undef_of "special-form walk made no progress"
              (resolve_specials hdr fuel (j + 1) out') = false) as Hnext.
  { intros j lit lit' out' nxt tok' Hty' Htag' Htg Hnxt Hj Hlit Hkey ->.
    apply rdz_lookup in Hnxt as [_ Hnxt]. apply rdz_lookup in Hlit as [Hj0 Hlit].
    pose proof (lookup_lt_Some _ _ _ Hnxt). pose proof (lookup_lt_Some _ _ _ Hlit).
    pose proof (lookup_lt_Some _ _ _ Htok).
    destruct Hj as [[Hcmp ->]|[Hcmp ->]].
    - destruct fuel as [|fuel]; [lia|]. apply is_undef_of_fatal.
      replace (i - 1 + 1) with i by lia.
      eapply (resolve_specials_revisit hdr fuel i _ tok' nxt lit' tg); try done; try lia.
      + apply list_lookup_insert_eq. rewrite length_insert. lia.
      + rewrite !list_lookup_insert_ne by lia. done.
      + rewrite list_lookup_insert_ne by lia. apply list_lookup_insert_eq. lia.
    - apply IH; rewrite ?length_insert; lia. }
  destruct (strcmp tg "%TYPE" =? 0) eqn:Htype.
  - apply is_undef_of_bind_ok; [apply literal_index_fuel; by right|]. intros j Hj.
    apply literal_index_cases in Hj as (nxt & Hnxt & Hj).
    apply is_undef_of_bind_ok; [apply rdz_fuel; by right|]. intros lit Hlit.
    destruct (if tok_type lit =? TOK_VAL then key lit else None) as [k|]; [|done].
    destruct (type_code k) as [code|]; [|done].
    apply is_undef_of_bind_ok; [apply wrz_fuel; by right|]. intros out' Hout'.
    apply wrz_insert in Hout' as (Hj0 & _ & ->).
    eapply (Hnext j lit _ _ nxt tok); try done.
    2: { symmetry. apply list_insert_id.
         destruct Hj as [[_ ->]|[_ ->]]; rewrite list_lookup_insert_ne by lia; done. }
    done.
  - destruct (strcmp tg "%FILTER" =? 0) eqn:Hfilter; [|apply IH; lia].
    apply is_undef_of_bind_ok; [apply literal_index_fuel; by right|]. intros j Hj.
    apply literal_index_cases in Hj as (nxt & Hnxt & Hj).
    apply is_undef_of_bind_ok; [apply rdz_fuel; by right|]. intros lit Hlit.
    destruct (if tok_type lit =? TOK_VAL then key lit else None) as [k|]; [|done].
    apply is_undef_of_bind_ok.
    { destruct (negb (strcmp "." k =? 0)); [|done].
      by destruct (negb (bcf_hdr_idinfo_exists hdr BCF_HL_FLT (bcf_hdr_id2int hdr k))). }
    intros lit1 _.
    apply is_undef_of_bind_ok; [apply wrz_fuel; by right|]. intros out' Hout'.
    apply wrz_insert in Hout' as (Hj0 & _ & ->).
    apply is_undef_of_bind_ok; [apply rdz_fuel; by right|]. intros tok1 Htok1.
    apply is_undef_of_bind_ok; [apply wrz_fuel; by right|]. intros out'' Hout''.
    apply wrz_insert in Hout'' as (_ & _ & ->).
    assert (tok1 = tok) as ->.
    { apply rdz_lookup in Htok1 as [_ Htok1].
      destruct Hj as [[_ ->]|[_ ->]]; rewrite list_lookup_insert_ne in Htok1 by lia;
        by simplify_eq. }
    eapply (Hnext j lit _ _ nxt (set_hdr_id _ tok)); try done.
    all: reflexivity.
Qed.

Lemma filter_init_loop_other (strtod : string -> spec_float * nat * bool)
    (hdr : bcf_hdr_t) (fuel : nat) (st : init_state) :
  is_undef_of "special-form walk made no progress"
    (filter_init_loop strtod hdr fuel st) = false.
Proof.
  revert st. induction fuel as [|fuel IH]; intros st; [done|]. simpl.
  destruct (String.length (i_tmp st) =? 0)%nat; [done|].
  destruct (filters_next_token strtod (i_tmp st)) as [[ret tmp] len].
  destruct (ret =? -1); [done|].
  destruct (ret =? TOK_LFT); [apply IH|].
  destruct (ret =? TOK_RGT).
  { apply is_undef_of_bind; [apply is_undef_of_other, pop_to_bracket_defined|].
    intros [ops out]. apply IH. }
  destruct (ret =? TOK_VAL); simpl.
  - destruct (len =? 0)%nat.
    + by destruct (negb (String.length tmp =? 0)%nat && negb (isspace (str_at tmp 0))).
    + apply is_undef_of_bind; [apply filters_init1_fuel; by right|].
      intros [mu tok]. apply IH.
  - apply is_undef_of_bind.
    + destruct ((ret =? TOK_SUB) && negb (i_last_op st =? TOK_VAL)
                && negb (i_last_op st =? TOK_RGT)); [done|].
      apply is_undef_of_bind; [apply pop_higher_fuel; by right|]. by intros [[ops out] nfunc].
    + intros [[[ret' ops] out] nfunc]. apply IH.
Qed.

Lemma resolve_specials_other (hdr : bcf_hdr_t) (fuel : nat) (i : Z) (out : list token_t) :
  is_undef_of "lexer made no progress" (resolve_specials hdr fuel i out) = false.
Proof.
  assert (no_fuel "lexer made no progress") as Hw by (by left).
  revert i out. induction fuel as [|fuel IH]; intros i out; [done|]. simpl.
  destruct (negb (i <? Z.of_nat (length out))); [done|].
  apply is_undef_of_bind; [by apply rdz_fuel|]. intros tok.
  destruct (negb (tok_type tok =? TOK_VAL)); [apply IH|].
  destruct (tag tok) as [tg|]; [|apply IH].
  destruct (strcmp tg "%TYPE" =? 0).
  - apply is_undef_of_bind; [by apply literal_index_fuel|]. intros j.
    apply is_undef_of_bind; [by apply rdz_fuel|]. intros lit.
    destruct (if tok_type lit =? TOK_VAL then key lit else None) as [k|]; [|done].
    destruct (type_code k) as [code|]; [|done].
    apply is_undef_of_bind; [by apply wrz_fuel|]. intros out'. apply IH.
  - destruct (strcmp tg "%FILTER" =? 0); [|apply IH].
    apply is_undef_of_bind; [by apply literal_index_fuel|]. intros j.
    apply is_undef_of_bind; [by apply rdz_fuel|]. intros lit.
    destruct (if tok_type lit =? TOK_VAL then key lit else None) as [k|]; [|done].
    apply is_undef_of_bind.
    { destruct (negb (strcmp "." k =? 0)); [|done].
      by destruct (negb (bcf_hdr_idinfo_exists hdr BCF_HL_FLT (bcf_hdr_id2int hdr k))). }
    intros lit1.
    apply is_undef_of_bind; [by apply wrz_fuel|]. intros out'.
    apply is_undef_of_bind; [by apply rdz_fuel|]. intros tok1.
    apply is_undef_of_bind; [by apply wrz_fuel|]. intros out''. apply IH.
Qed.

Lemma pop_all_defined (ops : list Z) (out : list token_t) :
  is_undef (pop_all ops out) = false.
Proof.
  revert out. induction ops as [|o rest IH]; intros out; simpl; [done|].
  destruct ((o =? TOK_LFT) || (o =? TOK_RGT)); [done|apply IH].
Qed.

(** X1.  [filter_init] ends on every expression, for every header and
    every [strtod]: neither the loop over the input nor the walk that binds
    the literals of %TYPE and %FILTER goes on for ever.  Each turn of the
    loop moves the cursor forward, and the walk visits a token twice at
    most. *)
Theorem filter_init_ends (strtod : string -> spec_float * nat * bool)
    (hdr : bcf_hdr_t) (str : string) :
  is_undef_of "lexer made no progress" (filter_init strtod hdr str) = false
  /\ is_undef_of "special-form walk made no progress" (filter_init strtod hdr str) = false.
Proof.
  unfold filter_init. split.
  - apply is_undef_of_bind; [apply filter_init_loop_ends; simpl; lia|]. intros st.
    apply is_undef_of_bind; [apply is_undef_of_other, pop_all_defined|]. intros out.
    apply is_undef_of_bind; [apply resolve_specials_other|]. done.
  - apply is_undef_of_bind; [apply filter_init_loop_other|]. intros st.
    apply is_undef_of_bind; [apply is_undef_of_other, pop_all_defined|]. intros out.
    apply is_undef_of_bind; [apply resolve_specials_ends; lia|]. done.
Qed.

(** ** The literal of %TYPE and %FILTER *)

Lemma is_ok_bind_false {A B} (m : outcome A) (k : A -> outcome B) :
  (forall a, m = Ok a -> is_ok (k a) = false) -> is_ok (bind m k) = false.
Proof. destruct m; cbn; auto. Qed.

Lemma is_ok_fatal {A} (m : outcome A) : is_fatal m = true -> is_ok m = false.
Proof. by destruct m. Qed.

Lemma special_tag_test (tg : string) :
  tg = "%TYPE"%string \/ tg = "%FILTER"%string ->
  (strcmp tg "%TYPE" =? 0) || (strcmp tg "%FILTER" =? 0) = true.
Proof. by intros [-> | ->]. Qed.

Lemma cmp_type_test (t : Z) :
  t = TOK_EQ \/ t = TOK_NE -> (t =? TOK_EQ) || (t =? TOK_NE) = true.
Proof. by intros [-> | ->]. Qed.

(** A %TYPE or %FILTER token that is directly followed by [==] or [!=]
    stops the walk: the literal before the token is bound, the walk comes
    back to the token, finds the key of the literal gone, and fails. *)
Lemma resolve_specials_literal_first (hdr : bcf_hdr_t) (fuel i : nat)
    (out : list token_t) (tok nxt : token_t) :
  out !! i = Some tok -> is_special tok = true ->
  out !! S i = Some nxt -> tok_type nxt = TOK_EQ \/ tok_type nxt = TOK_NE ->
  is_ok (resolve_specials hdr fuel (Z.of_nat i) out) = false.
Proof.
  intros Htok Hsp Hnxt Hcmp. unfold is_special in Hsp.
  apply andb_true_iff in Hsp as [Hty Htg]. apply Z.eqb_eq in Hty.
  destruct (tag tok) as [tg|] eqn:Htag; [|done].
  apply cmp_type_test in Hcmp.
  pose proof (lookup_lt_Some _ _ _ Hnxt) as Hlt.
  destruct fuel as [|fuel]; [done|]. simpl.
  destruct (Z.ltb_spec (Z.of_nat i) (Z.of_nat (length out))) as [_|]; [|lia]. simpl.
  rewrite (proj2 (rdz_lookup out (Z.of_nat i) tok)) by (rewrite Nat2Z.id; split; [lia|done]).
  simpl. rewrite Hty. simpl. rewrite Htag.
  assert (literal_index out (Z.of_nat i) = Ok (Z.of_nat i - 1)) as Hj.
  { unfold literal_index.
    destruct (Z.eqb_spec (Z.of_nat i + 1) (Z.of_nat (length out))); [lia|].
    rewrite (proj2 (rdz_lookup out (Z.of_nat i + 1) nxt)).
    - simpl. by rewrite Hcmp.
    - split; [lia|]. by replace (Z.to_nat (Z.of_nat i + 1)) with (S i) by lia. }
  assert (forall lit lit' out' (tok' : token_t),
            tok_type tok' = TOK_VAL -> tag tok' = Some tg ->
            rdz out (Z.of_nat i - 1) = Ok lit -> key lit' = None ->
            out' = <[i := tok']> (<[Z.to_nat (Z.of_nat i - 1) := lit']> out) ->
            is_ok (resolve_specials hdr fuel (Z.of_nat i - 1 + 1) out') = false) as Hnext.
  { intros lit lit' out' tok' Hty' Htag' Hlit Hkey ->.
    apply rdz_lookup in Hlit as [Hj0 Hlit].
    pose proof (lookup_lt_Some _ _ _ Hlit). pose proof (lookup_lt_Some _ _ _ Htok).
    destruct fuel as [|fuel]; [done|]. apply is_ok_fatal.
    replace (Z.of_nat i - 1 + 1) with (Z.of_nat i) by lia.
    eapply (resolve_specials_revisit hdr fuel (Z.of_nat i) _ tok' nxt lit' tg);
      try done; try lia.
    - rewrite Nat2Z.id. apply list_lookup_insert_eq. rewrite length_insert. lia.
    - replace (Z.to_nat (Z.of_nat i + 1)) with (S i) by lia.
      rewrite !list_lookup_insert_ne by lia. done.
    - rewrite list_lookup_insert_ne by lia. apply list_lookup_insert_eq. lia. }
  destruct (strcmp tg "%TYPE" =? 0) eqn:Htype.
  - rewrite Hj. simpl.
    apply is_ok_bind_false. intros lit Hlit.
    destruct (if tok_type lit =? TOK_VAL then key lit else None) as [k|]; [|done].
    destruct (type_code k) as [code|]; [|done].
    apply is_ok_bind_false. intros out' Hout'.
    apply wrz_insert in Hout' as (Hj0 & _ & ->).
    eapply (Hnext lit _ _ tok); try done.
    2: { symmetry. apply list_insert_id. rewrite list_lookup_insert_ne by lia. done. }
    reflexivity.
  - simpl in Htg. rewrite Htg, Hj. simpl.
    apply is_ok_bind_false. intros lit Hlit.
    destruct (if tok_type lit =? TOK_VAL then key lit else None) as [k|]; [|done].
    apply is_ok_bind_false. intros lit1 _.
    apply is_ok_bind_false. intros out' Hout'.
    apply wrz_insert in Hout' as (Hj0 & _ & ->).
    apply is_ok_bind_false. intros tok1 Htok1.
    apply is_ok_bind_false. intros out'' Hout''.
    apply wrz_insert in Hout'' as (_ & _ & ->).
    assert (tok1 = tok) as ->.
    { apply rdz_lookup in Htok1 as [_ Htok1].
      rewrite Nat2Z.id, list_lookup_insert_ne in Htok1 by lia. by simplify_eq. }
    rewrite Nat2Z.id.
    eapply (Hnext lit _ _ (set_hdr_id _ tok)); try done.
    all: reflexivity.
Qed.

(** The walk passes over the tokens that are not %TYPE or %FILTER, one
    turn each. *)
Lemma resolve_specials_skips (hdr : bcf_hdr_t) (out : list token_t) (n fuel i0 : nat) :
  (forall j t, (i0 <= j < i0 + n)%nat -> out !! j = Some t -> is_special t = false) ->
  (i0 + n <= length out)%nat ->
  resolve_specials hdr (n + fuel) (Z.of_nat i0) out
  = resolve_specials hdr fuel (Z.of_nat (i0 + n)) out.
Proof.
  revert i0. induction n as [|n IH]; intros i0 Hskip Hlen.
  - by replace (i0 + 0)%nat with i0 by lia.
  - simpl. destruct (Z.ltb_spec (Z.of_nat i0) (Z.of_nat (length out))) as [_|]; [|lia].
    simpl. destruct (lookup_lt_is_Some_2 out i0 ltac:(lia)) as [t Ht].
    rewrite (proj2 (rdz_lookup out (Z.of_nat i0) t)) by (rewrite Nat2Z.id; split; [lia|done]).
    simpl. pose proof (Hskip i0 t ltac:(lia) Ht) as Hsp. unfold is_special in Hsp.
    assert (resolve_specials hdr (n + fuel) (Z.of_nat i0 + 1) out
            = resolve_specials hdr fuel (Z.of_nat (i0 + S n)) out) as Hgo.
    { replace (Z.of_nat i0 + 1) with (Z.of_nat (S i0)) by lia.
      replace (i0 + S n)%nat with (S i0 + n)%nat by lia.
      apply IH; [|lia]. intros j t' Hj. apply Hskip. lia. }
    destruct (tok_type t =? TOK_VAL); simpl in *; [|done].
    destruct (tag t) as [tg|]; [|done].
    apply orb_false_iff in Hsp as [-> ->]. done.
Qed.

Lemma filter_init_postfix (strtod : string -> spec_float * nat * bool)
    (hdr : bcf_hdr_t) (str : string) (out : list token_t) :
  postfix_of strtod hdr str = Ok out ->
  is_ok (filter_init strtod hdr str)
  = is_ok (resolve_specials hdr (2 * length out + 2) 0 out).
Proof.
  unfold postfix_of, filter_init.
  destruct (filter_init_loop _ _ _ _) as [st| |]; simpl; [|done|done].
  intros ->. simpl. by destruct (resolve_specials _ _ _ _).
Qed.

(** X2.  [filter_init] accepts no expression in whose postfix form the
    first %TYPE or %FILTER token is directly followed by [==] or [!=]: this
    is the form with the literal written first, as in ['PASS'==%FILTER].
    The literal before the token is bound, the walk comes back to the
    token, finds the key of the literal gone, and stops with an error (or
    reads before the start of the tokens when there is no literal). *)
Theorem literal_first_is_rejected (strtod : string -> spec_float * nat * bool)
    (hdr : bcf_hdr_t) (str : string) (out : list token_t) (i : nat) (tok nxt : token_t) :
  postfix_of strtod hdr str = Ok out ->
  (forall j t, (j < i)%nat -> out !! j = Some t -> is_special t = false) ->
  out !! i = Some tok -> is_special tok = true ->
  out !! S i = Some nxt -> tok_type nxt = TOK_EQ \/ tok_type nxt = TOK_NE ->
  is_ok (filter_init strtod hdr str) = false.
Proof.
  intros Hpost Hfirst Htok Hsp Hnxt Hcmp.
  rewrite (filter_init_postfix _ _ _ _ Hpost).
  pose proof (lookup_lt_Some _ _ _ Hnxt) as Hlt.
  replace (2 * length out + 2)%nat with (i + (2 * length out + 2 - i))%nat by lia.
  change 0 with (Z.of_nat 0).
  rewrite resolve_specials_skips; [|intros j t Hj; apply Hfirst; lia|lia].
  by eapply resolve_specials_literal_first.
Qed.

Lemma literal_first_is_rejected_witness :
  is_ok (filter_init strtod_uint hdr2 "'PASS'==%FILTER") = false.
Proof.
  destruct (postfix_of strtod_uint hdr2 "'PASS'==%FILTER") as [out| |] eqn:Hout;
    [|vm_compute in Hout; discriminate..].
  eapply (literal_first_is_rejected strtod_uint hdr2 "'PASS'==%FILTER" out 1 _ _ Hout).
  - vm_compute in Hout. injection Hout as <-.
    intros [|j] t Hj Ht; [|lia]. by injection Ht as <-.
  - vm_compute in Hout. injection Hout as <-. reflexivity.
  - reflexivity.
  - vm_compute in Hout. injection Hout as <-. reflexivity.
  - by left.
Defined.

(** X3.  When the first token of the postfix form is a %TYPE or %FILTER
    token and the second is [==] or [!=], as for the expression
    [%FILTER==], the walk of [filter_init] looks for the literal before the
    first token: it reads [out[-1]], before the start of the array of
    tokens. *)
Theorem special_first_reads_before_start (strtod : string -> spec_float * nat * bool)
    (hdr : bcf_hdr_t) (str : string) (out : list token_t) (tok nxt : token_t) :
  postfix_of strtod hdr str = Ok out ->
  out !! 0%nat = Some tok -> is_special tok = true ->
  out !! 1%nat = Some nxt -> tok_type nxt = TOK_EQ \/ tok_type nxt = TOK_NE ->
  filter_init strtod hdr str = Undef "read before the start of an array".
Proof.
  intros Hpost Htok Hsp Hnxt Hcmp. apply cmp_type_test in Hcmp.
  unfold postfix_of in Hpost. unfold filter_init.
  destruct (filter_init_loop _ _ _ _) as [st| |]; simpl in *; [|done|done].
  rewrite Hpost. simpl.
  pose proof (lookup_lt_Some _ _ _ Hnxt) as Hlt.
  replace (length out + (length out + 0) + 2)%nat with (S (2 * length out + 1)) by lia.
  simpl. destruct (Z.ltb_spec 0 (Z.of_nat (length out))) as [_|]; [|lia]. simpl.
  rewrite (proj2 (rdz_lookup out 0 tok)) by done. simpl.
  unfold is_special in Hsp. apply andb_true_iff in Hsp as [-> Hsp]. simpl.
  destruct (tag tok) as [tg|]; [|done].
  assert (literal_index out 0 = Ok (-1)) as Hj.
  { unfold literal_index. change (0 + 1) with 1. change (0 - 1) with (-1).
    destruct (Z.eqb_spec 1 (Z.of_nat (length out))); [lia|].
    rewrite (proj2 (rdz_lookup out 1 nxt)) by done. unfold bind. by rewrite Hcmp. }
  destruct (strcmp tg "%TYPE" =? 0); [by rewrite Hj|].
  simpl in Hsp. by rewrite Hsp, Hj.
Qed.

Lemma special_first_reads_before_start_witness :
  filter_init strtod_uint hdr2 "%FILTER==" = Undef "read before the start of an array".
Proof.
  eapply (special_first_reads_before_start strtod_uint hdr2 "%FILTER==").
  - vm_compute; reflexivity.
  - reflexivity.
  - reflexivity.
  - reflexivity.
  - by left.
Defined.

(** ** What [filter_init] hands over *)

Lemma filters_init1_mask (strtod : string -> spec_float * nat * bool)
    (hdr : bcf_hdr_t) (max_unpack : Z) (str : string) (len : nat) (inside_func : Z)
    (tok tok' : token_t) (mu : Z) :
  filters_init1 strtod hdr max_unpack str len inside_func tok = Ok (mu, tok') ->
  pass_samples tok' = pass_samples tok /\ tok_type tok' = TOK_VAL.
Proof.
  unfold filters_init1, bind_format, store_value, wr, error, bind. intros H.
  repeat case_match; simplify_eq; cbn; rewrite ?hts_expand_mask; split;
    try reflexivity.
  unfold hts_expand. by destruct (_ <? _)%nat.
Qed.

(** The kinds of token the lexer returns. *)
Lemma filters_next_token_kinds (strtod : string -> spec_float * nat * bool)
    (s : string) (ret : Z) (tmp : string) (len : nat) :
  filters_next_token strtod s = (ret, tmp, len) ->
  ret = -1 \/ ret = TOK_VAL \/ ret = TOK_LFT \/ ret = TOK_RGT
  \/ is_operator ret || is_func ret = true.
Proof.
  unfold filters_next_token. intros H.
  repeat case_match; simplify_eq; auto 10.
Qed.

Ltac split_kinds H :=
  unfold is_operator, is_or, is_and, is_arith, is_cmp, is_func in H;
  repeat match type of H with
         | (_ || _) = true => apply orb_true_iff in H as [H|H]
         end;
  apply Z.eqb_eq in H.

Lemma op_prec_at_operator (o : Z) :
  is_operator o || is_func o = true -> exists p, op_prec_at o = Ok p /\ 2 <= p.
Proof. intros H. split_kinds H; subst o; eexists; (split; [reflexivity|lia]). Qed.

Section CompiledTokens.

(** A property of tokens that depends on their type and their mask only,
    and holds of a fresh value token and of a fresh operator token. *)
Variable P : token_t -> Prop.
Hypothesis P_ext : forall t t',
  tok_type t' = tok_type t -> pass_samples t' = pass_samples t -> P t -> P t'.
Hypothesis P_val : forall t, tok_type t = TOK_VAL -> pass_samples t = [] -> P t.
Hypothesis P_op : forall o, is_operator o || is_func o = true -> P (op_token o).

Lemma pop_to_bracket_keeps (ops ops' : list Z) (out out' : list token_t) :
  Forall valid_op ops -> Forall P out ->
  pop_to_bracket ops out = Ok (ops', out') ->
  Forall valid_op ops' /\ Forall P out'.
Proof.
  revert out. induction ops as [|o rest IH]; intros out Hops Hout; simpl; [done|].
  apply Forall_cons in Hops as [Ho Hrest].
  destruct (Z.eqb_spec o TOK_LFT) as [->|Hne].
  - intros H. by simplify_eq.
  - apply IH; [done|]. apply Forall_app. split; [done|].
    constructor; [|done]. apply P_op. by destruct Ho.
Qed.

Lemma pop_higher_keeps (ret : Z) (ops ops' : list Z) (out out' : list token_t)
    (nfunc nfunc' : Z) :
  is_operator ret || is_func ret = true ->
  Forall valid_op ops -> Forall P out ->
  pop_higher ret ops out nfunc = Ok (ops', out', nfunc') ->
  Forall valid_op ops' /\ Forall P out'.
Proof.
  intros Hret. revert out nfunc.
  induction ops as [|o rest IH]; intros out nfunc Hops Hout; simpl.
  - intros H. by simplify_eq.
  - destruct (op_prec_at_operator ret Hret) as (p & -> & Hp). simpl.
    pose proof Hops as Hops'. apply Forall_cons in Hops' as [Ho Hrest].
    destruct (op_prec_at o) as [q| |] eqn:Hq; simpl; [|done|done].
    destruct (Z.ltb_spec p q).
    + apply IH; [done|]. apply Forall_app. split; [done|].
      constructor; [|done]. apply P_op.
      destruct Ho as [->|Ho]; [|done]. vm_compute in Hq. simplify_eq. lia.
    + intros H'. by simplify_eq.
Qed.

Lemma pop_all_keeps (ops : list Z) (out out' : list token_t) :
  Forall valid_op ops -> Forall P out -> pop_all ops out = Ok out' -> Forall P out'.
Proof.
  revert out. induction ops as [|o rest IH]; intros out Hops Hout; simpl.
  - intros H. by simplify_eq.
  - apply Forall_cons in Hops as [Ho Hrest].
    destruct ((o =? TOK_LFT) || (o =? TOK_RGT)) eqn:Hb; [done|].
    apply IH; [done|]. apply Forall_app. split; [done|].
    constructor; [|done]. apply P_op.
    destruct Ho as [->|Ho]; [done|done].
Qed.

Lemma filter_init_loop_keeps (strtod : string -> spec_float * nat * bool)
    (hdr : bcf_hdr_t) (fuel : nat) (st st' : init_state) :
  Forall valid_op (i_ops st) -> Forall P (i_out st) ->
  filter_init_loop strtod hdr fuel st = Ok st' ->
  Forall valid_op (i_ops st') /\ Forall P (i_out st').
Proof.
  revert st. induction fuel as [|fuel IH]; intros st Hops Hout; [done|]. simpl.
  destruct (String.length (i_tmp st) =? 0)%nat; [intros H; by simplify_eq|].
  destruct (filters_next_token strtod (i_tmp st)) as [[ret tmp] len] eqn:E.
  apply filters_next_token_kinds in E.
  destruct (Z.eqb_spec ret (-1)) as [|Hm]; [done|].
  destruct (Z.eqb_spec ret TOK_LFT) as [->|Hl].
  { apply IH; simpl; [|done]. constructor; [by left|done]. }
  destruct (Z.eqb_spec ret TOK_RGT) as [->|Hr].
  { intros H. apply bind_ok in H as ([ops out] & Hpop & H).
    apply pop_to_bracket_keeps in Hpop as [? ?]; [|done..]. by apply IH in H. }
  destruct (Z.eqb_spec ret TOK_VAL) as [->|Hv]; simpl.
  - destruct (len =? 0)%nat.
    + destruct (negb (String.length tmp =? 0)%nat && negb (isspace (str_at tmp 0)));
        [done|]. intros H. by simplify_eq.
    + intros H. apply bind_ok in H as ([mu tok] & Hinit & H).
      apply filters_init1_mask in Hinit as [Hmask Hty].
      apply IH in H; [done|done|]. simpl. apply Forall_app. split; [done|].
      constructor; [|done]. by apply P_val.
  - assert (is_operator ret || is_func ret = true) as Hret.
    { destruct E as [?|[?|[?|[?|?]]]]; done. }
    intros H. apply bind_ok in H as ([[[ret' ops] out] nfunc] & Hpop & H).
    apply IH in H; [done| |]; simpl.
    + destruct ((ret =? TOK_SUB) && negb (i_last_op st =? TOK_VAL)
                && negb (i_last_op st =? TOK_RGT)).
      * simplify_eq. constructor; [by right|done].
      * apply bind_ok in Hpop as ([[ops1 out1] nfunc1] & Hpop & ?). simplify_eq.
        apply pop_higher_keeps in Hpop as [? ?]; [|done..].
        constructor; [by right|done].
    + destruct ((ret =? TOK_SUB) && negb (i_last_op st =? TOK_VAL)
                && negb (i_last_op st =? TOK_RGT)).
      * simplify_eq. apply Forall_app. split; [done|]. constructor; [|done].
        by apply P_val.
      * apply bind_ok in Hpop as ([[ops1 out1] nfunc1] & Hpop & ?). simplify_eq.
        by apply pop_higher_keeps in Hpop as [? ?].
Qed.

Lemma resolve_specials_keeps (hdr : bcf_hdr_t) (fuel : nat) (i : Z)
    (out out' : list token_t) :
  Forall P out -> resolve_specials hdr fuel i out = Ok out' -> Forall P out'.
Proof.
  revert i out. induction fuel as [|fuel IH]; intros i out Hout; [done|]. simpl.
  destruct (negb (i <? Z.of_nat (length out))); [intros H; by simplify_eq|].
  intros H. apply bind_ok in H as (tok & Htok & H).
  apply rdz_lookup in Htok as [_ Htok].
  destruct (negb (tok_type tok =? TOK_VAL)); [by eapply IH|].
  destruct (tag tok) as [tg|]; [|by eapply IH].
  assert (forall j (lit lit' : token_t) out1,
            rdz out j = Ok lit -> tok_type lit' = tok_type lit ->
            pass_samples lit' = pass_samples lit ->
            wrz out j lit' = Ok out1 -> Forall P out1) as Hwr.
  { intros j lit lit' out1 Hlit Hty Hmask Hw.
    apply rdz_lookup in Hlit as [_ Hlit]. apply wrz_insert in Hw as (_ & _ & ->).
    apply Forall_insert; [done|]. eapply P_ext; [done..|].
    rewrite Forall_forall in Hout. apply Hout. by eapply list_elem_of_lookup_2. }
  destruct (strcmp tg "%TYPE" =? 0).
  - apply bind_ok in H as (j & Hj & H). apply bind_ok in H as (lit & Hlit & H).
    destruct (if tok_type lit =? TOK_VAL then key lit else None) as [k|]; [|done].
    destruct (type_code k) as [code|]; [|done].
    apply bind_ok in H as (out1 & Hw & H).
    eapply IH; [|done]. refine (Hwr j lit _ out1 Hlit _ _ Hw); reflexivity.
  - destruct (strcmp tg "%FILTER" =? 0); [|by eapply IH].
    apply bind_ok in H as (j & Hj & H). apply bind_ok in H as (lit & Hlit & H).
    destruct (if tok_type lit =? TOK_VAL then key lit else None) as [k|]; [|done].
    apply bind_ok in H as (lit1 & Hlit1 & H).
    apply bind_ok in H as (out1 & Hw & H).
    apply bind_ok in H as (tok1 & Htok1 & H).
    apply bind_ok in H as (out2 & Hw2 & H).
    eapply IH; [|done].
    assert (Forall P out1) as Hout1.
    { refine (Hwr j lit _ out1 Hlit _ _ Hw).
      - destruct (negb (strcmp "." k =? 0)); [|by simplify_eq].
        destruct (negb (bcf_hdr_idinfo_exists hdr BCF_HL_FLT _)); by simplify_eq.
      - destruct (negb (strcmp "." k =? 0)); [|by simplify_eq].
        destruct (negb (bcf_hdr_idinfo_exists hdr BCF_HL_FLT _)); by simplify_eq. }
    apply rdz_lookup in Htok1 as [_ Htok1]. apply wrz_insert in Hw2 as (_ & _ & ->).
    apply Forall_insert; [done|]. eapply (P_ext tok1); [done..|].
    rewrite Forall_forall in Hout1. apply Hout1. by eapply list_elem_of_lookup_2.
Qed.

(** The tokens of a compiled filter are tokens with the property, passed
    through the last loop of [filter_init]. *)
Lemma filter_init_keeps (strtod : string -> spec_float * nat * bool)
    (hdr0 : bcf_hdr_t) (str0 : string) (f : filter_t) :
  filter_init strtod hdr0 str0 = Ok f ->
  exists out, Forall P out
    /\ filters f = map (finish_token (flt_nsamples f)) out
    /\ hdr f = hdr0
    /\ flt_nsamples f
       = (if negb (Z.land (max_unpack f) BCF_UN_FMT =? 0) then bcf_hdr_nsamples hdr0 else 0).
Proof.
  unfold filter_init. intros H.
  apply bind_ok in H as (st & Hloop & H).
  apply bind_ok in H as (out & Hpop & H).
  apply bind_ok in H as (out' & Hwalk & H). simplify_eq. simpl.
  apply filter_init_loop_keeps in Hloop as [Hops Hout]; [|done..].
  apply (pop_all_keeps _ _ _ Hops Hout) in Hpop.
  apply (resolve_specials_keeps _ _ _ _ _ Hpop) in Hwalk.
  by exists out'.
Qed.

End CompiledTokens.

Lemma finish_token_buffers (N : Z) (t : token_t) :
  pass_samples t = [] ->
  (1 <= length (values (finish_token N t)))%nat
  /\ pass_samples (finish_token N t) = repeat 1 (Z.to_nat N).
Proof.
  intros Hmask. unfold finish_token.
  set (t1 := if tok_type t =? TOK_MAX then _ else _).
  assert (pass_samples t1 = []) as Hmask1.
  { subst t1. by repeat case_match. }
  destruct (hts_expand_fields 1 t1) as (_ & _ & Hm & _ & _ & _ & _ & Hlen & _).
  destruct (Z.eqb_spec N 0) as [->|]; simpl.
  - split; [exact Hlen|]. by rewrite Hm.
  - split; [exact Hlen|done].
Qed.

(** X4.  The buffers of a compiled filter: whatever the expression, every
    token that [filter_init] hands over has one value cell at least and a
    mask of one cell per sample of the filter, all set to 1; the filter
    keeps the header, and its sample count is the header's when its
    [max_unpack] has the FORMAT bit and 0 when it has not. *)
Theorem filter_init_buffers (strtod : string -> spec_float * nat * bool)
    (hdr0 : bcf_hdr_t) (str0 : string) (f : filter_t) :
  filter_init strtod hdr0 str0 = Ok f ->
  Forall (fun t => (1 <= length (values t))%nat
                   /\ pass_samples t = repeat 1 (Z.to_nat (flt_nsamples f)))
    (filters f)
  /\ initialised f = true
  /\ hdr f = hdr0
  /\ flt_nsamples f
     = (if Z.land (max_unpack f) BCF_UN_FMT =? 0 then 0 else bcf_hdr_nsamples hdr0).
Proof.
  intros H.
  apply (filter_init_keeps (fun t => pass_samples t = [])) in H
    as (out & Hout & Hf & Hh & Hn).
  - assert (Forall (fun t => (1 <= length (values t))%nat
                     /\ pass_samples t = repeat 1 (Z.to_nat (flt_nsamples f)))
              (filters f)) as Hall.
    { rewrite Hf. apply Forall_fmap. eapply Forall_impl; [exact Hout|].
      intros t Ht. by apply finish_token_buffers. }
    split; [exact Hall|]. split; [|split; [done|]].
    + unfold initialised. apply forallb_forall. intros t Ht.
      rewrite Forall_forall in Hall. apply list_elem_of_In in Ht.
      destruct (Hall t Ht) as [Hv Hm]. rewrite Hm, repeat_length.
      apply andb_true_iff. split; [by apply Nat.leb_le|by apply Nat.eqb_eq].
    + rewrite Hn. by destruct (Z.land (max_unpack f) BCF_UN_FMT =? 0).
  - intros t t' _ Hm Ht. by rewrite Hm.
  - done.
  - done.
Qed.

Lemma filter_init_buffers_witness :
  initialised (compiled hdr2 "%QUAL>10 | FMT/GQ>10") = true.
Proof.
  refine (proj1 (proj2 (filter_init_buffers strtod_uint hdr2 "%QUAL>10 | FMT/GQ>10"
                          (compiled hdr2 "%QUAL>10 | FMT/GQ>10") _))).
  vm_compute; reflexivity.
Defined.

Lemma finish_token_kind (N : Z) (t : token_t) :
  tok_type t = TOK_VAL \/ is_operator (tok_type t) || is_func (tok_type t) = true ->
  token_kind_ok (finish_token N t) = true.
Proof.
  intros H. unfold finish_token.
  assert (forall t', tok_type (if negb (N =? 0)
                               then set_pass_samples (repeat 1 (Z.to_nat N)) (hts_expand 1 t')
                               else hts_expand 1 t') = tok_type t'
                     /\ setter (if negb (N =? 0)
                               then set_pass_samples (repeat 1 (Z.to_nat N)) (hts_expand 1 t')
                               else hts_expand 1 t') = setter t') as Hfin.
  { intros t'. unfold hts_expand. by repeat case_match. }
  unfold token_kind_ok.
  destruct (Z.eqb_spec (tok_type t) TOK_MAX) as [Hty|Hmax].
  { destruct (Hfin (set_tok_type TOK_FUNC (set_setter (Some ptr_set_max) t))) as [-> ->].
    reflexivity. }
  destruct (Z.eqb_spec (tok_type t) TOK_MIN) as [Hty|Hmin].
  { destruct (Hfin (set_tok_type TOK_FUNC (set_setter (Some ptr_set_min) t))) as [-> ->].
    reflexivity. }
  destruct (Z.eqb_spec (tok_type t) TOK_AVG) as [Hty|Havg].
  { destruct (Hfin (set_tok_type TOK_FUNC (set_setter (Some ptr_set_avg) t))) as [-> ->].
    reflexivity. }
  destruct (Hfin t) as [-> _].
  destruct H as [->|H]; [done|].
  apply orb_true_iff in H as [->|H]; [by rewrite orb_true_r|].
  unfold is_func in H. split_kinds H; done.
Qed.

(** X5.  The tokens of a compiled filter: whatever the expression, a
    program that [filter_init] hands over holds value tokens, binary
    operators and function tokens only, and every function token carries
    [set_max], [set_min] or [set_avg].  No bracket and no function name is
    left in it. *)
Theorem filter_init_token_kinds (strtod : string -> spec_float * nat * bool)
    (hdr0 : bcf_hdr_t) (str0 : string) (f : filter_t) :
  filter_init strtod hdr0 str0 = Ok f ->
  forallb token_kind_ok (filters f) = true.
Proof.
  intros H.
  apply (filter_init_keeps
           (fun t => tok_type t = TOK_VAL
                     \/ is_operator (tok_type t) || is_func (tok_type t) = true)) in H
    as (out & Hout & Hf & _).
  - rewrite Hf. apply forallb_forall. intros t Ht.
    apply in_map_iff in Ht as (t0 & <- & Ht0).
    apply finish_token_kind. rewrite Forall_forall in Hout.
    apply Hout. by apply list_elem_of_In.
  - intros t t' Hty _ Ht. by rewrite Hty.
  - intros t Hty _. by left.
  - intros o Ho. by right.
Qed.

Lemma filter_init_token_kinds_witness :
  forallb token_kind_ok (filters (compiled hdr2 "%MAX(GQ)>10 & (DP+1)*2<=%QUAL")) = true.
Proof.
  apply (filter_init_token_kinds strtod_uint hdr2 "%MAX(GQ)>10 & (DP+1)*2<=%QUAL").
  vm_compute; reflexivity.
Defined.

(** ** The literals of %TYPE *)

Lemma nat_of_ascii_eq (c d : ascii) :
  (nat_of_ascii c <? nat_of_ascii d)%nat = false ->
  (nat_of_ascii d <? nat_of_ascii c)%nat = false -> c = d.
Proof.
  intros H1 H2. apply Nat.ltb_ge in H1, H2.
  rewrite <- (ascii_nat_embedding c), <- (ascii_nat_embedding d). f_equal. lia.
Qed.

Lemma strncmp_eq (n : nat) (a b : string) :
  (String.length a < n)%nat \/ (String.length b < n)%nat ->
  strncmp a b n = 0 <-> a = b.
Proof.
  revert a b. induction n as [|n IH]; intros a b Hn; [lia|].
  destruct a as [|c a], b as [|d b]; simpl; try (split; [lia|done]); [done|].
  destruct (nat_of_ascii c <? nat_of_ascii d)%nat eqn:E1.
  { split; [lia|]. intros H. simplify_eq. rewrite Nat.ltb_irrefl in E1. done. }
  destruct (nat_of_ascii d <? nat_of_ascii c)%nat eqn:E2.
  { split; [lia|]. intros H. simplify_eq. rewrite Nat.ltb_irrefl in E2. done. }
  rewrite (nat_of_ascii_eq c d E1 E2). rewrite IH by (simpl in Hn; lia).
  split; [by intros ->|]. intros H. by simplify_eq.
Qed.

Lemma strcmp_eqb (a b : string) : (strcmp a b =? 0) = String.eqb a b.
Proof.
  destruct (String.eqb_spec a b) as [->|Hne].
  - apply Z.eqb_eq. apply strncmp_eq; [lia|done].
  - apply Z.eqb_neq. intros H. apply Hne. apply strncmp_eq in H; [done|lia].
Qed.

Lemma tolower_idem (c : ascii) : tolower (tolower c) = tolower c.
Proof. destruct c as [[] [] [] [] [] [] [] []]; reflexivity. Qed.

Lemma string_map_tolower_idem (s : string) :
  string_map tolower (string_map tolower s) = string_map tolower s.
Proof. induction s as [|c s IH]; simpl; [done|]. by rewrite tolower_idem, IH. Qed.

(** X6.  The literal of %TYPE is matched without regard to case: the chain
    of [strcasecmp] tests of [filter_init] is the look-up of the literal,
    put in lower case, in the table snp, snps, indel, indels, mnp, mnps,
    other, ref; so two literals that differ in case only are given the
    same type, and any other literal is rejected. *)
Theorem type_code_caseless (k : string) :
  type_code k = type_of_name (string_map tolower k)
  /\ type_code (string_map tolower k) = type_code k.
Proof.
  assert (forall s, type_code s = type_of_name (string_map tolower s)) as H.
  { intros s. unfold type_code, type_of_name, strcasecmp.
    rewrite !strcmp_eqb. reflexivity. }
  split; [apply H|]. rewrite (H (string_map tolower k)), (H k).
  by rewrite string_map_tolower_idem.
Qed.

(** ** String literals *)

Lemma span_len_append (stop : ascii -> bool) (body : string) (q : ascii) (rest : string) :
  str_forall (fun c => negb (stop c)) body = true -> stop q = true ->
  span_len stop (body ++ String q rest) = String.length body.
Proof.
  intros Hbody Hq. induction body as [|c body IH]; simpl in *.
  - by rewrite Hq.
  - apply andb_true_iff in Hbody as [Hc Hbody]. apply negb_true_iff in Hc.
    rewrite Hc. by rewrite IH.
Qed.

Lemma str_at_append (body : string) (q : ascii) (rest : string) :
  str_at (body ++ String q rest) (String.length body) = q.
Proof. unfold str_at. induction body as [|c body IH]; simpl; [done|apply IH]. Qed.

Lemma str_take_append (body rest : string) :
  str_take (String.length body) (body ++ rest) = body.
Proof.
  induction body as [|c body IH]; simpl; [by destruct rest|]. by rewrite IH.
Qed.

(** X7.  A quoted literal goes through the lexer and the binder whole: for
    either quote character and every body that does not hold that quote
    (spaces and operator characters are allowed in it), the lexer returns
    a value lexeme that spans the two quotes, and [filters_init1] makes of
    it a string constant whose key is the body and whose value cell holds
    the length of the body. *)
Theorem quoted_literal_round_trip (strtod : string -> spec_float * nat * bool)
    (hdr : bcf_hdr_t) (max_unpack inside_func : Z) (q : ascii) (body rest : string) :
  is_quote q = true ->
  str_forall (fun c => negb (Ascii.eqb q c)) body = true ->
  let s := String q (body ++ String q rest) in
  filters_next_token strtod s = (TOK_VAL, s, S (S (String.length body)))
  /\ exists tok,
       filters_init1 strtod hdr max_unpack s (S (S (String.length body))) inside_func token0
       = Ok (max_unpack, tok)
       /\ key tok = Some body /\ is_str tok = 1 /\ tok_type tok = TOK_VAL
       /\ setter tok = None /\ comparator tok = None /\ tag tok = None
       /\ values tok = [Fval (float_of_int (Z.of_nat (String.length body)))].
Proof.
  intros Hq Hbody s.
  assert (span_len (Ascii.eqb q) (body ++ String q rest) = String.length body) as Hspan.
  { apply span_len_append; [done|apply Ascii.eqb_refl]. }
  assert (q = dquote \/ q = squote) as Hcase.
  { unfold is_quote in Hq. apply orb_true_iff in Hq as [Hq|Hq];
      apply Ascii.eqb_eq in Hq; auto. }
  split.
  - assert (skip_space s = s) as Hsk by (destruct Hcase as [-> | ->]; reflexivity).
    assert (str_at s 0 = q) as H0 by reflexivity.
    assert (isdigit q || ch q "." = false) as F1
      by (destruct Hcase as [-> | ->]; reflexivity).
    assert (forall p, str_at p 0 <> q -> str_at p 0 <> zero -> has_prefix s p = false) as F2.
    { intros p Hp Hz. unfold has_prefix. destruct p as [|d p]; [by destruct Hz|].
      unfold str_at in Hp. simpl in *.
      destruct (nat_of_ascii q <? nat_of_ascii d)%nat eqn:E1; [done|].
      destruct (nat_of_ascii d <? nat_of_ascii q)%nat eqn:E2; [done|].
      destruct Hp. symmetry. by apply nat_of_ascii_eq. }
    assert (span_len ends_name s = 0%nat) as F3.
    { subst s. simpl. unfold ends_name. by rewrite Hq. }
    unfold filters_next_token. rewrite Hsk. cbv zeta. rewrite H0, F1.
    rewrite !F2 by (destruct Hcase as [-> | ->]; done).
    cbv iota. simpl str_drop. rewrite F3. simpl Nat.add. simpl Nat.ltb. cbv iota.
    rewrite Hq, Hspan.
    replace (str_at s (S (String.length body))) with q.
    + destruct Hcase as [-> | ->]; reflexivity.
    + symmetry. unfold str_at. simpl. apply str_at_append.
  - unfold filters_init1.
    assert (str_at s 0 = q) as H0 by reflexivity. rewrite H0, Hq.
    assert (str_at s (S (S (String.length body)) - 1) = q) as H1.
    { subst s. replace (S (S (String.length body)) - 1)%nat with (S (String.length body))
        by lia.
      unfold str_at. simpl. apply str_at_append. }
    rewrite H1, Ascii.eqb_refl. simpl negb. cbv iota.
    replace (S (S (String.length body)) - 2)%nat with (String.length body) by lia.
    subst s. simpl str_drop. rewrite str_take_append.
    eexists. split; [reflexivity|]. cbn.
    repeat split.
    replace (Z.of_nat (S (S (String.length body))) - 2)
      with (Z.of_nat (String.length body)) by lia.
    reflexivity.
Qed.

Lemma quoted_literal_round_trip_witness :
  filters_next_token strtod_uint "'a b>c' == x"
  = (TOK_VAL, "'a b>c' == x"%string, 7%nat).
Proof.
  exact (proj1 (quoted_literal_round_trip strtod_uint hdr2 1 0 squote "a b>c" " == x"
                  eq_refl eq_refl)).
Defined.

(** ** Binding a tag to the header *)

Lemma str_take_all (s : string) : str_take (String.length s) s = s.
Proof. induction s as [|c s IH]; simpl; [done|]. by rewrite IH. Qed.

Lemma strncmp_zero (s1 s2 : string) : strncmp s1 s2 0 = 0.
Proof. by destruct s1. Qed.

Lemma has_prefix_append (p s : string) : has_prefix (p ++ s) p = true.
Proof.
  unfold has_prefix. induction p as [|c p IH]; simpl; [by rewrite strncmp_zero|].
  by rewrite Nat.ltb_irrefl.
Qed.

(** X8.  [FMT/name], for every header and every name: when the name is in
    the dictionary of the header, [filters_init1] looks it up whole, needs
    it declared as a FORMAT field with Number=1, and binds the setter of
    its type (the string flag is set for a String field); FORMAT data is
    asked of the reader.  A name without a FORMAT declaration, an array
    and an unknown type are errors. *)
Theorem fmt_prefix_binds (strtod : string -> spec_float * nat * bool)
    (hdr : bcf_hdr_t) (max_unpack inside_func : Z) (name : string) (id : Z) :
  bcf_hdr_id2int hdr name = id -> 0 <= id ->
  filters_init1 strtod hdr max_unpack ("FMT/" ++ name) (4 + String.length name)
    inside_func token0
  = match hdr_idinfo hdr BCF_HL_FMT id with
    | None => Fatal "No such FORMAT field"
    | Some d =>
        if negb (id_number d =? 1) then Fatal "Error: Arrays must be subscripted"
        else
          match format_setter_of (id_type d) with
          | Some (f, s) =>
              Ok (Z.lor max_unpack BCF_UN_FMT,
                  set_tag (Some name)
                    (set_is_str s (set_setter (Some f) (set_hdr_id id fresh_value))))
          | None => Fatal "FIXME"
          end
    end.
Proof.
  intros Hid Hpos. unfold filters_init1.
  change (is_quote (str_at ("FMT/" ++ name) 0)) with false. cbv iota.
  rewrite has_prefix_append. simpl orb. cbv iota.
  change (str_drop 4 ("FMT/" ++ name)) with name.
  replace (4 + String.length name - 4)%nat with (String.length name) by lia.
  rewrite str_take_all. cbn -[Z.lor bcf_hdr_id2int hdr_idinfo]. rewrite Hid.
  destruct (Z.leb_spec 0 id) as [_|]; [|lia].
  unfold bind_format, bcf_hdr_idinfo_exists, bcf_hdr_id2number, bcf_hdr_id2type.
  cbn -[Z.lor bcf_hdr_id2int hdr_idinfo].
  destruct (hdr_idinfo hdr BCF_HL_FMT id) as [d|]; [|reflexivity]. simpl negb at 1.
  cbv iota. destruct (id_number d =? 1); [|reflexivity]. simpl negb. cbv iota.
  unfold format_setter_of.
  destruct (id_type d =? BCF_HT_INT); [reflexivity|].
  destruct (id_type d =? BCF_HT_REAL); [reflexivity|].
  destruct (id_type d =? BCF_HT_STR); reflexivity.
Qed.

Lemma fmt_prefix_binds_witness :
  filters_init1 strtod_uint hdr2 1 "FMT/GQ" 6 0 token0
  = Ok (9, set_tag (Some "GQ"%string)
             (set_is_str 0 (set_setter (Some ptr_filters_set_format_int)
                (set_hdr_id 2 fresh_value)))).
Proof.
  exact (fmt_prefix_binds strtod_uint hdr2 1 0 "GQ" 2 eq_refl ltac:(lia)).
Defined.

(** X9.  [INFO/name], for every header and every name: when the name is in
    the dictionary of the header, [filters_init1] needs it declared as an
    INFO field; a Flag is bound to [filters_set_info_flag] whatever its
    Number, any other field must have Number=1 and is bound to
    [filters_set_info], with the string flag set for a String field; INFO
    data is asked of the reader. *)
Theorem info_prefix_binds (strtod : string -> spec_float * nat * bool)
    (hdr : bcf_hdr_t) (max_unpack inside_func : Z) (name : string) (id : Z) :
  bcf_hdr_id2int hdr name = id -> 0 <= id ->
  filters_init1 strtod hdr max_unpack ("INFO/" ++ name) (5 + String.length name)
    inside_func token0
  = match hdr_idinfo hdr BCF_HL_INFO id with
    | None => Fatal "No such INFO field"
    | Some d =>
        if id_type d =? BCF_HT_FLAG then
          Ok (Z.lor max_unpack BCF_UN_INFO,
              set_tag (Some name)
                (set_setter (Some ptr_filters_set_info_flag) (set_hdr_id id fresh_value)))
        else if negb (id_number d =? 1) then Fatal "Error: Arrays must be subscripted"
        else
          Ok (Z.lor max_unpack BCF_UN_INFO,
              set_tag (Some name)
                (set_setter (Some ptr_filters_set_info)
                   (if id_type d =? BCF_HT_STR
                    then set_is_str 1 (set_hdr_id id fresh_value)
                    else set_hdr_id id fresh_value)))
    end.
Proof.
  intros Hid Hpos. unfold filters_init1.
  change (is_quote (str_at ("INFO/" ++ name) 0)) with false. cbv iota.
  change (has_prefix ("INFO/" ++ name) "FMT/") with false.
  change (strncmp ("INFO/" ++ name) "FORMAT/" 4 =? 0) with false.
  simpl orb. cbv iota. rewrite has_prefix_append.
  change (str_drop 5 ("INFO/" ++ name)) with name.
  replace (5 + String.length name - 5)%nat with (String.length name) by lia.
  rewrite str_take_all. cbn -[Z.lor bcf_hdr_id2int hdr_idinfo]. rewrite Hid.
  destruct (Z.leb_spec 0 id) as [_|]; [|lia].
  unfold bcf_hdr_idinfo_exists, bcf_hdr_id2number, bcf_hdr_id2type.
  cbn -[Z.lor bcf_hdr_id2int hdr_idinfo].
  destruct (hdr_idinfo hdr BCF_HL_INFO id) as [d|] eqn:Hd; [|reflexivity].
  simpl negb at 1. cbv iota. destruct (id_type d =? BCF_HT_FLAG); [reflexivity|].
  destruct (id_type d =? BCF_HT_STR); cbn -[Z.lor bcf_hdr_id2int hdr_idinfo];
    rewrite ?Hd; destruct (id_number d =? 1); reflexivity.
Qed.

Lemma info_prefix_binds_witness :
  filters_init1 strtod_uint hdr2 1 "INFO/DP" 7 0 token0
  = Ok (5, set_tag (Some "DP"%string)
             (set_setter (Some ptr_filters_set_info) (set_hdr_id 1 fresh_value))).
Proof.
  exact (info_prefix_binds strtod_uint hdr2 1 0 "DP" 1 eq_refl ltac:(lia)).
Defined.

(** X10.  The three special names are recognised by as many characters as
    the lexeme has: [filters_init1] compares the lexeme with %QUAL, %TYPE
    and %FILTER over the length of the lexeme only, so every lexeme that
    is a start of %QUAL (even [%] alone) is bound like %QUAL, every start
    of %TYPE from [%T] on like %TYPE, and every start of %FILTER from [%F]
    on like %FILTER, whatever follows the lexeme. *)
Theorem special_names_by_prefix (strtod : string -> spec_float * nat * bool)
    (hdr : bcf_hdr_t) (max_unpack inside_func : Z) (rest : string) :
  Forall (fun n =>
            filters_init1 strtod hdr max_unpack (str_take n "%QUAL" ++ rest) n
              inside_func token0
            = Ok (max_unpack,
                  set_tag (Some "%QUAL"%string)
                    (set_setter (Some ptr_filters_set_qual) fresh_value)))
    [1; 2; 3; 4; 5]%nat
  /\ Forall (fun n =>
            filters_init1 strtod hdr max_unpack (str_take n "%TYPE" ++ rest) n
              inside_func token0
            = Ok (max_unpack,
                  set_tag (Some "%TYPE"%string)
                    (set_setter (Some ptr_filters_set_type) fresh_value)))
    [2; 3; 4; 5]%nat
  /\ Forall (fun n =>
            filters_init1 strtod hdr max_unpack (str_take n "%FILTER" ++ rest) n
              inside_func token0
            = Ok (Z.lor max_unpack BCF_UN_FLT,
                  set_tag (Some "%FILTER"%string)
                    (set_comparator (Some ptr_filters_cmp_filter) fresh_value)))
    [2; 3; 4; 5; 6; 7]%nat.
Proof.
  repeat split; repeat constructor;
    unfold filters_init1, has_prefix; cbn -[Z.lor]; rewrite ?strncmp_zero; reflexivity.
Qed.

(** ** Subscripts of INFO vectors *)

Lemma vector_end_scan {A} (p : list A) (is_vector_end : A -> bool) (k i : nat) (e : bool) :
  (i + k <= length p)%nat ->
  for_from i k
    (fun j (e : bool) => if e then Ok e else let* x := rd p j in Ok (is_vector_end x)) e
  = Ok (e || existsb is_vector_end (take k (drop i p))).
Proof.
  revert i e. induction k as [|k IH]; intros i e Hlen; simpl.
  - by rewrite orb_false_r.
  - destruct (lookup_lt_is_Some_2 p i ltac:(lia)) as [x Hx].
    rewrite (drop_S _ _ _ Hx). simpl.
    destruct e; simpl.
    + by rewrite IH by lia.
    + rewrite (rd_lookup _ _ _ Hx). simpl. by rewrite IH by lia.
Qed.

Lemma existsb_take_map {A B} (f : B -> bool) (g : A -> B) (n : nat) (l : list A) :
  existsb f (take n (map g l)) = existsb (fun x => f (g x)) (take n l).
Proof.
  revert n. induction l as [|x l IH]; intros [|n]; simpl; try done. by rewrite IH.
Qed.

Lemma info_branch_cells {A} (p : list A) (len ivec : Z)
    (is_missing is_vector_end : A -> bool) (out : A -> info_value) :
  Z.of_nat (length p) = len ->
  info_branch p len ivec is_missing is_vector_end out
  = let n := Z.to_nat (Z.min ivec len) in
    let cells := map (fun x => (is_vector_end x, is_missing x, out x)) p in
    if existsb cell_is_end (take n cells) then Ok (0, IVunset)
    else match cells !! n with
         | None => Undef "read past the end of an array"
         | Some c => if cell_is_missing c then Ok (0, IVunset) else Ok (1, cell_value c)
         end.
Proof.
  intros Hlen. unfold info_branch, for_loop. rewrite Nat2Z.id.
  rewrite vector_end_scan by (simpl; lia). simpl. rewrite drop_0.
  rewrite existsb_take_map. unfold cell_is_end. simpl.
  destruct (existsb is_vector_end (take (Z.to_nat (Z.min ivec len)) p)); [done|].
  rewrite list_lookup_fmap. unfold rd.
  destruct (p !! Z.to_nat (Z.min ivec len)); reflexivity.
Qed.

Lemma bcf_get_info_value_cells (line : bcf1_t) (info : bcf_info_t) (id ivec : Z) :
  find_info line id = Some info -> info_len info <> 1 ->
  is_vector_type (info_type info) = true ->
  Z.of_nat (length (info_cells info)) = info_len info ->
  bcf_get_info_value line id ivec
  = let n := Z.to_nat (Z.min ivec (info_len info)) in
    if existsb cell_is_end (take n (info_cells info)) then Ok (0, IVunset)
    else match info_cells info !! n with
         | None => Undef "read past the end of an array"
         | Some c => if cell_is_missing c then Ok (0, IVunset) else Ok (1, cell_value c)
         end.
Proof.
  intros Hfind Hlen Hty Hcells. unfold bcf_get_info_value. rewrite Hfind.
  destruct (Z.eqb_spec (info_len info) 1); [done|].
  unfold info_cells in *. unfold is_vector_type in Hty.
  destruct (info_type info =? BCF_BT_INT8).
  { apply info_branch_cells. by rewrite length_map in Hcells. }
  destruct (info_type info =? BCF_BT_INT16).
  { apply info_branch_cells. by rewrite length_map in Hcells. }
  destruct (info_type info =? BCF_BT_INT32).
  { apply info_branch_cells. by rewrite length_map in Hcells. }
  destruct (info_type info =? BCF_BT_FLOAT); [|done].
  apply info_branch_cells. by rewrite length_map in Hcells.
Qed.

(** X11.  A subscript inside an INFO vector: [bcf_get_info_value] returns 0
    when a cell before the position holds the vector end or the cell at
    the position is missing, and else 1 with the cell at the position.
    Only the cells before the position are tested for the vector end: a
    vector end at the position itself is handed out as a value. *)
Theorem info_subscript_in_range (line : bcf1_t) (info : bcf_info_t) (id : Z) (i : nat)
    (e m : bool) (v : info_value) :
  find_info line id = Some info -> info_len info <> 1 ->
  is_vector_type (info_type info) = true ->
  Z.of_nat (length (info_cells info)) = info_len info ->
  info_cells info !! i = Some (e, m, v) ->
  bcf_get_info_value line id (Z.of_nat i)
  = Ok (if existsb cell_is_end (take i (info_cells info)) || m
        then (0, IVunset) else (1, v)).
Proof.
  intros Hfind Hlen Hty Hcells Hcell.
  rewrite (bcf_get_info_value_cells line info id _ Hfind Hlen Hty Hcells).
  pose proof (lookup_lt_Some _ _ _ Hcell) as Hi.
  replace (Z.to_nat (Z.min (Z.of_nat i) (info_len info))) with i by lia.
  cbv zeta. rewrite Hcell. unfold cell_is_missing, cell_value. simpl.
  destruct (existsb _ _); [done|]. by destruct m.
Qed.

(** X12.  A subscript at or past the end of an INFO vector that holds no
    vector end: [bcf_get_info_value] stops its scan at the length of the
    vector and reads the cell there, one past the last cell of the
    vector. *)
Theorem info_subscript_past_the_end (line : bcf1_t) (info : bcf_info_t) (id ivec : Z) :
  find_info line id = Some info -> info_len info <> 1 ->
  is_vector_type (info_type info) = true ->
  Z.of_nat (length (info_cells info)) = info_len info ->
  existsb cell_is_end (info_cells info) = false ->
  info_len info <= ivec ->
  bcf_get_info_value line id ivec = Undef "read past the end of an array".
Proof.
  intros Hfind Hlen Hty Hcells Hends Hivec.
  rewrite (bcf_get_info_value_cells line info id _ Hfind Hlen Hty Hcells).
  replace (Z.to_nat (Z.min ivec (info_len info))) with (length (info_cells info)) by lia.
  cbv zeta. rewrite firstn_all, Hends.
  by rewrite (proj2 (lookup_ge_None _ _) (Nat.le_refl _)).
Qed.

Lemma info_subscript_in_range_witness :
  bcf_get_info_value rec_info_vec 1 (Z.of_nat 1) = Ok (1, IVint 8).
Proof.
  exact (info_subscript_in_range rec_info_vec info_vec 1 1 false false (IVint 8)
           eq_refl ltac:(done) eq_refl eq_refl eq_refl).
Defined.

Lemma info_subscript_past_the_end_witness :
  bcf_get_info_value rec_info_vec 1 3 = Undef "read past the end of an array".
Proof.
  exact (info_subscript_past_the_end rec_info_vec info_vec 1 3
           eq_refl ltac:(done) eq_refl eq_refl eq_refl ltac:(done)).
Defined.

(** ** The setter of an integer FORMAT field *)

(** X13.  [filters_set_format_int] on a record that carries the field with
    the integers [p]: it always completes (the value buffer is grown to
    hold them), turns every integer into a float cell and each of the two
    sentinels (missing, vector end) into the missing float, and counts
    [length p] values and samples; when every cell is a sentinel the field
    counts as absent (0 values).  The mask is not touched. *)
Theorem filters_set_format_int_cells (flt : filter_t) (line : bcf1_t) (tok : token_t)
    (tg : string) (p : list Z) :
  tag tok = Some tg ->
  bcf_get_format_int32 (hdr flt) line tg = (Z.of_nat (length p), p) ->
  exists tok',
    filters_set_format_int flt line tok = Ok tok'
    /\ take (length p) (values tok') = map int_cell p
    /\ nvalues tok' = (if forallb is_int_sentinel p then 0 else Z.of_nat (length p))
    /\ nsamples tok' = nvalues tok'
    /\ pass_samples tok' = pass_samples tok.
Proof.
  intros Htag Hget. unfold filters_set_format_int. rewrite Htag, Hget.
  set (n := Z.of_nat (length p)).
  set (t0 := hts_expand (nvalues (set_nvalues n tok)) (set_nvalues n tok)).
  destruct (Z.ltb_spec (nvalues (set_nvalues n tok)) 0) as [Hneg|_]; [simpl in Hneg; lia|].
  destruct (hts_expand_fields n (set_nvalues n tok))
    as (_ & _ & Hm0 & Hn0 & _ & _ & _ & Hcap & _).
  change (nvalues (set_nvalues n tok)) with n in t0. fold t0 in Hm0, Hn0, Hcap.
  destruct (for_loop_inv
    (fun k (st : token_t * Z) =>
       keeps_values t0 st.1
       /\ take k (values st.1) = map int_cell (take k p)
       /\ st.2 = (if forallb is_int_sentinel (take k p) then 1 else 0))
    (fun i '(tok, is_missing) =>
       let* x := rd p i in
       if (x =? bcf_int32_missing) || (x =? bcf_int32_vector_end) then
         let* tok := store_value i bcf_float_missing tok in Ok (tok, is_missing)
       else
         let* tok := store_value i (Fval (float_of_int x)) tok in Ok (tok, 0))
    (nvalues t0) (t0, 1)) as ([t1 miss] & Hloop & Hkeep & Hvals & Hmiss).
  - split; [apply keeps_values_refl|]. by rewrite !take_0.
  - intros k [t miss] Hk (Hkeep & Hvals & Hmiss). simpl in *.
    rewrite Hn0 in Hk. simpl in Hk. unfold n in Hk.
    destruct (rd_ok p k ltac:(lia)) as (x & Hx & ->). simpl.
    pose proof (keeps_values_fields _ _ Hkeep) as (_ & _ & _ & Hlen & _).
    assert (forall y, exists t', store_value k y t = Ok t'
              /\ keeps_values t0 t'
              /\ take (S k) (values t') = map int_cell (take k p) ++ [y]) as Hstore.
    { intros y. destruct (keeps_values_store t0 t k y Hkeep) as (t' & Ht' & Hk');
        [unfold n in Hcap; lia|].
      exists t'. split; [done|]. split; [done|].
      rewrite store_value_ok in Ht' by lia. simplify_eq. simpl.
      rewrite (take_S_r _ _ y) by (apply list_lookup_insert_eq; lia).
      rewrite take_insert_ge by lia. by rewrite Hvals. }
    rewrite (take_S_r _ _ _ Hx), List.map_app, forallb_app. simpl.
    assert (is_int_sentinel x
            = (x =? bcf_int32_missing) || (x =? bcf_int32_vector_end)) as Hs by done.
    unfold int_cell at 2. rewrite Hs.
    destruct ((x =? bcf_int32_missing) || (x =? bcf_int32_vector_end)).
    + destruct (Hstore bcf_float_missing) as (t' & -> & Hk' & Hv'). simpl.
      eexists. split; [reflexivity|]. simpl. rewrite andb_true_r. done.
    + destruct (Hstore (Fval (float_of_int x))) as (t' & -> & Hk' & Hv'). simpl.
      eexists. split; [reflexivity|]. simpl. rewrite andb_false_r. done.
  - rewrite Hloop. simpl in *.
    pose proof (keeps_values_fields _ _ Hkeep) as (_ & _ & Hm1 & _ & Hn1 & _).
    rewrite Hn0 in Hvals, Hmiss. simpl in Hvals, Hmiss. unfold n in Hvals, Hmiss.
    rewrite Nat2Z.id in Hvals, Hmiss. rewrite firstn_all in Hvals, Hmiss.
    rewrite Hmiss.
    destruct (forallb is_int_sentinel p); simpl.
    + eexists. split; [reflexivity|]. simpl. rewrite Hm1, Hm0. done.
    + eexists. split; [reflexivity|]. simpl. rewrite Hn1, Hn0, Hm1, Hm0. done.
Qed.

Lemma filters_set_format_int_cells_witness :
  exists tok',
    filters_set_format_int (compiled hdr2 "FMT/GQ>10")
      (rec_gq (fnum 30) [15; bcf_int32_missing])
      (set_tag (Some "GQ"%string) token0) = Ok tok'
    /\ take 2 (values tok') = [Fval (float_of_int 15); bcf_float_missing]
    /\ nvalues tok' = 2 /\ nsamples tok' = nvalues tok' /\ pass_samples tok' = [].
Proof.
  exact (filters_set_format_int_cells (compiled hdr2 "FMT/GQ>10")
           (rec_gq (fnum 30) [15; bcf_int32_missing])
           (set_tag (Some "GQ"%string) token0) "GQ" [15; bcf_int32_missing]
           eq_refl eq_refl).
Defined.

(** ** The functions %MAX and %MIN *)

Lemma SFltb_trans (a b c : spec_float) :
  SFltb a b = true -> SFltb b c = true -> SFltb a c = true.
Proof.
  unfold SFltb, SFcompare.
  destruct a as [sa|sa| |sa ma ea], b as [sb|sb| |sb mb eb], c as [sc|sc| |sc mc ec];
    try discriminate; try reflexivity;
    repeat match goal with s : bool |- _ => destruct s end;
    try discriminate; try reflexivity.
  all: change (PosDef.Pos.compare_cont Eq) with Pos.compare.
  all: destruct (Z.compare_spec ea eb); destruct (Z.compare_spec eb ec);
    destruct (Z.compare_spec ea ec); try discriminate; try reflexivity; try lia.
  all: destruct (Pos.compare_spec ma mb); destruct (Pos.compare_spec mb mc);
    destruct (Pos.compare_spec ma mc); simpl; try discriminate; try reflexivity; try lia.
Qed.

Lemma SFltb_irrefl (a : spec_float) : SFltb a a = false.
Proof.
  unfold SFltb, SFcompare. destruct a as [s|s| |s m e]; try destruct s; try reflexivity.
  all: change (PosDef.Pos.compare_cont Eq) with Pos.compare.
  all: by rewrite Z.compare_refl, Pos.compare_refl.
Qed.

(** The loop of [set_max] and [set_min]: the value kept is the start value
    or one of the cells seen, and no cell seen is better than it. *)
Lemma extremum_loop (R : spec_float -> spec_float -> bool) (vals : list float32)
    (init : spec_float) (n : Z) :
  (forall x, R x x = false) ->
  (forall a b c, R a b = true -> R b c = true -> R a c = true) ->
  (Z.to_nat n <= length vals)%nat ->
  exists val,
    for_loop n
      (fun i val =>
         let* x := rd vals i in
         if negb (bcf_float_is_missing x) && R val (to_sf x)
         then Ok (to_sf x) else Ok val) init = Ok val
    /\ (val = init
        \/ exists x, In x (take (Z.to_nat n) vals)
             /\ bcf_float_is_missing x = false /\ val = to_sf x)
    /\ (forall x, In x (take (Z.to_nat n) vals) -> bcf_float_is_missing x = false ->
          R val (to_sf x) = false).
Proof.
  intros Hirr Htr Hlen.
  apply (for_loop_inv
    (fun k val =>
       (val = init
        \/ exists x, In x (take k vals) /\ bcf_float_is_missing x = false /\ val = to_sf x)
       /\ (forall x, In x (take k vals) -> bcf_float_is_missing x = false ->
             R val (to_sf x) = false))).
  - split; [by left|]. rewrite take_0. intros x [].
  - intros k val Hk [Hmem Hbound].
    destruct (rd_ok vals k ltac:(lia)) as (x & Hx & ->). simpl.
    rewrite (take_S_r _ _ _ Hx).
    destruct (bcf_float_is_missing x) eqn:Hmiss; simpl.
    + exists val. split; [done|]. split.
      * destruct Hmem as [->|(y & Hy & ? & ?)]; [by left|].
        right. exists y. split; [apply in_or_app; by left|done].
      * intros y Hy Hym. apply in_app_or in Hy as [Hy|[<-|[]]]; [by apply Hbound|].
        congruence.
    + destruct (R val (to_sf x)) eqn:HR.
      * exists (to_sf x). split; [done|]. split.
        -- right. exists x. split; [apply in_or_app; right; by left|done].
        -- intros y Hy Hym. apply in_app_or in Hy as [Hy|[<-|[]]]; [|apply Hirr].
           destruct (R (to_sf x) (to_sf y)) eqn:HR'; [|done].
           rewrite <- (Hbound y Hy Hym). symmetry. by eapply Htr.
      * exists val. split; [done|]. split.
        -- destruct Hmem as [->|(y & Hy & ? & ?)]; [by left|].
           right. exists y. split; [apply in_or_app; by left|done].
        -- intros y Hy Hym. apply in_app_or in Hy as [Hy|[<-|[]]]; [by apply Hbound|done].
Qed.

(** X14.  [set_max] on an operand whose counted values fit its buffer: it
    completes and leaves a scalar (one value, no samples) that is minus
    infinity or one of the counted cells that are not missing, and none of
    these cells is greater than it.  With no such cell the result is minus
    infinity, a present value. *)
Theorem set_max_is_greatest (flt : filter_t) (line : bcf1_t) (tok : token_t) :
  (Z.to_nat (nvalues tok) <= length (values tok))%nat ->
  (1 <= length (values tok))%nat ->
  exists tok' val,
    set_max flt line tok = Ok tok'
    /\ values tok' !! 0%nat = Some (Fval val)
    /\ nvalues tok' = 1 /\ nsamples tok' = 0
    /\ (val = neg_HUGE_VAL
        \/ exists x, In x (take (Z.to_nat (nvalues tok)) (values tok))
             /\ bcf_float_is_missing x = false /\ val = to_sf x)
    /\ (forall x, In x (take (Z.to_nat (nvalues tok)) (values tok)) ->
          bcf_float_is_missing x = false -> f_lt val (to_sf x) = false).
Proof.
  intros Hlen Hone. unfold set_max.
  destruct (extremum_loop f_lt (values tok) neg_HUGE_VAL (nvalues tok)
              SFltb_irrefl SFltb_trans Hlen) as (val & -> & Hmem & Hbound).
  simpl. rewrite store_value_ok by lia. simpl.
  eexists _, val. split; [reflexivity|]. simpl.
  split; [apply list_lookup_insert_eq; lia|]. done.
Qed.

Lemma set_max_is_greatest_witness :
  exists tok' val,
    set_max (compiled hdr2 "%MAX(GQ)>10") (rec_gq (fnum 30) [15; 8])
      (vector_token [fnum 15; fnum 8] 2 2 [1; 1]) = Ok tok'
    /\ values tok' !! 0%nat = Some (Fval val)
    /\ nvalues tok' = 1 /\ nsamples tok' = 0
    /\ (val = neg_HUGE_VAL
        \/ exists x, In x [fnum 15; fnum 8]
             /\ bcf_float_is_missing x = false /\ val = to_sf x)
    /\ (forall x, In x [fnum 15; fnum 8] ->
          bcf_float_is_missing x = false -> f_lt val (to_sf x) = false).
Proof.
  apply (set_max_is_greatest (compiled hdr2 "%MAX(GQ)>10") (rec_gq (fnum 30) [15; 8])
           (vector_token [fnum 15; fnum 8] 2 2 [1; 1])); simpl; lia.
Defined.

(** X15.  [set_min] on an operand whose counted values fit its buffer: it
    completes and leaves a scalar that is plus infinity or one of the
    counted cells that are not missing, and none of these cells is less
    than it. *)
Theorem set_min_is_least (flt : filter_t) (line : bcf1_t) (tok : token_t) :
  (Z.to_nat (nvalues tok) <= length (values tok))%nat ->
  (1 <= length (values tok))%nat ->
  exists tok' val,
    set_min flt line tok = Ok tok'
    /\ values tok' !! 0%nat = Some (Fval val)
    /\ nvalues tok' = 1 /\ nsamples tok' = 0
    /\ (val = HUGE_VAL
        \/ exists x, In x (take (Z.to_nat (nvalues tok)) (values tok))
             /\ bcf_float_is_missing x = false /\ val = to_sf x)
    /\ (forall x, In x (take (Z.to_nat (nvalues tok)) (values tok)) ->
          bcf_float_is_missing x = false -> f_lt (to_sf x) val = false).
Proof.
  intros Hlen Hone. unfold set_min.
  destruct (extremum_loop f_gt (values tok) HUGE_VAL (nvalues tok)) as (val & -> & Hmem & Hbound).
  - intros x. apply SFltb_irrefl.
  - intros a b c Hab Hbc. unfold f_gt in *. by eapply SFltb_trans.
  - done.
  - simpl. rewrite store_value_ok by lia. simpl.
    eexists _, val. split; [reflexivity|]. simpl.
    split; [apply list_lookup_insert_eq; lia|]. done.
Qed.

Lemma set_min_is_least_witness :
  exists tok' val,
    set_min (compiled hdr2 "%MIN(GQ)>10") (rec_gq (fnum 30) [15; 8])
      (vector_token [fnum 15; fnum 8] 2 2 [1; 1]) = Ok tok'
    /\ values tok' !! 0%nat = Some (Fval val)
    /\ nvalues tok' = 1 /\ nsamples tok' = 0
    /\ (val = HUGE_VAL
        \/ exists x, In x [fnum 15; fnum 8]
             /\ bcf_float_is_missing x = false /\ val = to_sf x)
    /\ (forall x, In x [fnum 15; fnum 8] ->
          bcf_float_is_missing x = false -> f_lt (to_sf x) val = false).
Proof.
  apply (set_min_is_least (compiled hdr2 "%MIN(GQ)>10") (rec_gq (fnum 30) [15; 8])
           (vector_token [fnum 15; fnum 8] 2 2 [1; 1])); simpl; lia.
Defined.

(** ** Arithmetic on vectors *)

Lemma prefix_lookup {A} (f : A -> A) (l : list A) (k : nat) :
  (map f (take k l) ++ drop k l) !! k = l !! k.
Proof.
  destruct (decide (k <= length l)%nat).
  - rewrite lookup_app_r; rewrite length_map, length_take_le by lia; [|lia].
    rewrite Nat.sub_diag, lookup_drop. by rewrite Nat.add_0_r.
  - rewrite take_ge, drop_ge, app_nil_r by lia.
    rewrite !(proj2 (lookup_ge_None _ _)); [done|lia|rewrite length_map; lia].
Qed.

Lemma prefix_step {A} (f : A -> A) (l : list A) (k : nat) (x : A) :
  l !! k = Some x ->
  <[k := f x]> (map f (take k l) ++ drop k l) = map f (take (S k) l) ++ drop (S k) l.
Proof.
  intros Hx. pose proof (lookup_lt_Some _ _ _ Hx) as Hk.
  rewrite (take_S_r _ _ _ Hx), List.map_app, <- app_assoc. simpl.
  rewrite (drop_S _ _ _ Hx).
  replace k with (length (map f (take k l)) + 0)%nat at 1
    by (rewrite length_map, length_take_le; lia).
  by rewrite insert_app_r.
Qed.

Lemma prefix_length {A} (f : A -> A) (l : list A) (k : nat) :
  length (map f (take k l) ++ drop k l) = length l.
Proof.
  rewrite length_app, length_map, length_take, length_drop. lia.
Qed.

Lemma arith_cell_missing_l (AOP : spec_float -> spec_float -> spec_float) (a b : float32) :
  bcf_float_is_missing a = true -> arith_cell AOP a b = bcf_float_missing.
Proof. intros H. unfold arith_cell. by rewrite H. Qed.

Lemma arith_cell_missing_r (AOP : spec_float -> spec_float -> spec_float) (a b : float32) :
  bcf_float_is_missing b = true -> arith_cell AOP a b = bcf_float_missing.
Proof. intros H. unfold arith_cell. by rewrite H, orb_true_r. Qed.

Lemma arith_cell_present (AOP : spec_float -> spec_float -> spec_float) (a b : float32) :
  bcf_float_is_missing a = false -> bcf_float_is_missing b = false ->
  arith_cell AOP a b = Fval (AOP (to_sf a) (to_sf b)).
Proof. intros Ha Hb. unfold arith_cell. by rewrite Ha, Hb. Qed.

(** X16.  Arithmetic on a per-sample vector and a scalar: the operation is
    done cell by cell over the counted values of the vector, each with
    cell 0 of the scalar; a cell is missing when it was missing or the
    scalar is, the cells past the counted ones are left alone, and the
    result is missing as a whole when no cell holds a value. *)
Theorem arith_vector_scalar (a b : token_t) (AOP : spec_float -> spec_float -> spec_float)
    (b0 : float32) :
  nvalues a <> 0 -> nvalues b <> 0 -> nsamples a <> 0 -> nsamples b = 0 ->
  (Z.to_nat (nvalues a) <= length (values a))%nat ->
  values b !! 0%nat = Some b0 ->
  let n := Z.to_nat (nvalues a) in
  let cells := map (fun x => arith_cell AOP x b0) (take n (values a)) in
  exists a',
    VECTOR_ARITHMETICS a b AOP = Ok a'
    /\ values a' = cells ++ drop n (values a)
    /\ counts_after cells (nvalues a) (nsamples a) a'
    /\ pass_samples a' = pass_samples a.
Proof.
  intros Hna Hnb Hsa Hsb Hlen Hb0 n cells. unfold VECTOR_ARITHMETICS.
  apply Z.eqb_neq in Hna, Hnb, Hsa. rewrite Hna, Hnb, Hsa, Hsb. cbn [orb negb andb Z.eqb].
  set (f := fun x => arith_cell AOP x b0).
  match goal with |- context [for_loop ?m ?body (?t0, ?h0)] =>
    destruct (for_loop_inv
      (fun k (st : token_t * Z) =>
         keeps_values a st.1
         /\ values st.1 = map f (take k (values a)) ++ drop k (values a)
         /\ st.2 = (if forallb bcf_float_is_missing (map f (take k (values a)))
                    then 0 else 1))
      body m (t0, h0)) as ([t' hv] & Hloop & Hkeep & Hvals & Hhv) end.
  - split; [apply keeps_values_refl|]. by rewrite take_0, drop_0.
  - intros k [t hv] Hk (Hkeep & Hvals & Hhv). simpl in Hkeep, Hvals, Hhv. cbn beta iota.
    destruct (lookup_lt_is_Some_2 (values a) k ltac:(lia)) as [x Hx].
    assert (values t !! k = Some x) as Hxt by (by rewrite Hvals, prefix_lookup).
    rewrite (rd_lookup _ _ _ Hxt). cbn [bind].
    assert (forall hv', hv' = (if forallb bcf_float_is_missing
                                    (map f (take (S k) (values a))) then 0 else 1) ->
              exists s', (let* t1 := store_value k (f x) t in Ok (t1, hv')) = Ok s'
                /\ keeps_values a s'.1
                /\ values s'.1
                   = map f (take (S k) (values a)) ++ drop (S k) (values a)
                /\ s'.2 = (if forallb bcf_float_is_missing
                                (map f (take (S k) (values a))) then 0 else 1))
      as Hstore.
    { intros hv' Hhv'.
      destruct (keeps_values_store a t k (f x) Hkeep) as (t1 & Ht1 & Hk1); [lia|].
      rewrite Ht1. cbn [bind]. eexists. split; [reflexivity|]. simpl.
      split; [done|]. split; [|done].
      rewrite store_value_ok in Ht1
        by (rewrite Hvals, prefix_length; lia).
      simplify_eq. simpl. rewrite Hvals. by apply prefix_step. }
    assert (forallb bcf_float_is_missing (map f (take (S k) (values a)))
            = forallb bcf_float_is_missing (map f (take k (values a)))
              && bcf_float_is_missing (f x)) as Hall.
    { rewrite (take_S_r _ _ _ Hx), List.map_app, forallb_app. simpl.
      by rewrite andb_true_r. }
    destruct (bcf_float_is_missing x) eqn:Hmx.
    + assert (f x = bcf_float_missing) as Hfx by (by apply arith_cell_missing_l).
      rewrite <- Hfx. apply Hstore. rewrite Hall, Hfx, Hhv. simpl.
      by rewrite andb_true_r.
    + rewrite (rd_lookup _ _ _ Hb0). cbn [bind].
      destruct (bcf_float_is_missing b0) eqn:Hmb.
      * assert (f x = bcf_float_missing) as Hfx by (by apply arith_cell_missing_r).
        rewrite <- Hfx. apply Hstore. rewrite Hall, Hfx, Hhv. simpl.
        by rewrite andb_true_r.
      * assert (f x = Fval (AOP (to_sf x) (to_sf b0))) as Hfx
          by (by apply arith_cell_present).
        rewrite <- Hfx. apply Hstore. rewrite Hall, Hfx. simpl.
        by rewrite andb_false_r.
  - rewrite Hloop. cbn [bind]. simpl in Hkeep, Hvals, Hhv.
    destruct (keeps_values_fields _ _ Hkeep) as (_ & _ & Hm & _ & Hnv & Hns & _).
    unfold counts_after. fold n in Hvals, Hhv. fold cells in Hvals, Hhv. subst cells f.
    rewrite Hhv.
    destruct (forallb bcf_float_is_missing _); cbn [Z.eqb];
      eexists; (split; [reflexivity|]); simpl; done.
Qed.

Lemma cells_lookup {A} (cells l : list A) (k : nat) :
  (k <= length cells)%nat -> (take k cells ++ drop k l) !! k = l !! k.
Proof.
  intros Hk. rewrite lookup_app_r; rewrite length_take_le by lia; [|lia].
  rewrite Nat.sub_diag, lookup_drop. by rewrite Nat.add_0_r.
Qed.

Lemma cells_step {A} (cells l : list A) (k : nat) (y : A) :
  cells !! k = Some y -> (k < length l)%nat ->
  <[k := y]> (take k cells ++ drop k l) = take (S k) cells ++ drop (S k) l.
Proof.
  intros Hy Hk. pose proof (lookup_lt_Some _ _ _ Hy) as Hk'.
  destruct (lookup_lt_is_Some_2 l k Hk) as [x Hx].
  rewrite (take_S_r _ _ _ Hy), <- app_assoc. simpl.
  rewrite (drop_S _ _ _ Hx).
  replace k with (length (take k cells) + 0)%nat at 1 by (rewrite length_take_le; lia).
  by rewrite insert_app_r.
Qed.

(** A loop that writes the cells [cells] one by one into the value buffer
    of a token and raises a flag when a cell holds a value. *)
Lemma cells_loop (t0 : token_t) (cells : list float32) (n : Z)
    (body : nat -> token_t * Z -> outcome (token_t * Z)) :
  (Z.to_nat n <= length (values t0))%nat -> length cells = Z.to_nat n ->
  (forall k t hv, (k < Z.to_nat n)%nat -> keeps_values t0 t ->
     values t = take k cells ++ drop k (values t0) ->
     exists y, cells !! k = Some y
       /\ body k (t, hv)
          = (let* t1 := store_value k y t in
             Ok (t1, if bcf_float_is_missing y then hv else 1))) ->
  exists t',
    for_loop n body (t0, 0)
    = Ok (t', if forallb bcf_float_is_missing cells then 0 else 1)
    /\ keeps_values t0 t'
    /\ values t' = cells ++ drop (Z.to_nat n) (values t0).
Proof.
  intros Hlen Hcells Hbody.
  destruct (for_loop_inv
    (fun k (st : token_t * Z) =>
       keeps_values t0 st.1
       /\ values st.1 = take k cells ++ drop k (values t0)
       /\ st.2 = (if forallb bcf_float_is_missing (take k cells) then 0 else 1))
    body n (t0, 0)) as ([t' hv] & Hloop & Hkeep & Hvals & Hhv).
  - split; [apply keeps_values_refl|]. by rewrite take_0, drop_0.
  - intros k [t hv] Hk (Hkeep & Hvals & Hhv). simpl in Hkeep, Hvals, Hhv.
    destruct (Hbody k t hv Hk Hkeep Hvals) as (y & Hy & ->).
    destruct (keeps_values_store t0 t k y Hkeep) as (t1 & Ht1 & Hk1); [lia|].
    rewrite Ht1. cbn [bind]. eexists. split; [reflexivity|]. simpl.
    split; [done|]. split.
    + rewrite store_value_ok in Ht1.
      * simplify_eq. simpl. rewrite Hvals. apply cells_step; [done|lia].
      * rewrite Hvals, length_app, length_take, length_drop. lia.
    + rewrite (take_S_r _ _ _ Hy), forallb_app. simpl. rewrite andb_true_r, Hhv.
      destruct (forallb bcf_float_is_missing (take k cells));
        destruct (bcf_float_is_missing y); done.
  - simpl in Hkeep, Hvals, Hhv. rewrite take_ge in Hvals, Hhv by lia.
    exists t'. by rewrite Hloop, Hhv.
Qed.

Lemma set_values_same (t : token_t) : set_values (values t) t = t.
Proof. by destruct t. Qed.

Lemma store_missing_again (k : nat) (t : token_t) :
  values t !! k = Some bcf_float_missing ->
  store_value k bcf_float_missing t = Ok t.
Proof.
  intros H. rewrite store_value_ok by (by eapply lookup_lt_Some).
  by rewrite list_insert_id, set_values_same.
Qed.

(** X17.  Arithmetic on two operands of the same kind (two scalars, or two
    per-sample vectors): the operation is done cell by cell over the
    counted values of the first operand; a cell is missing when either
    cell was, the cells past the counted ones are left alone, the counts
    are kept, and the result is missing as a whole when no cell holds a
    value. *)
Theorem arith_same_kind (a b : token_t) (AOP : spec_float -> spec_float -> spec_float) :
  nvalues a <> 0 -> nvalues b <> 0 ->
  (nsamples a = 0 <-> nsamples b = 0) ->
  (Z.to_nat (nvalues a) <= length (values a))%nat ->
  (Z.to_nat (nvalues a) <= length (values b))%nat ->
  let n := Z.to_nat (nvalues a) in
  let cells := zip_with (arith_cell AOP) (take n (values a)) (take n (values b)) in
  exists a',
    VECTOR_ARITHMETICS a b AOP = Ok a'
    /\ values a' = cells ++ drop n (values a)
    /\ counts_after cells (nvalues a) (nsamples a) a'
    /\ pass_samples a' = pass_samples a.
Proof.
  intros Hna Hnb Hkind Hla Hlb n cells. unfold VECTOR_ARITHMETICS.
  apply Z.eqb_neq in Hna, Hnb. rewrite Hna, Hnb. cbn [orb].
  assert ((negb (nsamples a =? 0) && negb (nsamples b =? 0)
           || (nsamples a =? 0) && (nsamples b =? 0)) = true) as ->.
  { destruct (Z.eqb_spec (nsamples a) 0) as [Ha|Ha];
      destruct (Z.eqb_spec (nsamples b) 0) as [Hb|Hb]; simpl; try done;
      [by apply Hkind in Ha|by apply Hkind in Hb]. }
  assert (length cells = n) as Hcells.
  { subst cells. rewrite length_zip_with, !length_take. lia. }
  match goal with |- context [for_loop ?m ?body (?t0, ?h0)] =>
    destruct (cells_loop t0 cells m body Hla Hcells) as (t' & Hloop & Hkeep & Hvals) end.
  - intros k t hv Hk Hkeep Hvals. cbn beta iota.
    destruct (lookup_lt_is_Some_2 (values a) k ltac:(lia)) as [x Hx].
    destruct (lookup_lt_is_Some_2 (values b) k ltac:(lia)) as [y Hy].
    assert (values t !! k = Some x) as Hxt by (rewrite Hvals, cells_lookup; [done|lia]).
    exists (arith_cell AOP x y). split.
    { subst cells. rewrite lookup_zip_with.
      rewrite !lookup_take_lt by (fold n; lia). by rewrite Hx, Hy. }
    rewrite (rd_lookup _ _ _ Hxt). cbn [bind].
    destruct (bcf_float_is_missing x) eqn:Hmx.
    + rewrite arith_cell_missing_l by done.
      assert (x = bcf_float_missing) as -> by (by destruct x).
      by rewrite store_missing_again.
    + rewrite (rd_lookup _ _ _ Hy). cbn [bind].
      destruct (bcf_float_is_missing y) eqn:Hmy.
      * by rewrite arith_cell_missing_r.
      * by rewrite arith_cell_present.
  - rewrite Hloop. cbn [bind].
    destruct (keeps_values_fields _ _ Hkeep) as (_ & _ & Hm & _ & Hnv & Hns & _).
    unfold counts_after.
    destruct (forallb bcf_float_is_missing cells); cbn [Z.eqb];
      eexists; (split; [reflexivity|]); simpl; done.
Qed.

Lemma scalar_vector_cells_length (AOP : spec_float -> spec_float -> spec_float)
    (a0 : float32) (bs : list float32) :
  length (scalar_vector_cells AOP a0 bs) = length bs.
Proof. destruct bs; simpl; [done|]. by rewrite length_map. Qed.

Lemma scalar_vector_cells_lookup (AOP : spec_float -> spec_float -> spec_float)
    (a0 : float32) (bs : list float32) (k : nat) (b0 bk : float32) :
  bs !! 0%nat = Some b0 -> bs !! k = Some bk ->
  scalar_vector_cells AOP a0 bs !! k
  = Some (arith_cell AOP (if (k =? 0)%nat then a0 else arith_cell AOP a0 b0) bk).
Proof.
  destruct bs as [|b bs]; [done|]. intros H0 Hk. simpl in H0. simplify_eq.
  destruct k as [|k]; simpl in *; [by simplify_eq|].
  by rewrite list_lookup_fmap, Hk.
Qed.

(** X18.  Arithmetic on a scalar and a per-sample vector: the result is
    written into the buffer of the scalar, and cell 0 of that buffer is
    read again at every turn.  So cell 0 of the result is made of the
    scalar and cell 0 of the vector, and every later cell is made of cell
    0 of the result (not of the scalar) and the cell of the vector: for the
    scalar 1 and the vector 10, 20 the sums are 11, 31. *)
Theorem arith_scalar_vector (a b : token_t) (AOP : spec_float -> spec_float -> spec_float)
    (a0 : float32) :
  nvalues a <> 0 -> nvalues b <> 0 -> nsamples a = 0 -> nsamples b <> 0 ->
  values a !! 0%nat = Some a0 ->
  (Z.to_nat (nvalues b) <= length (values b))%nat ->
  let n := Z.to_nat (nvalues b) in
  let cells := scalar_vector_cells AOP a0 (take n (values b)) in
  exists a',
    VECTOR_ARITHMETICS a b AOP = Ok a'
    /\ take n (values a') = cells
    /\ counts_after cells (nvalues b) (nsamples b) a'
    /\ pass_samples a' = pass_samples a.
Proof.
  intros Hna Hnb Hsa Hsb Ha0 Hlb n cells. unfold VECTOR_ARITHMETICS.
  apply Z.eqb_neq in Hna, Hnb, Hsb. rewrite Hna, Hnb, Hsa, Hsb.
  cbn [orb negb andb Z.eqb]. apply Z.eqb_neq in Hnb.
  destruct (hts_expand_fields (nvalues b) a)
    as (_ & _ & Hem & _ & _ & _ & _ & Hcap & He0).
  destruct (values a) as [|v0 va] eqn:Hva; [done|]. simpl in Ha0. simplify_eq.
  assert (length cells = n) as Hcells.
  { subst cells. rewrite scalar_vector_cells_length, length_take. lia. }
  match goal with |- context [for_loop ?m ?body (?t0, ?h0)] =>
    destruct (cells_loop t0 cells m body Hcap Hcells) as (t' & Hloop & Hkeep & Hvals) end.
  - intros k t hv Hk Hkeep Hvals. cbn beta iota.
    destruct (lookup_lt_is_Some_2 (values b) 0 ltac:(lia)) as [b0 Hb0].
    destruct (lookup_lt_is_Some_2 (values b) k ltac:(lia)) as [bk Hbk].
    set (c0 := if (k =? 0)%nat then a0 else arith_cell AOP a0 b0).
    assert (cells !! k = Some (arith_cell AOP c0 bk)) as Hcell.
    { subst cells c0. apply scalar_vector_cells_lookup;
        rewrite lookup_take_lt by (fold n; lia); done. }
    assert (values t !! 0%nat = Some c0) as Hc0.
    { rewrite Hvals. subst c0. destruct k as [|k]; simpl.
      - by rewrite drop_0.
      - rewrite lookup_app_l by (rewrite length_take; lia).
        rewrite lookup_take_lt by lia. subst cells.
        rewrite (scalar_vector_cells_lookup AOP a0 _ 0 b0 b0);
          rewrite ?lookup_take_lt by (fold n; lia); done. }
    exists (arith_cell AOP c0 bk). split; [done|].
    rewrite (rd_lookup _ _ _ Hc0). cbn [bind].
    destruct (bcf_float_is_missing c0) eqn:Hmc.
    + by rewrite arith_cell_missing_l.
    + rewrite (rd_lookup _ _ _ Hbk). cbn [bind].
      destruct (bcf_float_is_missing bk) eqn:Hmb.
      * by rewrite arith_cell_missing_r.
      * by rewrite arith_cell_present.
  - rewrite Hloop. cbn [bind].
    destruct (keeps_values_fields _ _ Hkeep) as (_ & _ & Hm & _ & Hnv & Hns & _).
    unfold counts_after.
    destruct (forallb bcf_float_is_missing cells); cbn [Z.eqb];
      eexists; (split; [reflexivity|]); simpl; rewrite ?Hvals, ?Hm;
      rewrite ?take_app_length' by done; done.
Qed.

Lemma arith_vector_scalar_witness :
  exists a',
    VECTOR_ARITHMETICS (vector_token [fnum 10; bcf_float_missing] 2 2 [1; 1])
      (scalar_token 1) f_add = Ok a'
    /\ values a' = [fnum 11; bcf_float_missing]
    /\ (nvalues a' = 2 /\ nsamples a' = 2)
    /\ pass_samples a' = [1; 1].
Proof.
  apply (arith_vector_scalar (vector_token [fnum 10; bcf_float_missing] 2 2 [1; 1])
           (scalar_token 1) f_add (fnum 1)); try done; simpl; lia.
Defined.

Lemma arith_same_kind_witness :
  exists a',
    VECTOR_ARITHMETICS (vector_token [fnum 10; fnum 20] 2 2 [1; 1])
      (vector_token [fnum 1; fnum 2] 2 2 [1; 1]) f_sub = Ok a'
    /\ values a' = [fnum 9; fnum 18]
    /\ (nvalues a' = 2 /\ nsamples a' = 2)
    /\ pass_samples a' = [1; 1].
Proof.
  apply (arith_same_kind (vector_token [fnum 10; fnum 20] 2 2 [1; 1])
           (vector_token [fnum 1; fnum 2] 2 2 [1; 1]) f_sub); try done; simpl; lia.
Defined.

Lemma arith_scalar_vector_witness :
  exists a',
    VECTOR_ARITHMETICS (scalar_token 1) (vector_token [fnum 10; fnum 20] 2 2 [1; 1])
      f_add = Ok a'
    /\ take 2 (values a') = [fnum 11; fnum 31]
    /\ (nvalues a' = 2 /\ nsamples a' = 2)
    /\ pass_samples a' = [].
Proof.
  apply (arith_scalar_vector (scalar_token 1) (vector_token [fnum 10; fnum 20] 2 2 [1; 1])
           f_add (fnum 1)); try done; simpl; lia.
Defined.

(** ** AND on two per-sample operands *)

(** X19.  AND of two per-sample operands: over the samples of the first
    operand, every cell of its mask becomes the conjunction of the two
    cells, the returned site bit is 1 exactly when some cell passes, and
    the values and the counts of the operand are kept.  The number of
    samples of the second operand is not looked at. *)
Theorem and_two_vectors (a b : token_t) (n : nat) :
  nvalues a <> 0 -> nvalues b <> 0 ->
  nsamples a = Z.of_nat n -> (0 < n)%nat -> nsamples b <> 0 ->
  (n <= length (pass_samples a))%nat -> (n <= length (pass_samples b))%nat ->
  let cells := zip_with c_and (take n (pass_samples a)) (take n (pass_samples b)) in
  exists a',
    vector_logic_and a b = Ok (a', some_pass cells)
    /\ pass_samples a' = cells ++ drop n (pass_samples a)
    /\ values a' = values a /\ nvalues a' = nvalues a /\ nsamples a' = nsamples a
    /\ pass_site a' = pass_site a.
Proof.
  intros Hna Hnb Hsa Hn Hsb Hla Hlb cells. unfold vector_logic_and.
  apply Z.eqb_neq in Hna, Hnb, Hsb. rewrite Hna, Hnb, Hsb, Hsa.
  replace (Z.of_nat n =? 0) with false by (symmetry; apply Z.eqb_neq; lia).
  cbn [orb andb negb].
  set (src := zip_with c_and (pass_samples a) (pass_samples b)).
  assert (forall k, (k < n)%nat -> exists x y,
            pass_samples a !! k = Some x /\ pass_samples b !! k = Some y
            /\ src !! k = Some (c_and x y)) as Hsrc.
  { intros k Hk.
    destruct (lookup_lt_is_Some_2 (pass_samples a) k ltac:(lia)) as [x Hx].
    destruct (lookup_lt_is_Some_2 (pass_samples b) k ltac:(lia)) as [y Hy].
    exists x, y. split; [done|]. split; [done|].
    subst src. by rewrite lookup_zip_with, Hx, Hy. }
  match goal with |- context [for_loop ?m ?body (?t0, ?h0)] =>
    destruct (mask_loop t0 src (fun c => c) some_pass m body h0)
      as (t' & Hrun & Hinv) end.
  - reflexivity.
  - lia.
  - subst src. rewrite length_zip_with. lia.
  - intros k t pass c Hk Hc Hinv.
    destruct (Hsrc k ltac:(lia)) as (x & y & Hx & Hy & Hxy).
    rewrite Hc in Hxy. simplify_eq. split; [apply c_and_mod|].
    destruct (mask_written_token _ _ _ _ _ _ _ Hinv) as (_ & _ & _ & _ & _ & _ & Hhigh).
    destruct Hinv as (_ & _ & _ & _ & _ & Hacc). simpl in Hacc.
    cbn beta iota. rewrite (rd_lookup (pass_samples t) k x)
      by (rewrite Hhigh by lia; done).
    rewrite (rd_lookup _ _ _ Hy). cbn [bind].
    rewrite some_pass_snoc, <- Hacc.
    destruct (some_pass_bit (take k src)) as [Hp|Hp]; rewrite <- Hacc in Hp; rewrite Hp;
      by destruct (c_and x y =? 0).
  - rewrite Hrun. rewrite Nat2Z.id in *.
    destruct (mask_written_token _ _ _ _ _ _ _ Hinv)
      as (Hsite & Hnv & Hns & Hv & Hlen & Hlow & Hhigh).
    assert (take n src = cells) as Hcells.
    { subst src cells. by rewrite zip_with_take. }
    rewrite Hcells. eexists. split; [reflexivity|].
    split; [|by rewrite Hv, Hnv, Hns, Hsite].
    apply list_eq. intros j.
    destruct (decide (j < n)%nat) as [Hj|Hj].
    + destruct (Hsrc j Hj) as (x & y & Hx & Hy & Hxy).
      rewrite (Hlow j _ Hj Hxy).
      rewrite lookup_app_l
        by (subst cells; rewrite length_zip_with, !length_take; lia).
      rewrite <- Hcells, lookup_take_lt by done. by rewrite Hxy.
    + rewrite Hhigh by lia.
      rewrite lookup_app_r
        by (subst cells; rewrite length_zip_with, !length_take; lia).
      rewrite lookup_drop. f_equal.
      subst cells. rewrite length_zip_with, !length_take. lia.
Qed.

Lemma and_two_vectors_witness :
  exists a',
    vector_logic_and (vector_token [fnum 1; fnum 2; fnum 3] 3 3 [1; 1; 0])
      (vector_token [fnum 1; fnum 2; fnum 3] 3 3 [0; 1; 1]) = Ok (a', 1)
    /\ pass_samples a' = [0; 1; 0]
    /\ values a' = [fnum 1; fnum 2; fnum 3] /\ nvalues a' = 3 /\ nsamples a' = 3
    /\ pass_site a' = 0.
Proof.
  apply (and_two_vectors (vector_token [fnum 1; fnum 2; fnum 3] 3 3 [1; 1; 0])
           (vector_token [fnum 1; fnum 2; fnum 3] 3 3 [0; 1; 1]) 3);
    try done; simpl; lia.
Defined.

(** ** Comparison of a per-sample vector with a scalar *)

Lemma keeps_mask_values (t0 t : token_t) : keeps_mask t0 t -> values t = values t0.
Proof. intros H. by destruct (keeps_mask_fields _ _ H) as (_ & _ & ? & _). Qed.

Lemma store_pass_cells (t0 t : token_t) (cells : list Z) (k : nat) (y : Z) :
  keeps_mask t0 t ->
  pass_samples t = take k cells ++ drop k (pass_samples t0) ->
  cells !! k = Some y -> y mod 256 = y -> (k < length (pass_samples t0))%nat ->
  exists t', store_pass k y t = Ok t' /\ keeps_mask t0 t'
    /\ pass_samples t' = take (S k) cells ++ drop (S k) (pass_samples t0).
Proof.
  intros Hkeep Hmask Hy Hmod Hk.
  destruct (keeps_mask_store t0 t k y Hkeep Hk) as (t' & Ht' & Hk').
  exists t'. split; [done|]. split; [done|].
  rewrite store_pass_ok in Ht'.
  - simplify_eq. simpl. rewrite Hmod, Hmask. by apply cells_step.
  - destruct (keeps_mask_fields _ _ Hkeep) as (_ & _ & _ & -> & _). done.
Qed.

(** X20.  A comparison of a per-sample vector with a scalar.  When the
    scalar is missing the result is missing and fails.  Otherwise, over
    the samples of the vector, the cell of the mask is 1 when the value
    compares true and 0 when it does not or is missing; the returned site
    bit is 1 exactly when some cell passes; the values are kept, and the
    operand counts no value when every counted cell is missing. *)
Theorem cmp_vector_scalar (a b : token_t) (CMP : spec_float -> spec_float -> bool)
    (n : nat) (b0 : float32) :
  nvalues a <> 0 -> nvalues b <> 0 ->
  nsamples a = Z.of_nat n -> (0 < n)%nat -> nsamples b = 0 ->
  values b !! 0%nat = Some b0 ->
  (n <= length (values a))%nat -> (n <= length (pass_samples a))%nat ->
  let cells := map (cmp_cell CMP b0) (take n (values a)) in
  if bcf_float_is_missing b0
  then CMP_VECTORS a b CMP = Ok (set_nvalues 0 (set_missing a), 0)
  else exists a',
    CMP_VECTORS a b CMP = Ok (a', some_pass cells)
    /\ pass_samples a' = cells ++ drop n (pass_samples a)
    /\ values a' = values a /\ nsamples a' = nsamples a
    /\ nvalues a'
       = (if forallb bcf_float_is_missing (take n (values a)) then 0 else nvalues a).
Proof.
  intros Hna Hnb Hsa Hn Hsb Hb0 Hlv Hlm cells. unfold CMP_VECTORS.
  apply Z.eqb_neq in Hna, Hnb. rewrite Hna, Hnb, Hsa, Hsb.
  replace (Z.of_nat n =? 0) with false by (symmetry; apply Z.eqb_neq; lia).
  cbn [orb andb negb Z.eqb]. rewrite (rd_lookup _ _ _ Hb0). cbn [bind].
  destruct (bcf_float_is_missing b0) eqn:Hmb; [reflexivity|].
  assert (length cells = n) as Hcells.
  { subst cells. rewrite length_map, length_take. lia. }
  match goal with |- context [for_loop ?m ?body (?t0, ?h0, ?p0)] =>
    destruct (for_loop_inv
      (fun k (st : token_t * Z * Z) =>
         keeps_mask a st.1.1
         /\ pass_samples st.1.1 = take k cells ++ drop k (pass_samples a)
         /\ st.1.2 = (if forallb bcf_float_is_missing (take k (values a)) then 0 else 1)
         /\ st.2 = some_pass (take k cells))
      body m (t0, h0, p0)) as ([[t' hv] pass] & Hloop & Hkeep & Hmask & Hhv & Hpass) end.
  - split; [apply keeps_mask_refl|]. by rewrite !take_0, drop_0.
  - intros k [[t hv] pass] Hk (Hkeep & Hmask & Hhv & Hpass).
    simpl in Hkeep, Hmask, Hhv, Hpass. cbn beta iota.
    destruct (lookup_lt_is_Some_2 (values a) k ltac:(lia)) as [x Hx].
    rewrite (keeps_mask_values _ _ Hkeep), (rd_lookup _ _ _ Hx). cbn [bind].
    assert (cells !! k = Some (cmp_cell CMP b0 x)) as Hcell.
    { subst cells. rewrite list_lookup_fmap, lookup_take_lt by lia. by rewrite Hx. }
    assert (cmp_cell CMP b0 x mod 256 = cmp_cell CMP b0 x) as Hmod.
    { unfold cmp_cell. by repeat case_match. }
    destruct (store_pass_cells a t cells k _ Hkeep Hmask Hcell Hmod ltac:(lia))
      as (t1 & Ht1 & Hk1 & Hm1).
    rewrite (take_S_r _ _ _ Hcell) in Hm1.
    rewrite (take_S_r _ _ _ Hx), (take_S_r _ _ _ Hcell), forallb_app, some_pass_snoc.
    simpl. rewrite andb_true_r.
    unfold cmp_cell in Ht1, Hm1 |- *.
    destruct (bcf_float_is_missing x) eqn:Hmx.
    + rewrite Ht1. cbn [bind]. eexists. split; [reflexivity|]. simpl.
      rewrite andb_true_r. done.
    + cbn [bind]. unfold cmp_slot. rewrite andb_false_r.
      destruct (CMP (to_sf x) (to_sf b0)); rewrite Ht1; cbn [bind];
        eexists; (split; [reflexivity|]); simpl; done.
  - rewrite Hloop. cbn [bind]. rewrite Nat2Z.id in *.
    simpl in Hkeep, Hmask, Hhv, Hpass.
    rewrite take_ge in Hmask, Hpass by lia.
    destruct (keeps_mask_fields _ _ Hkeep) as (_ & _ & Hv & _ & Hnv & Hns & _).
    rewrite Hhv, Hpass.
    destruct (forallb bcf_float_is_missing (take n (values a))); cbn [Z.eqb];
      eexists; (split; [reflexivity|]); simpl; rewrite ?Hsa;
      repeat split; congruence.
Qed.

Lemma cmp_vector_scalar_witness :
  exists a',
    CMP_VECTORS (vector_token [fnum 15; bcf_float_missing; fnum 8] 3 3 [1; 1; 1])
      (scalar_token 10) f_gt = Ok (a', 1)
    /\ pass_samples a' = [1; 0; 0]
    /\ values a' = [fnum 15; bcf_float_missing; fnum 8] /\ nsamples a' = 3
    /\ nvalues a' = 3.
Proof.
  apply (cmp_vector_scalar (vector_token [fnum 15; bcf_float_missing; fnum 8] 3 3 [1; 1; 1])
           (scalar_token 10) f_gt 3 (fnum 10)); try done; simpl; lia.
Defined.
